(* ===== verification/_CoqProject ===== *)
-Q . S2P
Prelude.v
Messages.v
Routing.v
Executor.v
Mysql.v
MessageStore.v
Schema.v
MessageDao.v
FriendDao.v
Acceptance.v
Password.v
UserDao.v
FileDao.v
FileStore.v
ResourceSupport.v
AvatarImage.v
Resource.v
Avatar.v
Pool.v
Redis.v
Varify.v
Url.v
NewPassword.v
TokenBucket.v
Session.v
ClientModel.v
QtJson.v
ResourceHttp.v
AvatarLoader.v
FileTransfer.v
TcpMgr.v
ClientLink.v
ClientFrames.v
ClientAcks.v
Server.v
Rpc.v
Json.v
Status.v
Gate.v
Logic.v
DeliveryTick.v
EndToEnd.v
ClientTurns.v
ServerTurns.v
Handlers.v
ResourceAuth.v
Peer.v
LoginFlow.v
NginxRoute.v
Migration.v
