(* ===== verification/Prelude.v ===== *)
(** * A verification development of the distributed chat system

    ** The program

    Four C++ servers, a Node.js mail service, a desktop client, and a script
    that migrates an installation.  The gate server ([src/servers/gate])
    registers accounts and checks passwords over HTTP; it has verification
    codes mailed by the mail service ([src/VarifyServer]) and asks the status
    server ([src/servers/status]) for a chat server.  The status server picks
    the least loaded one by the heartbeats the chat servers publish in Redis
    and stores a one-time ticket there.  The client ([src/client]) opens a TLS
    connection to that chat server ([src/servers/chat]), redeems the ticket
    and exchanges framed JSON messages: profiles, friend requests, text
    messages.  Text messages are kept in an SQLite outbox until the server has
    stored them in MySQL, and sent to the recipient until acknowledged; chat
    servers notify one another of users connected elsewhere.  Attachments and
    avatars go over HTTPS to the resource server ([src/servers/resource]),
    under credentials that the chat server issues, and rest encrypted on disk.
    Shared code is in [src/common], the tables in [src/database], the
    migration in [src/deploy/production/migrate-resource.py].

    ** The files, from the bottom up

    - [Prelude]: the value of a C++ call ([outcome]), stateful calls ([prog])
      with their weakest preconditions ([wp]), machine integers, C++ strings.
    - [Messages]: [common/TextMessageService.h], [common/DeliveryWindow.h].
      [Routing]: [common/ChatServerSelector.cpp].  [Executor]:
      [common/KeyedExecutor.h], its operations and a step relation with one
      step per lock region.  [Pool]: the connection pools of MySQL and Redis.
      [TokenBucket]: [common/TokenBucket.h] in binary64.  [Password]:
      [common/PasswordHasher.cpp].  [Rpc]: [common/InternalRpcAuth.h].
    - [Mysql]: a connection as the data access objects use it: statements,
      transactions, borrowing, and a failure oracle.  [Schema]: the tables of
      [database/schema.sql].  [MessageDao], [FriendDao], [UserDao], [FileDao]:
      [chat/storage/MysqlDao.cpp]; [UserDao] also [gate/storage/MysqlDao.cpp].
      [Acceptance]: [TextMessageService] over these tables.
    - [Redis]: [chat/storage/RedisMgr.cpp] over a store with expiries, and on
      top of it [DistLock.cpp], the login tickets and the verification codes.
    - The chat server: [Session] ([chat/network/CSession.cpp]: send queue and
      reader), [Server] ([CServer.cpp], [UserMgr.cpp]), [Json] (JsonCpp),
      [Logic], [Handlers] ([chat/service/LogicSystem.cpp]: callbacks and
      dispatch), [DeliveryTick] (its periodic round), [Peer]
      ([chat/rpc/ChatServiceImp.cpp], [ChatGrpcClient.cpp]).
    - The status server: [Status]; [LoginFlow] joins its ticket with the chat
      server's login.
    - The gate and the mail service: [Gate] ([gate/service/LogicSystem.cpp],
      [HttpConnection.cpp]), [NewPassword] (the password rule), [Url] (URL
      text), [Varify] ([VarifyServer/server.js], [redis.js], [security.js]).
    - The resource server: [FileStore] ([EncryptedFileStore.cpp]),
      [ResourceSupport] ([ResourceSupport.h], [ResourceLock.h], and the rules
      by which operations keep an invariant of tables and files), [Resource]
      (transfers of [ResourceService.cpp]), [ResourceAuth] (credentials and
      rate, with the chat handlers that issue them), [AvatarImage] and
      [Avatar] ([Avatar.cpp]).
    - The client: [MessageStore], [ClientModel] ([client/model]), [QtJson]
      (Qt's JSON), [TcpMgr] ([client/network/TcpMgr.cpp]) with what it
      guarantees in [ClientLink], [ClientFrames] and [ClientAcks],
      [ResourceHttp], [FileTransfer] ([FileTransferManager.cpp]),
      [AvatarLoader].
    - Compositions: [EndToEnd] has two clients' stores, the server's
      acceptance and tables, and a network that loses, repeats and reorders;
      [ClientTurns] and [ServerTurns] show that its steps are those of
      [TcpMgr] and of the handlers.
    - [NginxRoute], [Migration]: the migration script.

    Definitions carry the names of the functions they translate.  A member
    function is a function of the object's state record; a function that talks
    to a database is a [prog] over the state of that connection.  [Defer]
    objects that read local variables are modelled with a cell for those
    variables ([Logic.with_cell]).  A callback is a constructor with what it
    captured.

    ** What is shown

    - No message is lost or invented: whatever the network and the databases
      do, a message that a client saved is in its outbox, or in the server's
      table, or with the recipient ([EndToEnd.no_message_lost]), and one that
      a client shows was sent by that account, to this user, with this text
      ([EndToEnd.message_authentic]).  The handlers of both sides refine the
      steps this is about ([client_refines], [server_refines]).  A sender
      reads success only for a committed batch, a committed message is retired
      only by its addressee, delivery is bounded, in order and repeated
      ([Logic], [MessageDao], [DeliveryTick]), and the client acknowledges
      only what it has stored ([ClientAcks]).
    - Who may do what: a frame acts only for a logged-in connection, and a
      connection gets its user only from a ticket for that user and this
      server, good once ([Handlers], [LoginFlow], [Redis.Tickets]); calls
      between servers need the token ([Peer], [Rpc]); a login needs the
      password, a registration or reset the code that was mailed, which is
      good once ([Gate], [Varify]); a resource credential is one that a chat
      server issued to that user and has not revoked ([ResourceAuth]).
    - Accounts: registration and friend acceptance are one transaction each,
      an upgraded hash accepts the same password, and the byte-wise password
      rule is the rule on Unicode characters ([UserDao], [FriendDao],
      [Password], [NewPassword]).
    - Attachments and avatars: the encrypted store refines plain contents
      ([FileStore]); a download has the bytes that were uploaded, on the
      server ([Resource]) and in the client's file ([FileTransfer]); an avatar
      served is the one shown by the profile, no change of it is lost, the
      thumbnails are exact ([Avatar], [AvatarImage]), and a label of the client
      shows only pictures of its user ([AvatarLoader]).
    - Connections: frames are received and sent in order, once, within the
      limits, on both sides ([Session], [ClientFrames]); the client sends
      nothing in plain text and resumes a lost session ([ClientLink]);
      requests are retried a bounded number of times ([ResourceHttp]).
    - Machinery: the pools' counts are exact and the health round ends, tasks
      of a key run in order, the distributed lock excludes, the rate limits
      admit exactly their budget, the chosen server is alive and least loaded.
    - The migration keeps its order and sends its SQL once over any number of
      runs, the route is added once, and the attachments pass from the chat
      server to the resource server ([Migration], [NginxRoute]).

    ** Failures, time and interleaving

    Every statement or commit sent to MySQL or SQLite consults an oracle that
    lets it succeed, fail without effect, or take effect and lose the answer;
    every Redis command likewise, with a clock reading per command; a write to
    a file completes, is refused, or breaks off.  The theorems hold for all
    oracles and clocks unless they say otherwise.  Concurrency inside the
    executor, the pools, a connection and the server's tables is a step
    relation with one step per lock region or posted handler; the client and
    the compositions are traces of events in any order.  Each data access
    operation runs as one step (the change of an avatar in two); MySQL's
    isolation of concurrent transactions is not modelled.

    ** Bounds and fuel

    [Pool.ReplenishConnections] runs with one unit of fuel per free place of
    the pool and one more, and [Pool.health_round_total] shows that it never
    runs out.  Loops over data have its size as fuel, and each turn uses up at
    least one byte: [NewPassword.valid_from], [Url.parse_query],
    [Resource.pieces], [Resource.stream], [FileStore.sha256_from],
    [Avatar.load], [AvatarImage.scan] ([png_scan] shows that it never runs
    out) and [TcpMgr.read_loop].  The rounds of [acquireLock] are an argument,
    the number its deadline leaves, and the theorems hold for each number; the
    wait for the resource server in [Migration] has the 90 attempts of the
    script.  All other definitions recurse on their data.  Integers are [Z]
    with the wrap-around of their width written out where the code can reach
    it ([u16], [u32], [u64], [is_int]).

    ** Parameters

    Code outside the repository enters as arguments, with named laws that
    state what it documents and instances that show the laws can hold:
    libsodium as [Sodium] (a hash verifies its own password) and [Aead]
    (authenticated encryption, key derivation, SHA-256); MySQL's collation as
    [Collation] (for identifiers, that it tells UUIDs apart) and its cut of a
    remark as [clip64]; JsonCpp as [Json] (and [strict_parse] in
    [ResourceAuth]), Qt's JSON as [QJson]; libpng and libjpeg-turbo as
    [Codec]; the iteration order of [std::unordered_map].  Without laws: the
    listing [PendingResources], the answers of peers and of the resource
    server's metadata call, [supportsSsl], the URL, UUID, digest, MIME and
    number conversions of Qt and the client's disk ([io]), pixmaps
    ([Pixmaps]), the random numbers and SMTP outcomes of [Varify], Python's
    Unicode classes beyond ASCII, and in [Migration] the answers of Docker,
    MySQL, Nginx, the file system and [urlsplit].

    ** Not modelled

    The client's widgets and dialogs (presentation over Qt; the gate repeats
    the checks of the dialogs) with its HTTP helper and proxy settings; the
    text of mails and SMTP ([email.js]); [LogicWorker], [FileWorker] and
    [FileSystem] of the chat server (no worker is ever created, so no frame
    reaches them: [Session.no_file_workers]); the creation of tables, which
    repeats the schema; the status server's copy of the account operations,
    which is not called, and the copies of [RedisMgr] beyond the operations
    the gate and the status server use; the constructor and [Shutdown] of
    [LogicSystem]; of the resource server [ready], [ListPending],
    [GetMetadata] (they only read), the choice of the storage root and the
    sockets of its HTTP connection; sockets and deadlines of the gate's HTTP
    connection; option parsing of the migration; thread pools, logging,
    configuration files, TLS and process start-up, which make no decision of
    their own; benchmarks. *)
From Stdlib Require Export ZArith Lia Ascii String.
From Stdlib Require DecimalString DecimalZ.
From stdpp Require Export base option list gmap strings sorting.

Declare Scope chat_scope.
Delimit Scope chat_scope with chat.
Open Scope Z_scope.
Open Scope chat_scope.

(** ** C++ control flow *)

(** The value of a C++ call: it returns or it leaves by an exception.  The
    sources catch exceptions only with [catch (...)] or a base class, so the
    exception object itself is not kept. *)
Inductive outcome (A : Type) : Type :=
| Returns (a : A)
| Throws.
Arguments Returns {A} a.
Arguments Throws {A}.

#[export] Instance outcome_eq_dec {A} `{EqDecision A} : EqDecision (outcome A).
Proof. solve_decision. Defined.

(** A stateful call over a state [S]; the state survives an exception. *)
Definition prog (S A : Type) : Type := S -> outcome A * S.

Section Prog.
Context {S : Type}.

#[global] Instance prog_ret : MRet (prog S) := fun A a s => (Returns a, s).

#[global] Instance prog_bind : MBind (prog S) := fun A B k m s =>
  match m s with
  | (Returns a, s') => k a s'
  | (Throws, s') => (Throws, s')
  end.

Definition throw {A} : prog S A := fun s => (Throws, s).

(** [try { m } catch (...) { h }] *)
Definition try_catch {A} (m h : prog S A) : prog S A := fun s =>
  match m s with
  | (Returns a, s') => (Returns a, s')
  | (Throws, s') => h s'
  end.

(** A destructor or [Defer] object: [fin] runs on both exits of [m]. *)
Definition finally {A} (m : prog S A) (fin : S -> S) : prog S A := fun s =>
  let '(r, s') := m s in (r, fin s').

Definition gets {A} (f : S -> A) : prog S A := fun s => (Returns (f s), s).
Definition modify (f : S -> S) : prog S unit := fun s => (Returns tt, f s).

End Prog.
Arguments prog_ret {S} A a s /.

(** ** Weakest preconditions of stateful calls *)

Section Wp.
Context {S : Type}.

(** [Q] holds of how [m] ends from [s], by return or by exception. *)
Definition wp {A} (m : prog S A) (Q : outcome A -> S -> Prop) (s : S) : Prop :=
  Q (m s).1 (m s).2.

Lemma wp_intro {A} (m : prog S A) Q s r s' : wp m Q s -> m s = (r, s') -> Q r s'.
Proof. unfold wp. intros H E. by rewrite E in H. Qed.

Lemma wp_let {A} (m : prog S A) (Q : outcome A -> S -> Prop) s :
  wp m Q s -> let '(r, s') := m s in Q r s'.
Proof. unfold wp. by destruct (m s). Qed.

Lemma wp_ret {A} (a : A) Q (s : S) : Q (Returns a) s -> wp (mret a) Q s.
Proof. done. Qed.

Lemma wp_throw {A} (Q : outcome A -> S -> Prop) s : Q Throws s -> wp throw Q s.
Proof. done. Qed.

Lemma wp_gets {A} (f : S -> A) Q s : Q (Returns (f s)) s -> wp (gets f) Q s.
Proof. done. Qed.

Lemma wp_modify (f : S -> S) Q s : Q (Returns tt) (f s) -> wp (modify f) Q s.
Proof. done. Qed.

Lemma wp_bind {A B} (m : prog S A) (k : A -> prog S B) Q s :
  wp m (fun r s' => match r with Returns a => wp (k a) Q s' | Throws => Q Throws s' end) s ->
  wp (m ≫= k) Q s.
Proof. unfold wp, mbind, prog_bind. by destruct (m s) as [[a|] s']. Qed.

Lemma wp_try {A} (m h : prog S A) Q s :
  wp m (fun r s' => match r with Returns a => Q (Returns a) s' | Throws => wp h Q s' end) s ->
  wp (try_catch m h) Q s.
Proof. unfold wp, try_catch. by destruct (m s) as [[a|] s']. Qed.

Lemma wp_finally {A} (m : prog S A) fin Q s :
  wp m (fun r s' => Q r (fin s')) s -> wp (finally m fin) Q s.
Proof. unfold wp, finally. by destruct (m s) as [r s']. Qed.

Lemma wp_mono {A} (m : prog S A) (Q Q' : outcome A -> S -> Prop) s :
  wp m Q s -> (forall r s', Q r s' -> Q' r s') -> wp m Q' s.
Proof. unfold wp. auto. Qed.

End Wp.

(** A call over a part of the state. *)
Definition zoom {S T A} (part : S -> T) (put : T -> S -> S) (m : prog T A) : prog S A := fun s =>
  let '(r, t) := m (part s) in (r, put t s).

Lemma wp_zoom {S T A} (part : S -> T) (put : T -> S -> S) (m : prog T A) Q (s : S) :
  wp m (fun r t => Q r (put t s)) (part s) -> wp (zoom part put m) Q s.
Proof. unfold wp, zoom. by destruct (m (part s)). Qed.

(** A call that never throws. *)
Definition total {S A} (f : S -> A * S) : prog S A := fun s => let '(a, s) := f s in (Returns a, s).

Lemma wp_total {S A} (f : S -> A * S) Q (s : S) : Q (Returns (f s).1) (f s).2 -> wp (total f) Q s.
Proof. unfold wp, total. by destruct (f s). Qed.

(** One rule of the calculus, by the head of the call. *)
Ltac wp_rule :=
  lazymatch goal with
  | |- wp (mbind _ _) _ _ => apply wp_bind
  | |- wp (try_catch _ _) _ _ => apply wp_try
  | |- wp (finally _ _) _ _ => apply wp_finally
  | |- wp (mret _) _ _ => apply wp_ret
  | |- wp throw _ _ => apply wp_throw
  | |- wp (gets _) _ _ => apply wp_gets
  | |- wp (modify _) _ _ => apply wp_modify
  | |- wp (zoom _ _ _) _ _ => apply wp_zoom
  end.

(** ** Machine integers *)

(** [static_cast<std::uint16_t>], [std::uint32_t], [std::uint64_t]. *)
Definition u16 (z : Z) : Z := z mod 2 ^ 16.
Definition u32 (z : Z) : Z := z mod 2 ^ 32.
Definition u64 (z : Z) : Z := z mod 2 ^ 64.
(** The value range of [int]. *)
Definition is_int (z : Z) : bool := (- 2 ^ 31 <=? z) && (z <? 2 ^ 31).

(** [std::string] is a byte string: [size] counts bytes. *)
Definition ssize (s : string) : Z := Z.of_nat (String.length s).
Definition sempty (s : string) : bool :=
  match s with EmptyString => true | _ => false end.

(** [std::to_string] of an integer. *)
Definition to_string (z : Z) : string := DecimalString.NilZero.string_of_int (Z.to_int z).

(** A whole string read as a decimal number, an optional minus sign first. *)
Definition decimal (s : string) : option Z :=
  Z.of_int <$> DecimalString.NilZero.int_of_string s.

(** [std::from_chars] into an [int], when it consumes the whole string. *)
Definition from_chars (s : string) : option Z :=
  z ← decimal s; if is_int z then Some z else None.

(** [std::string::c_str] as a C function sees it: up to the first NUL. *)
Fixpoint c_str (s : string) : string :=
  match s with
  | EmptyString => EmptyString
  | String c rest => if Ascii.eqb c (ascii_of_N 0) then EmptyString else String c (c_str rest)
  end.

(** ** Automation *)

Create HintDb chat.

(** Case analysis on every boolean or option test that blocks a goal or a
    hypothesis. *)
Ltac case_code :=
  match goal with
  | H : context [ match ?x with _ => _ end ] |- _ =>
      lazymatch x with context [ match _ with _ => _ end ] => fail | _ => destruct x eqn:? end
  | |- context [ match ?x with _ => _ end ] =>
      lazymatch x with context [ match _ with _ => _ end ] => fail | _ => destruct x eqn:? end
  end.

(** Turn boolean comparisons among the hypotheses into propositions. *)
Ltac bool_hyps :=
  repeat match goal with
  | H : (_ && _)%bool = true |- _ => apply andb_true_iff in H as [? ?]
  | H : (_ || _)%bool = false |- _ => apply orb_false_iff in H as [? ?]
  | H : (_ && _)%bool = false |- _ => apply andb_false_iff in H
  | H : (_ || _)%bool = true |- _ => apply orb_true_iff in H
  | H : negb _ = true |- _ => apply negb_true_iff in H
  | H : negb _ = false |- _ => apply negb_false_iff in H
  | H : (_ <? _) = true |- _ => apply Z.ltb_lt in H
  | H : (_ <? _) = false |- _ => apply Z.ltb_ge in H
  | H : (_ <=? _) = true |- _ => apply Z.leb_le in H
  | H : (_ <=? _) = false |- _ => apply Z.leb_gt in H
  | H : (_ =? _) = true |- _ => apply Z.eqb_eq in H
  | H : (_ =? _) = false |- _ => apply Z.eqb_neq in H
  | H : bool_decide _ = true |- _ => apply bool_decide_eq_true_1 in H
  | H : bool_decide _ = false |- _ => apply bool_decide_eq_false_1 in H
  end.

Ltac bool_goal :=
  repeat match goal with
  | |- (_ && _)%bool = true => apply andb_true_iff; split
  | |- (_ || _)%bool = false => apply orb_false_iff; split
  | |- negb _ = true => apply negb_true_iff
  | |- negb _ = false => apply negb_false_iff
  | |- (_ <? _) = true => apply Z.ltb_lt
  | |- (_ <? _) = false => apply Z.ltb_ge
  | |- (_ <=? _) = true => apply Z.leb_le
  | |- (_ <=? _) = false => apply Z.leb_gt
  | |- (_ =? _) = true => apply Z.eqb_eq
  | |- (_ =? _) = false => apply Z.eqb_neq
  end.

(** ** Lists and strings shared by the components *)

Lemma ssize_nonneg s : 0 <= ssize s.
Proof. unfold ssize. lia. Qed.

Lemma sempty_ssize s : sempty s = (ssize s =? 0).
Proof. by destruct s. Qed.

#[export] Hint Resolve ssize_nonneg : chat.

Lemma string_app_cons c s t : String.append (String c s) t = String c (String.append s t).
Proof. reflexivity. Qed.

#[export] Instance string_app_assoc : Assoc (=) String.append.
Proof.
  intros s1 s2 s3. induction s1 as [|c s1 IH]; [done|]. rewrite !string_app_cons. by f_equal.
Qed.
#[export] Instance string_app_nil_r : RightId (=) EmptyString String.append.
Proof. intros s. induction s as [|c s IH]; [done|]. rewrite string_app_cons. by f_equal. Qed.

Lemma ssize_app s1 s2 : ssize (String.append s1 s2) = ssize s1 + ssize s2.
Proof.
  unfold ssize. induction s1 as [|c s1 IH]; [done|]. rewrite string_app_cons. cbn [String.length]. lia.
Qed.

Lemma ssize_cons c s : ssize (String c s) = 1 + ssize s.
Proof. unfold ssize. cbn [String.length]. lia. Qed.

(** The first [n] bytes, and the rest. *)
Fixpoint stake (n : nat) (s : string) : string :=
  match n, s with S n, String c s => String c (stake n s) | _, _ => EmptyString end.
Fixpoint sdrop (n : nat) (s : string) : string :=
  match n, s with S n, String _ s => sdrop n s | O, s => s | _, EmptyString => EmptyString end.

Lemma stake_sdrop n s : String.append (stake n s) (sdrop n s) = s.
Proof.
  revert s. induction n as [|n IH]; intros [|c s]; try done. simpl. rewrite string_app_cons. by f_equal.
Qed.

Lemma ssize_stake n s : ssize (stake n s) = Z.min (Z.of_nat n) (ssize s).
Proof.
  revert s. induction n as [|n IH]; intros s.
  - pose proof (ssize_nonneg s). by rewrite Z.min_l by lia.
  - destruct s as [|c s]; cbn [stake]; [done|]. rewrite !ssize_cons, IH. lia.
Qed.

Lemma stake_app s t : stake (String.length s) (s ++ t) = s.
Proof. induction s as [|c s IH]; [by destruct t|]. rewrite string_app_cons. cbn. by rewrite IH. Qed.

Lemma sdrop_app s t : sdrop (String.length s) (s ++ t) = t.
Proof. induction s as [|c s IH]; [by destruct t|]. rewrite string_app_cons. cbn. exact IH. Qed.

Lemma stake_app_le n s t : (n <= String.length s)%nat -> stake n (s ++ t) = stake n s.
Proof.
  revert s. induction n as [|n IH]; intros [|c s] Hn; cbn in Hn; try lia; [by destruct t|done|].
  rewrite string_app_cons. cbn. rewrite IH by lia. done.
Qed.

Lemma stake_app_ge n s t : (String.length s <= n)%nat ->
  stake n (s ++ t) = (s ++ stake (n - String.length s) t)%string.
Proof.
  revert s. induction n as [|n IH]; intros [|c s] Hn; cbn in Hn; try lia; try done.
  rewrite !string_app_cons. cbn. rewrite IH by lia. done.
Qed.

Lemma stake_all n s : (String.length s <= n)%nat -> stake n s = s.
Proof. revert s. induction n as [|n IH]; intros [|c s] Hn; cbn in *; try lia; try done. by rewrite IH by lia. Qed.

Lemma ssize_length s n : ssize s = Z.of_nat n -> String.length s = n.
Proof. unfold ssize. lia. Qed.

Lemma stake_size n s t : ssize s = Z.of_nat n -> stake n (s ++ t) = s.
Proof. intros <-%ssize_length. apply stake_app. Qed.

Lemma sdrop_size n s t : ssize s = Z.of_nat n -> sdrop n (s ++ t) = t.
Proof. intros <-%ssize_length. apply sdrop_app. Qed.

Lemma ssize_sdrop n s : ssize (sdrop n s) = Z.max 0 (ssize s - Z.of_nat n).
Proof.
  pose proof (stake_sdrop n s) as E. apply (f_equal ssize) in E. rewrite ssize_app, ssize_stake in E.
  pose proof (ssize_nonneg s). lia.
Qed.

Lemma sdrop_app_le n p t : (n <= String.length p)%nat -> sdrop n (p ++ t) = (sdrop n p ++ t)%string.
Proof.
  revert p. induction n as [|n IH]; intros p Hn; [done|]. destruct p as [|c p]; [simpl in Hn; lia|].
  rewrite string_app_cons. apply IH. simpl in Hn. lia.
Qed.

Lemma sdrop_add n m s : sdrop n (sdrop m s) = sdrop (m + n) s.
Proof. revert s. induction m as [|m IH]; intros [|c s]; try done; [by destruct n|apply IH]. Qed.

Lemma stake_add n m s : (stake n s ++ stake m (sdrop n s))%string = stake (n + m) s.
Proof.
  revert s. induction n as [|n IH]; intros [|c s]; try done; [by destruct m|].
  cbn [stake sdrop Nat.add]. rewrite string_app_cons. by f_equal.
Qed.

Lemma app_split (s t u v : string) : (s ++ t = u ++ v)%string -> (String.length u <= String.length s)%nat ->
  exists w, s = (u ++ w)%string /\ (w ++ t = v)%string.
Proof.
  revert s. induction u as [|c u IH]; intros s E Hl; [by exists s|]. destruct s as [|d s]; [simpl in Hl; lia|].
  rewrite !string_app_cons in E. injection E as -> E. destruct (IH s E) as (w & -> & E'); [simpl in Hl; lia|].
  exists w. by rewrite string_app_cons.
Qed.

(** Two splits of one string at the same place. *)
Lemma string_app_split s1 s2 t1 t2 : ssize s1 = ssize t1 ->
  String.append s1 s2 = String.append t1 t2 -> s1 = t1 /\ s2 = t2.
Proof.
  revert t1. induction s1 as [|c s1 IH]; intros [|d t1] Hl E; rewrite ?ssize_cons in Hl.
  - done.
  - pose proof (ssize_nonneg t1). change (ssize EmptyString) with 0 in Hl. lia.
  - pose proof (ssize_nonneg s1). change (ssize EmptyString) with 0 in Hl. lia.
  - rewrite !string_app_cons in E. injection E as -> E. by destruct (IH t1 ltac:(lia) E) as [-> ->].
Qed.

(** ** Bytes *)

(** The byte of a number ([static_cast<unsigned char>]), and the number of a
    byte. *)
Definition byte_of (z : Z) : ascii := ascii_of_N (Z.to_N (z mod 256)).
Definition of_byte (c : ascii) : Z := Z.of_N (N_of_ascii c).

Lemma of_byte_bound c : 0 <= of_byte c < 256.
Proof. unfold of_byte. pose proof (N_ascii_bounded c). lia. Qed.

Lemma byte_of_of_byte c : byte_of (of_byte c) = c.
Proof.
  unfold byte_of. rewrite Z.mod_small by apply of_byte_bound. unfold of_byte.
  rewrite N2Z.id. apply ascii_N_embedding.
Qed.

Lemma of_byte_byte_of z : of_byte (byte_of z) = z mod 256.
Proof.
  unfold of_byte, byte_of. pose proof (Z.mod_pos_bound z 256 ltac:(lia)).
  rewrite N_ascii_embedding by lia. lia.
Qed.

Lemma of_byte_inj a b : of_byte a = of_byte b -> a = b.
Proof. intros E. by rewrite <- (byte_of_of_byte a), <- (byte_of_of_byte b), E. Qed.

(** A property of every byte, by evaluation. *)
Lemma all_bytes (p : Z -> bool) : forallb p (seqZ 0 256) = true -> forall c, p (of_byte c) = true.
Proof.
  intros H c. rewrite forallb_forall in H. apply H, list_elem_of_In, elem_of_seqZ.
  pose proof (of_byte_bound c). lia.
Qed.

Lemma all_ascii (p : ascii -> bool) :
  forallb (fun x => p (byte_of x)) (seqZ 0 256) = true -> forall c, p c = true.
Proof.
  intros H c. rewrite <- (byte_of_of_byte c). by apply (all_bytes (fun x => p (byte_of x))).
Qed.

(** Every byte of a string satisfies a test. *)
Fixpoint sall (p : ascii -> bool) (s : string) : bool :=
  match s with EmptyString => true | String c s => p c && sall p s end.

Lemma sall_app p s t : sall p (String.append s t) = sall p s && sall p t.
Proof. induction s as [|c s IH]; [done|]. rewrite string_app_cons. cbn. by rewrite IH, andb_assoc. Qed.

Lemma sall_mono (p q : ascii -> bool) s : (forall c, p c = true -> q c = true) ->
  sall p s = true -> sall q s = true.
Proof. intros H. induction s as [|c s IH]; cbn; [done|]. rewrite !andb_true_iff. naive_solver. Qed.

(** Shifting in low bits is adding them. *)
Lemma lor_shiftl_add a b k : 0 <= k -> 0 <= b < 2 ^ k -> Z.lor (Z.shiftl a k) b = a * 2 ^ k + b.
Proof.
  intros Hk Hb. rewrite Z.shiftl_mul_pow2 by done. symmetry.
  rewrite <- Z.lxor_lor, Z.add_nocarry_lxor; try done.
  all: apply Z.bits_inj'; intros n Hn; rewrite Z.land_spec, Z.bits_0;
    destruct (Z.lt_ge_cases n k); [rewrite Z.mul_pow2_bits_low by lia; done|].
  all: rewrite <- (Z.mod_small b (2 ^ k)), <- Z.land_ones, Z.land_spec, Z.ones_spec_high by lia;
    by rewrite !andb_false_r.
Qed.

Lemma land_low k x : 0 <= k -> Z.land x (2 ^ k - 1) = x mod 2 ^ k.
Proof. intros Hk. rewrite <- Z.land_ones by done. f_equal. rewrite Z.ones_equiv. lia. Qed.

Lemma of_byte_small z : 0 <= z < 256 -> of_byte (byte_of z) = z.
Proof. intros Hz. rewrite of_byte_byte_of. by apply Z.mod_small. Qed.

(** ** Text *)

(** [std::isspace] and [std::tolower] of the C locale. *)
Definition is_space (c : ascii) : bool :=
  let n := N_of_ascii c in ((9 <=? n)%N && (n <=? 13)%N) || (n =? 32)%N.
Definition to_lower (c : ascii) : ascii :=
  let n := N_of_ascii c in if (65 <=? n)%N && (n <=? 90)%N then ascii_of_N (n + 32) else c.
Fixpoint lower (s : string) : string :=
  match s with EmptyString => EmptyString | String c s => String (to_lower c) (lower s) end.

Fixpoint trim_left (s : string) : string :=
  match s with
  | EmptyString => EmptyString
  | String c rest => if is_space c then trim_left rest else s
  end.
Fixpoint trim_right (s : string) : string :=
  match s with
  | EmptyString => EmptyString
  | String c rest =>
      match trim_right rest with
      | EmptyString => if is_space c then EmptyString else String c ""
      | rest => String c rest
      end
  end.
Definition trim (s : string) : string := trim_right (trim_left s).

Lemma lower_space c : is_space (to_lower c) = is_space c.
Proof.
  apply Bool.eqb_prop, (all_ascii (fun c => Bool.eqb (is_space (to_lower c)) (is_space c))).
  vm_compute. reflexivity.
Qed.

Lemma to_lower_idemp c : to_lower (to_lower c) = to_lower c.
Proof.
  apply Ascii.eqb_eq, (all_ascii (fun c => Ascii.eqb (to_lower (to_lower c)) (to_lower c))).
  vm_compute. reflexivity.
Qed.

Lemma lower_idemp s : lower (lower s) = lower s.
Proof. induction s as [|c s IH]; [done|]. cbn [lower]. by rewrite to_lower_idemp, IH. Qed.

Lemma trim_left_lower s : trim_left (lower s) = lower (trim_left s).
Proof.
  induction s as [|c s IH]; [done|]. cbn [lower trim_left]. rewrite lower_space.
  by destruct (is_space c).
Qed.

Lemma trim_right_lower s : trim_right (lower s) = lower (trim_right s).
Proof.
  induction s as [|c s IH]; [done|]. cbn [lower trim_right]. rewrite IH, lower_space.
  destruct (trim_right s); cbn [lower]; [by destruct (is_space c)|done].
Qed.

Lemma trim_left_idemp s : trim_left (trim_left s) = trim_left s.
Proof. induction s as [|c s IH]; [done|]. cbn. destruct (is_space c) eqn:E; [done|]. cbn. by rewrite E. Qed.

Lemma trim_right_idemp s : trim_right (trim_right s) = trim_right s.
Proof.
  induction s as [|c s IH]; [done|]. cbn [trim_right]. destruct (trim_right s) as [|d r] eqn:E.
  - destruct (is_space c) eqn:Ec; [done|]. cbn. by rewrite Ec.
  - cbn [trim_right] in *. by rewrite IH.
Qed.

(** Cutting the end leaves a first byte that is no white space. *)
Lemma trim_left_right s : trim_left s = s -> trim_left (trim_right s) = trim_right s.
Proof.
  destruct s as [|c s]; [done|]. cbn [trim_left]. destruct (is_space c) eqn:E.
  - intros H. exfalso. apply (f_equal ssize) in H. rewrite ssize_cons in H.
    assert (forall t, ssize (trim_left t) <= ssize t) as Hle.
    { clear. induction t as [|c t IH]; [done|]. cbn. rewrite ssize_cons. destruct (is_space c); [lia|].
      by rewrite ssize_cons. }
    specialize (Hle s). lia.
  - intros _. cbn [trim_right]. destruct (trim_right s); [rewrite E|]; cbn; by rewrite E.
Qed.

Lemma trim_idemp s : trim (trim s) = trim s.
Proof.
  unfold trim. by rewrite (trim_left_right _ (trim_left_idemp s)), trim_right_idemp.
Qed.

Lemma trim_lower s : trim (lower s) = lower (trim s).
Proof. unfold trim. by rewrite trim_left_lower, trim_right_lower. Qed.

(** [find(c)], with the text before and after the character. *)
Fixpoint sfind (c : ascii) (s : string) : option (string * string) :=
  match s with
  | EmptyString => None
  | String d s =>
      if Ascii.eqb d c then Some (EmptyString, s)
      else '(before, after) ← sfind c s; Some (String d before, after)
  end.

Lemma sfind_skip c s t : sall (fun d => negb (Ascii.eqb d c)) s = true ->
  sfind c (s ++ String c t) = Some (s, t).
Proof.
  induction s as [|d s IH]; cbn [sall]; intros H.
  - change ("" ++ String c t)%string with (String c t). cbn [sfind]. by rewrite Ascii.eqb_refl.
  - rewrite string_app_cons. bool_hyps. cbn [sfind]. by rewrite H, IH.
Qed.

Lemma sfind_none c s : sall (fun d => negb (Ascii.eqb d c)) s = true -> sfind c s = None.
Proof. induction s as [|d s IH]; cbn [sall sfind]; [done|]. intros. bool_hyps. by rewrite H, IH. Qed.

Lemma decimal_to_string z : decimal (to_string z) = Some z.
Proof.
  unfold decimal, to_string. rewrite DecimalString.NilZero.isi.
  - simpl. f_equal. apply DecimalZ.of_to.
  - intros E. pose proof (DecimalZ.of_to z) as Hz. rewrite E in Hz. by subst z.
  - intros E. pose proof (DecimalZ.of_to z) as Hz. rewrite E in Hz. by subst z.
Qed.

Lemma from_chars_to_string z : is_int z = true -> from_chars (to_string z) = Some z.
Proof. intros Hz. unfold from_chars. rewrite decimal_to_string. simpl. by rewrite Hz. Qed.

Lemma size_list_to_set_le `{Countable A} (l : list A) :
  (size (list_to_set l : gset A) <= length l)%nat.
Proof.
  induction l as [|x l IH]; [apply Nat.eq_le_incl, size_empty|].
  change (list_to_set (x :: l)) with ({[x]} ∪ list_to_set l : gset A).
  rewrite size_union_alt, size_singleton. simpl.
  pose proof (subseteq_size (list_to_set l ∖ {[x]} : gset A) (list_to_set l) ltac:(set_solver)).
  lia.
Qed.

Lemma eq_Permutation {A} (l k : list A) : l = k -> l ≡ₚ k.
Proof. by intros ->. Qed.

(** The sum of an integer measure over a list. *)
Definition zsum {A} (f : A -> Z) (l : list A) : Z := foldr Z.add 0 (f <$> l).

Lemma zsum_app {A} (f : A -> Z) l k : zsum f (l ++ k) = zsum f l + zsum f k.
Proof. unfold zsum. induction l as [|x l IH]; csimpl; [done|lia]. Qed.

Lemma zsum_insert {A} (f : A -> Z) l i x y :
  l !! i = Some x -> zsum f (<[i:=y]> l) = zsum f l - f x + f y.
Proof.
  unfold zsum. revert i. induction l as [|z l IH]; intros [|i] H; simplify_eq/=; [lia|].
  rewrite (IH i H). lia.
Qed.

Lemma zsum_le_const {A} (f : A -> Z) c l :
  Forall (fun x => f x <= c) l -> zsum f l <= c * Z.of_nat (length l).
Proof. unfold zsum. induction 1; csimpl; lia. Qed.

Lemma Forall_insert_lookup {A} (P : A -> Prop) l i y :
  Forall P l -> P y -> Forall P (<[i:=y]> l).
Proof. intros. by apply Forall_insert. Qed.

#[export] Hint Resolve Forall_insert_lookup : chat.

(** Elements of a list are told apart by a key without duplicates. *)
Lemma NoDup_fmap_eq {A B} (f : A -> B) l x y :
  NoDup (f <$> l) -> x ∈ l -> y ∈ l -> f x = f y -> x = y.
Proof.
  induction l as [|z l IH]; intros Hn Hx Hy E; [set_solver|].
  apply NoDup_cons in Hn as [Hz Hn].
  apply elem_of_cons in Hx as [->|Hx]; apply elem_of_cons in Hy as [->|Hy]; try done.
  - destruct Hz. rewrite E. by apply list_elem_of_fmap_2.
  - destruct Hz. rewrite <- E. by apply list_elem_of_fmap_2.
  - auto.
Qed.

Lemma zsum_fmap {A B} (f : B -> Z) (g : A -> B) l : zsum f (g <$> l) = zsum (fun x => f (g x)) l.
Proof. unfold zsum. by rewrite <- list_fmap_compose. Qed.

Lemma zsum_ext {A} (f g : A -> Z) l : (forall x, x ∈ l -> f x = g x) -> zsum f l = zsum g l.
Proof.
  intros H. unfold zsum. induction l as [|x l IH]; csimpl; [done|].
  rewrite (H x) by set_solver. f_equal. apply IH. set_solver.
Qed.

Lemma filter_iff_in {A} (P Q : A -> Prop) `{!forall x, Decision (P x), !forall x, Decision (Q x)} (l : list A) :
  (forall x, x ∈ l -> P x <-> Q x) -> filter P l = filter Q l.
Proof.
  induction l as [|x l IH]; intros Hpq; [done|]. rewrite !filter_cons, IH by set_solver.
  assert (P x <-> Q x) by (apply Hpq; set_solver). by repeat case_decide; try tauto.
Qed.

(** Counting two different keys in a list without duplicates. *)
Lemma count_two_keys {A} `{EqDecision A} (k1 k2 : A) l :
  k1 <> k2 -> NoDup l ->
  zsum (fun k => if bool_decide (k = k1 \/ k = k2) then 1 else 0) l =
  (if decide (k1 ∈ l) then 1 else 0) + (if decide (k2 ∈ l) then 1 else 0).
Proof.
  intros Hne. induction l as [|k l IH]; [done|]. intros [Hk Hd]%NoDup_cons.
  unfold zsum in *. csimpl. rewrite IH by done.
  repeat case_bool_decide; repeat case_decide; set_unfold; naive_solver lia.
Qed.

Lemma omap_cons_app {A B} (f : A -> option B) x l : omap f (x :: l) = omap f [x] ++ omap f l.
Proof. csimpl. by destruct (f x). Qed.

(** ** Runs that spend what was handed in *)

(** A sequence of operations over a state.  When every operation takes out no
    more than it puts in or finds in the state, counted with repetition, the
    same holds of the whole run. *)
Section Budget.
Context {Op R S A : Type} (step : Op -> S -> R * S).
Context (taken : Op * R -> list A) (given : Op -> list A) (stored : S -> list A).

Fixpoint run_ops (ops : list Op) (s : S) : list (Op * R) * S :=
  match ops with
  | [] => ([], s)
  | op :: rest =>
      let '(r, s) := step op s in
      let '(rs, s) := run_ops rest s in
      ((op, r) :: rs, s)
  end.

Lemma run_budget ops :
  (forall op s, submseteq (taken (op, (step op s).1) ++ stored (step op s).2) (given op ++ stored s)) ->
  forall s, submseteq (concat (taken <$> (run_ops ops s).1)) (concat (given <$> ops) ++ stored s).
Proof.
  intros Hstep. assert (forall s, submseteq (concat (taken <$> (run_ops ops s).1) ++ stored (run_ops ops s).2)
    (concat (given <$> ops) ++ stored s)) as H.
  { induction ops as [|op ops IH]; intros s; cbn [run_ops]; [reflexivity|].
    pose proof (Hstep op s) as H1. destruct (step op s) as [r s1].
    specialize (IH s1). destruct (run_ops ops s1) as [rs s2]. cbn [fst snd] in *. csimpl.
    rewrite <- !(assoc_L (++)).
    etrans; [apply submseteq_app; [reflexivity|exact IH]|].
    rewrite (Permutation_app_comm _ (stored s1)), (assoc_L (++)).
    etrans; [apply submseteq_app; [exact H1|reflexivity]|].
    apply Permutation_submseteq. rewrite <- !(assoc_L (++)). apply Permutation_app_head, Permutation_app_comm. }
  intros s. etrans; [|apply H]. apply submseteq_inserts_r. reflexivity.
Qed.

End Budget.
