(* ===== verification/Messages.v ===== *)
(** The message domain shared by the chat servers ([src/common]): the message
    record, the retry window of one recipient and the acceptance service. *)
From S2P Require Import Prelude.

(** [ChatMessageTypes.h] *)
Record TextMessage := mkTextMessage {
  client_message_id : string;
  sender_uid : Z;
  receiver_uid : Z;
  content : string;
}.

#[export] Instance TextMessage_eq_dec : EqDecision TextMessage.
Proof. solve_decision. Defined.

(** A [steady_clock::time_point], in nanoseconds. *)
Definition seconds (n : Z) : Z := n * 1000000000.

(** [DeliveryWindow.h] *)
Module DeliveryWindow.

Abbreviation Key := (Z * string)%type.

Record Attempt := mkAttempt { count : Z; next : Z }.

Abbreviation window := (gmap Key Attempt).

Definition Capacity : Z := 32.

Definition key (message : TextMessage) : Key :=
  (sender_uid message, client_message_id message).

(** Entries whose key is not pending any more are erased. *)
Definition reconcile (pending : list TextMessage) (attempts_ : window) : window :=
  let keys : gset Key := list_to_set (key <$> pending) in
  filter (fun p => p.1 ∈ keys) attempts_.

Definition due (message : TextMessage) (now : Z) (attempts_ : window) : bool :=
  match attempts_ !! key message with
  | None => true
  | Some attempt => next attempt <=? now
  end.

(** [attempts_[key]] default-constructs a missing entry (count 0). *)
Definition sent (message : TextMessage) (now : Z) (attempts_ : window) : bool * window :=
  let attempt := default (mkAttempt 0 0) (attempts_ !! key message) in
  let retry := negb (count attempt =? 0) in
  (retry,
   <[key message :=
       mkAttempt (Z.min (count attempt + 1) 4)
                 (now + seconds (5 * Z.shiftl 1 (Z.min (count attempt) 3)))]> attempts_).

Definition size (attempts_ : window) : Z := Z.of_nat (base.size attempts_).

(** *** Properties *)

(** [sent m] at each of the given times, the earliest first. *)
Definition sent_at (m : TextMessage) (times : list Z) (w : window) : window :=
  foldl (fun w t => (sent m t w).2) w times.

Lemma sent_other m m' now w :
  key m' <> key m -> (sent m now w).2 !! key m' = w !! key m'.
Proof. intros. by apply lookup_insert_ne. Qed.

Lemma sent_entry m now w :
  (sent m now w).2 !! key m =
  let c := count (default (mkAttempt 0 0) (w !! key m)) in
  Some (mkAttempt (Z.min (c + 1) 4) (now + seconds (5 * Z.shiftl 1 (Z.min c 3)))).
Proof. apply lookup_insert_eq. Qed.

Lemma sent_at_count m times w :
  w !! key m = None ->
  count (default (mkAttempt 0 0) (sent_at m times w !! key m)) =
  Z.min (Z.of_nat (length times)) 4.
Proof.
  intros Hnone. induction times as [|t times IH] using rev_ind.
  { simpl. by rewrite Hnone. }
  unfold sent_at in *. rewrite foldl_app, length_app. cbn [foldl].
  rewrite sent_entry, IH. simpl. lia.
Qed.

(** The retry schedule of one message: the send that follows [n] earlier
    sends reports a retry exactly when [n > 0], and makes the message due
    again exactly 5, 10, 20, then always 40 seconds after it. *)
Theorem retry_schedule m times t now w :
  w !! key m = None ->
  let n := Z.of_nat (length times) in
  let '(retry, w') := sent m t (sent_at m times w) in
  retry = negb (n =? 0) /\
  due m now w' = (t + seconds (5 * 2 ^ Z.min n 3) <=? now).
Proof.
  intros Hnone. simpl. unfold due. pose proof (sent_entry m t (sent_at m times w)) as E.
  simpl in E. rewrite E. simpl. rewrite !(sent_at_count m times w Hnone).
  rewrite Z.shiftl_mul_pow2 by lia.
  split; [destruct times; simpl; [done|bool_goal; lia]|].
  by replace (Z.min (Z.min _ 4) 3) with (Z.min (Z.of_nat (length times)) 3) by lia;
    rewrite Z.mul_1_l.
Qed.

Lemma retry_schedule_witness :
  let m := mkTextMessage "id" 1 2 "hello" in
  due m (seconds 30) (sent m (seconds 10) (sent_at m [0; seconds 5] ∅)).2 = true /\
  due m (seconds 30 - 1) (sent m (seconds 10) (sent_at m [0; seconds 5] ∅)).2 = false.
Proof.
  split.
  - refine (eq_trans (proj2 (retry_schedule (mkTextMessage "id" 1 2 "hello")
      [0; seconds 5] (seconds 10) (seconds 30) ∅ eq_refl)) eq_refl).
  - refine (eq_trans (proj2 (retry_schedule (mkTextMessage "id" 1 2 "hello")
      [0; seconds 5] (seconds 10) (seconds 30 - 1) ∅ eq_refl)) eq_refl).
Defined.

(** Reconciling keeps the schedule of what is still pending and nothing else. *)
Lemma reconcile_lookup pending w k :
  reconcile pending w !! k =
  if decide (k ∈ key <$> pending) then w !! k else None.
Proof.
  unfold reconcile. destruct (decide _) as [Hk|Hk].
  - destruct (w !! k) eqn:E.
    + apply map_lookup_filter_Some. split; [done|]. by apply elem_of_list_to_set.
    + apply map_lookup_filter_None. by left.
  - apply map_lookup_filter_None. right. intros a _ Hin. apply Hk.
    by apply elem_of_list_to_set in Hin.
Qed.

(** Every entry of the window belongs to a message of [pending]. *)
Definition covered (pending : list TextMessage) (w : window) : Prop :=
  forall k, is_Some (w !! k) -> k ∈ key <$> pending.

Lemma reconcile_covered pending w : covered pending (reconcile pending w).
Proof.
  intros k. rewrite reconcile_lookup. destruct (decide _); [done|].
  intros [? ?]. done.
Qed.

Lemma sent_covered pending m now w :
  m ∈ pending -> covered pending w -> covered pending (sent m now w).2.
Proof.
  intros Hm Hc k. simpl. destruct (decide (k = key m)) as [->|].
  - intros _. by apply list_elem_of_fmap_2.
  - rewrite lookup_insert_ne by done. apply Hc.
Qed.

Lemma covered_size pending w : covered pending w -> size w <= Z.of_nat (length pending).
Proof.
  intros Hc. unfold size. rewrite <- size_dom.
  etrans; [|rewrite <- (length_fmap key)]; [|reflexivity].
  apply inj_le. etrans; [apply (subseteq_size _ (list_to_set (key <$> pending)))|].
  - intros k Hk%elem_of_dom. by apply elem_of_list_to_set, Hc.
  - apply size_list_to_set_le || idtac.
Qed.

End DeliveryWindow.

(** [TextMessageService.h] *)
Module TextMessageService.

Inductive Result := Accepted | InvalidMessage | InvalidRecipient | Unavailable.

#[global] Instance Result_eq_dec : EqDecision Result.
Proof. solve_decision. Defined.

(** One round of the loop over the batch: the per-message tests. *)
Definition message_ok (sender receiver : Z) (message : TextMessage) : bool :=
  negb (negb (sender_uid message =? sender) || negb (receiver_uid message =? receiver)
        || sempty (client_message_id message) || (128 <? ssize (client_message_id message))
        || sempty (content message) || (2048 <? ssize (content message))).

(** The loop, with the running [bytes] total ([std::size_t]). *)
Fixpoint batch_ok (sender receiver bytes : Z) (messages : list TextMessage) : bool :=
  match messages with
  | [] => true
  | message :: rest =>
      if negb (message_ok sender receiver message) then false
      else
        let bytes := u64 (bytes + (ssize (client_message_id message) + ssize (content message))) in
        if 8192 <? bytes then false else batch_ok sender receiver bytes rest
  end.

Section Accept.
Context {S : Type}.
(** The two collaborators given to the constructor; either may throw. *)
Variable friendship_ : Z -> Z -> prog S (option bool).
Variable persist_ : list TextMessage -> prog S bool.

Definition accept (sender receiver : Z) (messages : list TextMessage) : prog S Result :=
  if (sender <=? 0) || (receiver <=? 0) || (sender =? receiver) then mret InvalidRecipient
  else if bool_decide (messages = []) || (50 <? Z.of_nat (length messages)) then mret InvalidMessage
  else if negb (batch_ok sender receiver 0 messages) then mret InvalidMessage
  else
    try_catch
      (allowed ← friendship_ sender receiver;
       match allowed with
       | None => mret Unavailable
       | Some false => mret InvalidRecipient
       | Some true =>
           stored ← persist_ messages;
           mret (if stored : bool then Accepted else Unavailable)
       end)
      (mret Unavailable).

End Accept.

(** *** What a batch must satisfy, without the loop *)

Definition payload (message : TextMessage) : Z :=
  ssize (client_message_id message) + ssize (content message).

Record valid_batch (sender receiver : Z) (messages : list TextMessage) : Prop := {
  vb_users : 0 < sender /\ 0 < receiver /\ sender <> receiver;
  vb_length : (1 <= length messages <= 50)%nat;
  vb_each : Forall (fun m => sender_uid m = sender /\ receiver_uid m = receiver /\
                             1 <= ssize (client_message_id m) <= 128 /\
                             1 <= ssize (content m) <= 2048) messages;
  vb_total : foldr Z.add 0 (payload <$> messages) <= 8192;
}.

Lemma message_ok_spec sender receiver m :
  message_ok sender receiver m = true <->
  sender_uid m = sender /\ receiver_uid m = receiver /\
  1 <= ssize (client_message_id m) <= 128 /\ 1 <= ssize (content m) <= 2048.
Proof.
  unfold message_ok. rewrite !sempty_ssize.
  pose proof (ssize_nonneg (client_message_id m)). pose proof (ssize_nonneg (content m)).
  split; intros; bool_hyps; [lia|bool_goal; lia].
Qed.

Lemma payload_sum_nonneg messages : 0 <= foldr Z.add 0 (payload <$> messages).
Proof.
  induction messages as [|m ms IH]; csimpl; [lia|].
  unfold payload at 1. pose proof (ssize_nonneg (client_message_id m)).
  pose proof (ssize_nonneg (content m)). lia.
Qed.

(** The running total never wraps, because a larger one ends the loop. *)
Lemma batch_ok_spec sender receiver messages : forall bytes, 0 <= bytes <= 8192 ->
  batch_ok sender receiver bytes messages = true <->
  Forall (fun m => message_ok sender receiver m = true) messages /\
  bytes + foldr Z.add 0 (payload <$> messages) <= 8192.
Proof.
  induction messages as [|m ms IH]; intros bytes Hb; csimpl.
  { split; [intros; split; [constructor|lia]|done]. }
  rewrite Forall_cons. destruct (message_ok sender receiver m) eqn:Hm; simpl; [|naive_solver].
  apply message_ok_spec in Hm as (_ & _ & Hi & Hc).
  pose proof (payload_sum_nonneg ms). unfold u64, payload at 1. rewrite Z.mod_small by lia.
  destruct (8192 <? _) eqn:Hover; bool_hyps.
  - split; [done|intros [_ ?]; lia].
  - rewrite IH by lia. split; [intros (? & ?)|intros ((_ & ?) & ?)]; (split; [done || split; done|lia]).
Qed.

Lemma valid_batch_code sender receiver messages :
  valid_batch sender receiver messages <->
  (sender <=? 0) || (receiver <=? 0) || (sender =? receiver) = false /\
  bool_decide (messages = []) || (50 <? Z.of_nat (length messages)) = false /\
  batch_ok sender receiver 0 messages = true.
Proof.
  rewrite batch_ok_spec by lia. setoid_rewrite message_ok_spec. split.
  - intros [H1 H2 H3 H4]. repeat split; bool_goal; try lia; try done.
    apply bool_decide_eq_false_2. by intros ->; simpl in H2; lia.
  - intros (H1 & H2 & H3 & H4). bool_hyps. constructor; try lia; [|done].
    destruct messages; simpl in *; [done|lia].
Qed.

#[global] Instance valid_batch_dec sender receiver messages :
  Decision (valid_batch sender receiver messages).
Proof.
  unfold Decision.
  destruct (decide ((sender <=? 0) || (receiver <=? 0) || (sender =? receiver) = false /\
    bool_decide (messages = []) || (50 <? Z.of_nat (length messages)) = false /\
    batch_ok sender receiver 0 messages = true)) as [Hv|Hv]; rewrite <- valid_batch_code in Hv;
  [by left|by right].
Defined.

Section Specification.
Context {S : Type}.
Variable friendship_ : Z -> Z -> prog S (option bool).
Variable persist_ : list TextMessage -> prog S bool.

Lemma accept_valid sender receiver messages s :
  valid_batch sender receiver messages ->
  accept friendship_ persist_ sender receiver messages s =
  match friendship_ sender receiver s with
  | (Returns None, s1) | (Throws, s1) => (Returns Unavailable, s1)
  | (Returns (Some false), s1) => (Returns InvalidRecipient, s1)
  | (Returns (Some true), s1) =>
      match persist_ messages s1 with
      | (Returns true, s2) => (Returns Accepted, s2)
      | (Returns false, s2) | (Throws, s2) => (Returns Unavailable, s2)
      end
  end.
Proof.
  intros (E1 & E2 & E3)%valid_batch_code. unfold accept, try_catch, mbind, prog_bind.
  rewrite E1, E2, E3. simpl.
  destruct (friendship_ sender receiver s) as [[[[]|]|] s1]; simpl; try done.
  destruct (persist_ messages s1) as [[[]|] s2]; done.
Qed.

Lemma accept_invalid sender receiver messages s :
  ~ valid_batch sender receiver messages ->
  exists res, (res = InvalidMessage \/ res = InvalidRecipient) /\
              accept friendship_ persist_ sender receiver messages s = (Returns res, s).
Proof.
  rewrite valid_batch_code. unfold accept. intros Hn.
  repeat case_code; try solve [eauto].
  destruct Hn. split_and!; by try apply negb_false_iff.
Qed.

(** A batch is accepted exactly when it is a valid batch (positive and
    distinct users, 1 to 50 messages of that pair, ids of 1 to 128 bytes,
    contents of 1 to 2048 bytes, at most 8192 bytes in all), the friendship
    lookup answered yes and the persist call that followed it reported
    success; the resulting state is the one those two calls left. *)
Theorem accept_accepted_iff sender receiver messages s s' :
  accept friendship_ persist_ sender receiver messages s = (Returns Accepted, s') <->
  valid_batch sender receiver messages /\
  exists s1, friendship_ sender receiver s = (Returns (Some true), s1) /\
             persist_ messages s1 = (Returns true, s').
Proof.
  destruct (decide (valid_batch sender receiver messages)) as [Hv|Hv].
  - rewrite accept_valid by done.
    destruct (friendship_ sender receiver s) as [[[[]|]|] s1]; try naive_solver.
    destruct (persist_ messages s1) as [[[]|] s2] eqn:Hp;
      (split; [intros; simplify_eq; eauto|intros (_ & ? & ? & ?); simplify_eq; congruence]).
  - destruct (accept_invalid sender receiver messages s Hv) as (res & Hres & ->). naive_solver.
Qed.

(** Acceptance always returns a result, whatever its collaborators throw,
    and a batch that is not valid is refused before either collaborator is
    called: the state is untouched. *)
Theorem accept_total sender receiver messages s :
  exists res s', accept friendship_ persist_ sender receiver messages s = (Returns res, s') /\
    (valid_batch sender receiver messages \/
     s' = s /\ (res = InvalidMessage \/ res = InvalidRecipient)).
Proof.
  destruct (decide (valid_batch sender receiver messages)) as [Hv|Hv].
  - rewrite accept_valid by done. repeat case_code; eauto.
  - destruct (accept_invalid sender receiver messages s Hv) as (res & Hres & ->). eauto 8.
Qed.

End Specification.
End TextMessageService.
