(* ===== verification/Routing.v ===== *)
(** The choice of a chat node ([src/common/ChatServerSelector.cpp]). *)
From S2P Require Import Prelude.

Module ChatServerSelector.

(** [ChatServerSelector.h] *)
Record ServerLoad := mkServerLoad { name : string; connection_count : Z }.

Definition INT_MAX : Z := 2 ^ 31 - 1.

(** [operator<=] of [std::string]: lexicographic on unsigned bytes. *)
Definition string_le (a b : string) : Prop := String.leb a b = true.

#[global] Instance string_le_dec : RelDecision string_le.
Proof. intros a b. unfold string_le. apply _. Defined.

(** The running minimum of the first loop, started at [INT_MAX]. *)
Definition minimum (healthy_servers : list ServerLoad) : Z :=
  foldl (fun m server => Z.min m (connection_count server)) INT_MAX healthy_servers.

Definition candidates (healthy_servers : list ServerLoad) : list string :=
  let m := minimum healthy_servers in
  merge_sort string_le
    (name <$> filter (fun server => connection_count server = m) healthy_servers).

Definition selectLeastLoaded (healthy_servers : list ServerLoad) (round_robin_cursor : nat)
    : option string :=
  match healthy_servers with
  | [] => None
  | _ => let c := candidates healthy_servers in
         c !! (round_robin_cursor mod length c)%nat
  end.

(** *** The byte order is total *)

#[global] Instance string_le_total : Total string_le.
Proof.
  intros a b. unfold string_le, String.leb.
  rewrite (String.compare_antisym b a). destruct (String.compare a b); simpl; auto.
Qed.

#[global] Instance string_le_anti : AntiSymm (=) string_le.
Proof.
  intros a b. unfold string_le, String.leb. rewrite (String.compare_antisym b a).
  destruct (String.compare a b) eqn:E; simpl; try done.
  intros _ _. by apply String.compare_eq_iff in E.
Qed.

(** *** The least load *)

Lemma foldl_min_spec l m0 :
  let m := foldl (fun m server => Z.min m (connection_count server)) m0 l in
  m <= m0 /\ (forall x, x ∈ l -> m <= connection_count x) /\
  (m = m0 \/ exists x, x ∈ l /\ connection_count x = m).
Proof.
  revert m0. induction l as [|x l IH]; intros m0; simpl.
  { split; [lia|]. split; [by intros ? ?%elem_of_nil|by left]. }
  destruct (IH (Z.min m0 (connection_count x))) as (H1 & H2 & H3).
  split; [lia|]. split.
  - intros y [->|Hy]%elem_of_cons; [lia|auto].
  - destruct H3 as [H3|(y & Hy & E)]; [|right; exists y; set_solver].
    destruct (Z.min_spec m0 (connection_count x)) as [[_ E]|[_ E]]; rewrite E in *; [by left|].
    right. exists x. split; [set_solver|lia].
Qed.

Definition least_loaded (servers : list ServerLoad) (s : ServerLoad) : Prop :=
  s ∈ servers /\ forall s', s' ∈ servers -> connection_count s <= connection_count s'.

Lemma candidates_spec servers n :
  Forall (fun s => is_int (connection_count s) = true) servers ->
  n ∈ candidates servers <-> exists s, least_loaded servers s /\ name s = n.
Proof.
  intros Hint. unfold candidates. rewrite merge_sort_Permutation, list_elem_of_fmap.
  setoid_rewrite list_elem_of_filter. pose proof (foldl_min_spec servers INT_MAX) as (_ & H2 & H3).
  fold (minimum servers) in *. split.
  - intros (s & -> & E & Hs). exists s. split; [|done]. split; [done|].
    intros s' Hs'. rewrite E. auto.
  - intros (s & [Hs Hmin] & <-). exists s. split_and!; try done.
    apply Z.le_antisymm; [|auto]. destruct H3 as [H3|(y & Hy & E)].
    + rewrite Forall_forall in Hint. specialize (Hint s Hs). unfold is_int, INT_MAX in *.
      bool_hyps. lia.
    + rewrite <- E. auto.
Qed.

Lemma candidates_nonempty servers :
  Forall (fun s => is_int (connection_count s) = true) servers ->
  servers <> [] -> candidates servers <> [].
Proof.
  intros Hint Hne Hc.
  assert (exists s, least_loaded servers s) as [s Hs].
  { pose proof (foldl_min_spec servers INT_MAX) as (_ & H2 & [H3|(y & Hy & E)]).
    - destruct servers as [|s l]; [done|]. exists s. split; [set_solver|]. intros s' Hs'.
      rewrite Forall_forall in Hint. specialize (Hint s ltac:(set_solver)).
      specialize (H2 s' Hs'). simpl in H2, H3. unfold is_int, INT_MAX in *. bool_hyps. lia.
    - exists y. split; [done|]. intros s' Hs'. rewrite E. auto. }
  assert (name s ∈ candidates servers) as Hin by (rewrite candidates_spec; eauto).
  rewrite Hc in Hin. set_solver.
Qed.

(** Whatever the cursor, the chosen name is a least loaded one. *)
Lemma select_spec servers cursor :
  Forall (fun s => is_int (connection_count s) = true) servers -> servers <> [] ->
  exists s, least_loaded servers s /\ selectLeastLoaded servers cursor = Some (name s).
Proof.
  intros Hint Hne. pose proof (candidates_nonempty servers Hint Hne) as Hc.
  assert (0 < length (candidates servers))%nat by (destruct (candidates servers); simpl; [done|lia]).
  destruct (lookup_lt_is_Some_2 (candidates servers)
              (cursor mod length (candidates servers))) as [n Hn].
  { apply Nat.mod_upper_bound. lia. }
  assert (selectLeastLoaded servers cursor = Some n) as -> by (by destruct servers).
  apply list_elem_of_lookup_2, candidates_spec in Hn as (s & ? & <-); [eauto|done].
Qed.

(** The selector picks, for every non-empty list of healthy servers and
    every cursor, the name of a server whose connection count is the least. *)
Theorem select_least_loaded servers cursor :
  Forall (fun s => is_int (connection_count s) = true) servers -> servers <> [] ->
  exists s, least_loaded servers s /\ selectLeastLoaded servers cursor = Some (name s).
Proof. apply select_spec. Qed.

Lemma select_least_loaded_witness :
  exists s, least_loaded [mkServerLoad "b" 3; mkServerLoad "a" 3; mkServerLoad "c" 9] s /\
    selectLeastLoaded [mkServerLoad "b" 3; mkServerLoad "a" 3; mkServerLoad "c" 9] 7 = Some (name s).
Proof.
  apply (select_least_loaded [mkServerLoad "b" 3; mkServerLoad "a" 3; mkServerLoad "c" 9] 7).
  - by repeat constructor.
  - done.
Defined.

(** The picks of [k] consecutive cursors. *)
Definition picks (servers : list ServerLoad) (cursor k : nat) : list (option string) :=
  (fun i => selectLeastLoaded servers (cursor + i)) <$> seq 0 k.

Lemma rotation_Permutation {A} (c : list A) (k : nat) :
  c <> [] -> ((fun i => c !! ((k + i) mod length c)%nat) <$> seq 0 (length c)) ≡ₚ Some <$> c.
Proof.
  intros Hc. assert (0 < length c)%nat by (destruct c; simpl; [done|lia]).
  induction k as [|k IH].
  - apply eq_Permutation. apply list_eq_Forall2, Forall2_fmap_2, Forall2_lookup. intros i.
    destruct (c !! i) as [x|] eqn:E.
    + pose proof (lookup_lt_Some _ _ _ E). rewrite lookup_seq_lt by done. constructor.
      simpl. by rewrite Nat.mod_small by done.
    + apply lookup_ge_None in E. rewrite lookup_seq_ge by done. constructor.
  - rewrite <- IH.
    assert (seq 0 (length c) = 0%nat :: seq 1 (length c - 1)) as E1.
    { destruct (length c) eqn:?; [lia|]. simpl. by rewrite Nat.sub_0_r. }
    rewrite E1 at 2. rewrite fmap_cons, Nat.add_0_r.
    assert (seq 0 (length c) = seq 0 (length c - 1) ++ [(length c - 1)%nat]) as E2.
    { rewrite <- seq_S. f_equal. lia. }
    rewrite E2, fmap_app. simpl. rewrite <- Permutation_cons_append.
    replace (S (k + (length c - 1)))%nat with (k + 1 * length c)%nat by lia.
    rewrite Nat.Div0.mod_add. constructor. apply eq_Permutation.
    rewrite <- (fmap_S_seq 0 (length c - 1)), <- list_fmap_compose.
    apply list_fmap_ext. intros ? i _. unfold compose. by rewrite Nat.add_succ_r.
Qed.

(** The names of the least loaded servers. *)
Definition least_loaded_names (servers : list ServerLoad) : list string :=
  name <$> filter (fun s => Forall (fun s' => connection_count s <= connection_count s') servers) servers.

Lemma candidates_names servers :
  Forall (fun s => is_int (connection_count s) = true) servers ->
  candidates servers ≡ₚ least_loaded_names servers.
Proof.
  intros Hint. unfold candidates, least_loaded_names. rewrite merge_sort_Permutation.
  apply eq_Permutation. f_equal. pose proof (foldl_min_spec servers INT_MAX) as (H1 & H2 & H3).
  fold (minimum servers) in *. apply filter_iff_in. intros s Hs. rewrite Forall_forall. split.
  - intros E s' Hs'. rewrite E. auto.
  - intros Hmin. apply Z.le_antisymm; [|auto]. destruct H3 as [H3|(y & Hy & E)]; [|rewrite <- E; auto].
    rewrite Forall_forall in Hint. specialize (Hint s Hs). unfold is_int, INT_MAX in *. bool_hyps. lia.
Qed.

(** Round robin is fair: over any run of as many consecutive cursors as
    there are least-loaded servers, each of them is picked once, whatever the
    cursor the run starts at. *)
Theorem round_robin_fair servers cursor :
  Forall (fun s => is_int (connection_count s) = true) servers -> servers <> [] ->
  picks servers cursor (length (least_loaded_names servers)) ≡ₚ Some <$> least_loaded_names servers.
Proof.
  intros Hint Hne. pose proof (candidates_names servers Hint) as Hp.
  rewrite <- (Permutation_length Hp). etrans; [|by apply fmap_Permutation].
  rewrite <- (rotation_Permutation (candidates servers) cursor) by auto using candidates_nonempty.
  unfold picks. apply eq_Permutation, list_fmap_ext. intros i j _. by destruct servers.
Qed.

Lemma round_robin_fair_witness :
  picks [mkServerLoad "b" 3; mkServerLoad "a" 3; mkServerLoad "c" 9] 5 2 ≡ₚ [Some "b"; Some "a"].
Proof.
  apply (round_robin_fair [mkServerLoad "b" 3; mkServerLoad "a" 3; mkServerLoad "c" 9] 5).
  - by repeat constructor.
  - done.
Defined.

End ChatServerSelector.
