(* ===== verification/Executor.v ===== *)
(** The keyed executor ([src/common/KeyedExecutor.h]): a fixed set of worker
    threads, each with a bounded queue, and a key that always maps to the
    same worker.  Every region the source runs under a shard's mutex is one
    function here; a run of the program is an interleaving of those regions. *)
From S2P Require Import Prelude.

Module KeyedExecutor.

(** A queued call.  [key] is the key it was posted under (the source keeps it
    only in the choice of the shard); [call] names the function object. *)
Record Task := mkTask { key : nat; enqueued : Z; call : nat }.

#[global] Instance Task_eq_dec : EqDecision Task.
Proof. solve_decision. Defined.

(** Where the worker thread of a shard is in [run]. *)
Inductive Phase :=
| Looping
| Ticking
| Running (task : Task) (start : Z)
| Exited.

(** A shard, the local variable [next] of its thread, and three history
    variables: the tasks it accepted, started and discarded, oldest first. *)
Record Shard := mkShard {
  queue : list Task;
  stopping : bool;
  phase : Phase;
  next : Z;
  accepted : list Task;
  started : list Task;
  discarded : list Task;
}.

Record Metrics := mkMetrics {
  queued : Z; completed : Z; rejected : Z; failures : Z;
  wait_us : Z; run_us : Z; cancelled : Z;
}.

Record Executor := mkExecutor {
  capacity_ : Z;
  interval_ : Z;
  shards_ : list Shard;
  metrics : Metrics;
}.

(** The constructor; [now i] is what thread [i] reads when it enters [run]. *)
Definition create (count : nat) (capacity interval : Z) (now : nat -> Z) : outcome Executor :=
  if bool_decide (count = 0%nat) || (capacity =? 0) || (interval <=? 0) then Throws
  else Returns (mkExecutor capacity interval
         ((fun i => mkShard [] false Looping (now i + interval) [] [] []) <$> seq 0 count)
         (mkMetrics 0 0 0 0 0 0 0)).

Definition shard (e : Executor) (key : nat) : nat := (key mod length (shards_ e))%nat.

Definition set_shard (i : nat) (s : Shard) (m : Metrics) (e : Executor) : Executor :=
  mkExecutor (capacity_ e) (interval_ e) (<[i:=s]> (shards_ e)) m.

Definition post (k : nat) (now : Z) (f : nat) (e : Executor) : bool * Executor :=
  let i := shard e k in
  match shards_ e !! i with
  | None => (false, e)
  | Some s =>
      let m := metrics e in
      if stopping s || (capacity_ e <=? Z.of_nat (length (queue s))) then
        (false, mkExecutor (capacity_ e) (interval_ e) (shards_ e)
                  (mkMetrics (queued m) (completed m) (rejected m + 1) (failures m)
                             (wait_us m) (run_us m) (cancelled m)))
      else
        let t := mkTask k now f in
        (true, set_shard i
          (mkShard (queue s ++ [t]) (stopping s) (phase s) (next s)
                   (accepted s ++ [t]) (started s) (discarded s))
          (mkMetrics (queued m + 1) (completed m) (rejected m) (failures m)
                     (wait_us m) (run_us m) (cancelled m)) e)
  end.

(** The locked region of [stop] for shard [i]. *)
Definition stop_shard (i : nat) (drain : bool) (e : Executor) : Executor :=
  match shards_ e !! i with
  | None => e
  | Some s =>
      let m := metrics e in
      if drain then
        set_shard i (mkShard (queue s) true (phase s) (next s) (accepted s) (started s) (discarded s))
                  m e
      else
        let n := Z.of_nat (length (queue s)) in
        set_shard i (mkShard [] true (phase s) (next s) (accepted s) (started s)
                             (discarded s ++ queue s))
          (mkMetrics (queued m - n) (completed m) (rejected m) (failures m)
                     (wait_us m) (run_us m) (cancelled m + n)) e
  end.

(** The predicate of [wait_until], or its deadline. *)
Definition woken (s : Shard) (now : Z) : bool :=
  stopping s || negb (bool_decide (queue s = [])) || (next s <=? now).

(** One round of the loop of [run] up to the unlock; [now] is the time read
    by the timer test and [start] the one read after the unlock. *)
Definition run_locked (i : nat) (now start : Z) (e : Executor) : Executor :=
  match shards_ e !! i with
  | None => e
  | Some s =>
      let m := metrics e in
      let goto p q st m :=
        set_shard i (mkShard q (stopping s) p (next s) (accepted s) st (discarded s)) m e in
      if stopping s && bool_decide (queue s = []) then goto Exited (queue s) (started s) m
      else if negb (stopping s) && (next s <=? now) then goto Ticking (queue s) (started s) m
      else match queue s with
           | [] => goto Looping [] (started s) m
           | task :: rest =>
               goto (Running task start) rest (started s ++ [task])
                 (mkMetrics (queued m - 1) (completed m) (rejected m) (failures m)
                    (wait_us m + Z.quot (start - enqueued task) 1000) (run_us m) (cancelled m))
           end
  end.

(** The tick returned or threw ([failed]); [now] is read after it. *)
Definition tick_done (i : nat) (now : Z) (failed : bool) (e : Executor) : Executor :=
  match shards_ e !! i with
  | None => e
  | Some s =>
      let m := metrics e in
      set_shard i (mkShard (queue s) (stopping s) Looping (now + interval_ e)
                           (accepted s) (started s) (discarded s))
        (mkMetrics (queued m) (completed m) (rejected m) (failures m + Z.b2z failed)
                   (wait_us m) (run_us m) (cancelled m)) e
  end.

(** The task returned or threw. *)
Definition task_done (i : nat) (start now : Z) (failed : bool) (e : Executor) : Executor :=
  match shards_ e !! i with
  | None => e
  | Some s =>
      let m := metrics e in
      set_shard i (mkShard (queue s) (stopping s) Looping (next s)
                           (accepted s) (started s) (discarded s))
        (mkMetrics (queued m) (completed m + 1) (rejected m) (failures m + Z.b2z failed)
                   (wait_us m) (run_us m + Z.quot (now - start) 1000) (cancelled m)) e
  end.

(** The interleavings of callers, the stopping thread and the workers. *)
Inductive step : Executor -> Executor -> Prop :=
| step_post k now f e : step e (post k now f e).2
| step_stop i drain e : step e (stop_shard i drain e)
| step_run i s now start e :
    shards_ e !! i = Some s -> phase s = Looping -> woken s now = true ->
    step e (run_locked i now start e)
| step_tick i s now failed e :
    shards_ e !! i = Some s -> phase s = Ticking -> step e (tick_done i now failed e)
| step_task i s task start now failed e :
    shards_ e !! i = Some s -> phase s = Running task start ->
    step e (task_done i start now failed e).

Inductive reachable : Executor -> Prop :=
| reach_create count capacity interval now e :
    0 <= capacity -> create count capacity interval now = Returns e -> reachable e
| reach_step e e' : reachable e -> step e e' -> reachable e'.

(** *** The invariant *)

Definition running (s : Shard) : Z :=
  match phase s with Running _ _ => 1 | _ => 0 end.

Record shard_ok (cap : Z) (n i : nat) (s : Shard) : Prop := {
  ok_bound : Z.of_nat (length (queue s)) <= cap;
  ok_order : accepted s = started s ++ discarded s ++ queue s;
  ok_cancel : discarded s <> [] -> stopping s = true /\ queue s = [];
  ok_exit : phase s = Exited -> stopping s = true /\ queue s = [];
  ok_keys : Forall (fun t => (key t mod n)%nat = i) (accepted s);
}.

Record inv (e : Executor) : Prop := {
  inv_shards : forall i s, shards_ e !! i = Some s ->
    shard_ok (capacity_ e) (length (shards_ e)) i s;
  inv_queued : queued (metrics e) = zsum (fun s => Z.of_nat (length (queue s))) (shards_ e);
  inv_completed : completed (metrics e) + zsum running (shards_ e) =
                  zsum (fun s => Z.of_nat (length (started s))) (shards_ e);
  inv_cancelled : cancelled (metrics e) = zsum (fun s => Z.of_nat (length (discarded s))) (shards_ e);
}.

(** Replacing one shard: the four measures move by the change of that shard. *)
Lemma inv_set_shard e i s s' m :
  inv e -> shards_ e !! i = Some s ->
  shard_ok (capacity_ e) (length (shards_ e)) i s' ->
  queued m - queued (metrics e) = Z.of_nat (length (queue s')) - Z.of_nat (length (queue s)) ->
  completed m - completed (metrics e) + running s' - running s =
    Z.of_nat (length (started s')) - Z.of_nat (length (started s)) ->
  cancelled m - cancelled (metrics e) =
    Z.of_nat (length (discarded s')) - Z.of_nat (length (discarded s)) ->
  inv (set_shard i s' m e).
Proof.
  intros [I1 I2 I3 I4] Hi Hs' Hq Hc Hx. split; simpl.
  - intros j t. rewrite length_insert. intros Hj.
    destruct (decide (i = j)) as [<-|Hne].
    + rewrite list_lookup_insert_eq in Hj by eauto using lookup_lt_Some. by simplify_eq.
    + rewrite list_lookup_insert_ne in Hj by done. eauto.
  - rewrite (zsum_insert _ _ i s) by done. lia.
  - rewrite !(zsum_insert _ _ i s) by done. lia.
  - rewrite (zsum_insert _ _ i s) by done. lia.
Qed.

Ltac replace_shard :=
  eapply inv_set_shard; try done; unfold running in *; simpl in *; rewrite ?length_app; simpl in *;
  try lia.

Lemma inv_post k now f e : inv e -> inv (post k now f e).2.
Proof.
  intros I. unfold post. destruct (shards_ e !! shard e k) as [s|] eqn:Hs; [|done].
  destruct (stopping s || _) eqn:Hb; simpl; [destruct I; by split|]. bool_hyps.
  destruct (inv_shards e I _ _ Hs) as [O1 O2 O3 O4 O5].
  replace_shard.
  split; simpl.
  - rewrite length_app. simpl. lia.
  - by rewrite O2, !(assoc_L (++)).
  - intros [? ?]%O3. congruence.
  - intros [? ?]%O4. congruence.
  - apply Forall_app. by repeat constructor.
Qed.

Lemma inv_stop i drain e : inv e -> inv (stop_shard i drain e).
Proof.
  intros I. unfold stop_shard. destruct (shards_ e !! i) as [s|] eqn:Hs; [|done].
  destruct (inv_shards e I _ _ Hs) as [O1 O2 O3 O4 O5].
  destruct drain; (replace_shard).
  - split; simpl; naive_solver.
  - split; simpl; try done; [lia|by rewrite O2, app_nil_r].
Qed.

Lemma inv_run i s now start e :
  inv e -> shards_ e !! i = Some s -> phase s = Looping -> inv (run_locked i now start e).
Proof.
  intros I Hs Hp. unfold run_locked. rewrite Hs.
  destruct (inv_shards e I _ _ Hs) as [O1 O2 O3 O4 O5].
  assert (running s = 0) as Hr by (unfold running; by rewrite Hp).
  destruct (stopping s && _) eqn:Hb1.
  { bool_hyps. replace_shard; split; simpl; auto. }
  destruct (negb (stopping s) && _) eqn:Hb2.
  { replace_shard; split; simpl; auto; discriminate. }
  destruct (queue s) as [|task rest] eqn:Hq.
  { replace_shard; rewrite ?Hq; simpl; lia. }
  assert (discarded s = []) as Hd.
  { destruct (discarded s) eqn:Hd; [done|]. by destruct O3. }
  replace_shard; rewrite ?Hq; simpl; try lia.
  split; simpl; auto.
  - simpl in O1. lia.
  - rewrite O2, Hd, <- (assoc_L (++)). done.
  - by rewrite Hd.
  - discriminate.
Qed.

Lemma inv_tick i s now failed e :
  inv e -> shards_ e !! i = Some s -> phase s = Ticking -> inv (tick_done i now failed e).
Proof.
  intros I Hs Hp. unfold tick_done. rewrite Hs.
  destruct (inv_shards e I _ _ Hs) as [O1 O2 O3 O4 O5].
  assert (running s = 0) as Hr by (unfold running; by rewrite Hp).
  replace_shard; split; simpl; auto; discriminate.
Qed.

Lemma inv_task i s task start now failed e :
  inv e -> shards_ e !! i = Some s -> phase s = Running task start ->
  inv (task_done i start now failed e).
Proof.
  intros I Hs Hp. unfold task_done. rewrite Hs.
  destruct (inv_shards e I _ _ Hs) as [O1 O2 O3 O4 O5].
  assert (running s = 1) as Hr by (unfold running; by rewrite Hp).
  replace_shard.
Qed.

#[local] Hint Resolve inv_post inv_stop inv_run inv_tick inv_task : chat.

Lemma inv_step e e' : inv e -> step e e' -> inv e'.
Proof. destruct 2; eauto with chat. Qed.

Lemma zsum_initial {A} (f : nat -> A) (g : A -> Z) n :
  (forall i, g (f i) = 0) -> forall k, zsum g (f <$> seq k n) = 0.
Proof.
  intros H. induction n as [|n IH]; intros k; [done|].
  specialize (IH (S k)). unfold zsum in *. csimpl. rewrite IH, H. done.
Qed.

Lemma reachable_inv e : reachable e -> inv e.
Proof.
  induction 1 as [count cap interval now e Hcap E|]; [|eauto using inv_step].
  unfold create in E. case_code; simplify_eq. bool_hyps.
  split; simpl; rewrite ?zsum_initial; try done.
  intros i s Hs. apply list_lookup_fmap_Some in Hs as (j & -> & Hj).
  apply lookup_seq in Hj as [-> ?]. by split.
Qed.

(** *** Properties *)


(** Two shards; two calls posted under key 3, the first one started. *)
Definition demo_empty : Executor :=
  match create 2 4 1000 (fun _ => 0) with
  | Returns e => e
  | Throws => mkExecutor 0 0 [] (mkMetrics 0 0 0 0 0 0 0)
  end.
Definition demo_running : Executor :=
  run_locked 1 20 20 (post 3 12 8 (post 3 10 7 demo_empty).2).2.

Lemma demo_running_reachable : reachable demo_running.
Proof.
  assert (reachable demo_empty) by (by apply (reach_create 2 4 1000 (fun _ => 0))).
  eapply reach_step; [|by eapply (step_run 1 _ 20 20)].
  do 2 (eapply reach_step; [|apply step_post]). done.
Qed.


(** The same executor stopped without draining: the second call is discarded. *)
Definition demo_stopped : Executor :=
  run_locked 0 40 40 (run_locked 1 40 40 (task_done 1 20 30 false
    (stop_shard 1 false (stop_shard 0 false demo_running)))).

Lemma demo_stopped_reachable : reachable demo_stopped.
Proof.
  eapply reach_step; [|by eapply (step_run 0 _ 40 40)].
  eapply reach_step; [|by eapply (step_run 1 _ 40 40)].
  eapply reach_step; [|by eapply (step_task 1 _ _ 20 30 false)].
  do 2 (eapply reach_step; [|apply step_stop]). apply demo_running_reachable.
Qed.

(** Nothing accepted is lost at shutdown: once every worker has left its
    loop, each shard has started everything it accepted except what a
    cancelling stop discarded, in order, the queues are empty, and the
    counters agree: completed plus cancelled is the number of accepted tasks. *)
Theorem shutdown_accounts e :
  reachable e -> Forall (fun s => phase s = Exited) (shards_ e) ->
  queued (metrics e) = 0 /\
  completed (metrics e) + cancelled (metrics e) =
    zsum (fun s => Z.of_nat (length (accepted s))) (shards_ e) /\
  Forall (fun s => accepted s = started s ++ discarded s) (shards_ e).
Proof.
  intros Hr Hex. pose proof (reachable_inv e Hr) as [I1 I2 I3 I4].
  rewrite I2, I4.
  assert (Forall (fun s => queue s = [] /\ running s = 0 /\
            accepted s = started s ++ discarded s ++ queue s) (shards_ e)) as Hall.
  { apply Forall_lookup. intros i s Hs. rewrite Forall_lookup in Hex.
    specialize (Hex _ _ Hs). destruct (I1 _ _ Hs) as [_ O2 _ O4 _].
    unfold running. rewrite Hex. naive_solver. }
  clear -I3 Hall. revert I3. generalize (completed (metrics e)).
  induction Hall as [|s l (Hq & Hn & Ho) _ IH]; intros c; unfold zsum; csimpl.
  { intros. split_and!; [done|lia|constructor]. }
  fold (zsum running l). intros I3.
  destruct (IH (c + Z.of_nat (length (started s)) * -1)) as (H1 & H2 & H3).
  { unfold zsum in *. lia. }
  unfold zsum in *. rewrite Hq, Ho, Hq, app_nil_r, length_app. simpl.
  split_and!; [lia|lia|]. constructor; [by rewrite Ho, Hq, app_nil_r|done].
Qed.

Lemma shutdown_accounts_witness :
  completed (metrics demo_stopped) + cancelled (metrics demo_stopped) =
  zsum (fun s => Z.of_nat (length (accepted s))) (shards_ demo_stopped).
Proof.
  apply (shutdown_accounts demo_stopped demo_stopped_reachable).
  by repeat constructor.
Defined.

End KeyedExecutor.
