(* ===== verification/Mysql.v ===== *)
(** MySQL as the data access objects see it through [MySqlPool]
    ([src/common/MysqlConnectionPool.h]).

    The tables are a type [T].  A call on a connection either does its work,
    or fails before it reaches the server, or fails after the server did it
    (the answer was lost); which of the three happens at the n-th call is an
    arbitrary function [oracle], so the theorems hold for every pattern of
    failures.  A statement that violates a constraint throws as well. *)
From S2P Require Import Prelude.

Inductive fault := Fine | FailsBefore | FailsAfter.

Record db (T : Type) := mkDb {
  committed : T;               (** what the server has committed *)
  working : option T;          (** the open transaction of the borrowed connection *)
  autocommit : bool;
  borrowed : Z;                (** connections taken from the pool and not given back *)
  calls : nat;                 (** calls made so far *)
  oracle : nat -> fault;
  clock : nat -> Z;            (** NOW() at the n-th call, in seconds *)
}.
Arguments mkDb {T}.
Arguments committed {T}.
Arguments working {T}.
Arguments autocommit {T}.
Arguments borrowed {T}.
Arguments calls {T}.
Arguments oracle {T}.
Arguments clock {T}.

Section Connector.
Context {T : Type}.
Implicit Types s : db T.

Definition tick (s : db T) : db T :=
  mkDb (committed s) (working s) (autocommit s) (borrowed s) (S (calls s)) (oracle s) (clock s).

(** What the connection reads: its own writes, else the committed tables. *)
Definition view (s : db T) : T := default (committed s) (working s).

Definition store (t : T) (s : db T) : db T :=
  if autocommit s
  then mkDb t (working s) true (borrowed s) (calls s) (oracle s) (clock s)
  else mkDb (committed s) (Some t) false (borrowed s) (calls s) (oracle s) (clock s).

(** A server call with effect [f]; [None] is a rejected statement. *)
Definition server_call {A} (f : db T -> option (A * db T)) : prog (db T) A := fun s =>
  let o := oracle s (calls s) in
  let s := tick s in
  match o with
  | FailsBefore => (Throws, s)
  | _ => match f s with
         | None => (Throws, s)
         | Some (a, s') => (match o with Fine => Returns a | _ => Throws end, s')
         end
  end.

(** A statement reads NOW() and the tables. *)
Definition exec {A} (f : Z -> T -> option (A * T)) : prog (db T) A :=
  server_call (fun s => '(a, t) ← f (clock s (calls s)) (view s); Some (a, store t s)).

Definition query {A} (f : Z -> T -> A) : prog (db T) A :=
  server_call (fun s => Some (f (clock s (calls s)) (view s), s)).

(** [sql::Connection]: leaving the manual mode commits what is open. *)
Definition setAutoCommit (b : bool) : prog (db T) unit :=
  server_call (fun s => Some (tt,
    if b then mkDb (view s) None true (borrowed s) (calls s) (oracle s) (clock s)
    else mkDb (committed s) (working s) false (borrowed s) (calls s) (oracle s) (clock s))).

Definition commit : prog (db T) unit :=
  server_call (fun s => Some (tt,
    mkDb (view s) None (autocommit s) (borrowed s) (calls s) (oracle s) (clock s))).

Definition rollback : prog (db T) unit :=
  server_call (fun s => Some (tt,
    mkDb (committed s) None (autocommit s) (borrowed s) (calls s) (oracle s) (clock s))).

(** [ResetMysqlTransaction], the pool's sanitizer. *)
Definition ResetMysqlTransaction : prog (db T) unit :=
  auto ← gets autocommit;
  if auto : bool then mret tt else rollback ;; setAutoCommit true.

(** [getConnection]: [false] is [nullptr], a timed-out wait or a stopped
    pool.  A pooled connection is in automatic mode with nothing open. *)
Definition getConnection : prog (db T) bool := fun s =>
  match oracle s (calls s) with
  | Fine => (Returns true,
      mkDb (committed s) None true (borrowed s + 1) (S (calls s)) (oracle s) (clock s))
  | _ => (Returns false, tick s)
  end.

(** [returnConnection]: the sanitizer runs; when it throws the connection is
    closed, which makes the server drop what it had open, and replaced. *)
Definition returnConnection (s : db T) : db T :=
  let '(r, s) := ResetMysqlTransaction s in
  match r with
  | Returns _ => mkDb (committed s) (working s) (autocommit s) (borrowed s - 1) (calls s) (oracle s) (clock s)
  | Throws => mkDb (committed s) None true (borrowed s - 1) (calls s) (oracle s) (clock s)
  end.

(** The frame of most operations: no connection gives [fallback]; otherwise
    [Defer] gives the connection back on every exit of [body]. *)
Definition with_connection {A} (fallback : A) (body : prog (db T) A) : prog (db T) A :=
  con ← getConnection;
  if con : bool then finally body returnConnection else mret fallback.

(** The [catch] block of the transactional operations. *)
Definition abandon : prog (db T) unit :=
  try_catch (rollback ;; setAutoCommit true) (mret tt).

(** *** Rules *)

Lemma wp_server_call {A} (f : db T -> option (A * db T)) Q s :
  Q Throws (tick s) ->
  (forall a s', f (tick s) = Some (a, s') -> Q (Returns a) s' /\ Q Throws s') ->
  wp (server_call f) Q s.
Proof.
  intros Hb Ha. unfold wp, server_call. destruct (oracle s (calls s)); simpl; [| done|];
    (destruct (f (tick s)) as [[a s']|]; [by destruct (Ha a s' eq_refl)|done]).
Qed.

Lemma wp_query {A} (f : Z -> T -> A) Q s :
  Q Throws (tick s) -> Q (Returns (f (clock s (S (calls s))) (view s))) (tick s) ->
  wp (query f) Q s.
Proof. intros. apply wp_server_call; [done|]. intros a s' [= <- <-]. done. Qed.

Lemma wp_exec {A} (f : Z -> T -> option (A * T)) Q s :
  Q Throws (tick s) ->
  (forall a t, f (clock s (S (calls s))) (view s) = Some (a, t) ->
     Q (Returns a) (store t (tick s)) /\ Q Throws (store t (tick s))) ->
  wp (exec f) Q s.
Proof.
  intros Hb Ha. apply wp_server_call; [done|]. intros a s' E. unfold view in *. simpl in *.
  destruct (f _ _) as [[b t]|] eqn:Ef; simplify_eq/=. auto.
Qed.

Lemma wp_with_connection {A} (fallback : A) body Q s :
  Q (Returns fallback) (tick s) ->
  wp body (fun r s' => Q r (returnConnection s'))
     (mkDb (committed s) None true (borrowed s + 1) (S (calls s)) (oracle s) (clock s)) ->
  wp (with_connection fallback body) Q s.
Proof.
  intros Hn Hb. apply wp_bind. unfold wp at 1, getConnection.
  destruct (oracle s (calls s)); simpl; [by apply wp_finally|done|done].
Qed.

(** Giving a connection back loses what it had open and nothing else. *)
Lemma returnConnection_committed s :
  (autocommit s = true -> working s = None) ->
  committed (returnConnection s) = committed s /\ working (returnConnection s) = None /\
  autocommit (returnConnection s) = true /\ borrowed (returnConnection s) = borrowed s - 1 /\
  oracle (returnConnection s) = oracle s /\ clock (returnConnection s) = clock s.
Proof.
  unfold returnConnection, ResetMysqlTransaction, mbind, prog_bind, gets.
  destruct s as [c w a b n o k]; simpl. destruct a; simpl; [intros Hw; by rewrite Hw by done|].
  intros _. unfold rollback, setAutoCommit, server_call, tick. simpl.
  destruct (o n); simpl; try done; destruct (o (S n)); done.
Qed.

Lemma wp_abandon Q s :
  (forall s', committed s' = committed s -> borrowed s' = borrowed s -> oracle s' = oracle s ->
     clock s' = clock s ->
     (autocommit s' = true -> autocommit s = true \/ working s' = None) ->
     (working s' = working s \/ working s' = None) -> Q (Returns tt) s') ->
  wp abandon Q s.
Proof.
  intros H. destruct s as [c w a b n o k]. unfold abandon.
  unfold wp, try_catch, mbind, prog_bind, rollback, setAutoCommit, server_call, tick, view in *.
  simpl. destruct (o n); simpl; try destruct (o (S n)); simpl; apply H; simpl; auto.
Qed.

End Connector.

(** ** Transactional operations *)

Section Transactions.
Context {T : Type}.
Implicit Types (s : db T) (done : T -> Prop).

(** A transaction of this connection is open on top of [c]. *)
Definition in_transaction (c : T) (b : Z) (s : db T) : Prop :=
  committed s = c /\ borrowed s = b /\ autocommit s = false.

(** Nothing of this connection is open. *)
Definition settled (b : Z) (s : db T) : Prop :=
  borrowed s = b /\ (autocommit s = true -> working s = None).

(** What is committed is still [c], or it satisfies [done]. *)
Definition either (c : T) (done : T -> Prop) (s : db T) : Prop :=
  committed s = c \/ done (committed s).

(** How an operation answers: [good] answers promise [done]. *)
Definition answered {A} (good : A -> Prop) (c : T) (done : T -> Prop) (r : outcome A)
    (s : db T) : Prop :=
  match r with
  | Returns a => either c done s /\ (good a -> done (committed s))
  | Throws => False
  end.

(** The two exits of the body of a [try] block. *)
Definition body_exit {A} (good : A -> Prop) (c : T) (done : T -> Prop) (b : Z) (r : outcome A)
    (s : db T) : Prop :=
  settled b s /\ either c done s /\ match r with Returns a => good a -> done (committed s) | Throws => True end.

Lemma in_transaction_store c b t s :
  in_transaction c b s -> in_transaction c b (store t s) /\ view (store t s) = t.
Proof. intros (Hc & Hb & Ha). unfold store. by rewrite Ha. Qed.

Lemma in_transaction_throws {A} (good : A -> Prop) c done b s :
  in_transaction c b s -> body_exit good c done b Throws s.
Proof. intros (Hc & Hb & Ha). split_and!; [split; [done|by rewrite Ha]|by left|done]. Qed.

Lemma wp_commit {A} (good : A -> Prop) c done b (a : A) s :
  in_transaction c b s -> done (view s) ->
  wp (commit ;; setAutoCommit true ;; mret a) (body_exit good c done b) s.
Proof.
  intros Ht Hv. unfold view in Hv. apply wp_bind, wp_server_call; [by apply in_transaction_throws|].
  destruct Ht as (Hc & Hb & Ha). intros [] s' [= <-]. unfold view. simpl. split.
  - apply wp_bind, wp_server_call.
    + split_and!; simpl; [done|by right|done].
    + intros [] s' [= <-]. unfold view. simpl.
      split; [apply wp_ret|]; (split_and!; simpl; [done|by right|done]).
  - split_and!; simpl; [done|by right|done].
Qed.

Lemma wp_rollback {A} (good : A -> Prop) c done b (a : A) s :
  in_transaction c b s -> ~ good a ->
  wp (rollback ;; setAutoCommit true ;; mret a) (body_exit good c done b) s.
Proof.
  intros Ht Hg. apply wp_bind, wp_server_call; [by apply in_transaction_throws|].
  destruct Ht as (Hc & Hb & Ha). intros [] s' [= <-]. split.
  - apply wp_bind, wp_server_call.
    + split_and!; simpl; [done|by left|done].
    + intros [] s' [= <-]. unfold view. simpl.
      split; [apply wp_ret|]; (split_and!; simpl; [done|by left|done]).
  - split_and!; simpl; [done|by left|done].
Qed.

Lemma wp_abandon_exit {A} (good : A -> Prop) c done b (a : A) s :
  settled b s -> either c done s -> ~ good a ->
  wp (abandon ;; mret a) (fun r s' => body_exit good c done b r s' /\ r <> Throws) s.
Proof.
  intros [Hb Hw] Hc Hg. apply wp_bind, wp_abandon. intros s' Ec Eb _ _ Ha Hw'.
  apply wp_ret. unfold body_exit, settled, either. rewrite Ec, Eb. split_and!; try done.
  intros Ht. destruct (Ha Ht) as [Ht'|]; [|done]. destruct Hw' as [->|]; auto.
Qed.

(** A statement inside a transaction: only the open tables move. *)
Lemma wp_exec_in {A} c b (f : Z -> T -> option (A * T)) Q s :
  in_transaction c b s ->
  (forall s', in_transaction c b s' -> Q Throws s') ->
  (forall a t s' now, f now (view s) = Some (a, t) -> in_transaction c b s' -> view s' = t ->
     Q (Returns a) s') ->
  wp (exec f) Q s.
Proof.
  intros Ht Hthrow Hret. apply wp_exec; [by apply Hthrow|]. intros a t E.
  destruct (in_transaction_store c b t (tick s)) as [Ht' Hv]; [done|].
  split; [by eapply Hret|by apply Hthrow].
Qed.

Lemma wp_query_in {A} c b (f : Z -> T -> A) Q s :
  in_transaction c b s ->
  (forall s', in_transaction c b s' -> Q Throws s') ->
  (forall s' now, in_transaction c b s' -> view s' = view s -> Q (Returns (f now (view s))) s') ->
  wp (query f) Q s.
Proof. intros Ht Hthrow Hret. apply wp_query; [by apply Hthrow|by apply Hret]. Qed.

(** Manual mode, with [c] or a [done] state committed. *)
Definition manual (c : T) (done : T -> Prop) (b : Z) (s : db T) : Prop :=
  autocommit s = false /\ borrowed s = b /\ either c done s.

Lemma manual_exit {A} (good : A -> Prop) c done b (r : outcome A) s :
  manual c done b s -> match r with Returns a => good a -> done (committed s) | Throws => True end ->
  body_exit good c done b r s.
Proof. intros (Ha & Hb & He) Hr. split_and!; try done. split; [done|by rewrite Ha]. Qed.

Lemma wp_manual_rollback c done b s :
  manual c done b s -> wp rollback (fun _ s' => manual c done b s') s.
Proof. intros Hm. apply wp_server_call; [done|]. by intros [] s' [= <-]. Qed.

Lemma wp_manual_commit c done b s :
  in_transaction c b s -> done (view s) ->
  wp commit (fun r s' => manual c done b s' /\
               match r with Returns _ => done (committed s') | Throws => True end) s.
Proof.
  intros (Hc & Hb & Ha) Hv. apply wp_server_call; [split; [|done]; by split_and!; [..|left]|].
  intros [] s' [= <-]. unfold view in *. simpl in *. split; (split; [|done]); by split_and!; [..|right].
Qed.

Lemma in_transaction_manual c done b s : in_transaction c b s -> manual c done b s.
Proof. intros (Hc & Hb & Ha). by split_and!; [..|left]. Qed.

(** Giving the connection back keeps what the body committed. *)
Lemma body_exit_returned {A} (good : A -> Prop) c done b (r : outcome A) s :
  body_exit good c done (b + 1) r s -> r <> Throws ->
  answered good c done r (returnConnection s) /\ borrowed (returnConnection s) = b.
Proof.
  intros ([Hb Hs] & He & Hg) Hr. destruct (returnConnection_committed s Hs) as (Ec & _ & _ & Eb & _).
  unfold answered, either in *. rewrite Ec, Eb. split; [|lia]. by destruct r.
Qed.

(** The frame shared by the transactional operations: whatever fails, the
    operation answers, gives its connection back, and has committed all or
    nothing. *)
Lemma wp_transaction {A} (good : A -> Prop) (fallback : A) (body : prog (db T) A) done s :
  ~ good fallback ->
  (forall s0, in_transaction (committed s) (borrowed s + 1) s0 -> working s0 = None ->
     wp body (body_exit good (committed s) done (borrowed s + 1)) s0) ->
  wp (with_connection fallback
        (try_catch (setAutoCommit false ;; body) (abandon ;; mret fallback)))
     (fun r s' => answered good (committed s) done r s' /\ borrowed s' = borrowed s) s.
Proof.
  intros Hg Hbody. apply wp_with_connection; [split; [split; [by left|done]|done]|].
  apply (wp_mono _ (fun r s' => body_exit good (committed s) done (borrowed s + 1) r s' /\ r <> Throws));
    [|intros r s' [? ?]; by apply body_exit_returned].
  apply wp_try, wp_bind, wp_server_call; [by apply wp_abandon_exit; [|left|]|].
  intros [] s' [= <-]. split; [|by apply wp_abandon_exit; [|left|]].
  eapply wp_mono; [by apply Hbody|]. intros [a|] s' Hs; [done|].
  destruct Hs as (? & ? & _). by apply wp_abandon_exit.
Qed.

End Transactions.

(** ** Reading operations *)

Section Reading.
Context {T : Type}.

(** The frame of the operations that run one query in a [try] block: they
    answer from the committed tables at some time [now], or the fallback. *)
Lemma read_operation {A B} (fallback : B) (f : Z -> T -> A) (g : A -> B) (s : db T) :
  exists now, exists answer s',
    with_connection fallback
      (try_catch (a ← query f; mret (g a)) (mret fallback)) s = (Returns answer, s') /\
    committed s' = committed s /\ borrowed s' = borrowed s /\
    (answer = fallback \/ answer = g (f now (committed s))).
Proof.
  unfold with_connection, getConnection, mbind, prog_bind.
  destruct s as [c w a b n o k]; simpl.
  exists (k (S (S n))). destruct (o n); simpl; [|by eexists _, _; split_and!; [|..|left]..].
  unfold finally, try_catch, query, server_call, returnConnection, ResetMysqlTransaction, view,
    mbind, prog_bind, gets. simpl.
  destruct (o (S n)); simpl; (eexists _, _; split_and!; [reflexivity|done|simpl; lia|auto]).
Qed.

(** The same for one changing statement in automatic mode. *)
Lemma update_operation {A B} (fallback : B) (f : Z -> T -> option (A * T)) (g : A -> B) (s : db T) :
  exists now answer s',
    with_connection fallback
      (try_catch (a ← exec f; mret (g a)) (mret fallback)) s = (Returns answer, s') /\
    borrowed s' = borrowed s /\
    (committed s' = committed s /\ answer = fallback \/
     exists a, f now (committed s) = Some (a, committed s') /\ (answer = g a \/ answer = fallback)).
Proof.
  unfold with_connection, getConnection, mbind, prog_bind.
  destruct s as [c w a b n o k]; simpl.
  exists (k (S (S n))). destruct (o n); simpl; [|by eexists _, _; split_and!; [| |left]..].
  unfold finally, try_catch, exec, server_call, returnConnection, ResetMysqlTransaction, view, store,
    mbind, prog_bind, gets. simpl.
  destruct (o (S n)); simpl; try (destruct (f _ c) as [[x t]|] eqn:E; simpl);
    (eexists _, _; split_and!; [reflexivity|simpl; lia|eauto]).
Qed.

End Reading.

(** A database whose calls all succeed, at one moment. *)
Definition healthy {T} (t : T) (now : Z) : db T :=
  mkDb t None true 0 0 (fun _ => Fine) (fun _ => now).
