(* ===== verification/MessageStore.v ===== *)
(** The client's message store ([src/client/model/MessageStore.cpp]): an
    SQLite file per gateway and account, with the messages to send and the
    messages received.

    SQLite is the connection of [Mysql] under the calls of [QSqlDatabase]: a
    call does its work, fails before it, or fails after it, and a call that
    fails returns [false], which is an exception here until the method turns
    it into its result.  Text is its UTF-8 bytes. *)
From S2P Require Import Prelude Mysql.

(** ** State *)

Inductive State := pending_ | accepted_ | received_.

#[export] Instance State_eq_dec : EqDecision State.
Proof. solve_decision. Defined.

(** A row of [messages]; the rows are in the order of [seq]. *)
Record Row := mkRow {
  s_sender : Z; s_receiver : Z; s_msgid : string; s_content : string;
  s_state : State; s_next_attempt : Z; s_attempts : Z;
}.

Record File := mkFile { account : list Z; messages : list Row }.

Record MessageStore := mkMessageStore { db_ : db File; is_open : bool; uid_ : Z }.

Definition set_db (d : db File) (m : MessageStore) : MessageStore := mkMessageStore d (is_open m) (uid_ m).
Definition on_file {A} (p : prog (db File) A) : prog MessageStore A := zoom db_ set_db p.

(** The members of a message that the methods read: [msgid], [content]. *)
Definition item : Type := string * string.

(** ** [QSqlDatabase] *)

Definition transaction : prog (db File) unit :=
  server_call (fun s => if autocommit s
    then Some (tt, mkDb (committed s) None false (borrowed s) (calls s) (oracle s) (clock s)) else None).
Definition commit : prog (db File) unit :=
  server_call (fun s => if autocommit s then None
    else Some (tt, mkDb (view s) None true (borrowed s) (calls s) (oracle s) (clock s))).
Definition rollback : prog (db File) unit :=
  server_call (fun s => if autocommit s then None
    else Some (tt, mkDb (committed s) None true (borrowed s) (calls s) (oracle s) (clock s))).

(** ** Methods *)

(** Closing the connection drops what is open. *)
Definition close : prog MessageStore unit :=
  modify (fun m => let d := db_ m in
    mkMessageStore (mkDb (committed d) None true (borrowed d) (calls d) (oracle d) (clock d)) false 0).

Definition fail {A} (result : A) : prog MessageStore A :=
  opened ← gets is_open;
  (if opened : bool then try_catch (on_file rollback) (mret tt) else mret tt) ;;
  mret result.

(** [open] on the file of the account; [PRAGMA] and [CREATE ... IF NOT EXISTS]
    change no row. *)
Fixpoint schema_loop (n : nat) : prog (db File) unit :=
  match n with O => mret tt | S n => query (fun _ _ => tt) ;; schema_loop n end.

Definition open (uid : Z) : prog MessageStore bool :=
  close ;;
  if uid <=? 0 then fail false
  else
    try_catch (
      on_file (query (fun _ _ => tt)) ;;
      modify (fun m => mkMessageStore (db_ m) true (uid_ m)) ;;
      on_file (schema_loop 6) ;;
      accounts ← on_file (query (fun _ f => account f));
      match accounts with
      | u :: rest => if negb (u =? uid) || negb (bool_decide (rest = [])) then throw else mret tt
      | [] => on_file (exec (fun _ f => Some (tt, mkFile [uid] (messages f))))
      end ;;
      modify (fun m => mkMessageStore (db_ m) (is_open m) uid) ;;
      mret true)
    (fail false).

Definition item_ok (i : item) : bool :=
  negb (sempty i.1) && (ssize i.1 <=? 128) && negb (sempty i.2) && (ssize i.2 <=? 2048).

Definition has_key (sender : Z) (msgid : string) (r : Row) : bool :=
  (s_sender r =? sender) && String.eqb (s_msgid r) msgid.

(** [UNIQUE(sender,msgid)] *)
Definition insert_row (r : Row) (now : Z) (f : File) : option (unit * File) :=
  if existsb (has_key (s_sender r) (s_msgid r)) (messages f) then None
  else Some (tt, mkFile (account f) (messages f ++ [r])).

Fixpoint save_loop (uid from to : Z) (items : list item) (inserted : list item) : prog (db File) (list item) :=
  match items with
  | [] => mret inserted
  | i :: items =>
      if negb (item_ok i) then throw
      else
        row ← query (fun _ f => List.find (has_key from i.1) (messages f));
        match row with
        | Some r =>
            if negb (s_receiver r =? to) || negb (String.eqb (s_content r) i.2) then throw
            else save_loop uid from to items inserted
        | None =>
            exec (insert_row (mkRow from to i.1 i.2 (if from =? uid then pending_ else received_) 0 0)) ;;
            save_loop uid from to items (inserted ++ [i])
        end
  end.

(** [save]: [Some fresh] on success. *)
Definition save (from to : Z) (items : list item) : prog MessageStore (option (list item)) :=
  uid ← gets uid_;
  if (uid =? 0) || (from <=? 0) || (to <=? 0) || (from =? to) || (negb (from =? uid) && negb (to =? uid))
     || bool_decide (items = []) || (50 <? Z.of_nat (length items))
  then fail None
  else
    try_catch (
      on_file (transaction ;; inserted ← save_loop uid from to items []; commit ;; mret (Some inserted)))
    (fail None).

(** The members of a response that [accept] reads, absent ones at their
    defaults. *)
Record Response := mkResponse {
  fromuid : Z; error : Z; delivery : string; touid : Z; text_array : list item;
}.

Definition set_accepted (r : Row) : Row :=
  mkRow (s_sender r) (s_receiver r) (s_msgid r) (s_content r) accepted_ (s_next_attempt r) (s_attempts r).

Definition accepts (uid to : Z) (i : item) (r : Row) : bool :=
  has_key uid i.1 r && (s_receiver r =? to) && String.eqb (s_content r) i.2.

Definition accept_row (uid to : Z) (i : item) (now : Z) (f : File) : option (nat * File) :=
  Some (length (filter (fun r => accepts uid to i r = true) (messages f)),
        mkFile (account f) ((fun r => if accepts uid to i r then set_accepted r else r) <$> messages f)).

Fixpoint accept_loop (uid to : Z) (items : list item) : prog (db File) unit :=
  match items with
  | [] => mret tt
  | i :: items =>
      n ← exec (accept_row uid to i);
      if negb (n =? 1)%nat then throw else accept_loop uid to items
  end.

Definition accept (r : Response) : prog MessageStore bool :=
  uid ← gets uid_;
  if (uid =? 0) || negb (fromuid r =? uid) || negb (error r =? 0) || negb (String.eqb (delivery r) "accepted")
     || bool_decide (text_array r = []) || (50 <? Z.of_nat (length (text_array r)))
  then mret false
  else
    try_catch (on_file (transaction ;; accept_loop uid (touid r) (text_array r) ;; commit ;; mret true)) (fail false).

(** [ORDER BY next_attempt,seq]: a stable sort of the rows. *)
Fixpoint insert_by (r : Row) (l : list Row) : list Row :=
  match l with
  | [] => [r]
  | x :: l => if s_next_attempt r <=? s_next_attempt x then r :: x :: l else x :: insert_by r l
  end.
Definition by_attempt (l : list Row) : list Row := foldr insert_by [] l.

Definition qBound (low x high : Z) : Z := Z.max low (Z.min high x).

Definition is_due (uid now : Z) (r : Row) : bool :=
  bool_decide (s_state r = pending_) && (s_sender r =? uid) && (s_next_attempt r <=? now).

(** The receiver and the message of each row. *)
Definition pending (now limit : Z) : prog MessageStore (list (Z * item)) :=
  uid ← gets uid_;
  if uid =? 0 then mret []
  else
    try_catch (
      on_file (query (fun _ f => (fun r => (s_receiver r, (s_msgid r, s_content r))) <$>
        take (Z.to_nat (qBound 1 limit 16)) (by_attempt (filter (fun r => is_due uid now r = true) (messages f))))))
    (fail []).

(** [MIN(60,5 * (1 << MIN(attempts,4)))] *)
Definition retry_delay (attempts : Z) : Z := Z.min 60 (5 * Z.shiftl 1 (Z.min attempts 4)).

Definition attempt (now : Z) (r : Row) : Row :=
  mkRow (s_sender r) (s_receiver r) (s_msgid r) (s_content r) (s_state r)
    (now + retry_delay (s_attempts r)) (Z.min (s_attempts r + 1) 5).

Definition tries (uid : Z) (msgid : string) (r : Row) : bool :=
  has_key uid msgid r && bool_decide (s_state r = pending_).

Definition attempt_row (uid : Z) (msgid : string) (at_ : Z) (now : Z) (f : File) : option (nat * File) :=
  Some (length (filter (fun r => tries uid msgid r = true) (messages f)),
        mkFile (account f) ((fun r => if tries uid msgid r then attempt at_ r else r) <$> messages f)).

Definition attempted (msgid : string) (now : Z) : prog MessageStore bool :=
  uid ← gets uid_;
  if uid =? 0 then mret false
  else try_catch (n ← on_file (exec (attempt_row uid msgid now)); mret (n =? 1)%nat) (fail false).

Definition between (uid peer : Z) (r : Row) : bool :=
  (s_sender r =? uid) && (s_receiver r =? peer) || (s_sender r =? peer) && (s_receiver r =? uid).

(** The newest rows, the oldest of them first. *)
Definition history (peer limit : Z) : prog MessageStore (list Row) :=
  uid ← gets uid_;
  if uid =? 0 then mret []
  else
    try_catch (
      on_file (query (fun _ f =>
        reverse (take (Z.to_nat (qBound 1 limit 200)) (reverse (filter (fun r => between uid peer r = true) (messages f)))))))
    (fail []).

(** ** What the file keeps *)

(** Who said what to whom. *)
Definition identity (r : Row) : Z * Z * item := (s_sender r, s_receiver r, (s_msgid r, s_content r)).
Definition row_key (r : Row) : Z * string := (s_sender r, s_msgid r).

(** A connection without leftovers, the state the methods start from. *)
Definition tidy (m : MessageStore) : Prop :=
  (autocommit (db_ m) = true -> working (db_ m) = None) /\ NoDup (row_key <$> messages (committed (db_ m))).

(** A file grown by rows of a batch; a new one waits when it is the own
    account's, and every message of the batch is there. *)
Definition grown (uid from to : Z) (items fresh : list item) (f f' : File) : Prop :=
  exists new, messages f' = messages f ++ new /\ fresh = (fun r => (s_msgid r, s_content r)) <$> new /\
    Forall (fun r => s_sender r = from /\ s_receiver r = to /\ s_state r = (if from =? uid then pending_ else received_) /\
                     s_next_attempt r = 0) new /\
    (forall i, i ∈ items -> exists r, r ∈ messages f' /\ identity r = (from, to, i)) /\
    (NoDup (row_key <$> messages f) -> NoDup (row_key <$> messages f')) /\ fresh ⊆ items.

Lemma has_key_spec sender msgid r : has_key sender msgid r = true <-> row_key r = (sender, msgid).
Proof.
  unfold has_key, row_key. rewrite andb_true_iff, Z.eqb_eq, String.eqb_eq. split; [by intros [-> ->]|by intros [= -> ->]].
Qed.

Lemma key_find sender msgid l : 
  match List.find (has_key sender msgid) l with
  | Some r => r ∈ l /\ row_key r = (sender, msgid)
  | None => (sender, msgid) ∉ row_key <$> l
  end.
Proof.
  destruct (List.find _ l) as [r|] eqn:E.
  - apply find_some in E as [Hin%list_elem_of_In Hk%has_key_spec]. done.
  - intros (r & Hk & Hr)%list_elem_of_fmap. apply list_elem_of_In in Hr.
    pose proof (find_none _ _ E r Hr) as Hn. symmetry in Hk. apply has_key_spec in Hk. congruence.
Qed.

Lemma wp_save_loop uid from to c b items : forall inserted s, in_transaction c b s ->
  wp (save_loop uid from to items inserted) (fun r s' => in_transaction c b s' /\
    forall all, r = Returns all -> exists fresh, all = inserted ++ fresh /\ grown uid from to items fresh (view s) (view s')) s.
Proof.
  induction items as [|i items IH]; intros inserted s Ht; cbn [save_loop].
  { apply wp_ret. split; [done|]. intros all [= <-]. exists []. rewrite app_nil_r. split; [done|].
    exists []. rewrite app_nil_r. split_and!; try done. by intros i ?%elem_of_nil. }
  destruct (negb (item_ok i)); [by apply wp_throw|].
  apply wp_bind, (wp_query_in c b); [done|done|]. intros s1 now Ht1 Ev1.
  pose proof (key_find from i.1 (messages (view s))) as Hfind.
  destruct (List.find _ _) as [row|] eqn:Ef; cbn beta iota.
  - destruct (negb (s_receiver row =? to) || _) eqn:Ec; [by apply wp_throw|].
    apply orb_false_iff in Ec as [Ec1%negb_false_iff%Z.eqb_eq Ec2%negb_false_iff%String.eqb_eq].
    destruct Hfind as [Hin [= Hs Hm]]. eapply wp_mono; [by apply IH|]. intros r s' [Ht' Hr]. split; [done|].
    intros all Hall. destruct (Hr all Hall) as (fresh & -> & new & E1 & E2 & E3 & E4 & E5 & E6). rewrite Ev1 in *.
    exists fresh. split; [done|]. exists new. split_and!; try done; [|set_solver].
    intros j [->|Hj]%elem_of_cons; [|by apply E4]. exists row. rewrite E1. split; [apply elem_of_app; by left|].
    unfold identity. rewrite Hs, Hm, Ec1, Ec2. by destruct i.
  - apply wp_bind, (wp_exec_in c b); [done|done|]. intros [] t s2 now2 E Ht2 Ev2. unfold insert_row in E. cbn in E.
    destruct (existsb _ _) eqn:Ex; [done|]. injection E as <-.
    set (row := mkRow from to i.1 i.2 _ 0 0) in *.
    eapply wp_mono; [by apply IH|]. intros r s' [Ht' Hr]. split; [done|]. intros all Hall.
    destruct (Hr all Hall) as (fresh & -> & new & E1 & E2 & E3 & E4 & E5 & E6). rewrite Ev2, Ev1 in *. cbn [messages] in *.
    exists (i :: fresh). rewrite <- (assoc_L app). split; [done|]. exists (row :: new).
    rewrite E1, <- (assoc_L app). split_and!; [done| |by constructor| | |set_solver].
    + rewrite fmap_cons, <- E2. by destruct i.
    + intros j [->|Hj]%elem_of_cons; [|rewrite E1, <- (assoc_L app) in E4; by apply E4].
      exists row. split; [set_solver|]. unfold row, identity. cbn. by destruct i.
    + intros Hnd. rewrite E1, <- (assoc_L app) in E5. apply E5. rewrite fmap_app. apply NoDup_app.
      split_and!; [done| |apply NoDup_singleton]. intros x Hx Hin%list_elem_of_singleton. subst x. by apply Hfind.
Qed.

Definition no_leftover (s : db File) : Prop := autocommit s = true -> working s = None.

(** A transaction ends with the effect of its body, or with nothing; it may
    have ended well without the client knowing. *)
Lemma wp_block {X A} (body : prog (db File) X) (g : X -> A) (R : X -> File -> File -> Prop) s : no_leftover s ->
  (forall b s1, in_transaction (committed s) b s1 -> view s1 = committed s ->
     wp body (fun r s' => in_transaction (committed s) b s' /\ forall x, r = Returns x -> R x (committed s) (view s')) s1) ->
  wp (transaction ;; x ← body; commit ;; mret (g x)) (fun r s' => no_leftover s' /\
    (r = Throws /\ committed s' = committed s \/
     exists x, R x (committed s) (committed s') /\ (r = Returns (g x) \/ r = Throws))) s.
Proof.
  intros Hn Hbody. apply wp_bind, wp_server_call; [split; [done|by left]|].
  intros [] s1 E. unfold tick in E. cbn in E. destruct (autocommit s) eqn:Ea; [|done]. injection E as <-.
  split; [|split; [done|by left]]. apply wp_bind. eapply wp_mono; [by apply (Hbody (borrowed s))|].
  intros [x|] s2 [(Hc & _ & Ha2) HR]; [|split; [unfold no_leftover; congruence|left; auto]].
  specialize (HR x eq_refl). apply wp_bind, wp_server_call.
  - split; [unfold no_leftover; cbn; congruence|]. left. auto.
  - intros [] s3 E. unfold tick in E. cbn in E. rewrite Ha2 in E. injection E as <-.
    split; [apply wp_ret|]; (split; [done|]); right; exists x; cbn; auto.
Qed.

Lemma wp_on_file {A} (p : prog (db File) A) Q m : wp p (fun r d => Q r (set_db d m)) (db_ m) -> wp (on_file p) Q m.
Proof. apply wp_zoom. Qed.

Lemma wp_failed {A} (a : A) Q m : no_leftover (db_ m) ->
  (forall d, no_leftover d -> committed d = committed (db_ m) -> Q (Returns a) (set_db d m)) -> wp (fail a) Q m.
Proof.
  intros Hn HQ. apply wp_bind, wp_gets. destruct (is_open m).
  - apply wp_bind, wp_try, wp_on_file, wp_server_call; [by apply wp_ret, wp_ret, HQ|].
    intros [] s E. unfold tick in E. cbn in E. destruct (autocommit (db_ m)); [done|]. injection E as <-.
    split; [apply wp_ret|apply wp_ret, wp_ret]; by apply HQ.
  - apply wp_bind, wp_ret, wp_ret. specialize (HQ (db_ m) Hn eq_refl). by destruct m.
Qed.

(** [save] *)
Lemma save_spec from to items m : no_leftover (db_ m) ->
  wp (save from to items) (fun r m' => no_leftover (db_ m') /\ uid_ m' = uid_ m /\ is_open m' = is_open m /\
    ((r = Returns None /\ committed (db_ m') = committed (db_ m)) \/
     exists fresh, grown (uid_ m) from to items fresh (committed (db_ m)) (committed (db_ m')) /\
       (r = Returns (Some fresh) \/ r = Returns None))) m.
Proof.
  intros Hn. apply wp_bind, wp_gets. destruct (_ || _ || _).
  { apply wp_failed; [done|]. intros d Hd Ec. split_and!; try done. left. auto. }
  apply wp_try, wp_on_file. eapply wp_mono.
  - apply (wp_block (save_loop (uid_ m) from to items []) Some
      (fun fresh f f' => grown (uid_ m) from to items fresh f f') (db_ m) Hn).
    intros b s1 Ht Ev. eapply wp_mono; [by apply (wp_save_loop _ _ _ (committed (db_ m)) b)|].
    intros r s' [Ht' Hr]. split; [done|]. intros all Hall. destruct (Hr all Hall) as (fresh & -> & Hg).
    by rewrite Ev in Hg.
  - intros r s' [Hn' Hcase]. destruct r as [a|].
    + split_and!; try done. right. destruct Hcase as [[? _]|(fresh & Hg & Hr)]; [done|]. exists fresh.
      split; [done|]. left. by destruct Hr as [[= ->]|?].
    + apply wp_failed; [done|]. intros d Hd Ec. split_and!; try done. cbn in Ec.
      destruct Hcase as [[_ E]|(fresh & Hg & _)]; [left; split; [done|cbn; congruence]|right].
      exists fresh. cbn; rewrite Ec. auto.
Qed.

(** [accept] *)
Definition accept_all (uid to : Z) (items : list item) (r : Row) : Row :=
  if existsb (fun i => accepts uid to i r) items then set_accepted r else r.

Lemma wp_accept_loop uid to c b items : forall s, in_transaction c b s ->
  wp (accept_loop uid to items) (fun r s' => in_transaction c b s' /\
    (r <> Throws -> messages (view s') = accept_all uid to items <$> messages (view s))) s.
Proof.
  induction items as [|i items IH]; intros s Ht; cbn [accept_loop].
  { apply wp_ret. split; [done|]. intros _. symmetry. apply list_fmap_id. }
  apply wp_bind, (wp_exec_in c b); [done|done|]. intros n t s1 now E Ht1 Ev. injection E as <- <-.
  destruct (negb _); [by apply wp_throw|]. eapply wp_mono; [by apply IH|]. intros r s' [Ht' Hr].
  split; [done|]. intros Hne. rewrite Hr, Ev by done. cbn [messages]. rewrite <- list_fmap_compose.
  apply list_fmap_ext. intros _ r0 _. unfold compose, accept_all. cbn [existsb].
  destruct (accepts uid to i r0); [|done]. unfold accepts, has_key, set_accepted. cbn. by destruct (existsb _ _).
Qed.

Lemma accept_spec resp m : no_leftover (db_ m) ->
  wp (accept resp) (fun r m' => no_leftover (db_ m') /\ uid_ m' = uid_ m /\ is_open m' = is_open m /\
    (r = Returns false /\ committed (db_ m') = committed (db_ m) \/
     fromuid resp = uid_ m /\ error resp = 0 /\ delivery resp = "accepted"%string /\
     messages (committed (db_ m')) = accept_all (uid_ m) (touid resp) (text_array resp) <$> messages (committed (db_ m)) /\
     (r = Returns true \/ r = Returns false))) m.
Proof.
  intros Hn. apply wp_bind, wp_gets. destruct (_ || _) eqn:Eg; [apply wp_ret; split_and!; try done; by left|].
  repeat (apply orb_false_iff in Eg as [Eg ?]). apply negb_false_iff in H1, H2, H3.
  apply Z.eqb_eq in H2, H3. apply String.eqb_eq in H1.
  apply wp_try, wp_on_file. eapply wp_mono.
  - apply (wp_block (accept_loop (uid_ m) (touid resp) (text_array resp)) (fun _ => true)
      (fun _ f f' => messages f' = accept_all (uid_ m) (touid resp) (text_array resp) <$> messages f) (db_ m) Hn).
    intros b s1 Ht Ev. eapply wp_mono; [by apply (wp_accept_loop _ _ (committed (db_ m)) b)|].
    intros r s' [Ht' Hr]. split; [done|]. intros x ->. rewrite Hr by done. by rewrite Ev.
  - intros r s' [Hn' Hcase]. destruct r as [a|].
    + split_and!; try done. right. destruct Hcase as [[? _]|(x & Hg & Hr)]; [done|]. split_and!; try done.
      left. by destruct Hr as [[= ->]|?].
    + apply wp_failed; [done|]. intros d Hd Ec. split_and!; try done. cbn in Ec |- *. rewrite Ec.
      destruct Hcase as [[_ E]|(x & Hg & _)]; [by left|right]. split_and!; auto.
Qed.

(** [attempted] *)
Definition attempt_all (uid : Z) (msgid : string) (now : Z) (r : Row) : Row :=
  if tries uid msgid r then attempt now r else r.

Lemma attempted_spec msgid now m : no_leftover (db_ m) ->
  wp (attempted msgid now) (fun r m' => no_leftover (db_ m') /\ uid_ m' = uid_ m /\ is_open m' = is_open m /\
    r <> Throws /\
    (committed (db_ m') = committed (db_ m) \/
     messages (committed (db_ m')) = attempt_all (uid_ m) msgid now <$> messages (committed (db_ m)))) m.
Proof.
  intros Hn. apply wp_bind, wp_gets. destruct (uid_ m =? 0); [apply wp_ret; split_and!; try done; by left|].
  apply wp_try, wp_bind, wp_on_file, wp_exec.
  { apply wp_failed; [done|]. intros d Hd Ec. split_and!; try done. by left. }
  intros n t E. injection E as <- <-. set (d1 := store _ _).
  assert (no_leftover d1 /\ (committed d1 = committed (db_ m) \/
    messages (committed d1) = attempt_all (uid_ m) msgid now <$> messages (committed (db_ m)))) as [Hn1 Hc1].
  { unfold d1, store, no_leftover, view in *. cbn. destruct (autocommit (db_ m)); [|split; [done|by left]].
    rewrite (Hn eq_refl). cbn. split; [done|]. right. done. }
  split.
  - apply wp_ret. split_and!; done.
  - apply wp_failed; [done|]. intros d Hd Ec. split_and!; try done. cbn in Ec |- *. by rewrite Ec.
Qed.

(** The methods that read. *)
Lemma reading_spec {A} (f : Z -> File -> A) a m : no_leftover (db_ m) ->
  wp (try_catch (on_file (query f)) (fail a)) (fun r m' => no_leftover (db_ m') /\ uid_ m' = uid_ m /\
    is_open m' = is_open m /\ r <> Throws /\ committed (db_ m') = committed (db_ m)) m.
Proof.
  intros Hn. apply wp_try, wp_on_file, wp_query; [|by split_and!].
  apply wp_failed; [done|]. intros d Hd Ec. by split_and!.
Qed.

Lemma open_spec uid m : no_leftover (db_ m) ->
  wp (open uid) (fun r m' => no_leftover (db_ m') /\ r <> Throws /\
    messages (committed (db_ m')) = messages (committed (db_ m))) m.
Proof.
  intros Hn. apply wp_bind, wp_modify. set (m0 := mkMessageStore _ _ _).
  assert (forall m' : MessageStore, no_leftover (db_ m') -> messages (committed (db_ m')) = messages (committed (db_ m)) ->
    wp (fail false) (fun r m' => no_leftover (db_ m') /\ r <> Throws /\
      messages (committed (db_ m')) = messages (committed (db_ m))) m') as Hfail.
  { intros m' Hn' E. apply wp_failed; [done|]. intros d Hd Ec. split_and!; try done. cbn. by rewrite Ec. }
  destruct (uid <=? 0); [by apply Hfail|]. apply wp_try, wp_bind, wp_on_file, wp_query; [by apply Hfail|].
  apply wp_bind, wp_modify, wp_bind, wp_on_file. cbn [db_ set_db is_open uid_].
  assert (forall n Q (s : db File), (forall r s', no_leftover s' -> committed s' = committed s -> 
    autocommit s' = autocommit s -> Q r s') -> no_leftover s ->
    wp (schema_loop n) Q s) as Hloop.
  { induction n as [|n IH]; intros Q s HQ Hs; [by apply wp_ret, HQ|].
    apply wp_bind, wp_query; [by apply HQ|]. apply IH; [|done]. intros r s'. apply HQ. }
  apply Hloop; [|done]. intros [[]|] s1 Hs1 Ec1 Ea1; [|apply Hfail; [done|cbn; by rewrite Ec1]].
  apply wp_bind, wp_on_file, wp_query; [apply Hfail; [done|cbn; by rewrite Ec1]|].
  cbn [db_ set_db]. destruct (account _) as [|u rest].
  - apply wp_bind, wp_on_file, wp_exec; [apply Hfail; [done|cbn; by rewrite Ec1]|]. intros [] t [= <-].
    unfold store. cbn. rewrite Ea1. unfold m0, view. cbn. rewrite Hs1 by done. cbn.
    split; [apply wp_bind, wp_modify, wp_ret; split_and!; [done|done|cbn; by rewrite Ec1]|apply Hfail; [done|cbn; by rewrite Ec1]].
  - destruct (_ || _); [apply wp_bind, wp_throw, Hfail; [done|cbn; by rewrite Ec1]|].
    apply wp_bind, wp_ret, wp_bind, wp_modify, wp_ret. split_and!; [done|done|cbn; by rewrite Ec1].
Qed.

(** A call that fails, where the connection does not matter. *)
Lemma wp_fail_any {A} (a : A) Q m : (forall d, Q (Returns a) (set_db d m)) -> wp (fail a) Q m.
Proof.
  intros HQ. apply wp_bind, wp_gets. destruct (is_open m).
  - apply wp_bind, wp_try, wp_on_file, wp_server_call; [by apply wp_ret, wp_ret|]. intros [] s _.
    split; [by apply wp_ret|by apply wp_ret, wp_ret].
  - apply wp_bind, wp_ret, wp_ret. specialize (HQ (db_ m)). by destruct m.
Qed.

(** [open] leaves the account it was asked for, or none. *)
Lemma open_uid uid m : wp (open uid) (fun r m' => uid_ m' = match r with Returns true => uid | _ => 0 end) m.
Proof.
  apply wp_bind, wp_modify.
  assert (forall m' : MessageStore, uid_ m' = 0 -> wp (fail false) (fun r m' => uid_ m' = match r with Returns true => uid | _ => 0 end) m') as Hfail.
  { intros m' E. by apply wp_fail_any. }
  destruct (uid <=? 0); [by apply Hfail|]. apply wp_try, wp_bind, wp_on_file, wp_query; [by apply Hfail|].
  apply wp_bind, wp_modify, wp_bind, wp_on_file. cbn [db_ set_db is_open uid_].
  assert (forall n Q (s : db File), (forall r s', Q r s') -> wp (schema_loop n) Q s) as Hloop.
  { induction n as [|n IH]; intros Q s HQ; [by apply wp_ret, HQ|]. apply wp_bind, wp_query; [by apply HQ|]. by apply IH. }
  apply Hloop. intros [[]|] s1; [|by apply Hfail]. apply wp_bind, wp_on_file, wp_query; [by apply Hfail|].
  cbn [db_ set_db]. destruct (account _) as [|u rest].
  - apply wp_bind, wp_on_file, wp_exec; [by apply Hfail|]. intros [] t [= <-].
    split; [by apply wp_bind, wp_modify, wp_ret|by apply Hfail].
  - destruct (_ || _); [by apply wp_bind, wp_throw, Hfail|]. by apply wp_bind, wp_ret, wp_bind, wp_modify, wp_ret.
Qed.

(** [save] takes messages of the account that is open. *)
Lemma save_account from to items fresh m m' : save from to items m = (Returns (Some fresh), m') ->
  uid_ m <> 0 /\ from <> to /\ (from = uid_ m \/ to = uid_ m).
Proof.
  intros E. assert (wp (save from to items) (fun r _ => forall l, r = Returns (Some l) ->
    uid_ m <> 0 /\ from <> to /\ (from = uid_ m \/ to = uid_ m)) m) as Hw; [|unfold wp in Hw; rewrite E in Hw; by eapply Hw].
  apply wp_bind, wp_gets. destruct (_ || _) eqn:Eg.
  - by apply wp_fail_any.
  - unfold wp. destruct (try_catch _ _ _) as [r m1]. intros l _. bool_hyps. lia.
Qed.

Lemma save_guard from to items m : no_leftover (db_ m) ->
  (uid_ m <> 0 /\ from <> to /\ (from = uid_ m \/ to = uid_ m)) \/
  committed (db_ (save from to items m).2) = committed (db_ m).
Proof.
  intros Hn. assert (wp (save from to items) (fun _ m' => (uid_ m <> 0 /\ from <> to /\ (from = uid_ m \/ to = uid_ m)) \/
    committed (db_ m') = committed (db_ m)) m) as Hw; [|exact Hw].
  apply wp_bind, wp_gets. destruct (_ || _) eqn:Eg; [apply wp_failed; [done|]; by right|].
  unfold wp. destruct (try_catch _ _ _) as [r m1]. left. bool_hyps. lia.
Qed.

(** ** Traces *)

(** What the client does with its store; a restart of the client is a [Close]
    and an [Open]. *)
Inductive store_op :=
| Open (uid : Z)
| Close
| Save (from to : Z) (items : list item)
| Accept (r : Response)
| Pending (now limit : Z)
| Attempted (msgid : string) (now : Z)
| History (peer limit : Z).

Definition run_store (m : MessageStore) (op : store_op) : MessageStore :=
  match op with
  | Open uid => (open uid m).2
  | Close => (close m).2
  | Save from to items => (save from to items m).2
  | Accept r => (accept r m).2
  | Pending now limit => (pending now limit m).2
  | Attempted msgid now => (attempted msgid now m).2
  | History peer limit => (history peer limit m).2
  end.

(** The answer of the server that a message was taken over. *)
Definition confirms (resp : Response) (r : Row) : Prop :=
  fromuid resp = s_sender r /\ error resp = 0 /\ delivery resp = "accepted"%string /\ touid resp = s_receiver r /\
  (s_msgid r, s_content r) ∈ text_array resp.

Lemma confirms_identity resp r r' : identity r' = identity r -> confirms resp r -> confirms resp r'.
Proof. unfold confirms, identity. intros E. injection E as -> -> -> ->. done. Qed.

(** A row stays what it is; only an answer of the server stops it waiting. *)
Definition moves (ops : list store_op) (r r' : Row) : Prop :=
  identity r' = identity r /\
  (s_state r' = s_state r \/ s_state r' = accepted_ /\ exists resp, Accept resp ∈ ops /\ confirms resp r).

(** The rows stay where they are. *)
Definition keeps (ops : list store_op) (f f' : File) : Prop :=
  (forall k r, messages f !! k = Some r -> exists r', messages f' !! k = Some r' /\ moves ops r r') /\
  (NoDup (row_key <$> messages f) -> NoDup (row_key <$> messages f')).

Lemma keeps_same ops f f' : messages f' = messages f -> keeps ops f f'.
Proof. intros E. split; rewrite E; [|done]. intros k r Hk. exists r. split; [done|]. split; [done|by left]. Qed.

Lemma keeps_map ops f f' g : messages f' = g <$> messages f -> (forall r, moves ops r (g r)) -> keeps ops f f'.
Proof.
  intros E Hg. split.
  - intros k r Hk. exists (g r). rewrite E, list_lookup_fmap, Hk. done.
  - rewrite E, <- list_fmap_compose. intros Hnd.
    assert (row_key ∘ g <$> messages f = row_key <$> messages f) as ->; [|done].
    apply list_fmap_ext. intros _ r _. unfold compose. destruct (Hg r) as [Hid _].
    unfold identity, row_key in *. congruence.
Qed.

Lemma keeps_grown ops uid from to items fresh f f' : grown uid from to items fresh f f' -> keeps ops f f'.
Proof.
  intros (new & E & _ & _ & _ & Hnd & _). split; [|done]. intros k r Hk. exists r.
  rewrite E, lookup_app_l by by eapply lookup_lt_Some. split; [done|]. split; [done|by left].
Qed.

Lemma keeps_trans ops1 ops2 f1 f2 f3 : keeps ops1 f1 f2 -> keeps ops2 f2 f3 -> keeps (ops1 ++ ops2) f1 f3.
Proof.
  intros [H1 N1] [H2 N2]. split; [|auto]. intros k r Hk. destruct (H1 k r Hk) as (r1 & Hk1 & Hid1 & Hs1).
  destruct (H2 k r1 Hk1) as (r2 & Hk2 & Hid2 & Hs2). exists r2. split; [done|]. split; [congruence|].
  assert (forall resp, confirms resp r1 -> confirms resp r) as Hc by (intros; by eapply confirms_identity).
  destruct Hs2 as [Hs2|(Hs2 & resp & Hin & Hr)]; [destruct Hs1 as [Hs1|(Hs1 & resp & Hin & Hr)]|].
  - left. congruence.
  - right. split; [congruence|]. exists resp. split; [apply elem_of_app; by left|done].
  - right. split; [done|]. exists resp. split; [apply elem_of_app; by right|auto].
Qed.

Lemma accept_moves uid resp r : fromuid resp = uid -> error resp = 0 -> delivery resp = "accepted"%string ->
  moves [Accept resp] r (accept_all uid (touid resp) (text_array resp) r).
Proof.
  intros Hu He Hd. unfold accept_all. destruct (existsb _ _) eqn:Ex; [|split; [done|by left]].
  apply existsb_exists in Ex as (i & Hi%list_elem_of_In & Ha). unfold accepts in Ha.
  apply andb_true_iff in Ha as [[Hk%has_key_spec Hr%Z.eqb_eq]%andb_true_iff Hc%String.eqb_eq].
  unfold row_key in Hk. injection Hk as Hs Hm. split; [done|]. right. split; [done|]. exists resp.
  split; [by apply list_elem_of_singleton|]. split_and!; try congruence. rewrite Hm, Hc. by destruct i.
Qed.

Lemma attempt_moves ops uid msgid now r : moves ops r (attempt_all uid msgid now r).
Proof. unfold attempt_all. destruct (tries _ _ _); (split; [done|by left]). Qed.

Lemma run_store_keeps op m : no_leftover (db_ m) ->
  no_leftover (db_ (run_store m op)) /\ keeps [op] (committed (db_ m)) (committed (db_ (run_store m op))).
Proof.
  intros Hn. destruct op as [uid| |from to items|resp|now limit|msgid now|peer limit]; cbn [run_store].
  - destruct (open_spec uid m Hn) as (H1 & _ & H2). split; [done|by apply keeps_same].
  - split; [done|by apply keeps_same].
  - destruct (save_spec from to items m Hn) as (H1 & _ & _ & [[_ H2]|(fresh & H2 & _)]); (split; [done|]).
    + apply keeps_same. exact (f_equal messages H2).
    + by eapply keeps_grown.
  - destruct (accept_spec resp m Hn) as (H1 & _ & _ & [[_ H2]|(Hu & He & Hd & H2 & _)]); (split; [done|]).
    + apply keeps_same. exact (f_equal messages H2).
    + eapply keeps_map; [done|]. intros r. by apply accept_moves.
  - unfold pending, mbind, prog_bind, gets. cbn. destruct (uid_ m =? 0); [split; [done|by apply keeps_same]|].
    edestruct (reading_spec (A := list (Z * item))) as (H1 & _ & _ & _ & H2); [done|]. split; [done|].
    apply keeps_same. exact (f_equal messages H2).
  - destruct (attempted_spec msgid now m Hn) as (H1 & _ & _ & _ & [H2|H2]); (split; [done|]).
    + apply keeps_same. exact (f_equal messages H2).
    + eapply keeps_map; [done|]. intros r. apply attempt_moves.
  - unfold history, mbind, prog_bind, gets. cbn. destruct (uid_ m =? 0); [split; [done|by apply keeps_same]|].
    edestruct (reading_spec (A := list Row)) as (H1 & _ & _ & _ & H2); [done|]. split; [done|].
    apply keeps_same. exact (f_equal messages H2).
Qed.

Lemma run_store_uid op m : no_leftover (db_ m) -> (forall uid, op <> Open uid) ->
  uid_ (run_store m op) = uid_ m \/ uid_ (run_store m op) = 0.
Proof.
  intros Hn Hop. destruct op as [uid| |from to items|resp|now limit|msgid now|peer limit]; cbn [run_store].
  - by destruct (Hop uid).
  - by right.
  - left. by destruct (save_spec from to items m Hn) as (_ & ? & _).
  - left. by destruct (accept_spec resp m Hn) as (_ & ? & _).
  - left. unfold pending, mbind, prog_bind, gets. cbn. destruct (uid_ m =? 0); [done|].
    by edestruct (reading_spec (A := list (Z * item))) as (_ & ? & _).
  - left. by destruct (attempted_spec msgid now m Hn) as (_ & ? & _).
  - left. unfold history, mbind, prog_bind, gets. cbn. destruct (uid_ m =? 0); [done|].
    by edestruct (reading_spec (A := list Row)) as (_ & ? & _).
Qed.

Lemma run_stores_keep ops : forall m, no_leftover (db_ m) -> 
  no_leftover (db_ (foldl run_store m ops)) /\ keeps ops (committed (db_ m)) (committed (db_ (foldl run_store m ops))).
Proof.
  induction ops as [|op ops IH]; intros m Hn; [split; [done|by apply keeps_same]|].
  destruct (run_store_keeps op m Hn) as [Hn1 Hk1]. destruct (IH _ Hn1) as [Hn2 Hk2].
  split; [done|]. cbn [foldl]. exact (keeps_trans [op] ops _ _ _ Hk1 Hk2).
Qed.

(** C9. A batch that [save] took is in the file for good, whatever calls,
    failures and restarts follow: each message with its sender, receiver and
    text, once.  A new message of the own account waits to be sent until the
    server has answered that it accepted this message for this receiver. *)
Theorem outbox_kept from to items fresh m m1 ops : tidy m ->
  save from to items m = (Returns (Some fresh), m1) ->
  let f := committed (db_ (foldl run_store m1 ops)) in
  NoDup (row_key <$> messages f) /\
  (forall i, i ∈ items -> exists r, r ∈ messages f /\ identity r = (from, to, i)) /\
  (forall i, i ∈ fresh -> from = uid_ m -> exists r, r ∈ messages f /\ identity r = (from, to, i) /\
     (s_state r = pending_ \/ s_state r = accepted_ /\ exists resp, Accept resp ∈ ops /\ confirms resp r)).
Proof.
  intros [Hn Hnd] E f. pose proof (save_spec from to items m Hn) as Hs. unfold wp in Hs. rewrite E in Hs.
  cbn [fst snd] in Hs. destruct Hs as (Hn1 & _ & _ & [[? _]|(fresh' & Hg & Hr)]); [done|].
  assert (fresh' = fresh) as -> by (destruct Hr as [[= ->]|?]; done).
  destruct (run_stores_keep ops m1 Hn1) as [_ [Hk Hnd2]]. destruct Hg as (new & Em & Ef & Hnew & Hitems & Hnd1 & _).
  split; [auto|]. split.
  - intros i Hi. destruct (Hitems i Hi) as (r & Hr0 & Hid). apply list_elem_of_lookup in Hr0 as [k Hr0].
    destruct (Hk k r Hr0) as (r' & Hr' & Hid' & _). exists r'. split; [by eapply list_elem_of_lookup_2|congruence].
  - intros i Hi Hu. rewrite Ef in Hi. apply list_elem_of_fmap in Hi as (r & -> & Hr0).
    rewrite Forall_forall in Hnew. destruct (Hnew r Hr0) as (H1 & H2 & H3 & _). rewrite Hu, Z.eqb_refl in H3.
    assert (r ∈ messages (committed (db_ m1))) as Hin by (rewrite Em; apply elem_of_app; by right).
    apply list_elem_of_lookup in Hin as [k Hin]. destruct (Hk k r Hin) as (r' & Hr' & Hid' & Hs).
    exists r'. split; [by eapply list_elem_of_lookup_2|]. split; [rewrite Hid'; unfold identity; by rewrite H1, H2|].
    destruct Hs as [Hs|(Hs & resp & Hresp & Hc)]; [left; congruence|right]. split; [done|]. exists resp. split; [done|].
    by apply (confirms_identity resp r).
Qed.

Module Example.

(** The commit of the acceptance loses its answer, and the client restarts. *)
Definition example_store : MessageStore :=
  (open 1 (mkMessageStore (mkDb (mkFile [] []) None true 0 0 (fun n => if (n =? 18)%nat then FailsAfter else Fine)
     (fun _ => 0)) false 0)).2.
Definition items : list item := [("m1", "hello"); ("m2", "there")]%string.
Definition example_ops : list store_op :=
  [Attempted "m1" 100; Accept (mkResponse 1 0 "accepted" 2 [("m1", "hello")%string]); Close; Open 1; Save 2 1 [("m1", "hi")%string]].

Lemma outbox_kept_witness :
  let f := committed (db_ (foldl run_store (save 1 2 items example_store).2 example_ops)) in
  NoDup (row_key <$> messages f) /\
  (forall i, i ∈ items -> exists r, r ∈ messages f /\ identity r = (1, 2, i)) /\
  (forall i, i ∈ items -> 1 = 1 -> exists r, r ∈ messages f /\ identity r = (1, 2, i) /\
     (s_state r = pending_ \/ s_state r = accepted_ /\ exists resp, Accept resp ∈ example_ops /\ confirms resp r)).
Proof.
  apply (outbox_kept 1 2 items items example_store); [split; [done|vm_compute; apply NoDup_nil_2]|].
  vm_compute. reflexivity.
Defined.

Example states : s_state <$> messages (committed (db_ (foldl run_store (save 1 2 items example_store).2 example_ops))) =
  [accepted_; pending_; received_].
Proof. vm_compute. reflexivity. Qed.

End Example.
