(* ===== verification/Schema.v ===== *)
(** The tables of [src/database/schema.sql].

    A table is the list of its rows in the order they were inserted.  String
    columns compare under the collation of the schema; the collation is a
    parameter, [weight], and two strings are equal to MySQL when their
    weights are.  Columns no statement reads (the [created_at] of friends,
    applications and messages) are left out. *)
From S2P Require Import Prelude.

(** The sort key MySQL derives from a string. *)
Class Collation := weight : string -> string.

(** [FileTransferTypes.h]; the [status] column holds one of the five names. *)
Inductive TransferStatus := Uploading | Available | Downloaded | Cancelled | Expired.

#[export] Instance TransferStatus_eq_dec : EqDecision TransferStatus.
Proof. solve_decision. Defined.

Record UserRow := mkUserRow {
  u_uid : Z; u_name : string; u_email : string; u_pwd : string; u_scheme : string;
  u_nick : string; u_desc : string; u_sex : Z; u_icon : string;
}.

Record ApplyRow := mkApplyRow { a_id : Z; a_from : Z; a_to : Z; a_status : Z }.

Record FriendRow := mkFriendRow { f_self : Z; f_friend : Z; f_back : string }.

Record MessageRow := mkMessageRow {
  m_id : Z; m_client_id : string; m_sender : Z; m_receiver : Z; m_content : string;
  m_acknowledged_at : option Z;
}.

Record TransferRow := mkTransferRow {
  x_id : string; x_sender : Z; x_receiver : Z; x_name : string; x_mime : string;
  x_total : Z; x_uploaded : Z; x_sha256 : string; x_status : TransferStatus;
  x_created : Z; x_completed : option Z; x_downloaded : option Z; x_expires : Z;
}.

Record Tables := mkTables {
  user_id : Z;
  user : list UserRow;
  friend_apply : list ApplyRow;
  friend : list FriendRow;
  chat_message : list MessageRow;
  file_transfer : list TransferRow;
}.

Definition set_users v (t : Tables) : Tables :=
  mkTables (user_id t) v (friend_apply t) (friend t) (chat_message t) (file_transfer t).
Definition set_apply v (t : Tables) : Tables :=
  mkTables (user_id t) (user t) v (friend t) (chat_message t) (file_transfer t).
Definition set_friend v (t : Tables) : Tables :=
  mkTables (user_id t) (user t) (friend_apply t) v (chat_message t) (file_transfer t).
Definition set_messages v (t : Tables) : Tables :=
  mkTables (user_id t) (user t) (friend_apply t) (friend t) v (file_transfer t).
Definition set_transfers v (t : Tables) : Tables :=
  mkTables (user_id t) (user t) (friend_apply t) (friend t) (chat_message t) v.

#[export] Instance UserRow_eq_dec : EqDecision UserRow.
Proof. solve_decision. Defined.
#[export] Instance ApplyRow_eq_dec : EqDecision ApplyRow.
Proof. solve_decision. Defined.
#[export] Instance FriendRow_eq_dec : EqDecision FriendRow.
Proof. solve_decision. Defined.
#[export] Instance MessageRow_eq_dec : EqDecision MessageRow.
Proof. solve_decision. Defined.
#[export] Instance TransferRow_eq_dec : EqDecision TransferRow.
Proof. solve_decision. Defined.

(** The target of the foreign keys [REFERENCES user(uid)]. *)
Definition user_exists (t : Tables) (uid : Z) : bool :=
  existsb (fun r => u_uid r =? uid) (user t).

(** [UPDATE ... SET upd WHERE P]: the affected rows are those that change. *)
Definition update_where {A} `{EqDecision A} (P : A -> bool) (upd : A -> A) (rows : list A)
    : Z * list A :=
  (zsum (fun r => if P r && bool_decide (upd r <> r) then 1 else 0) rows,
   (fun r => if P r then upd r else r) <$> rows).

(** [ORDER BY f ASC] *)
Definition by_key {A} (f : A -> Z) (a b : A) : Prop := f a <= f b.

#[export] Instance by_key_dec {A} (f : A -> Z) : RelDecision (by_key f).
Proof. intros a b. unfold by_key. apply _. Defined.

Definition order_by {A} (f : A -> Z) (rows : list A) : list A := merge_sort (by_key f) rows.

#[export] Instance by_key_trans {A} (f : A -> Z) : Transitive (by_key f).
Proof. intros a b c. unfold by_key. lia. Qed.

#[export] Instance by_key_total {A} (f : A -> Z) : Total (by_key f).
Proof. intros a b. unfold by_key. lia. Qed.

(** Ordering rows that are already in strict key order changes nothing. *)
Lemma order_by_sorted {A} (f : A -> Z) (rows : list A) :
  StronglySorted Z.lt (f <$> rows) -> order_by f rows = rows.
Proof.
  intros Hs. unfold order_by.
  assert (NoDup (f <$> rows)) as Hn.
  { clear -Hs. induction Hs as [|x l _ IH Hx]; constructor; [|done]. rewrite Forall_forall in Hx.
    intros Hin. specialize (Hx _ Hin). lia. }
  apply (StronglySorted_unique_strong (by_key f)).
  - intros x y Hx Hy. rewrite merge_sort_Permutation in Hx. unfold by_key. intros.
    apply (NoDup_fmap_eq f rows); try done. lia.
  - apply StronglySorted_merge_sort; apply _.
  - clear Hn. revert Hs. induction rows as [|x rows IH]; intros Hs; [constructor|].
    rewrite fmap_cons in Hs; apply StronglySorted_cons in Hs as [Hx Hs]. constructor; [auto|].
    rewrite Forall_fmap in Hx. eapply Forall_impl; [done|]. unfold by_key. simpl. lia.
  - apply merge_sort_Permutation.
Qed.

(** A selection of rows in key order is in key order. *)
Lemma sorted_filter {A} (f : A -> Z) (P : A -> Prop) `{forall x, Decision (P x)} (rows : list A) :
  StronglySorted Z.lt (f <$> rows) -> StronglySorted Z.lt (f <$> filter P rows).
Proof.
  induction rows as [|x rows IH]; [done|]. intros Hs. rewrite fmap_cons in Hs; apply StronglySorted_cons in Hs as [Hx Hs].
  rewrite filter_cons. case_decide; [|auto]. rewrite fmap_cons. constructor; [auto|].
  rewrite Forall_fmap in *. rewrite Forall_forall in *. intros y [_ Hy]%list_elem_of_filter. auto.
Qed.

(** An [AUTO_INCREMENT] value above every one in use. *)
Definition next_id (ids : list Z) : Z := foldr Z.max 0 ids + 1.

Lemma next_id_fresh ids x : x ∈ ids -> x < next_id ids.
Proof.
  unfold next_id. induction ids as [|y ids IH]; [set_solver|].
  intros [->|Hx]%elem_of_cons; simpl; [lia|]. specialize (IH Hx). lia.
Qed.

Section UpdateWhere.
Context {A : Type} `{EqDecision A}.
Variables (P : A -> bool) (upd : A -> A).

Lemma update_where_other r rows : P r = false -> r ∈ rows -> r ∈ (update_where P upd rows).2.
Proof. intros HP Hr. apply list_elem_of_fmap. exists r. by rewrite HP. Qed.

Lemma update_where_none rows : (forall r, r ∈ rows -> P r = false) -> update_where P upd rows = (0, rows).
Proof.
  intros H. unfold update_where, zsum. induction rows as [|r rows IH]; [done|].
  csimpl. rewrite (H r) by set_solver. simpl. f_equal.
  - apply (f_equal fst) in IH; [|set_solver]. simpl in IH. done.
  - apply (f_equal snd) in IH; [|set_solver]. simpl in IH. by rewrite IH.
Qed.

Lemma update_where_fmap {B} (f : A -> B) rows :
  (forall r, P r = true -> f (upd r) = f r) -> f <$> (update_where P upd rows).2 = f <$> rows.
Proof.
  intros H. simpl. rewrite <- list_fmap_compose. apply list_fmap_ext. intros i r _. simpl.
  destruct (P r) eqn:E; auto.
Qed.

End UpdateWhere.

(** ** A small database for the examples *)

(** ASCII case folding, a collation under which [A] and [a] are equal. *)
Fixpoint fold_case (s : string) : string :=
  match s with
  | EmptyString => EmptyString
  | String c s =>
      let n := N_of_ascii c in
      String (if (65 <=? n)%N && (n <=? 90)%N then ascii_of_N (n + 32) else c) (fold_case s)
  end.

Definition sample_user (uid : Z) (name email : string) : UserRow :=
  mkUserRow uid name email "hash" "argon2id_raw" name "desc" 0 "icon".

Definition sample_tables : Tables :=
  mkTables 1002
    [sample_user 1001 "ann" "ann@example.org"; sample_user 1002 "bob" "bob@example.org"]
    [mkApplyRow 1 1002 1001 0]
    []
    [mkMessageRow 1 "m-1" 1001 1002 "hello" None;
     mkMessageRow 2 "m-2" 1001 1002 "again" (Some 5)]
    [].
