(* ===== verification/MessageDao.v ===== *)
(** The durable messages of [src/servers/chat/storage/MysqlDao.cpp]:
    [PersistTextMessages], [GetPendingTextMessages] and
    [AcknowledgeTextMessages].  A statement is prepared, bound and executed in
    one step; a failed preparation is a failed execution. *)
From S2P Require Import Prelude Messages Mysql Schema.

Section MessageDao.
Context `{Collation}.

(** The unique key [(sender_uid, client_message_id)]. *)
Definition same_key (sender : Z) (id : string) (r : MessageRow) : bool :=
  (m_sender r =? sender) && bool_decide (weight (m_client_id r) = weight id).

Definition find_message (sender : Z) (id : string) (t : Tables) : option MessageRow :=
  List.find (same_key sender id) (chat_message t).

(** [INSERT INTO chat_message ... ON DUPLICATE KEY UPDATE
    client_message_id=client_message_id]; the foreign keys are checked when a
    row is inserted. *)
Definition insert_message (message : TextMessage) (now : Z) (t : Tables) : option (unit * Tables) :=
  match find_message (sender_uid message) (client_message_id message) t with
  | Some _ => Some (tt, t)
  | None =>
      if user_exists t (sender_uid message) && user_exists t (receiver_uid message) then
        Some (tt, set_messages
          (chat_message t ++
           [mkMessageRow (next_id (m_id <$> chat_message t)) (client_message_id message)
              (sender_uid message) (receiver_uid message) (content message) None]) t)
      else None
  end.

(** The check of the row read back by the verifying [SELECT]. *)
Definition row_matches (message : TextMessage) (row : option MessageRow) : bool :=
  match row with
  | None => false
  | Some row => (m_receiver row =? receiver_uid message) && bool_decide (m_content row = content message)
  end.

Fixpoint persist_loop (messages : list TextMessage) : prog (db Tables) bool :=
  match messages with
  | [] => commit ;; setAutoCommit true ;; mret true
  | message :: rest =>
      exec (insert_message message) ;;
      row ← query (fun _ => find_message (sender_uid message) (client_message_id message));
      if negb (row_matches message row)
      then rollback ;; setAutoCommit true ;; mret false
      else persist_loop rest
  end.

Definition PersistTextMessages (messages : list TextMessage) : prog (db Tables) bool :=
  if bool_decide (messages = []) then mret false
  else with_connection false
    (try_catch (setAutoCommit false ;; persist_loop messages)
               (abandon ;; mret false)).

(** [... WHERE receiver_uid=? AND acknowledged_at IS NULL ORDER BY id ASC LIMIT ?] *)
Definition pending_rows (receiver : Z) (t : Tables) : list MessageRow :=
  order_by m_id
    (filter (fun r => m_receiver r = receiver /\ m_acknowledged_at r = None) (chat_message t)).

Definition row_message (r : MessageRow) : TextMessage :=
  mkTextMessage (m_client_id r) (m_sender r) (m_receiver r) (m_content r).

Definition GetPendingTextMessages (receiver limit : Z) : prog (db Tables) (option (list TextMessage)) :=
  if (receiver <=? 0) || (limit <=? 0) then mret None
  else with_connection None
    (try_catch
       (rows ← query (fun _ t => take (Z.to_nat limit) (pending_rows receiver t));
        mret (Some (row_message <$> rows)))
       (mret None)).

(** [UPDATE chat_message SET acknowledged_at=COALESCE(acknowledged_at,NOW())
    WHERE receiver_uid=? AND sender_uid=? AND client_message_id=?] *)
Definition acknowledges (receiver sender : Z) (id : string) (r : MessageRow) : bool :=
  (m_receiver r =? receiver) && same_key sender id r.

Definition acknowledge_row (now : Z) (r : MessageRow) : MessageRow :=
  mkMessageRow (m_id r) (m_client_id r) (m_sender r) (m_receiver r) (m_content r)
    (match m_acknowledged_at r with None => Some now | at_ => at_ end).

Definition acknowledge_id (receiver sender : Z) (id : string) (now : Z) (t : Tables)
    : option (Z * Tables) :=
  let '(n, rows) := update_where (acknowledges receiver sender id) (acknowledge_row now) (chat_message t) in
  Some (n, set_messages rows t).

Fixpoint acknowledge_loop (receiver sender : Z) (ids : list string) : prog (db Tables) unit :=
  match ids with
  | [] => mret tt
  | id :: rest => exec (acknowledge_id receiver sender id) ;; acknowledge_loop receiver sender rest
  end.

Definition AcknowledgeTextMessages (receiver sender : Z) (client_message_ids : list string)
    : prog (db Tables) bool :=
  if (receiver <=? 0) || (sender <=? 0) || bool_decide (client_message_ids = []) then mret false
  else with_connection false
    (try_catch
       (setAutoCommit false ;;
        acknowledge_loop receiver sender client_message_ids ;;
        commit ;; setAutoCommit true ;; mret true)
       (abandon ;; mret false)).

(** *** The effect of a batch, as one function on the tables *)

(** Insert and verify each message in turn; [None] when one is refused. *)
Fixpoint insert_all (messages : list TextMessage) (t : Tables) : option Tables :=
  match messages with
  | [] => Some t
  | message :: rest =>
      '(_, t') ← insert_message message 0 t;
      if row_matches message (find_message (sender_uid message) (client_message_id message) t')
      then insert_all rest t' else None
  end.

(** The answer that promises the work is done. *)
Abbreviation said_yes := (fun answer : bool => answer = true).

Lemma wp_persist_loop messages : forall c b s done,
  in_transaction c b s ->
  (forall t, insert_all messages (view s) = Some t -> done t) ->
  wp (persist_loop messages) (body_exit said_yes c done b) s.
Proof.
  induction messages as [|m ms IH]; intros c b s done Ht Hd; simpl; [by apply wp_commit; auto|].
  apply wp_bind, wp_exec; [by apply in_transaction_throws|].
  intros [] t' E. change (insert_message m 0 (view s) = Some (tt, t')) in E.
  destruct (in_transaction_store c b t' (tick s)) as [Ht' Hv]; [done|].
  split; [|by apply in_transaction_throws].
  apply wp_bind, wp_query; [by apply in_transaction_throws|].
  change (view (tick ?x)) with (view x). rewrite Hv.
  destruct (row_matches m _) eqn:Hm; simpl; [|by apply wp_rollback].
  apply IH; [done|]. change (view (tick ?x)) with (view x). rewrite Hv.
  intros t Hall. apply Hd. simpl. rewrite E. simpl. by rewrite Hm.
Qed.

(** *** What is stored *)

Definition stored (t : Tables) (m : TextMessage) : Prop :=
  exists r, r ∈ chat_message t /\ m_sender r = sender_uid m /\
    weight (m_client_id r) = weight (client_message_id m) /\
    m_receiver r = receiver_uid m /\ m_content r = content m.

(** The unique key and the primary key of the table. *)
Definition row_key (r : MessageRow) : Z * string := (m_sender r, weight (m_client_id r)).

Record messages_ok (t : Tables) : Prop := {
  ok_unique : NoDup (row_key <$> chat_message t);
  ok_ids : StronglySorted Z.lt (m_id <$> chat_message t);
}.

Lemma find_message_Some sender id t r :
  find_message sender id t = Some r ->
  r ∈ chat_message t /\ m_sender r = sender /\ weight (m_client_id r) = weight id.
Proof.
  intros E. apply find_some in E as [Hin Hk]. unfold same_key in Hk. bool_hyps.
  split; [by apply list_elem_of_In|done].
Qed.

Lemma find_message_None sender id t :
  find_message sender id t = None -> (sender, weight id) ∉ row_key <$> chat_message t.
Proof.
  intros E (r & Ek & Hr)%list_elem_of_fmap. apply list_elem_of_In in Hr.
  pose proof (find_none _ _ E r Hr) as Hk. unfold same_key in Hk.
  unfold row_key in Ek. simplify_eq. rewrite Z.eqb_refl in Hk. simpl in Hk. bool_hyps. congruence.
Qed.

(** The rows after [t] are the rows of [t] and then new, unacknowledged ones
    for the given messages; no other table changes. *)
Definition extends (ms : list TextMessage) (t t' : Tables) : Prop :=
  exists rows, t' = set_messages (chat_message t ++ rows) t /\
    Forall (fun r => m_acknowledged_at r = None /\ row_message r ∈ ms) rows.

Lemma extends_refl ms t : extends ms t t.
Proof. exists []. rewrite app_nil_r. split; [by destruct t|constructor]. Qed.

Lemma extends_trans ms t t' t'' : extends ms t t' -> extends ms t' t'' -> extends ms t t''.
Proof.
  intros (r1 & -> & H1) (r2 & -> & H2). exists (r1 ++ r2).
  split; [by simpl; rewrite (assoc_L (++))|by apply Forall_app].
Qed.

Lemma extends_mono ms ms' t t' : ms ⊆ ms' -> extends ms t t' -> extends ms' t t'.
Proof.
  intros Hsub (rows & -> & Hr). exists rows. split; [done|].
  eapply Forall_impl; [done|]. simpl. intros ? [? ?]. auto.
Qed.

Lemma insert_message_extends m now t t' :
  insert_message m now t = Some (tt, t') ->
  extends [m] t t' /\ (messages_ok t -> messages_ok t').
Proof.
  unfold insert_message. destruct (find_message _ _ t) eqn:Ef.
  { intros [= <-]. auto using extends_refl. }
  case_code; [|done]. intros [= <-]. split.
  - eexists. split; [done|]. apply Forall_singleton. split; [done|].
    apply list_elem_of_singleton. by destruct m.
  - intros [Hu Hs]. split; simpl; rewrite fmap_app; simpl.
    + apply NoDup_app. split_and!; [done| |apply NoDup_singleton].
      intros k Hk ->%list_elem_of_singleton. by apply find_message_None in Ef.
    + apply StronglySorted_app. split_and!; [|done|by repeat constructor].
      intros x y Hx ->%list_elem_of_singleton. by apply next_id_fresh.
Qed.

Lemma row_matches_stored m t :
  row_matches m (find_message (sender_uid m) (client_message_id m) t) = true -> stored t m.
Proof.
  destruct (find_message _ _ t) as [r|] eqn:E; simpl; [|done]. intros Hm. bool_hyps.
  apply find_message_Some in E as (? & ? & ?). by exists r.
Qed.

Lemma extends_stored ms t t' m : extends ms t t' -> stored t m -> stored t' m.
Proof. intros (rows & -> & _) (r & Hr & ?). exists r. split; [|done]. simpl. set_solver. Qed.

Lemma insert_all_spec messages : forall t t',
  insert_all messages t = Some t' ->
  extends messages t t' /\ Forall (stored t') messages /\ (messages_ok t -> messages_ok t').
Proof.
  induction messages as [|m ms IH]; intros t t'; simpl.
  { intros [= <-]. auto using extends_refl. }
  destruct (insert_message m 0 t) as [[[] t1]|] eqn:E1; simpl; [|done].
  destruct (row_matches _ _) eqn:Em; [|done]. intros E2.
  apply insert_message_extends in E1 as [X1 O1]. destruct (IH _ _ E2) as (X2 & S2 & O2).
  assert (extends (m :: ms) t1 t') by (eapply extends_mono; [|done]; set_solver).
  split_and!; [|constructor; [|done]|auto].
  - eapply extends_trans; [eapply extends_mono; [|done]|done]; set_solver.
  - eapply extends_stored; [done|]. by apply row_matches_stored.
Qed.

(** A stored batch is stored again without any change. *)
Lemma insert_all_again messages t :
  messages_ok t -> Forall (stored t) messages -> insert_all messages t = Some t.
Proof.
  intros [Hu _] Hs. induction Hs as [|m ms (r & Hr & E1 & E2 & E3 & E4) _ IH]; simpl; [done|].
  assert (find_message (sender_uid m) (client_message_id m) t = Some r) as Ef.
  { destruct (find_message _ _ t) as [r'|] eqn:Ef.
    - apply find_message_Some in Ef as (Hr' & F1 & F2). f_equal.
      apply (NoDup_fmap_eq row_key (chat_message t)); try done. unfold row_key. congruence.
    - apply find_message_None in Ef. destruct Ef. rewrite <- E1, <- E2.
      by apply (list_elem_of_fmap_2 row_key) in Hr. }
  unfold insert_message. rewrite Ef. simpl. rewrite Ef. simpl.
  rewrite E3, Z.eqb_refl, bool_decide_eq_true_2 by done. done.
Qed.

(** Storing as a change of the committed tables. *)
Lemma persist_spec messages s :
  exists answer s', PersistTextMessages messages s = (Returns answer, s') /\
    borrowed s' = borrowed s /\
    (committed s' = committed s \/ insert_all messages (committed s) = Some (committed s')) /\
    (answer = true -> insert_all messages (committed s) = Some (committed s')).
Proof.
  unfold PersistTextMessages. case_bool_decide as Hne.
  { exists false, s. split_and!; [done|done|by left|done]. }
  set (done t := insert_all messages (committed s) = Some t).
  pose proof (wp_transaction said_yes false (persist_loop messages) done s ltac:(done)) as H1.
  destruct (with_connection _ _ s) as [r s'] eqn:E. eapply wp_intro in E; [|apply H1].
  - destruct E as [Hr Hb]. destruct r as [answer|]; [|done]. destruct Hr. by eexists _, _.
  - intros s0 Ht Hw. apply wp_persist_loop; [done|]. intros t Ha.
    destruct Ht as (Hc & _ & _). unfold view in Ha. by rewrite Hw, Hc in Ha.
Qed.

(** *** Acknowledging *)

Definition matched (receiver sender : Z) (ids : list string) (r : MessageRow) : bool :=
  existsb (fun id => acknowledges receiver sender id r) ids.

(** What an acknowledgement does to one row: a matched row keeps its first
    acknowledgement time or gets one, any other row is unchanged. *)
Definition ack_row (receiver sender : Z) (ids : list string) (r r' : MessageRow) : Prop :=
  if matched receiver sender ids r then exists now, r' = acknowledge_row now r else r' = r.

Definition acked (receiver sender : Z) (ids : list string) (t t' : Tables) : Prop :=
  exists rows, t' = set_messages rows t /\
    Forall2 (ack_row receiver sender ids) (chat_message t) rows.

Lemma acknowledge_row_idem n n' r : acknowledge_row n (acknowledge_row n' r) = acknowledge_row n' r.
Proof. unfold acknowledge_row. simpl. by destruct (m_acknowledged_at r). Qed.

Lemma matched_acknowledge receiver sender ids n r :
  matched receiver sender ids (acknowledge_row n r) = matched receiver sender ids r.
Proof. done. Qed.

Lemma ack_row_cons receiver sender id ids r r1 r2 :
  ack_row receiver sender [id] r r1 -> ack_row receiver sender ids r1 r2 ->
  ack_row receiver sender (id :: ids) r r2.
Proof.
  unfold ack_row, matched. simpl. rewrite orb_false_r.
  destruct (acknowledges receiver sender id r) eqn:E; simpl; [|by intros ->].
  intros [n ->]. change (existsb _ ids) with (matched receiver sender ids (acknowledge_row n r)).
  rewrite matched_acknowledge. destruct (matched _ _ _ _); [|eauto].
  intros [n' ->]. exists n. apply acknowledge_row_idem.
Qed.

Lemma acknowledge_id_acked receiver sender id now t n t' :
  acknowledge_id receiver sender id now t = Some (n, t') -> acked receiver sender [id] t t'.
Proof.
  unfold acknowledge_id. simpl. intros [= _ <-]. eexists. split; [done|].
  apply Forall2_fmap_r, Forall_Forall2_diag, Forall_forall. intros r _.
  unfold ack_row, matched. simpl. rewrite orb_false_r. destruct (acknowledges _ _ _ r); eauto.
Qed.

Lemma acked_cons receiver sender id ids t t1 t2 :
  acked receiver sender [id] t t1 -> acked receiver sender ids t1 t2 ->
  acked receiver sender (id :: ids) t t2.
Proof.
  intros (r1 & -> & F1) (r2 & -> & F2). exists r2. split; [done|]. simpl in *.
  eapply Forall2_trans; [|done|done]. eauto using ack_row_cons.
Qed.

Lemma acked_nil receiver sender t : acked receiver sender [] t t.
Proof.
  exists (chat_message t). split; [by destruct t|]. apply Forall_Forall2_diag, Forall_forall. done.
Qed.

(** In a transaction the loop leaves the batch applied to what it started from. *)
Lemma wp_acknowledge_loop receiver sender ids : forall c b s,
  in_transaction c b s ->
  wp (acknowledge_loop receiver sender ids)
     (fun r s' => in_transaction c b s' /\
        match r with Returns _ => acked receiver sender ids (view s) (view s') | Throws => True end) s.
Proof.
  induction ids as [|id ids IH]; intros c b s Ht; simpl; [apply wp_ret; auto using acked_nil|].
  apply wp_bind, wp_exec; [done|]. intros n t' E.
  destruct (in_transaction_store c b t' (tick s)) as [Ht' Hv]; [done|]. split; [|done].
  eapply wp_mono; [by apply IH|]. intros r s' [? Hr]. split; [done|]. destruct r; [|done].
  rewrite Hv in Hr. eauto using acked_cons, acknowledge_id_acked.
Qed.

Lemma acknowledge_spec receiver sender ids s :
  exists answer s', AcknowledgeTextMessages receiver sender ids s = (Returns answer, s') /\
    borrowed s' = borrowed s /\
    (committed s' = committed s \/ acked receiver sender ids (committed s) (committed s')) /\
    (answer = true -> acked receiver sender ids (committed s) (committed s')).
Proof.
  unfold AcknowledgeTextMessages. destruct (_ || _).
  { exists false, s. split_and!; [done|done|by left|done]. }
  set (done t := acked receiver sender ids (committed s) t).
  pose proof (wp_transaction said_yes false
    (acknowledge_loop receiver sender ids ;; commit ;; setAutoCommit true ;; mret true) done s
    ltac:(done)) as H1.
  destruct (with_connection _ _ s) as [r s'] eqn:E. eapply wp_intro in E; [|apply H1].
  - destruct E as [Hr Hb]. destruct r as [answer|]; [|done]. destruct Hr. by eexists _, _.
  - intros s0 Ht Hw. apply wp_bind. eapply wp_mono; [by apply wp_acknowledge_loop|].
    intros r1 s1 [Ht1 Hr]. destruct r1; [|by apply in_transaction_throws].
    apply wp_commit; [done|]. destruct Ht as (Hc & _). unfold view at 1 in Hr.
    rewrite Hw, Hc in Hr. done.
Qed.

Lemma pending_spec receiver limit s :
  exists result s', GetPendingTextMessages receiver limit s = (Returns result, s') /\
    committed s' = committed s /\ borrowed s' = borrowed s /\
    (result = None \/
     0 < limit /\ result = Some (row_message <$> take (Z.to_nat limit) (pending_rows receiver (committed s)))).
Proof.
  unfold GetPendingTextMessages. destruct (_ || _) eqn:Hg; [by exists None, s; auto|]. bool_hyps.
  destruct (read_operation None (fun _ t => take (Z.to_nat limit) (pending_rows receiver t))
              (fun rows => Some (row_message <$> rows)) s) as (now & answer & s' & E & Ec & Eb & Ha).
  exists answer, s'. split_and!; try done. destruct Ha as [->| ->]; auto.
Qed.

(** *** The table as a whole *)

Lemma pending_rows_eq receiver t :
  messages_ok t ->
  pending_rows receiver t =
  filter (fun r => m_receiver r = receiver /\ m_acknowledged_at r = None) (chat_message t).
Proof. intros [_ Hs]. by apply order_by_sorted, sorted_filter. Qed.

Lemma acked_identity {B} (f : MessageRow -> B) receiver sender ids t t' :
  (forall n r, f (acknowledge_row n r) = f r) ->
  acked receiver sender ids t t' -> f <$> chat_message t' = f <$> chat_message t.
Proof.
  intros Hf (rows & -> & HF). simpl. induction HF as [|r r' l l' Hr _ IH]; [done|].
  csimpl. rewrite IH. f_equal. unfold ack_row in Hr. case_code; [|by rewrite Hr].
  destruct Hr as [n ->]. apply Hf.
Qed.

Lemma acked_ok receiver sender ids t t' :
  acked receiver sender ids t t' -> messages_ok t -> messages_ok t'.
Proof.
  intros Ha [Hu Hs]. split.
  - by rewrite (acked_identity row_key _ _ _ _ _ ltac:(done) Ha).
  - by rewrite (acked_identity m_id _ _ _ _ _ ltac:(done) Ha).
Qed.

Lemma acked_pending receiver sender ids t t' who :
  messages_ok t -> acked receiver sender ids t t' ->
  pending_rows who t' =
  filter (fun r => matched receiver sender ids r = false) (pending_rows who t).
Proof.
  intros Hok Ha. rewrite !pending_rows_eq by eauto using acked_ok.
  destruct Ha as (rows & -> & HF). simpl. clear Hok.
  induction HF as [|r r' l l' Hr _ IH]; [done|]. unfold ack_row in Hr.
  rewrite !filter_cons. destruct (matched receiver sender ids r) eqn:Em.
  - destruct Hr as [n ->]. rewrite decide_False, IH; [|destruct r as [? ? ? ? ? []]; simpl; naive_solver].
    case_decide; [|done]. rewrite filter_cons, decide_False; [done|]. by rewrite Em.
  - subst r'. case_decide; [|done]. rewrite filter_cons, decide_True by done. by rewrite IH.
Qed.

(** *** Runs of the message operations *)

Inductive message_call :=
| CallPersist (messages : list TextMessage)
| CallAcknowledge (receiver sender : Z) (ids : list string)
| CallPending (receiver limit : Z).

Definition run_call (call : message_call) (s : db Tables) : db Tables :=
  match call with
  | CallPersist messages => (PersistTextMessages messages s).2
  | CallAcknowledge receiver sender ids => (AcknowledgeTextMessages receiver sender ids s).2
  | CallPending receiver limit => (GetPendingTextMessages receiver limit s).2
  end.

Definition run_calls (calls : list message_call) (s : db Tables) : db Tables :=
  foldl (fun s call => run_call call s) s calls.

(** The message in [r] is one that [receiver] acknowledges to [sender]. *)
Definition addressed (receiver sender : Z) (ids : list string) (r : MessageRow) : Prop :=
  m_receiver r = receiver /\ m_sender r = sender /\ Exists (fun id => weight (m_client_id r) = weight id) ids.

#[export] Instance addressed_dec receiver sender ids r : Decision (addressed receiver sender ids r).
Proof. unfold addressed. apply _. Defined.

Lemma matched_addressed receiver sender ids r :
  matched receiver sender ids r = true <-> addressed receiver sender ids r.
Proof.
  unfold matched, addressed, acknowledges, same_key. rewrite existsb_exists, Exists_exists. split.
  - intros (id & Hid & E). bool_hyps. split_and!; [lia..|]. exists id. by rewrite list_elem_of_In.
  - intros (-> & -> & id & Hid & E). exists id. split; [by apply list_elem_of_In|].
    by rewrite !Z.eqb_refl, bool_decide_eq_true_2.
Qed.

(** The call is an acknowledgement, by its addressee, of the message in [r]. *)
Definition acknowledges_call (r : MessageRow) (call : message_call) : Prop :=
  match call with
  | CallAcknowledge receiver sender ids => addressed receiver sender ids r
  | _ => False
  end.

(** The same message; acknowledged in [r'] only if one of [calls] did it. *)
Record kept (calls : list message_call) (r r' : MessageRow) : Prop := {
  kept_id : m_id r' = m_id r;
  kept_client : m_client_id r' = m_client_id r;
  kept_sender : m_sender r' = m_sender r;
  kept_receiver : m_receiver r' = m_receiver r;
  kept_content : m_content r' = m_content r;
  kept_acknowledged : m_acknowledged_at r' = m_acknowledged_at r \/
    m_acknowledged_at r = None /\ Exists (acknowledges_call r) calls;
}.

Lemma kept_refl calls r : kept calls r r.
Proof. split; auto. Qed.

Lemma run_call_kept call s r :
  r ∈ chat_message (committed s) ->
  exists r', r' ∈ chat_message (committed (run_call call s)) /\ kept [call] r r'.
Proof.
  intros Hr. destruct call as [ms|receiver sender ids|receiver limit]; simpl.
  - destruct (persist_spec ms s) as (? & s' & -> & _ & [Ec|E] & _); simpl;
      [exists r; rewrite Ec; by split; [|apply kept_refl]|].
    apply insert_all_spec in E as ((rows & -> & _) & _). exists r. split; [set_solver|apply kept_refl].
  - destruct (acknowledge_spec receiver sender ids s) as (? & s' & -> & _ & [Ec|E] & _); simpl;
      [exists r; rewrite Ec; by split; [|apply kept_refl]|].
    destruct E as (rows & -> & HF). simpl.
    apply list_elem_of_lookup in Hr as [i Hi]. destruct (Forall2_lookup_l _ _ _ _ _ HF Hi) as (r' & Hi' & Ha).
    exists r'. split; [by eapply list_elem_of_lookup_2|]. unfold ack_row in Ha.
    destruct (matched _ _ _ r) eqn:Em; [|subst; apply kept_refl]. destruct Ha as [now ->].
    apply matched_addressed in Em. split; try done. simpl.
    destruct (m_acknowledged_at r); [by left|right]. split; [done|by constructor].
  - destruct (pending_spec receiver limit s) as (? & s' & -> & Ec & _).
    exists r. simpl. rewrite Ec. split; [done|apply kept_refl].
Qed.

Lemma kept_trans calls call r r1 r2 :
  kept calls r r1 -> kept [call] r1 r2 -> kept (calls ++ [call]) r r2.
Proof.
  intros [] []. split; try congruence. rewrite Exists_app.
  destruct kept_acknowledged0 as [E0|[E0 ?]]; [|naive_solver]. rewrite <- E0.
  destruct kept_acknowledged1 as [?|[? Hc]]; [by left|right]. split; [done|right].
  apply Exists_cons in Hc as [Hc|Hc]; [|by apply Exists_nil in Hc]. constructor.
  destruct call; simpl in *; [done| |done]. destruct Hc as (<- & <- & Hc).
  split_and!; [done..|]. by rewrite <- kept_client0.
Qed.

Lemma run_call_ok call s : messages_ok (committed s) -> messages_ok (committed (run_call call s)).
Proof.
  destruct call as [ms|receiver sender ids|receiver limit]; simpl.
  - destruct (persist_spec ms s) as (? & s' & -> & _ & [Ec|E] & _); simpl;
      [by rewrite Ec|].
    by apply insert_all_spec in E as (_ & _ & ?).
  - destruct (acknowledge_spec receiver sender ids s) as (? & s' & -> & _ & [Ec|E] & _); simpl;
      [by rewrite Ec|].
    eauto using acked_ok.
  - destruct (pending_spec receiver limit s) as (? & s' & -> & Ec & _). simpl. by rewrite Ec.
Qed.

(** *** Properties *)

(** Storing a batch is atomic under every pattern of database failures:
    the call answers (it never throws), the borrowed connection is given
    back, and what is committed is either unchanged or the old rows followed
    by new unacknowledged rows for messages of the batch, with every message
    of the batch stored; after the answer [true] it is the latter. *)
Theorem persist_atomic messages s :
  exists answer s', PersistTextMessages messages s = (Returns answer, s') /\
    borrowed s' = borrowed s /\
    let complete t := extends messages (committed s) t /\ Forall (stored t) messages in
    (committed s' = committed s \/ complete (committed s')) /\
    (answer = true -> complete (committed s')).
Proof.
  destruct (persist_spec messages s) as (answer & s' & E & Eb & H1 & H2).
  exists answer, s'. simpl. split_and!; try done.
  - destruct H1 as [|H1]; [by left|right]. by apply insert_all_spec in H1 as (? & ? & _).
  - intros Ha. by apply H2, insert_all_spec in Ha as (? & ? & _).
Qed.

(** Storing is idempotent: sending a batch again that is already stored
    changes nothing that is committed, whatever the answer. *)
Theorem persist_idempotent messages s :
  messages_ok (committed s) -> Forall (stored (committed s)) messages ->
  committed (PersistTextMessages messages s).2 = committed s.
Proof.
  intros Hok Hs. destruct (persist_spec messages s) as (answer & s' & -> & _ & [|E] & _); [done|].
  rewrite insert_all_again in E by done. simpl. congruence.
Qed.

(** After a successful acknowledgement the pending list of every user is
    what it was without the acknowledged messages, in the same order: those
    of the receiver from the sender under one of the ids, nobody else's. *)
Theorem acknowledge_retires receiver sender ids s s' :
  messages_ok (committed s) ->
  AcknowledgeTextMessages receiver sender ids s = (Returns true, s') ->
  forall who, pending_rows who (committed s') =
    filter (fun r => ~ addressed receiver sender ids r) (pending_rows who (committed s)).
Proof.
  intros Hok E who. destruct (acknowledge_spec receiver sender ids s) as (a & s1 & E' & _ & _ & H2).
  rewrite E in E'. simplify_eq. erewrite acked_pending by (try apply H2; done).
  apply list_filter_iff. intros r. rewrite <- matched_addressed. by destruct (matched _ _ _ _).
Qed.

(** The pending list is read without changing anything: it holds the
    oldest unacknowledged messages of the receiver, oldest first, at most
    [limit] of them, and all of them when there are no more than that. *)
Theorem pending_oldest_first receiver limit s :
  exists result s', GetPendingTextMessages receiver limit s = (Returns result, s') /\
    committed s' = committed s /\ borrowed s' = borrowed s /\
    match result with
    | None => True
    | Some l => exists rows rest, l = row_message <$> rows /\
        pending_rows receiver (committed s) = rows ++ rest /\
        StronglySorted (by_key m_id) (rows ++ rest) /\
        (forall r, r ∈ rows ++ rest <-> r ∈ chat_message (committed s) /\
           m_receiver r = receiver /\ m_acknowledged_at r = None) /\
        Z.of_nat (length l) <= limit /\ (rest = [] \/ Z.of_nat (length l) = limit)
    end.
Proof.
  destruct (pending_spec receiver limit s) as (result & s' & E & Ec & Eb & Hr).
  exists result, s'. split_and!; try done. destruct Hr as [->|[Hl ->]]; [done|].
  set (rows := pending_rows receiver (committed s)).
  exists (take (Z.to_nat limit) rows), (drop (Z.to_nat limit) rows).
  rewrite take_drop, length_fmap, length_take. split_and!; try done.
  - apply StronglySorted_merge_sort; apply _.
  - intros r. unfold rows, pending_rows, order_by.
    rewrite merge_sort_Permutation, list_elem_of_filter. tauto.
  - lia.
  - destruct (decide (length rows <= Z.to_nat limit)%nat); [left; by apply drop_ge|right; lia].
Qed.

(** C6. No message is lost: whatever sequence of message operations runs
    after a message is committed, and whichever of their database calls fail,
    the message stays committed with its id, sender, receiver and content,
    the keys stay unique and ordered, and it carries an acknowledgement only
    if it had one or one of the operations was its acknowledgement by the
    user it is addressed to. *)
Theorem message_durable calls s r :
  messages_ok (committed s) -> r ∈ chat_message (committed s) ->
  messages_ok (committed (run_calls calls s)) /\
  exists r', r' ∈ chat_message (committed (run_calls calls s)) /\ kept calls r r'.
Proof.
  intros Hok Hr. induction calls as [|call calls IH] using rev_ind.
  { split; [done|]. exists r. split; [done|apply kept_refl]. }
  destruct IH as (Hok' & r1 & Hr1 & K1). unfold run_calls in *. rewrite foldl_app. simpl.
  split; [by apply run_call_ok|].
  destruct (run_call_kept call _ _ Hr1) as (r2 & Hr2 & K2). eauto using kept_trans.
Qed.

End MessageDao.

(** ** Examples *)

#[local] Instance message_collation : Collation := fold_case.

Definition example_message : TextMessage := mkTextMessage "M-1" 1001 1002 "hello".
Definition example_row : MessageRow := mkMessageRow 1 "m-1" 1001 1002 "hello" None.

Lemma sample_messages_ok : messages_ok sample_tables.
Proof.
  split.
  - by apply (bool_decide_unpack (NoDup (row_key <$> chat_message sample_tables))); vm_compute.
  - by repeat constructor.
Qed.

Lemma persist_idempotent_witness :
  committed (PersistTextMessages [example_message] (healthy sample_tables 9)).2 = sample_tables.
Proof.
  apply (persist_idempotent [example_message] (healthy sample_tables 9) sample_messages_ok).
  constructor; [|constructor]. exists example_row.
  split_and!; [apply list_elem_of_In; by left|reflexivity..].
Defined.

Lemma acknowledge_retires_witness :
  pending_rows 1002 sample_tables = [example_row] /\
  pending_rows 1002
    (committed (AcknowledgeTextMessages 1002 1001 ["M-1"] (healthy sample_tables 9)).2) = [].
Proof.
  split; [reflexivity|].
  rewrite (acknowledge_retires 1002 1001 ["M-1"] (healthy sample_tables 9) _ sample_messages_ok eq_refl).
  reflexivity.
Defined.

Lemma message_durable_witness : exists r',
  r' ∈ chat_message (committed (run_calls
         [CallPersist [example_message]; CallAcknowledge 1001 1001 ["m-1"]; CallPending 1002 8]
         (healthy sample_tables 9))) /\
  kept [CallPersist [example_message]; CallAcknowledge 1001 1001 ["m-1"]; CallPending 1002 8]
       example_row r'.
Proof.
  apply (message_durable _ (healthy sample_tables 9) example_row sample_messages_ok).
  apply list_elem_of_In. by left.
Defined.
