(* ===== verification/FriendDao.v ===== *)
(** Users, friend applications and friendships in
    [src/servers/chat/storage/MysqlDao.cpp], and the order of the acceptance
    transaction ([src/common/FriendAcceptanceTransaction.h]). *)
From S2P Require Import Prelude Mysql Schema.

(** [data.h] *)
Record UserInfo := mkUserInfo {
  name : string; pwd : string; uid : Z; email : string; nick : string;
  desc : string; sex : Z; icon : string; back : string;
}.

Record ApplyInfo := mkApplyInfo {
  _uid : Z; _name : string; _desc : string; _icon : string; _nick : string;
  _sex : Z; _status : Z;
}.

(** ** The acceptance transaction, over any store *)

Inductive FriendAcceptanceResult := Success | PendingMissing | StorageError.

#[export] Instance FriendAcceptanceResult_eq_dec : EqDecision FriendAcceptanceResult.
Proof. solve_decision. Defined.

(** The template parameter [Store]. *)
Record FriendStore (S : Type) := mkFriendStore {
  begin : prog S unit;
  insertFriend : Z -> Z -> string -> prog S Z;
  acceptPendingApplication : Z -> Z -> prog S Z;
  commit_ : prog S unit;
  rollback_ : prog S unit;
}.
Arguments begin {S}.
Arguments insertFriend {S}.
Arguments acceptPendingApplication {S}.
Arguments commit_ {S}.
Arguments rollback_ {S}.

(** The [||] of the source runs the second insertion only after the first. *)
Definition ExecuteFriendAcceptanceTransaction {S} (store : FriendStore S)
    (accepter_uid applicant_uid : Z) (back_name : string) : prog S FriendAcceptanceResult :=
  begin store ;;
  try_catch
    (n1 ← insertFriend store accepter_uid applicant_uid back_name;
     failed ← (if n1 <? 0 then mret true
               else n2 ← insertFriend store applicant_uid accepter_uid "";
                    mret (n2 <? 0));
     if failed : bool then rollback_ store ;; mret StorageError
     else
       n ← acceptPendingApplication store applicant_uid accepter_uid;
       if negb (n =? 1) then rollback_ store ;; mret PendingMissing
       else commit_ store ;; mret Success)
    (try_catch (rollback_ store) (mret tt) ;; throw).

(** ** The statements *)

Section FriendDao.
Context `{Collation}.
(** What is stored of a value longer than its [VARCHAR(64)] column by an
    [INSERT IGNORE]. *)
Variable clip64 : string -> string.

(** [INSERT IGNORE INTO friend]: a row whose key exists or whose users do
    not is skipped. *)
Definition insert_friend (self friend_uid : Z) (back : string) (now : Z) (t : Tables)
    : option (Z * Tables) :=
  if existsb (fun r => (f_self r =? self) && (f_friend r =? friend_uid)) (friend t)
     || negb (user_exists t self && user_exists t friend_uid)
  then Some (0, t)
  else Some (1, set_friend (friend t ++ [mkFriendRow self friend_uid (clip64 back)]) t).

(** [UPDATE friend_apply SET status = 1 WHERE from_uid = ? AND to_uid = ? AND status = 0] *)
Definition pending_apply (from to : Z) (r : ApplyRow) : bool :=
  (a_from r =? from) && (a_to r =? to) && (a_status r =? 0).

Definition accept_apply (from to : Z) (now : Z) (t : Tables) : option (Z * Tables) :=
  let '(n, rows) := update_where (pending_apply from to)
      (fun r => mkApplyRow (a_id r) (a_from r) (a_to r) 1) (friend_apply t) in
  Some (n, set_apply rows t).

(** [class MysqlFriendAcceptanceStore] *)
Definition MysqlFriendAcceptanceStore : FriendStore (db Tables) :=
  mkFriendStore _ (setAutoCommit false)
    (fun self friend_uid back => exec (insert_friend self friend_uid back))
    (fun applicant accepter => exec (accept_apply applicant accepter))
    commit rollback.

Definition AddFriend (from to : Z) (back_name : string) : prog (db Tables) FriendAcceptanceResult :=
  with_connection StorageError
    (try_catch
       (ExecuteFriendAcceptanceTransaction MysqlFriendAcceptanceStore from to back_name)
       (mret StorageError)).

(** [INSERT INTO friend_apply ... ON DUPLICATE KEY UPDATE from_uid = from_uid, ...] *)
Definition insert_apply (from to : Z) (now : Z) (t : Tables) : option (Z * Tables) :=
  if existsb (fun r => (a_from r =? from) && (a_to r =? to)) (friend_apply t) then Some (0, t)
  else if user_exists t from && user_exists t to then
    Some (1, set_apply (friend_apply t ++
               [mkApplyRow (next_id (a_id <$> friend_apply t)) from to 0]) t)
  else None.

Definition AddFriendApply (from to : Z) : prog (db Tables) bool :=
  with_connection false
    (try_catch (rowAffected ← exec (insert_apply from to); mret (negb (rowAffected <? 0)))
               (mret false)).

Definition AuthFriendApply (from to : Z) : prog (db Tables) bool :=
  with_connection false
    (try_catch (rowAffected ← exec (accept_apply to from); mret (rowAffected =? 1)) (mret false)).

Definition relation_count (first_uid second_uid : Z) (t : Tables) : Z :=
  zsum (fun r => if ((f_self r =? first_uid) && (f_friend r =? second_uid))
                    || ((f_self r =? second_uid) && (f_friend r =? first_uid)) then 1 else 0)
       (friend t).

Definition CheckFriendRelation (first_uid second_uid : Z) : prog (db Tables) (option bool) :=
  with_connection None
    (try_catch (n ← query (fun _ => relation_count first_uid second_uid); mret (Some (n =? 2)))
               (mret None)).

Definition AreFriends (first_uid second_uid : Z) : prog (db Tables) bool :=
  r ← CheckFriendRelation first_uid second_uid; mret (default false r).

Definition HasPendingFriendApply (from_uid to_uid : Z) : prog (db Tables) bool :=
  with_connection false
    (try_catch (n ← query (fun _ t => existsb (pending_apply from_uid to_uid) (friend_apply t));
                mret n)
               (mret false)).

(** [GetUser(int)]: the first row; [uid] is the argument. *)
Definition GetUser (user_id : Z) : prog (db Tables) (option UserInfo) :=
  with_connection None
    (try_catch
       (row ← query (fun _ t => List.find (fun r => u_uid r =? user_id) (user t));
        mret ((fun r => mkUserInfo (u_name r) "" user_id (u_email r) (u_nick r) (u_desc r) (u_sex r)
                          (u_icon r) "") <$> row))
       (mret None)).

(** [GetUser(std::string)] *)
Definition GetUserByName (user_name : string) : prog (db Tables) (option UserInfo) :=
  with_connection None
    (try_catch
       (row ← query (fun _ t => List.find (fun r => bool_decide (weight (u_name r) = weight user_name))
                                          (user t));
        mret ((fun r => mkUserInfo (u_name r) "" (u_uid r) (u_email r) (u_nick r) (u_desc r) (u_sex r)
                          (u_icon r) "") <$> row))
       (mret None)).

(** [... where apply.to_uid = ? and apply.id > ? order by apply.status ASC,
    apply.id DESC LIMIT ?], joined with the applicant; a negative limit is an
    error of the server. *)
Definition apply_before (a b : ApplyRow) : Prop :=
  a_status a < a_status b \/ a_status a = a_status b /\ a_id b <= a_id a.

#[local] Instance apply_before_dec : RelDecision apply_before.
Proof. intros a b. unfold apply_before. apply _. Defined.

Definition apply_rows (touid begin_ limit : Z) (t : Tables) : list ApplyInfo :=
  take (Z.to_nat limit)
    (a ← merge_sort apply_before
           (filter (fun r => a_to r = touid /\ begin_ < a_id r) (friend_apply t));
     u ← filter (fun u => u_uid u = a_from a) (user t);
     [mkApplyInfo (a_from a) (u_name u) "" (u_icon u) (u_nick u) (u_sex u) (a_status a)]).

Definition GetApplyList (touid begin_ limit : Z) : prog (db Tables) (option (list ApplyInfo)) :=
  with_connection None
    (try_catch
       (rows ← exec (fun _ t => if limit <? 0 then None else Some (apply_rows touid begin_ limit t, t));
        mret (Some rows))
       (mret None)).

(** The loop of [GetFriendList] over the friend rows, with the nested
    [GetUser] on a second connection. *)
Fixpoint friend_infos (rows : list FriendRow) : prog (db Tables) (list UserInfo) :=
  match rows with
  | [] => mret []
  | r :: rest =>
      user_info ← GetUser (f_friend r);
      others ← friend_infos rest;
      mret (match user_info with
            | None => others
            | Some u =>
                mkUserInfo (name u) (pwd u) (uid u) (email u) (nick u) (desc u) (sex u) (icon u)
                  (if sempty (f_back r) then name u else f_back r) :: others
            end)
  end.

Definition GetFriendList (self_id : Z) : prog (db Tables) (option (list UserInfo)) :=
  with_connection None
    (try_catch
       (rows ← query (fun _ t => take 200 (order_by f_friend
                        (filter (fun r => f_self r = self_id) (friend t))));
        infos ← friend_infos rows;
        mret (Some infos))
       (mret None)).

(** *** What an acceptance does *)

(** The keys of the two tables and the foreign keys of the applications. *)
Record friends_ok (t : Tables) : Prop := {
  ok_friend_key : NoDup ((fun r => (f_self r, f_friend r)) <$> friend t);
  ok_apply_users : Forall (fun r => user_exists t (a_from r) = true /\
                                    user_exists t (a_to r) = true) (friend_apply t);
}.

Definition is_friend (t : Tables) (self friend_uid : Z) : Prop :=
  (self, friend_uid) ∈ (fun r => (f_self r, f_friend r)) <$> friend t.

#[local] Instance is_friend_dec t self friend_uid : Decision (is_friend t self friend_uid).
Proof. unfold is_friend. apply _. Defined.

(** From [t] to [t']: the one pending application is marked accepted, both
    directions of the friendship exist, friendships of others and their notes
    stay, nothing else changes. *)
Record accepted (accepter applicant : Z) (t t' : Tables) : Prop := {
  acc_pending : exists r, r ∈ friend_apply t /\ (a_from r, a_to r, a_status r) = (applicant, accepter, 0);
  acc_applied : friend_apply t' =
    (fun r => if decide ((a_from r, a_to r, a_status r) = (applicant, accepter, 0))
              then mkApplyRow (a_id r) (a_from r) (a_to r) 1 else r) <$> friend_apply t;
  acc_friends : friends_ok t -> is_friend t' accepter applicant /\ is_friend t' applicant accepter;
  acc_kept : exists rows, friend t' = friend t ++ rows /\
    Forall (fun r => (f_self r, f_friend r) = (accepter, applicant) \/
                     (f_self r, f_friend r) = (applicant, accepter)) rows;
  acc_rest : user t' = user t /\ chat_message t' = chat_message t /\ file_transfer t' = file_transfer t;
}.

Lemma existsb_friend_key self other rows :
  existsb (fun r => (f_self r =? self) && (f_friend r =? other)) rows = true <->
  (self, other) ∈ (fun r => (f_self r, f_friend r)) <$> rows.
Proof.
  rewrite existsb_exists, list_elem_of_fmap. split.
  - intros (r & Hr & E). bool_hyps. exists r. split; [by f_equal|by apply list_elem_of_In].
  - intros (r & [= -> ->] & Hr). exists r. rewrite !Z.eqb_refl. by apply list_elem_of_In in Hr.
Qed.

Lemma insert_friend_spec self other back now t :
  exists n rows, insert_friend self other back now t = Some (n, set_friend (friend t ++ rows) t) /\
    0 <= n /\ Forall (fun r => (f_self r, f_friend r) = (self, other)) rows /\
    (user_exists t self = true -> user_exists t other = true ->
     (self, other) ∈ (fun r => (f_self r, f_friend r)) <$> (friend t ++ rows)).
Proof.
  unfold insert_friend. destruct (existsb _ _) eqn:E1; simpl.
  { exists 0, []. rewrite app_nil_r. split_and!; [by destruct t|lia|constructor|].
    intros _ _. by apply existsb_friend_key. }
  destruct (user_exists t self && user_exists t other) eqn:E2; simpl.
  - eexists 1, [_]. split_and!; [done|lia|by constructor|]. intros _ _.
    rewrite fmap_app. apply elem_of_app. right. by left.
  - exists 0, []. rewrite app_nil_r. split_and!; [by destruct t|lia|constructor|].
    intros U1 U2. by rewrite U1, U2 in E2.
Qed.

Lemma zsum_pos_exists {A} (P : A -> bool) (Q : A -> bool) l :
  zsum (fun r => if P r && Q r then 1 else 0) l = 1 -> exists r, r ∈ l /\ P r = true.
Proof.
  unfold zsum. induction l as [|x l IH]; csimpl; [done|]. destruct (P x) eqn:E; simpl.
  - intros _. exists x. split; [by left|done].
  - intros H1. destruct IH as (r & Hr & ?); [lia|]. exists r. split; [by right|done].
Qed.

(** The three statements in order, when the last affects one row. *)
Lemma pending_apply_spec from to r :
  pending_apply from to r = bool_decide ((a_from r, a_to r, a_status r) = (from, to, 0)).
Proof.
  symmetry. unfold pending_apply. apply eq_true_iff_eq. rewrite bool_decide_eq_true, !andb_true_iff, !Z.eqb_eq.
  split; [by intros [= -> -> ->]|by intros [[-> ->] ->]].
Qed.

Lemma acceptance_statements accepter applicant back n1 n2 now1 now2 now3 t t1 t2 t3 :
  insert_friend accepter applicant back now1 t = Some (n1, t1) ->
  insert_friend applicant accepter "" now2 t1 = Some (n2, t2) ->
  accept_apply applicant accepter now3 t2 = Some (1, t3) ->
  accepted accepter applicant t t3.
Proof.
  destruct (insert_friend_spec accepter applicant back now1 t) as (? & rows1 & E1 & _ & F1 & U1).
  intros ?. simplify_eq.
  destruct (insert_friend_spec applicant accepter "" now2 (set_friend (friend t ++ rows1) t))
    as (? & rows2 & E2 & _ & F2 & U2).
  intros ?. simplify_eq. unfold accept_apply, update_where. simpl. intros [= En <-].
  destruct (zsum_pos_exists _ _ _ En) as (r & Hr & Hp).
  split; simpl; try done.
  - exists r. split; [done|]. by rewrite pending_apply_spec, bool_decide_eq_true in Hp.
  - apply list_fmap_ext. intros i row _. rewrite pending_apply_spec. by repeat (case_bool_decide || case_decide).
  - intros [_ Hu]. rewrite Forall_forall in Hu. destruct (Hu r Hr) as [Ua Ub].
    unfold pending_apply in Hp. bool_hyps. subst. specialize (U1 Ub Ua). specialize (U2 Ua Ub).
    unfold is_friend. simpl in *. split; [|done]. rewrite fmap_app. apply elem_of_app. by left.
  - exists (rows1 ++ rows2). split; [by rewrite (assoc_L (++))|]. apply Forall_app.
    split; (eapply Forall_impl; [done|]); naive_solver.
Qed.

Abbreviation succeeded := (fun r : FriendAcceptanceResult => r = Success).

(** The handler of the transaction: roll back quietly, throw again. *)
Lemma wp_rethrow c done b (s : db Tables) :
  manual c done b s ->
  wp (try_catch rollback (mret tt) ;; throw) (body_exit succeeded c done b) s.
Proof.
  intros Hm. apply wp_bind, wp_try. eapply wp_mono; [by apply wp_manual_rollback|].
  intros [?|] s' Hs; [|apply wp_ret]; by apply wp_throw, manual_exit.
Qed.

(** A refusal: roll back, answer. *)
Lemma wp_refuse c done b (a : FriendAcceptanceResult) (s : db Tables) :
  manual c done b s -> a <> Success ->
  wp (rollback ;; mret a)
     (fun r s' => match r with
                  | Returns a => body_exit succeeded c done b (Returns a) s'
                  | Throws => wp (try_catch rollback (mret tt) ;; throw) (body_exit succeeded c done b) s'
                  end) s.
Proof.
  intros Hm Ha. apply wp_bind. eapply wp_mono; [by apply wp_manual_rollback|].
  intros [?|] s' Hs; [|by apply wp_rethrow]. apply wp_ret, manual_exit; done.
Qed.

Lemma wp_acceptance_body accepter applicant back c b (s : db Tables) :
  in_transaction c b s -> view s = c ->
  wp (n1 ← exec (insert_friend accepter applicant back);
      failed ← (if n1 <? 0 then mret true
                else n2 ← exec (insert_friend applicant accepter ""); mret (n2 <? 0));
      if failed : bool then rollback ;; mret StorageError
      else n ← exec (accept_apply applicant accepter);
           if negb (n =? 1) then rollback ;; mret PendingMissing else commit ;; mret Success)
     (fun r s' => match r with
        | Returns a => body_exit succeeded c (accepted accepter applicant c) b (Returns a) s'
        | Throws => wp (try_catch rollback (mret tt) ;; throw)
                      (body_exit succeeded c (accepted accepter applicant c) b) s'
        end) s.
Proof.
  intros Ht Hv. assert (forall s', in_transaction c b s' ->
    wp (try_catch rollback (mret tt) ;; throw)
       (body_exit succeeded c (accepted accepter applicant c) b) s') as Hthrow
    by auto using wp_rethrow, in_transaction_manual.
  apply wp_bind. eapply wp_exec_in; [done..|]. intros n1 t1 s1 now1 E1 Ht1 Hv1.
  destruct (insert_friend_spec accepter applicant back now1 (view s)) as (? & ? & F1 & P1 & _).
  rewrite E1 in F1. injection F1 as <- ?. rewrite (proj2 (Z.ltb_ge _ _) P1).
  apply wp_bind, wp_bind. eapply wp_exec_in; [done..|]. intros n2 t2 s2 now2 E2 Ht2 Hv2.
  destruct (insert_friend_spec applicant accepter "" now2 (view s1)) as (? & ? & F2 & P2 & _).
  rewrite E2 in F2. injection F2 as <- ?. apply wp_ret. rewrite (proj2 (Z.ltb_ge _ _) P2).
  apply wp_bind. eapply wp_exec_in; [done..|]. intros n3 t3 s3 now3 E3 Ht3 Hv3.
  destruct (Z.eqb_spec n3 1) as [->|]; simpl; [|by apply wp_refuse; [apply in_transaction_manual|]].
  apply wp_bind. eapply wp_mono; [apply (wp_manual_commit c (accepted accepter applicant c) b s3 Ht3)|].
  - rewrite Hv3. rewrite Hv in E1. rewrite Hv1 in E2. rewrite Hv2 in E3. eauto using acceptance_statements.
  - intros [?|] s' [Hm Hd]; [apply wp_ret|by apply wp_rethrow]. by apply manual_exit.
Qed.

Lemma wp_acceptance accepter applicant back c b (s : db Tables) :
  committed s = c -> borrowed s = b -> working s = None -> autocommit s = true ->
  wp (ExecuteFriendAcceptanceTransaction MysqlFriendAcceptanceStore accepter applicant back)
     (body_exit succeeded c (accepted accepter applicant c) b) s.
Proof.
  intros Hc Hb Hw Ha. apply wp_bind, wp_server_call.
  { by split_and!; [split|left|]. }
  intros [] s0 [= <-]. split; [|by split_and!; [split|left|]].
  apply wp_try, wp_acceptance_body; [done|]. unfold view. simpl. by rewrite Hw.
Qed.

(** *** Properties *)

(** C32. Accepting a friend is one transaction under every pattern of database
    failures: the call answers, gives its connection back, and the committed
    tables are unchanged or show the whole acceptance (the pending
    application of the applicant marked accepted, both directions of the
    friendship, nothing else); the answer [Success] promises the latter. *)
Theorem friend_acceptance_atomic accepter applicant back s :
  exists answer s', AddFriend accepter applicant back s = (Returns answer, s') /\
    borrowed s' = borrowed s /\
    (committed s' = committed s \/ accepted accepter applicant (committed s) (committed s')) /\
    (answer = Success -> accepted accepter applicant (committed s) (committed s')).
Proof.
  destruct (AddFriend accepter applicant back s) as [r s'] eqn:E.
  eapply (wp_intro _ (fun r s' => answered succeeded (committed s)
            (accepted accepter applicant (committed s)) r s' /\ borrowed s' = borrowed s)) in E.
  - destruct E as [Hr Hb]. destruct r as [answer|]; [|done]. destruct Hr. by eexists _, _.
  - apply wp_with_connection; [split; [split; [by left|done]|done]|].
    apply (wp_mono _ (fun r s' => body_exit succeeded (committed s)
             (accepted accepter applicant (committed s)) (borrowed s + 1) r s' /\ r <> Throws));
      [|intros ? ? [? ?]; by apply body_exit_returned].
    apply wp_try. eapply wp_mono; [by apply wp_acceptance|]. intros [a|] s1 Hs; [done|].
    apply wp_ret. by destruct Hs as (? & ? & _).
Qed.

Lemma relation_count_spec first_uid second_uid t :
  first_uid <> second_uid -> NoDup ((fun r => (f_self r, f_friend r)) <$> friend t) ->
  relation_count first_uid second_uid t =
  (if decide (is_friend t first_uid second_uid) then 1 else 0) +
  (if decide (is_friend t second_uid first_uid) then 1 else 0).
Proof.
  intros Hne Hd. etrans; [|apply (count_two_keys (first_uid, second_uid) (second_uid, first_uid));
    [congruence|done]]. rewrite zsum_fmap. apply zsum_ext. intros r _.
  destruct (Z.eqb_spec (f_self r) first_uid), (Z.eqb_spec (f_friend r) second_uid),
    (Z.eqb_spec (f_self r) second_uid), (Z.eqb_spec (f_friend r) first_uid);
    simpl; case_bool_decide; naive_solver.
Qed.

(** The authorisation query of private chat answers yes exactly when both
    directions of the friendship are committed: a half-written friendship
    does not let a message pass. *)
Theorem friend_relation_both first_uid second_uid s :
  friends_ok (committed s) -> first_uid <> second_uid ->
  exists answer s', CheckFriendRelation first_uid second_uid s = (Returns answer, s') /\
    committed s' = committed s /\ borrowed s' = borrowed s /\
    match answer with
    | None => True
    | Some yes => yes = true <-> is_friend (committed s) first_uid second_uid /\
                                 is_friend (committed s) second_uid first_uid
    end.
Proof.
  intros [Hk _] Hne. destruct (read_operation None (fun _ => relation_count first_uid second_uid)
    (fun n => Some (n =? 2)) s) as (now & answer & s' & E & Ec & Eb & Ha).
  exists answer, s'. split_and!; try done. destruct Ha as [->| ->]; [done|].
  rewrite relation_count_spec by done. rewrite Z.eqb_eq. repeat case_decide; naive_solver lia.
Qed.

End FriendDao.

(** ** Examples *)

#[local] Instance friend_collation : Collation := fold_case.

Definition befriended : Tables :=
  set_friend [mkFriendRow 1001 1002 ""; mkFriendRow 1002 1001 "annie"] sample_tables.

Lemma friend_relation_both_witness :
  exists s', CheckFriendRelation 1001 1002 (healthy befriended 0) = (Returns (Some true), s') /\
  is_friend befriended 1001 1002 /\ is_friend befriended 1002 1001.
Proof.
  assert (friends_ok befriended) as Hok.
  { split.
    - by apply (bool_decide_unpack (NoDup ((fun r => (f_self r, f_friend r)) <$> friend befriended)));
        vm_compute.
    - by repeat constructor. }
  destruct (friend_relation_both 1001 1002 (healthy befriended 0) Hok ltac:(done))
    as (answer & s' & E & _ & _ & Ha).
  destruct answer as [b|]; [|discriminate E].
  exists s'. assert (b = true) as ->; [by vm_compute in E; simplify_eq|].
  split; [exact E|by apply Ha].
Defined.

(** One failed call inside the list of friends: the operation still reports
    success, with the friend missing from the answer. *)
Lemma friend_list_drops_friend :
  let flaky := mkDb befriended None true 0 0
                 (fun n => if bool_decide (n = 2%nat) then FailsBefore else Fine) (fun _ => 0) in
  (GetFriendList 1001 flaky).1 = Returns (Some []) /\
  exists u, uid u = 1002 /\ (GetFriendList 1001 (healthy befriended 0)).1 = Returns (Some [u]).
Proof. split; [reflexivity|]. eexists. split; [|reflexivity]. reflexivity. Qed.
