(* ===== verification/Acceptance.v ===== *)
(** The acceptance of a batch ([src/common/TextMessageService.h]) over the
    friendship query and the storing of the server's database. *)
From S2P Require Import Prelude Messages Mysql Schema MessageDao FriendDao.

Section Accepting.
Context `{Collation}.

(** The acceptance service over the database of the server. *)
Lemma accept_durable uid touid messages d :
  exists res d', TextMessageService.accept CheckFriendRelation PersistTextMessages uid touid messages d =
                   (Returns res, d') /\
    (committed d' = committed d \/ insert_all messages (committed d) = Some (committed d')) /\
    (res = TextMessageService.Accepted ->
     TextMessageService.valid_batch uid touid messages /\ relation_count uid touid (committed d) = 2 /\
     insert_all messages (committed d) = Some (committed d')).
Proof.
  destruct (decide (TextMessageService.valid_batch uid touid messages)) as [Hv|Hv].
  - rewrite TextMessageService.accept_valid by done. unfold CheckFriendRelation.
    destruct (read_operation None (fun _ => relation_count uid touid) (fun n => Some (n =? 2)) d)
      as (now & answer & d1 & -> & Ec & _ & Ha).
    destruct answer as [[]|]; [|by eexists _, d1; split_and!; [|left|]..].
    destruct (persist_spec messages d1) as (stored_ & d2 & -> & _ & Hc & Hs). rewrite Ec in Hc, Hs.
    destruct stored_; [|by eexists _, d2; split_and!].
    eexists _, d2. split; [done|]. split; [done|].
    intros _. split_and!; [done| |by apply Hs]. destruct Ha as [|Ha]; [done|]. injection Ha as Ha.
    symmetry in Ha. by apply Z.eqb_eq in Ha.
  - destruct (TextMessageService.accept_invalid CheckFriendRelation PersistTextMessages uid touid messages d Hv)
      as (res & Hres & ->). exists res, d. split_and!; [done|by left|]. intros ->. by destruct Hres.
Qed.

End Accepting.
