(* ===== verification/Password.v ===== *)
(** Password storage: [src/common/PasswordHasher.cpp] and
    [src/common/PasswordUpgradeGuard.h].  libsodium is a parameter. *)
From S2P Require Import Prelude.

(** What is used of libsodium.  [pwhash_str salt password] is
    [crypto_pwhash_str_alg], with the salt it draws as an argument; [None] is
    a non-zero result. *)
Class Sodium := {
  sodium_init_ok : bool;
  pwhash_str : Z -> string -> option string;
  pwhash_str_verify : string -> string -> bool;
  pwhash_str_needs_rehash : string -> bool;
  sha256_hex : string -> string;
}.

(** The documented contract of the password functions: an encoded hash is
    printable text with the algorithm prefix, the password it was made from
    verifies, and it does not need rehashing under the same limits. *)
Class SodiumLaws `{Sodium} : Prop := {
  pwhash_prefix : forall salt p e, pwhash_str salt p = Some e -> String.prefix "$argon2id$" e = true;
  pwhash_text : forall salt p e, pwhash_str salt p = Some e -> c_str e = e;
  pwhash_verifies : forall salt p e, pwhash_str salt p = Some e -> pwhash_str_verify e p = true;
  pwhash_current : forall salt p e, pwhash_str salt p = Some e -> pwhash_str_needs_rehash e = false;
}.

Module PasswordHasher.
Section PasswordHasher.
Context `{Sodium}.

Definition ensureSodiumInitialized : outcome unit :=
  if sodium_init_ok then Returns tt else Throws.

Definition hash (salt : Z) (password : string) : outcome string :=
  match ensureSodiumInitialized with
  | Throws => Throws
  | Returns _ =>
      if sempty password then Throws
      else match pwhash_str salt password with
           | Some encoded => Returns encoded
           | None => Throws
           end
  end.

(** [value.rfind("$argon2id$", 0) == 0] *)
Definition isEncodedHash (value : string) : bool := String.prefix "$argon2id$" value.

Definition verify (password encoded_hash : string) : outcome bool :=
  match ensureSodiumInitialized with
  | Throws => Throws
  | Returns _ =>
      if negb (isEncodedHash encoded_hash) then Returns false
      else Returns (pwhash_str_verify (c_str encoded_hash) password)
  end.

Definition needsRehash (encoded_hash : string) : outcome bool :=
  match ensureSodiumInitialized with
  | Throws => Throws
  | Returns _ =>
      if negb (isEncodedHash encoded_hash) then Returns true
      else Returns (pwhash_str_needs_rehash (c_str encoded_hash))
  end.

Definition legacyClientSha256 (password : string) : outcome string :=
  match ensureSodiumInitialized with
  | Throws => Throws
  | Returns _ => Returns (sha256_hex password)
  end.

(** [candidate.size() == stored.size() && sodium_memcmp(...) == 0] *)
Definition same_bytes (candidate stored : string) : bool :=
  (ssize candidate =? ssize stored) && String.eqb candidate stored.

Record PasswordVerificationResult := mkVerification {
  valid : bool; upgrade_required : bool; upgraded_hash : string;
}.

Definition verifyCredential (salt : Z) (raw_password stored_hash password_scheme : string)
    : outcome PasswordVerificationResult :=
  let raw_scheme := String.eqb password_scheme "argon2id_raw" in
  let legacy_scheme := String.eqb password_scheme "legacy_client_sha256" in
  if negb raw_scheme && negb legacy_scheme then Returns (mkVerification false false "")
  else
    match (if legacy_scheme then legacyClientSha256 raw_password else Returns raw_password) with
    | Throws => Throws
    | Returns candidate =>
        let legacy_plaintext := negb (isEncodedHash stored_hash) in
        match (if legacy_plaintext then Returns (same_bytes candidate stored_hash)
               else verify candidate stored_hash) with
        | Throws => Throws
        | Returns false => Returns (mkVerification false false "")
        | Returns true =>
            match (if legacy_plaintext || legacy_scheme then Returns true
                   else needsRehash stored_hash) with
            | Throws => Throws
            | Returns false => Returns (mkVerification true false "")
            | Returns true =>
                match hash salt raw_password with
                | Throws => Throws
                | Returns h => Returns (mkVerification true true h)
                end
            end
        end
    end.

(** [ApplyPasswordUpgradeIfCurrent]: [compare_and_swap] gives the number of
    rows it replaced. *)
Definition ApplyPasswordUpgradeIfCurrent {S} (verification : PasswordVerificationResult)
    (stored_hash stored_scheme : string)
    (compare_and_swap : string -> string -> string -> prog S Z) : prog S bool :=
  if negb (upgrade_required verification) then mret true
  else n ← compare_and_swap (upgraded_hash verification) stored_hash stored_scheme;
       mret (n =? 1).

(** A stored credential lets a raw password in. *)
Definition accepts (stored_hash password_scheme raw_password : string) : Prop :=
  exists salt r, verifyCredential salt raw_password stored_hash password_scheme = Returns r /\
                 valid r = true.

(** *** Properties *)

Lemma upgraded_is_hash salt raw stored scheme r :
  verifyCredential salt raw stored scheme = Returns r -> upgrade_required r = true ->
  valid r = true /\ hash salt raw = Returns (upgraded_hash r).
Proof.
  intros E Hu. unfold verifyCredential in E. repeat (case_code; simplify_eq/=; try done).
Qed.

Context `{!SodiumLaws}.

(** A hash just made is accepted under the raw scheme, without an upgrade. *)
Lemma hash_verifies salt salt' p h :
  hash salt p = Returns h ->
  verifyCredential salt' p h "argon2id_raw" = Returns (mkVerification true false "").
Proof.
  unfold hash, verifyCredential, verify, needsRehash, isEncodedHash. simpl.
  destruct ensureSodiumInitialized; [|done]. destruct (sempty p); [done|].
  destruct (pwhash_str salt p) as [e|] eqn:E; [|done]. intros [= <-].
  rewrite (pwhash_prefix _ _ _ E), (pwhash_text _ _ _ E). simpl.
  by rewrite (pwhash_verifies _ _ _ E), (pwhash_current _ _ _ E).
Qed.

(** Upgrading a stored credential keeps its password: when a login with a
    raw password is accepted and asks for an upgrade, the replacement hash
    accepts the same raw password under the [argon2id_raw] scheme, and asks
    for no further upgrade. *)
Theorem upgrade_keeps_password salt salt' raw stored scheme r :
  verifyCredential salt raw stored scheme = Returns r ->
  valid r = true -> upgrade_required r = true ->
  verifyCredential salt' raw (upgraded_hash r) "argon2id_raw" =
    Returns (mkVerification true false "").
Proof.
  intros E _ Hu. apply (hash_verifies salt). by eapply upgraded_is_hash.
Qed.

End PasswordHasher.

(** *** Example: a stand-in for libsodium that satisfies the contract *)

#[local] Instance toy_sodium : Sodium := {
  sodium_init_ok := true;
  pwhash_str _ p := Some ("$argon2id$" ++ c_str p)%string;
  pwhash_str_verify e p := String.eqb e ("$argon2id$" ++ c_str p);
  pwhash_str_needs_rehash _ := false;
  sha256_hex p := ("sha:" ++ p)%string;
}.

Lemma c_str_idem p : c_str (c_str p) = c_str p.
Proof. induction p as [|c p IH]; simpl; [done|]. destruct (Ascii.eqb c _) eqn:E; simpl; [done|]. by rewrite E, IH. Qed.

#[local] Instance toy_sodium_laws : SodiumLaws.
Proof.
  split; simpl; intros salt p e [= <-]; simpl; try done.
  - destruct (c_str p); reflexivity.
  - change ("" +:+ c_str p) with (c_str p). by rewrite c_str_idem.
  - apply String.eqb_refl.
Qed.

Lemma upgrade_keeps_password_witness :
  exists r, verifyCredential 1 "secret" "sha:secret" "legacy_client_sha256" = Returns r /\
    verifyCredential 2 "secret" (upgraded_hash r) "argon2id_raw" =
      Returns (mkVerification true false "").
Proof.
  eexists. split; [reflexivity|].
  exact (upgrade_keeps_password 1 2 "secret" "sha:secret" "legacy_client_sha256" _
           eq_refl eq_refl eq_refl).
Defined.

End PasswordHasher.
