(* ===== verification/UserDao.v ===== *)
(** Accounts: the user operations of [src/servers/chat/storage/MysqlDao.cpp]
    (module [ChatUsers]) and of [src/servers/gate/storage/MysqlDao.cpp]
    (module [GateUsers]), with the stored procedure [reg_user] of the schema.

    The sources catch [sql::SQLException] only: an exception of the password
    library leaves the operation, which is why the hashing below is not
    inside [try_catch]. *)
From S2P Require Import Prelude Mysql Schema Password FriendDao.
Import PasswordHasher.

Section Accounts.
Context `{Collation, Sodium}.

Definition name_is (n : string) (r : UserRow) : bool := bool_decide (weight (u_name r) = weight n).
Definition email_is (e : string) (r : UserRow) : bool := bool_decide (weight (u_email r) = weight e).

(** [INSERT INTO user]: the primary key and the two unique keys. *)
Definition insert_user (row : UserRow) (now : Z) (t : Tables) : option (unit * Tables) :=
  if existsb (fun r => (u_uid r =? u_uid row) || name_is (u_name row) r || email_is (u_email row) r) (user t)
  then None else Some (tt, set_users (user t ++ [row]) t).

Definition set_user_id (v : Z) (t : Tables) : Tables :=
  mkTables v (user t) (friend_apply t) (friend t) (chat_message t) (file_transfer t).

(** [CALL reg_user(?,?,?,@result)]: the counter is advanced even when the
    insertion that follows is rejected; [None] is that rejection. *)
Definition reg_user (p_name p_email p_pwd : string) (now : Z) (t : Tables)
    : option (option Z * Tables) :=
  if existsb (fun r => name_is p_name r || email_is p_email r) (user t) then Some (Some 0, t)
  else
    let t1 := set_user_id (user_id t + 1) t in
    let next_uid := user_id t1 in
    match insert_user (mkUserRow next_uid p_name p_email p_pwd "argon2id_raw" p_name "" 0 "") now t1 with
    | Some (_, t2) => Some (Some next_uid, t2)
    | None => Some (None, t1)
    end.

(** The common body of the two [RegUser]: call, then read [@result]. *)
Definition call_reg_user (n e h : string) : prog (db Tables) Z :=
  try_catch
    (result ← exec (reg_user n e h);
     match result with
     | None => throw
     | Some v => query (fun _ _ => tt) ;; mret v
     end)
    (mret (-1)).

(** [UPDATE user SET pwd = ? WHERE uid = ?] *)
Definition set_pwd (h : string) (r : UserRow) : UserRow :=
  mkUserRow (u_uid r) (u_name r) (u_email r) h (u_scheme r) (u_nick r) (u_desc r) (u_sex r) (u_icon r).
Definition set_pwd_scheme (h scheme : string) (r : UserRow) : UserRow :=
  mkUserRow (u_uid r) (u_name r) (u_email r) h scheme (u_nick r) (u_desc r) (u_sex r) (u_icon r).

Definition update_users (P : UserRow -> bool) (upd : UserRow -> UserRow) (now : Z) (t : Tables)
    : option (Z * Tables) :=
  let '(n, rows) := update_where P upd (user t) in Some (n, set_users rows t).

End Accounts.

Module ChatUsers.
Section ChatUsers.
Context `{Collation, Sodium}.

Definition RegUser (salt : Z) (n e p : string) : prog (db Tables) Z :=
  con ← getConnection;
  if negb con then mret 0
  else match hash salt p with
       | Throws => throw
       | Returns h => finally (call_reg_user n e h) returnConnection
       end.

(** The connection is not given back when no row has the name. *)
Definition CheckEmail (n e : string) : prog (db Tables) bool :=
  con ← getConnection;
  if negb con then mret false
  else
    row ← try_catch (r ← query (fun _ t => List.find (name_is n) (user t)); mret (Some r))
                    (mret None);
    match row with
    | None => modify returnConnection ;; mret false
    | Some None => mret true
    | Some (Some r) =>
        modify returnConnection ;;
        mret (String.eqb e (u_email r))
    end.

Definition UpdatePwd (salt : Z) (n newpwd : string) : prog (db Tables) bool :=
  con ← getConnection;
  if negb con then mret false
  else match hash salt newpwd with
       | Throws => throw
       | Returns h =>
           finally (try_catch (exec (update_users (name_is n) (set_pwd h)) ;; mret true) (mret false))
                   returnConnection
       end.

(** The verdict on the stored password, and whether it is plaintext. *)
Definition check_stored (p stored : string) : outcome (bool * bool) :=
  match verify p stored with
  | Throws => Throws
  | Returns valid =>
      let legacy := negb (isEncodedHash stored) in
      Returns (if legacy then same_bytes p stored else valid, legacy)
  end.

Definition CheckPwd (salt : Z) (n p : string) : prog (db Tables) (option UserInfo) :=
  with_connection None
    (row ← try_catch (query (fun _ t => List.find (name_is n) (user t))) (mret None);
     match row with
     | None => mret None
     | Some r =>
         let info := mkUserInfo n "" (u_uid r) (u_email r) "" "" 0 "" "" in
         match check_stored p (u_pwd r) with
         | Throws => throw
         | Returns (false, _) => mret None
         | Returns (true, legacy) =>
             match (if legacy then Returns true else needsRehash (u_pwd r)) with
             | Throws => throw
             | Returns false => mret (Some info)
             | Returns true =>
                 match hash salt p with
                 | Throws => throw
                 | Returns upgraded =>
                     try_catch
                       (exec (update_users (fun x => u_uid x =? u_uid r) (set_pwd upgraded)) ;;
                        mret (Some info))
                       (mret None)
                 end
             end
         end
     end).

(** *** The connections that are not given back *)

(** A look-up of an unknown name by the chat server's [CheckEmail] answers
    [true] and keeps the connection: the pool has one connection less after
    every such call. *)
Theorem check_email_keeps_connection n e s :
  oracle s (calls s) = Fine -> oracle s (S (calls s)) = Fine ->
  Forall (fun r => name_is n r = false) (user (committed s)) ->
  exists s', CheckEmail n e s = (Returns true, s') /\ borrowed s' = borrowed s + 1.
Proof.
  intros O1 O2 Hn. unfold CheckEmail, getConnection, try_catch, query, server_call, mbind, prog_bind.
  rewrite O1. simpl. rewrite O2. unfold view. simpl.
  destruct (List.find (name_is n) (user (committed s))) as [r|] eqn:E; [|eexists; by split].
  apply find_some in E as [Hr Hk]. apply list_elem_of_In in Hr.
  rewrite Forall_forall in Hn. by rewrite (Hn r Hr) in Hk.
Qed.

(** A password the library cannot hash leaves [RegUser] and [UpdatePwd] by an
    exception that is no [SQLException], with the connection. *)
Lemma hash_failure_keeps_connection salt n e p s :
  oracle s (calls s) = Fine -> hash salt p = Throws ->
  (RegUser salt n e p s).1 = Throws /\ borrowed (RegUser salt n e p s).2 = borrowed s + 1 /\
  (UpdatePwd salt n p s).1 = Throws /\ borrowed (UpdatePwd salt n p s).2 = borrowed s + 1.
Proof.
  intros O1 Hh. unfold RegUser, UpdatePwd, getConnection, mbind, prog_bind.
  rewrite O1. simpl. by rewrite Hh.
Qed.

End ChatUsers.

#[local] Instance chat_collation : Collation := fold_case.

Lemma check_email_keeps_connection_witness :
  exists s', CheckEmail "nobody" "x@example.org" (healthy sample_tables 0) = (Returns true, s') /\
             borrowed s' = 1.
Proof.
  apply (check_email_keeps_connection "nobody" "x@example.org" (healthy sample_tables 0));
    [reflexivity|reflexivity|by repeat constructor].
Defined.

End ChatUsers.

Module GateUsers.
Section GateUsers.
Context `{Collation, Sodium}.

(** [MigrateLegacyPasswords]: the loop over the rows that were read; [salts]
    are the salts drawn, one for each row. *)
Fixpoint migrate_rows (salts : nat -> Z) (rows : list (Z * string)) : prog (db Tables) unit :=
  match rows with
  | [] => mret tt
  | (id, plaintext) :: rest =>
      (if sempty plaintext then mret tt
       else match hash (salts (length rest)) plaintext with
            | Throws => throw
            | Returns encoded =>
                exec (update_users (fun r => (u_uid r =? id) && bool_decide (weight (u_pwd r) = weight plaintext))
                                   (set_pwd encoded)) ;; mret tt
            end) ;;
      migrate_rows salts rest
  end.

Definition MigrateLegacyPasswords (salts : nat -> Z) : prog (db Tables) unit :=
  with_connection tt
    (try_catch
       (rows ← query (fun _ t =>
          (fun r => (u_uid r, u_pwd r)) <$> filter (fun r => isEncodedHash (u_pwd r) = false) (user t));
        migrate_rows salts rows)
       (mret tt)).

Definition RegUser (salt : Z) (n e p : string) : prog (db Tables) Z :=
  con ← getConnection;
  if negb con then mret 0
  else match hash salt p with
       | Throws => throw
       | Returns h => finally (call_reg_user n e h) returnConnection
       end.

(** The [try] block of [RegUserTransaction] after the hashing. *)
Definition register_body (n e h icon_ : string) : prog (db Tables) Z :=
  setAutoCommit false ;;
  email_exist ← query (fun _ t => existsb (email_is e) (user t));
  if email_exist : bool then rollback ;; mret 0
  else
    name_exist ← query (fun _ t => existsb (name_is n) (user t));
    if name_exist : bool then rollback ;; mret 0
    else
      exec (fun _ t => Some (tt, set_user_id (user_id t + 1) t)) ;;
      newId ← query (fun _ t => user_id t);
      exec (insert_user (mkUserRow newId n e h "argon2id_raw" n "" 0 icon_)) ;;
      commit ;;
      mret newId.

(** A failing [rollback] in the handler leaves the function. *)
Definition RegUserTransaction (salt : Z) (n e p icon_ : string) : prog (db Tables) Z :=
  with_connection 0
    (match hash salt p with
     | Throws => throw
     | Returns h => try_catch (register_body n e h icon_) (rollback ;; mret (-1))
     end).

Definition CheckEmail (n e : string) : prog (db Tables) bool :=
  with_connection false
    (try_catch
       (row ← query (fun _ t => List.find (name_is n) (user t));
        mret (match row with Some r => String.eqb e (u_email r) | None => false end))
       (mret false)).

Definition UpdatePwd (salt : Z) (n newpwd : string) : prog (db Tables) bool :=
  con ← getConnection;
  if negb con then mret false
  else match hash salt newpwd with
       | Throws => throw
       | Returns h =>
           finally (try_catch (exec (update_users (name_is n) (set_pwd_scheme h "argon2id_raw")) ;; mret true)
                              (mret false))
                   returnConnection
       end.

(** The compare-and-swap of the upgrade; [BINARY] compares bytes. *)
Definition swap_password (id : Z) (upgraded expected_hash expected_scheme : string) : prog (db Tables) Z :=
  exec (update_users (fun r => (u_uid r =? id) && String.eqb (u_pwd r) expected_hash
                               && bool_decide (weight (u_scheme r) = weight expected_scheme))
                     (set_pwd_scheme upgraded "argon2id_raw")).

(** The result and the flag [*unavailable]. *)
Definition CheckPwd (salt : Z) (e p : string) : prog (db Tables) (option UserInfo * bool) :=
  with_connection (None, true)
    (row ← try_catch (r ← query (fun _ t => List.find (email_is e) (user t)); mret (Some r))
                     (mret None);
     match row with
     | None => mret (None, true)
     | Some None => mret (None, false)
     | Some (Some r) =>
         match verifyCredential salt p (u_pwd r) (u_scheme r) with
         | Throws => throw
         | Returns verification =>
             if negb (valid verification) then mret (None, false)
             else
               applied ← try_catch
                 (b ← ApplyPasswordUpgradeIfCurrent verification (u_pwd r) (u_scheme r)
                        (swap_password (u_uid r));
                  mret (Some b))
                 (mret None);
               mret (match applied with
                     | None => (None, true)
                     | Some false => (None, false)
                     | Some true => (Some (mkUserInfo (u_name r) "" (u_uid r) e "" "" 0 "" ""), false)
                     end)
         end
     end).

(** *** Registration *)

(** [t'] is [t] with one new account under the next uid; its name and email
    were free. *)
Definition registered (n e h icon_ : string) (t t' : Tables) : Prop :=
  let row := mkUserRow (user_id t + 1) n e h "argon2id_raw" n "" 0 icon_ in
  t' = set_users (user t ++ [row]) (set_user_id (user_id t + 1) t) /\
  Forall (fun r => u_uid r <> user_id t + 1 /\ weight (u_name r) <> weight n /\
                   weight (u_email r) <> weight e) (user t).

(** The keys of the table. *)
Record users_ok (t : Tables) : Prop := {
  ok_uid : NoDup (u_uid <$> user t);
  ok_name : NoDup ((fun r => weight (u_name r)) <$> user t);
  ok_email : NoDup ((fun r => weight (u_email r)) <$> user t);
}.

Lemma existsb_false_Forall {A} (P : A -> bool) l :
  existsb P l = false <-> Forall (fun x => P x = false) l.
Proof.
  induction l as [|x l IH]; simpl; [split; [constructor|done]|].
  rewrite orb_false_iff, Forall_cons, IH. done.
Qed.

Lemma insert_user_registered n e h icon_ now t t' :
  insert_user (mkUserRow (user_id t + 1) n e h "argon2id_raw" n "" 0 icon_) now
    (set_user_id (user_id t + 1) t) = Some (tt, t') ->
  registered n e h icon_ t t'.
Proof.
  unfold insert_user. simpl. case_code; [done|]. intros [= <-]. split; [done|].
  apply existsb_false_Forall in Heqb. eapply Forall_impl; [done|]. simpl. intros r Hr.
  unfold name_is, email_is in Hr. bool_hyps. done.
Qed.

Lemma NoDup_fmap_snoc {A B} (f : A -> B) l x :
  NoDup (f <$> l) -> Forall (fun y => f y <> f x) l -> NoDup (f <$> l ++ [x]).
Proof.
  intros Hd Hf. rewrite fmap_app. apply NoDup_app. split_and!; [done| |apply NoDup_singleton].
  intros k (y & -> & Hy)%list_elem_of_fmap Hk%list_elem_of_singleton.
  rewrite Forall_forall in Hf. by apply (Hf y).
Qed.

Lemma registered_ok n e h icon_ t t' : registered n e h icon_ t t' -> users_ok t -> users_ok t'.
Proof.
  intros [-> Hf] [H1 H2 H3]. split; simpl; apply NoDup_fmap_snoc; try done;
    (eapply Forall_impl; [done|]); simpl; naive_solver.
Qed.

(** The exits of the [try] block: manual mode, all or nothing, and a positive
    answer is the uid of the new account. *)
Definition register_exit n e h icon_ (c : Tables) (b : Z) (r : outcome Z) (s : db Tables) : Prop :=
  settled b s /\ either c (registered n e h icon_ c) s /\
  match r with
  | Returns id => id = 0 \/ id = user_id c + 1 /\ registered n e h icon_ c (committed s)
  | Throws => True
  end.

Lemma register_exit_manual n e h icon_ c b r s :
  manual c (registered n e h icon_ c) b s ->
  match r with
  | Returns id => id = 0 \/ id = user_id c + 1 /\ registered n e h icon_ c (committed s)
  | Throws => True
  end ->
  register_exit n e h icon_ c b r s.
Proof. intros (Ha & Hb & He) Hr. split_and!; try done. split; [done|by rewrite Ha]. Qed.

Lemma wp_register_refuse n e h icon_ c b s :
  in_transaction c b s -> wp (rollback ;; mret 0) (register_exit n e h icon_ c b) s.
Proof.
  intros Ht. apply wp_bind.
  eapply wp_mono; [by apply wp_manual_rollback, (in_transaction_manual _ (registered n e h icon_ c))|].
  intros [?|] s' Hm; [apply wp_ret|]; apply register_exit_manual; auto.
Qed.

Lemma wp_register_body n e h icon_ c b (s : db Tables) :
  committed s = c -> borrowed s = b -> working s = None -> autocommit s = true ->
  wp (register_body n e h icon_) (register_exit n e h icon_ c b) s.
Proof.
  intros Hc Hb Hw Ha. apply wp_bind, wp_server_call; [by split_and!; [split|left|]|].
  intros [] s0 [= <-]. split; [|by split_and!; [split|left|]].
  match goal with |- wp _ _ ?x => set (s0 := x) end.
  assert (in_transaction c b s0) as Ht by done.
  assert (view s0 = c) as Hv by (unfold view; simpl; by rewrite Hw).
  assert (forall s', in_transaction c b s' -> register_exit n e h icon_ c b Throws s') as Hthrow
    by (intros; apply register_exit_manual; auto using in_transaction_manual).
  clearbody s0. clear s Hc Hb Hw Ha.
  apply wp_bind. eapply wp_query_in; [done..|]. intros s1 _ Ht1 Hv1.
  case_match; [by apply wp_register_refuse|].
  apply wp_bind. eapply wp_query_in; [done..|]. intros s2 _ Ht2 Hv2.
  case_match; [by apply wp_register_refuse|].
  apply wp_bind. eapply wp_exec_in; [done..|]. intros [] t3 s3 _ [= <-] Ht3 Hv3.
  apply wp_bind. eapply wp_query_in; [done..|]. intros s4 _ Ht4 Hv4.
  apply wp_bind. eapply wp_exec_in; [done..|]. intros [] t5 s5 now5 E5 Ht5 Hv5.
  assert (registered n e h icon_ c t5) as Hreg.
  { rewrite Hv4, Hv3, Hv2, Hv1, Hv in E5. by apply insert_user_registered in E5. }
  apply wp_bind. eapply wp_mono; [apply (wp_manual_commit c (registered n e h icon_ c) b s5 Ht5)|].
  { by rewrite Hv5. }
  intros [?|] s' [Hm Hd]; [apply wp_ret|]; apply register_exit_manual; try done.
  right. split; [|done]. by rewrite Hv3, Hv2, Hv1, Hv.
Qed.

(** Registration is one transaction under every pattern of database
    failures, also when it leaves by an exception: the connection is given
    back, and the committed tables are unchanged or gained exactly one account
    with the next uid, the given name and email (both unused before) and the
    hash of the password, so uids, names and emails stay unique.  An answer
    other than 0 and -1 is the uid of that account. *)
Theorem register_atomic salt n e p icon_ s :
  let '(r, s') := RegUserTransaction salt n e p icon_ s in
  borrowed s' = borrowed s /\
  (committed s' = committed s \/
   exists h, hash salt p = Returns h /\ registered n e h icon_ (committed s) (committed s')) /\
  (users_ok (committed s) -> users_ok (committed s')) /\
  match r with
  | Throws => True
  | Returns id => id = 0 \/ id = -1 \/ id = user_id (committed s) + 1 /\
      exists h, hash salt p = Returns h /\ registered n e h icon_ (committed s) (committed s')
  end.
Proof.
  apply wp_let.
  apply wp_with_connection; [simpl; auto|]. destruct (hash salt p) as [h|] eqn:Hh.
  2: { apply wp_throw. edestruct (returnConnection_committed (T := Tables)) as (-> & _ & _ & -> & _);
       [done|]. simpl. split_and!; [lia|by left|done|done]. }
  set (b := borrowed s + 1). set (c := committed s).
  apply (wp_mono _ (fun r s' => settled b s' /\ either c (registered n e h icon_ c) s' /\
    match r with Throws => True
    | Returns id => id = 0 \/ id = -1 \/ id = user_id c + 1 /\ registered n e h icon_ c (committed s') end)).
  - apply wp_try. eapply wp_mono; [by apply (wp_register_body n e h icon_ c b)|].
    intros [id|] s1 (Hs & He & Hr); [naive_solver|].
    apply wp_bind. destruct Hs as [Hb Hw].
    apply wp_server_call; [by split_and!|]. intros [] s2 [= <-].
    split; [apply wp_ret|]; split_and!; auto; by split.
  - intros r s1 ([Hb Hw] & He & Hr).
    destruct (returnConnection_committed s1 Hw) as (-> & _ & _ & -> & _).
    split_and!; [lia|destruct He; eauto| |destruct r; naive_solver].
    destruct He as [->|He]; eauto using registered_ok.
Qed.

(** *** Password reset *)

(** The accounts of that name (at most one) got the hash [h]. *)
Definition pwd_reset (n h : string) (t t' : Tables) : Prop :=
  t' = set_users ((fun r => if bool_decide (weight (u_name r) = weight n)
                            then set_pwd_scheme h "argon2id_raw" r else r) <$> user t) t.

Lemma CheckEmail_spec n e s : let '(r, s') := CheckEmail n e s in
  committed s' = committed s /\
  (r = Returns true ->
   exists row, row ∈ user (committed s) /\ weight (u_name row) = weight n /\ u_email row = e).
Proof.
  destruct (read_operation false (fun _ t => List.find (name_is n) (user t))
    (fun row => match row with Some r => String.eqb e (u_email r) | None => false end) s)
    as (now & answer & s' & E & Hc & _ & Ha).
  unfold CheckEmail. rewrite E. split; [done|]. intros [= ->].
  destruct Ha as [?|Ha]; [done|]. destruct (List.find _ _) as [row|] eqn:Ef; [|done].
  apply find_some in Ef as [Hin Hn]. exists row. unfold name_is in Hn. bool_hyps.
  split_and!; [by apply list_elem_of_In|done|]. symmetry. by apply String.eqb_eq.
Qed.

Lemma UpdatePwd_spec salt n p s : let '(r, s') := UpdatePwd salt n p s in
  committed s' = committed s /\ r <> Returns true \/
  exists h, hash salt p = Returns h /\ pwd_reset n h (committed s) (committed s').
Proof.
  apply wp_let, wp_bind. unfold wp at 1, getConnection.
  destruct (oracle s (calls s)); simpl; [|apply wp_ret; by left..].
  destruct (hash salt p) as [h|]; [|apply wp_throw; by left].
  apply wp_finally, wp_try, wp_bind, wp_exec.
  - apply wp_ret. left. edestruct (returnConnection_committed (T := Tables)) as (-> & _); [done|]. done.
  - intros k t Et. split; apply wp_ret; right; exists h; (split; [done|]);
      (edestruct (returnConnection_committed (T := Tables)) as (-> & _); [done|]);
      unfold update_users in Et; simpl in Et; injection Et as _ <-; reflexivity.
Qed.

(** *** Login *)

(** The account with this email, which accepts the password. *)
Definition logs_in (e p : string) (t : Tables) (row : UserRow) : Prop :=
  row ∈ user t /\ weight (u_email row) = weight e /\ accepts (u_pwd row) (u_scheme row) p.

(** The row got a new hash of the same password, and only because it holds
    the credential that was checked. *)
Definition upgraded (e p : string) (t : Tables) (row row' : UserRow) : Prop :=
  (exists account, logs_in e p t account /\ u_uid row = u_uid account /\ u_pwd row = u_pwd account) /\
  exists h, row' = set_pwd_scheme h "argon2id_raw" row /\ accepts h "argon2id_raw" p.

Definition credentials_kept (e p : string) (t t' : Tables) : Prop :=
  exists rows, t' = set_users rows t /\
    Forall2 (fun row row' => row' = row \/ upgraded e p t row row') (user t) rows.

Lemma credentials_kept_refl e p t : credentials_kept e p t t.
Proof. exists (user t). split; [by destruct t|]. apply Forall2_same_length_lookup_2; naive_solver. Qed.

Lemma swap_password_kept e p account h scheme now t n t' :
  logs_in e p t account -> accepts h "argon2id_raw" p ->
  update_users (fun r => (u_uid r =? u_uid account) && String.eqb (u_pwd r) (u_pwd account)
                         && bool_decide (weight (u_scheme r) = weight scheme))
               (set_pwd_scheme h "argon2id_raw") now t = Some (n, t') ->
  credentials_kept e p t t'.
Proof.
  unfold update_users. simpl. intros Hl Hh [= _ <-]. eexists. split; [done|].
  apply Forall2_fmap_r, Forall_Forall2_diag, Forall_forall. intros row _.
  simpl. case_code; [|by left]. bool_hyps. right.
  split; [exists account; split_and!; [done|lia|by apply String.eqb_eq]|by exists h].
Qed.

(** The check of the row that was found, up to the return of the connection. *)
Definition login_exit (e p : string) (b : Z) (c : Tables) (r : outcome (option UserInfo * bool))
    (s' : db Tables) : Prop :=
  settled b s' /\ credentials_kept e p c (committed s') /\
  match r with
  | Returns (Some info, _) => exists row, logs_in e p c row /\ uid info = u_uid row
  | _ => True
  end.

Lemma login_exit_same e p b c s' r :
  settled b s' -> committed s' = c -> (forall i u, r = Returns (Some i, u) ->
    exists row, logs_in e p c row /\ uid i = u_uid row) -> login_exit e p b c r s'.
Proof.
  intros Hs <- Hr. split_and!; [done|apply credentials_kept_refl|].
  destruct r as [[[i|] u]|]; [by eapply Hr|done..].
Qed.

(** Logging in is safe for the credential: a login succeeds only with a
    password the stored credential of that email accepts, and answers with
    that account; whether or not it succeeds (also when it throws or the
    database fails half-way) nothing changes but that the row of this account
    may get a new hash, which accepts the same password; the connection is
    given back. *)
Theorem login_keeps_credential `{!SodiumLaws} salt e p s :
  let '(r, s') := CheckPwd salt e p s in
  borrowed s' = borrowed s /\ credentials_kept e p (committed s) (committed s') /\
  match r with
  | Returns (Some info, _) => exists row, logs_in e p (committed s) row /\ uid info = u_uid row
  | _ => True
  end.
Proof.
  apply wp_let. apply wp_with_connection; [split_and!; [done|apply credentials_kept_refl|done]|].
  apply (wp_mono _ (login_exit e p (borrowed s + 1) (committed s)));
    [|intros r s1 ([Hb Hw] & Hk & Hr);
      destruct (returnConnection_committed s1 Hw) as (-> & _ & _ & -> & _); by split_and!; [lia|..]].
  apply wp_bind, wp_try, wp_bind, wp_query; [by apply wp_ret, wp_ret, login_exit_same|].
  apply wp_ret. simpl.
  destruct (List.find (email_is e) _) as [row|] eqn:Ef; [|by apply wp_ret, login_exit_same].
  apply find_some in Ef as [Hin Hem]. apply list_elem_of_In in Hin. unfold email_is in Hem. bool_hyps.
  unfold view in Hin. simpl in Hin.
  destruct (verifyCredential salt p (u_pwd row) (u_scheme row)) as [v|] eqn:Ev;
    [|by apply wp_throw, login_exit_same].
  destruct (valid v) eqn:Hv; simpl; [|by apply wp_ret, login_exit_same].
  assert (logs_in e p (committed s) row) as Hrow by (split_and!; [done..|by exists salt, v]).
  apply wp_bind, wp_try, wp_bind. unfold ApplyPasswordUpgradeIfCurrent.
  destruct (upgrade_required v) eqn:Hu; simpl; cycle 1.
  { apply wp_ret, wp_ret, wp_ret, login_exit_same; [done..|]. intros i u [= <- <-]. by exists row. }
  apply wp_bind, wp_exec; [by apply wp_ret, wp_ret, login_exit_same|]. intros n t' Et.
  eapply swap_password_kept in Et; [|done|].
  2: { exists salt. eexists. split; [eapply hash_verifies; by eapply upgraded_is_hash|done]. }
  split; [apply wp_ret, wp_ret, wp_ret|apply wp_ret, wp_ret]; (split_and!; [done|done|]); [|done].
  destruct (n =? 1); [by exists row|done].
Qed.

End GateUsers.

#[local] Instance gate_collation : Collation := fold_case.
#[local] Existing Instance toy_sodium.

Definition legacy_tables : Tables :=
  set_users [mkUserRow 7 "old" "old@example.org" "sha:secret" "legacy_client_sha256" "old" "" 0 ""]
            sample_tables.

(** The login below succeeds and upgrades the stored hash. *)
Lemma login_keeps_credential_witness :
  exists info s', CheckPwd 1 "old@example.org" "secret" (healthy legacy_tables 0) =
    (Returns (Some info, false), s') /\ uid info = 7 /\
    exists row, row ∈ user legacy_tables /\ accepts (u_pwd row) (u_scheme row) "secret".
Proof.
  pose proof (login_keeps_credential (H1 := toy_sodium_laws) 1 "old@example.org" "secret"
                (healthy legacy_tables 0)) as Hl.
  eexists _, _. split; [reflexivity|]. split; [reflexivity|].
  destruct Hl as (_ & _ & row & (? & _ & ?) & _). by exists row.
Defined.

End GateUsers.
