(* ===== verification/FileDao.v ===== *)
(** The attachment metadata of [src/servers/chat/storage/MysqlDao.cpp] and
    the types of [src/common/FileTransferTypes.h]. *)
From S2P Require Import Prelude Mysql Schema.

Definition MaxFileBytes : Z := 100 * 1024 * 1024.
Definition PlainChunkBytes : Z := 32 * 1024.

Record TransferRecord := mkTransferRecord {
  id : string; t_sender_uid : Z; t_receiver_uid : Z; original_name : string; mime_type : string;
  total_size : Z; uploaded_size : Z; sha256 : string; status : TransferStatus;
}.

(** [ToString(TransferStatus)] *)
Definition ToString (s : TransferStatus) : string :=
  match s with
  | Uploading => "uploading"
  | Available => "available"
  | Downloaded => "downloaded"
  | Cancelled => "cancelled"
  | Expired => "expired"
  end.

Section FileDao.
Context `{Collation}.

Definition DAY : Z := 86400.

Definition has_id (i : string) (r : TransferRow) : bool := bool_decide (weight (x_id r) = weight i).

(** [status IN('uploading','available','downloaded')] *)
Definition active (r : TransferRow) : bool :=
  match x_status r with Uploading | Available | Downloaded => true | _ => false end.
Definition ready (r : TransferRow) : bool :=
  match x_status r with Available | Downloaded => true | _ => false end.
(** [expires_at<=NOW() OR status IN('cancelled','expired')] *)
Definition disposable (now : Z) (r : TransferRow) : bool :=
  (x_expires r <=? now) || match x_status r with Cancelled | Expired => true | _ => false end.

(** The rows the quota counts. *)
Definition quota_row (sender now : Z) (r : TransferRow) : bool :=
  (x_sender r =? sender) && (now <? x_expires r) && active r.

Definition item_count (sender now : Z) (t : Tables) : Z :=
  zsum (fun r => if quota_row sender now r then 1 else 0) (file_transfer t).
Definition total_bytes (sender now : Z) (t : Tables) : Z :=
  zsum (fun r => if quota_row sender now r then x_total r else 0) (file_transfer t).

(** [INSERT INTO file_transfer(...) VALUES(...,'uploading',DATE_ADD(NOW(), INTERVAL 7 DAY))] *)
Definition insert_transfer (transfer : TransferRecord) (now : Z) (t : Tables) : option (Z * Tables) :=
  if existsb (has_id (id transfer)) (file_transfer t)
     || negb (user_exists t (t_sender_uid transfer) && user_exists t (t_receiver_uid transfer))
  then None
  else Some (1, set_transfers (file_transfer t ++
         [mkTransferRow (id transfer) (t_sender_uid transfer) (t_receiver_uid transfer)
            (original_name transfer) (mime_type transfer) (total_size transfer) 0 (sha256 transfer)
            Uploading now None None (now + 7 * DAY)]) t).

Definition create_body (transfer : TransferRecord) : prog (db Tables) bool :=
  sender ← query (fun _ t => user_exists t (t_sender_uid transfer));
  if negb sender then rollback ;; setAutoCommit true ;; mret false
  else
    usage ← query (fun now t => (item_count (t_sender_uid transfer) now t,
                                 total_bytes (t_sender_uid transfer) now t));
    if (16 <=? usage.1) || (1024 * 1024 * 1024 <? u64 (usage.2 + total_size transfer))
    then rollback ;; setAutoCommit true ;; mret false
    else
      n ← exec (insert_transfer transfer);
      if n =? 1 then commit ;; setAutoCommit true ;; mret true
      else rollback ;; setAutoCommit true ;; mret false.

Definition CreateFileTransfer (transfer : TransferRecord) : prog (db Tables) bool :=
  with_connection false
    (try_catch (setAutoCommit false ;; create_body transfer) (abandon ;; mret false)).

(** [WHERE id=? AND expires_at>NOW()] *)
Definition GetFileTransfer (i : string) : prog (db Tables) (option TransferRecord) :=
  with_connection None
    (try_catch
       (row ← query (fun now t => List.find (fun r => has_id i r && (now <? x_expires r)) (file_transfer t));
        mret ((fun r => mkTransferRecord (x_id r) (x_sender r) (x_receiver r) (x_name r) (x_mime r)
                          (x_total r) (x_uploaded r) (x_sha256 r) (x_status r)) <$> row))
       (mret None)).

Fixpoint get_each (ids : list string) : prog (db Tables) (list TransferRecord) :=
  match ids with
  | [] => mret []
  | i :: rest =>
      item ← GetFileTransfer i;
      others ← get_each rest;
      mret (match item with Some x => x :: others | None => others end)
  end.

Definition GetPendingFileTransfers (uid : Z) : prog (db Tables) (list TransferRecord) :=
  with_connection []
    (try_catch
       (ids ← query (fun now t => x_id <$> take 200 (order_by (fun r => - x_created r)
                (filter (fun r => ((x_receiver r =? uid) || (x_sender r =? uid)) && ready r
                                  && (now <? x_expires r) = true) (file_transfer t))));
        get_each ids)
       (mret [])).

Definition update_transfers (P : TransferRow -> bool) (upd : Z -> TransferRow -> TransferRow)
    (now : Z) (t : Tables) : option (Z * Tables) :=
  let '(n, rows) := update_where P (upd now) (file_transfer t) in Some (n, set_transfers rows t).

(** The frame of the single-statement operations: one affected row or not. *)
Definition one_row (f : Z -> Tables -> option (Z * Tables)) : prog (db Tables) bool :=
  with_connection false (try_catch (n ← exec f; mret (n =? 1)) (mret false)).

Definition set_uploaded (n now : Z) (r : TransferRow) : TransferRow :=
  mkTransferRow (x_id r) (x_sender r) (x_receiver r) (x_name r) (x_mime r) (x_total r) n (x_sha256 r)
    (x_status r) (x_created r) (x_completed r) (x_downloaded r) (x_expires r).

Definition can_advance (i : string) (sender expected_offset new_offset : Z) (r : TransferRow) : bool :=
  has_id i r && (x_sender r =? sender) && bool_decide (x_status r = Uploading)
  && (x_uploaded r =? expected_offset) && (x_uploaded r <? new_offset) && (new_offset <=? x_total r).

Definition AdvanceFileUpload (i : string) (sender expected_offset new_offset : Z) : prog (db Tables) bool :=
  one_row (update_transfers (can_advance i sender expected_offset new_offset) (set_uploaded new_offset)).

Definition set_available (now : Z) (r : TransferRow) : TransferRow :=
  mkTransferRow (x_id r) (x_sender r) (x_receiver r) (x_name r) (x_mime r) (x_total r) (x_uploaded r)
    (x_sha256 r) Available (x_created r) (Some now) (x_downloaded r) (now + 7 * DAY).

Definition can_complete (i : string) (sender : Z) (r : TransferRow) : bool :=
  has_id i r && (x_sender r =? sender) && bool_decide (x_status r = Uploading)
  && (x_uploaded r =? x_total r).

Definition CompleteFileTransfer (i : string) (sender : Z) : prog (db Tables) bool :=
  one_row (update_transfers (can_complete i sender) set_available).

Definition set_downloaded (now : Z) (r : TransferRow) : TransferRow :=
  mkTransferRow (x_id r) (x_sender r) (x_receiver r) (x_name r) (x_mime r) (x_total r) (x_uploaded r)
    (x_sha256 r) Downloaded (x_created r) (x_completed r)
    (match x_downloaded r with None => Some now | d => d end) (Z.min (x_expires r) (now + 1 * DAY)).

Definition can_download (i : string) (receiver : Z) (r : TransferRow) : bool :=
  has_id i r && (x_receiver r =? receiver) && ready r.

Definition MarkFileDownloaded (i : string) (receiver : Z) : prog (db Tables) bool :=
  one_row (update_transfers (can_download i receiver) set_downloaded).

Definition set_cancelled (now : Z) (r : TransferRow) : TransferRow :=
  mkTransferRow (x_id r) (x_sender r) (x_receiver r) (x_name r) (x_mime r) (x_total r) (x_uploaded r)
    (x_sha256 r) Cancelled (x_created r) (x_completed r) (x_downloaded r) now.

Definition can_cancel (i : string) (actor : Z) (r : TransferRow) : bool :=
  has_id i r && ((x_sender r =? actor) || (x_receiver r =? actor)) && active r.

Definition CancelFileTransfer (i : string) (actor : Z) : prog (db Tables) bool :=
  one_row (update_transfers (can_cancel i actor) set_cancelled).

Definition GetExpiredFileTransferIds : prog (db Tables) (list string) :=
  with_connection []
    (try_catch
       (ids ← query (fun now t => x_id <$> take 200
                (filter (fun r => disposable now r = true) (file_transfer t)));
        mret ids)
       (mret [])).

Definition delete_transfer (i : string) (now : Z) (t : Tables) : option (Z * Tables) :=
  let keep r := negb (has_id i r && disposable now r) in
  Some (zsum (fun r => if keep r then 0 else 1) (file_transfer t),
        set_transfers (filter (fun r => keep r = true) (file_transfer t)) t).

Definition DeleteFileTransfer (i : string) : prog (db Tables) bool := one_row (delete_transfer i).

(** *** The life of a transfer *)

(** The order of the statuses: upload, availability, download; an active
    transfer may be cancelled; a cancelled or expired one stays. *)
Definition status_le (a b : TransferStatus) : bool :=
  match a, b with
  | Uploading, (Uploading | Available | Downloaded | Cancelled) => true
  | Available, (Available | Downloaded | Cancelled) => true
  | Downloaded, (Downloaded | Cancelled) => true
  | Cancelled, Cancelled | Expired, Expired => true
  | _, _ => false
  end.

(** [r'] is a later state of the transfer [r]: what identifies the file never
    changes, the offset only grows, and only while it is uploading. *)
Record evolves (r r' : TransferRow) : Prop := {
  ev_identity : (x_id r', x_sender r', x_receiver r', x_name r', x_mime r', x_total r', x_sha256 r', x_created r') =
                (x_id r, x_sender r, x_receiver r, x_name r, x_mime r, x_total r, x_sha256 r, x_created r);
  ev_uploaded : x_uploaded r <= x_uploaded r';
  ev_frozen : x_status r <> Uploading -> x_uploaded r' = x_uploaded r;
  ev_status : status_le (x_status r) (x_status r') = true;
}.

(** A transfer is within its bounds, and complete once it is offered. *)
Definition row_ok (r : TransferRow) : Prop :=
  0 <= x_uploaded r <= x_total r /\ x_total r <= MaxFileBytes /\
  (x_status r = Available \/ x_status r = Downloaded -> x_uploaded r = x_total r).

Definition transfers_ok (t : Tables) : Prop := Forall row_ok (file_transfer t).

Lemma evolves_refl r : evolves r r.
Proof. split; try done. by destruct (x_status r). Qed.

Lemma evolves_trans r1 r2 r3 : evolves r1 r2 -> evolves r2 r3 -> evolves r1 r3.
Proof.
  intros [I1 U1 F1 S1] [I2 U2 F2 S2]. split; [congruence|lia| |].
  - intros Hn. rewrite F2, F1; [done|done|]. intros E. rewrite E in S1. by destruct (x_status r1).
  - by destruct (x_status r1), (x_status r2), (x_status r3).
Qed.

Ltac use_status :=
  match goal with E : x_status ?r = _ |- _ => rewrite E in *; done end.

(** The four updates, on the rows their [WHERE] clause selects. *)
Lemma advance_evolves i sender o n now r :
  can_advance i sender o n r = true -> row_ok r ->
  evolves r (set_uploaded n now r) /\ row_ok (set_uploaded n now r).
Proof.
  unfold can_advance, row_ok, ready. intros Hc (H1 & H2 & H3). bool_hyps. split.
  - split; simpl; [done|lia|congruence|by destruct (x_status r)].
  - simpl. split_and!; try lia. intros [|]; congruence.
Qed.

Lemma complete_evolves i sender now r :
  can_complete i sender r = true -> row_ok r ->
  evolves r (set_available now r) /\ row_ok (set_available now r).
Proof.
  unfold can_complete, row_ok, ready. intros Hc (H1 & H2 & H3). bool_hyps. split.
  - split; simpl; [done|lia|congruence|use_status].
  - simpl. split_and!; try lia.
Qed.

Lemma download_evolves i receiver now r :
  can_download i receiver r = true -> row_ok r ->
  evolves r (set_downloaded now r) /\ row_ok (set_downloaded now r).
Proof.
  unfold can_download, row_ok, ready. intros Hc (H1 & H2 & H3). bool_hyps. split.
  - split; simpl; [done|lia|done|by destruct (x_status r)].
  - simpl. split_and!; try lia. intros _. apply H3.
    destruct (x_status r); by auto.
Qed.

Lemma cancel_evolves i actor now r :
  can_cancel i actor r = true -> row_ok r ->
  evolves r (set_cancelled now r) /\ row_ok (set_cancelled now r).
Proof.
  unfold can_cancel, row_ok, ready, active. intros Hc (H1 & H2 & H3). bool_hyps. split.
  - split; simpl; [done|lia|done|by destruct (x_status r)].
  - simpl. split_and!; try lia. by intros [|].
Qed.

(** Every row of [t'] is a later state of a row of [t], or new: just created
    for [created], with nothing uploaded. *)
Definition descends (created : list TransferRecord) (t t' : Tables) : Prop :=
  Forall (fun r' => (exists r, r ∈ file_transfer t /\ evolves r r') \/
                    (exists x r, x ∈ created /\ x_id r = id x /\ x_sender r = t_sender_uid x /\
                       x_receiver r = t_receiver_uid x /\ x_total r = total_size x /\
                       x_uploaded r = 0 /\ x_status r = Uploading /\ evolves r r'))
         (file_transfer t').

Lemma descends_refl created t : descends created t t.
Proof. apply Forall_forall. intros r Hr. left. eauto using evolves_refl. Qed.

Lemma descends_trans c1 c2 t1 t2 t3 :
  descends c1 t1 t2 -> descends c2 t2 t3 -> descends (c1 ++ c2) t1 t3.
Proof.
  unfold descends. rewrite !Forall_forall. intros H1 H2 r3 Hr3.
  destruct (H2 r3 Hr3) as [(r2 & Hr2 & E2)|(x & r & Hx & ? & ? & ? & ? & ? & ? & E)].
  - destruct (H1 r2 Hr2) as [(r1 & Hr1 & E1)|(x & r & Hx & ? & ? & ? & ? & ? & ? & E)].
    + left. eauto using evolves_trans.
    + right. exists x, r. split_and!; eauto using evolves_trans. set_solver.
  - right. exists x, r. split_and!; eauto. set_solver.
Qed.

Lemma update_descends P upd now t n t' :
  (forall r, P r = true -> row_ok r -> evolves r (upd now r) /\ row_ok (upd now r)) ->
  update_transfers P upd now t = Some (n, t') -> transfers_ok t ->
  descends [] t t' /\ transfers_ok t'.
Proof.
  intros Hupd. unfold update_transfers. simpl. intros [= _ <-] Hok. unfold transfers_ok, descends in *.
  simpl. rewrite !Forall_fmap. rewrite Forall_forall in Hok. split; apply Forall_forall; intros r Hr; simpl.
  - left. exists r. split; [done|]. destruct (P r) eqn:E; [by apply Hupd; auto|apply evolves_refl].
  - destruct (P r) eqn:E; [apply Hupd; auto|auto].
Qed.

Lemma delete_descends i now t n t' :
  delete_transfer i now t = Some (n, t') -> transfers_ok t -> descends [] t t' /\ transfers_ok t'.
Proof.
  intros [= _ <-] Hok. unfold transfers_ok, descends in *. simpl. rewrite Forall_forall in Hok.
  split; apply Forall_forall; intros r [_ Hr]%list_elem_of_filter; [left; eauto using evolves_refl|auto].
Qed.

(** *** Creation within the quota *)

(** [t'] is [t] and one new row, allowed by the quota at some time. *)
Definition created (x : TransferRecord) (t t' : Tables) : Prop :=
  exists now now', insert_transfer x now' t = Some (1, t') /\
    item_count (t_sender_uid x) now t < 16 /\
    u64 (total_bytes (t_sender_uid x) now t + total_size x) <= 1024 * 1024 * 1024.

Abbreviation said_yes := (fun answer : bool => answer = true).

Lemma wp_create_body x c b s :
  in_transaction c b s -> view s = c ->
  wp (create_body x) (body_exit said_yes c (created x c) b) s.
Proof.
  intros Ht Hv. assert (forall s', in_transaction c b s' ->
    body_exit said_yes c (created x c) b Throws s') as Hthrow by auto using in_transaction_throws.
  apply wp_bind. eapply wp_query_in; [done..|]. intros s1 _ Ht1 Hv1.
  destruct (user_exists _ _); simpl; [|by apply wp_rollback].
  apply wp_bind. eapply wp_query_in; [done..|]. intros s2 now Ht2 Hv2. simpl.
  destruct (_ || _) eqn:Hq; [by apply wp_rollback|]. bool_hyps.
  apply wp_bind. eapply wp_exec_in; [done..|]. intros n t s3 now' E Ht3 Hv3.
  destruct (Z.eqb_spec n 1) as [->|]; [|by apply wp_rollback].
  apply wp_commit; [done|]. rewrite Hv3. exists now, now'.
  rewrite Hv2, Hv1, Hv in E. rewrite Hv1, Hv in *. by split_and!.
Qed.

Lemma create_spec x s :
  exists answer s', CreateFileTransfer x s = (Returns answer, s') /\ borrowed s' = borrowed s /\
    (committed s' = committed s \/ created x (committed s) (committed s')) /\
    (answer = true -> created x (committed s) (committed s')).
Proof.
  destruct (CreateFileTransfer x s) as [r s'] eqn:E.
  eapply wp_intro in E; [|apply (wp_transaction said_yes false (create_body x) (created x (committed s)));
    [done|]].
  - destruct E as [Hr Hb]. destruct r as [answer|]; [|done]. destruct Hr. by eexists _, _.
  - intros s0 Ht Hw. apply wp_create_body; [done|]. destruct Ht as (Hc & _).
    unfold view. by rewrite Hw, Hc.
Qed.

Lemma created_descends x t t' :
  0 <= total_size x <= MaxFileBytes -> created x t t' -> transfers_ok t ->
  descends [x] t t' /\ transfers_ok t'.
Proof.
  intros Hx (now & now' & E & _) Hok. unfold insert_transfer in E. case_code; [done|].
  injection E as <-. unfold transfers_ok, descends in *. simpl. rewrite !Forall_app, !Forall_singleton.
  split_and!; try done.
  - apply Forall_forall. intros r Hr. left. eauto using evolves_refl.
  - right. eexists x, _. split_and!; [by left|..|apply evolves_refl]; done.
  - unfold row_ok. simpl. split_and!; try lia. by intros [|].
Qed.

(** *** Runs of the file operations *)

Lemma one_row_spec f s :
  exists now answer s', one_row f s = (Returns answer, s') /\ borrowed s' = borrowed s /\
    (committed s' = committed s /\ answer = false \/
     exists n, f now (committed s) = Some (n, committed s') /\ (answer = (n =? 1) \/ answer = false)).
Proof. apply update_operation. Qed.

Inductive file_call :=
| CallCreate (x : TransferRecord)
| CallAdvance (i : string) (sender expected_offset new_offset : Z)
| CallComplete (i : string) (sender : Z)
| CallDownloaded (i : string) (receiver : Z)
| CallCancel (i : string) (actor : Z)
| CallDelete (i : string).

Definition run_file_call (call : file_call) (s : db Tables) : db Tables :=
  match call with
  | CallCreate x => (CreateFileTransfer x s).2
  | CallAdvance i sender o n => (AdvanceFileUpload i sender o n s).2
  | CallComplete i sender => (CompleteFileTransfer i sender s).2
  | CallDownloaded i receiver => (MarkFileDownloaded i receiver s).2
  | CallCancel i actor => (CancelFileTransfer i actor s).2
  | CallDelete i => (DeleteFileTransfer i s).2
  end.

(** The transfers a call may create, and the bound its caller checks. *)
Definition creates (call : file_call) : list TransferRecord :=
  match call with CallCreate x => [x] | _ => [] end.
Definition bounded (call : file_call) : Prop :=
  Forall (fun x => 0 <= total_size x <= MaxFileBytes) (creates call).

Lemma one_row_descends f s :
  (forall now n t', f now (committed s) = Some (n, t') -> transfers_ok (committed s) ->
     descends [] (committed s) t' /\ transfers_ok t') ->
  transfers_ok (committed s) ->
  descends [] (committed s) (committed (one_row f s).2) /\ transfers_ok (committed (one_row f s).2).
Proof.
  intros Hf Hok. destruct (one_row_spec f s) as (now & answer & s' & -> & _ & [[Ec _]|(n & E & _)]); simpl.
  - rewrite Ec. auto using descends_refl.
  - eauto.
Qed.

Lemma run_file_call_descends call s :
  bounded call -> transfers_ok (committed s) ->
  descends (creates call) (committed s) (committed (run_file_call call s)) /\
  transfers_ok (committed (run_file_call call s)).
Proof.
  intros Hb Hok. destruct call; simpl; try (apply one_row_descends; [|done]);
    eauto using update_descends, delete_descends, advance_evolves, complete_evolves, download_evolves,
      cancel_evolves.
  destruct (create_spec x s) as (answer & s' & -> & _ & [Ec|E] & _); simpl.
  - rewrite Ec. auto using descends_refl.
  - apply created_descends; try done. by inv Hb.
Qed.

(** *** Properties *)

(** The life of an attachment, over every sequence of metadata operations
    and every pattern of database failures: each row that exists afterwards
    was there before or was created by one of the operations with nothing
    uploaded, and has since kept its id, sender, receiver, name, size and
    checksum, moved only forward (uploading, available, downloaded, or
    cancelled), grown its offset only while uploading and within its size, and
    been offered for download only when complete. *)
Theorem transfer_lifecycle calls s :
  Forall bounded calls -> transfers_ok (committed s) ->
  let s' := foldl (fun s call => run_file_call call s) s calls in
  descends (calls ≫= creates) (committed s) (committed s') /\ transfers_ok (committed s').
Proof.
  intros Hb Hok. simpl. revert s Hok. induction Hb as [|call calls Hc _ IH]; intros s Hok; simpl.
  { auto using descends_refl. }
  destruct (run_file_call_descends call s Hc Hok) as [H1 H2].
  destruct (IH _ H2) as [H3 H4]. split; [|done]. eapply descends_trans; eauto.
Qed.

(** The unexpired transfers of a sender that count against the quota. *)
Definition held (sender now : Z) (t : Tables) : list TransferRow :=
  filter (fun r => x_sender r = sender /\ now < x_expires r /\ x_status r ∈ [Uploading; Available; Downloaded])
         (file_transfer t).

Lemma held_quota sender now t :
  item_count sender now t = Z.of_nat (length (held sender now t)) /\
  total_bytes sender now t = zsum x_total (held sender now t).
Proof.
  unfold item_count, total_bytes, held, zsum. induction (file_transfer t) as [|r l [IH1 IH2]]; [done|].
  csimpl. rewrite filter_cons. destruct (quota_row sender now r) eqn:E;
    [rewrite decide_True|rewrite decide_False]; csimpl; try lia; unfold quota_row, active in E.
  - bool_hyps. split_and!; [lia..|]. destruct (x_status r); set_solver.
  - intros (E1 & E2 & E3). rewrite E1, Z.eqb_refl, (proj2 (Z.ltb_lt _ _) E2) in E. destruct (x_status r); set_solver.
Qed.

(** The new row and nothing else, within the quota at the time of the check. *)
Definition recorded (x : TransferRecord) (t t' : Tables) : Prop :=
  exists now, Z.of_nat (length (held (t_sender_uid x) now t)) < 16 /\
    zsum x_total (held (t_sender_uid x) now t) + total_size x <= 1024 * 1024 * 1024 /\
    exists row, x_id row = id x /\ x_sender row = t_sender_uid x /\ x_receiver row = t_receiver_uid x /\
      x_total row = total_size x /\ x_uploaded row = 0 /\ x_status row = Uploading /\
      t' = set_transfers (file_transfer t ++ [row]) t.

(** In [u64] the sum of the check does not wrap. *)
Lemma created_recorded x t t' :
  transfers_ok t -> 0 <= total_size x <= MaxFileBytes -> created x t t' -> recorded x t t'.
Proof.
  intros Hok Hx (now & now' & Ei & Hn & Ht).
  assert (0 <= total_bytes (t_sender_uid x) now t <= MaxFileBytes * item_count (t_sender_uid x) now t) as Hb.
  { unfold total_bytes, item_count, transfers_ok, zsum in *. clear -Hok.
    induction Hok as [|r l (? & ? & ?) _ IH]; csimpl; [lia|]. destruct (quota_row _ _ r); lia. }
  destruct (held_quota (t_sender_uid x) now t) as [E1 E2]. exists now. rewrite <- E1, <- E2. split; [done|]. split.
  - unfold u64, MaxFileBytes in *. by rewrite Z.mod_small in Ht by lia.
  - unfold insert_transfer in Ei. case_code; [done|]. injection Ei as Ei.
    eexists. split_and!; [| | | | | |by rewrite <- Ei]; done.
Qed.

(** The quota holds at creation: a transfer is recorded only when its
    sender had fewer than 16 unexpired active transfers which, with the new
    one, take at most 1 GiB; creation is all or nothing under every pattern of
    failures, and the answer [true] promises the new row. *)
Theorem create_within_quota x s :
  transfers_ok (committed s) -> 0 <= total_size x <= MaxFileBytes ->
  exists answer s', CreateFileTransfer x s = (Returns answer, s') /\ borrowed s' = borrowed s /\
    (committed s' = committed s \/ recorded x (committed s) (committed s')) /\
    (answer = true -> recorded x (committed s) (committed s')).
Proof.
  intros Hok Hx. destruct (create_spec x s) as (answer & s' & E & Eb & H1 & H2).
  exists answer, s'. split_and!; [done|done|destruct H1|]; auto using created_recorded.
Qed.

(** A second report of a finished download changes no row, so the operation
    answers [false] although it is idempotent. *)
Lemma second_download_report i receiver now now' t n t' :
  now <= now' ->
  update_transfers (can_download i receiver) set_downloaded now t = Some (n, t') ->
  update_transfers (can_download i receiver) set_downloaded now' t' = Some (0, t').
Proof.
  intros Hle. unfold update_transfers. simpl. intros [= _ <-]. simpl.
  f_equal. f_equal.
  - rewrite zsum_fmap. unfold zsum. induction (file_transfer t) as [|r l IH]; csimpl; [done|]. rewrite IH.
    destruct (can_download i receiver r) eqn:E; simpl; [|by rewrite E].
    replace (can_download i receiver (set_downloaded now r)) with true; simpl.
    + rewrite bool_decide_eq_false_2; [done|]. intros []. unfold set_downloaded. simpl. f_equal; [|lia].
      by destruct (x_downloaded r).
    + symmetry. unfold can_download, has_id, ready in *. simpl. bool_hyps. bool_goal; try done; try lia.
      by apply bool_decide_eq_true_2.
  - unfold set_transfers. simpl. f_equal. rewrite <- list_fmap_compose. apply list_fmap_ext.
    intros k r _. simpl. destruct (can_download i receiver r) eqn:E; simpl; [|by rewrite E].
    case_code; [|done]. unfold set_downloaded. simpl. f_equal; [|lia]. by destruct (x_downloaded r).
Qed.

End FileDao.

(** ** Examples *)

#[local] Instance file_collation : Collation := fold_case.

Definition example_transfer : TransferRecord :=
  mkTransferRecord "f-1" 1001 1002 "photo.png" "image/png" 70000 0 "ab" Uploading.

Definition example_calls : list file_call :=
  [CallCreate example_transfer; CallAdvance "f-1" 1001 0 32768; CallAdvance "f-1" 1001 32768 65536;
   CallAdvance "f-1" 1001 65536 70000; CallComplete "f-1" 1001; CallDownloaded "f-1" 1002].

Lemma transfer_lifecycle_witness :
  let s' := foldl (fun s call => run_file_call call s) (healthy sample_tables 9) example_calls in
  x_status <$> file_transfer (committed s') = [Downloaded] /\ transfers_ok (committed s').
Proof.
  split; [reflexivity|].
  apply (transfer_lifecycle example_calls (healthy sample_tables 9)).
  - unfold example_calls, bounded. repeat (apply Forall_nil_2 || apply Forall_cons_2).
    vm_compute. split; discriminate.
  - constructor.
Defined.

Lemma create_within_quota_witness :
  exists answer s', CreateFileTransfer example_transfer (healthy sample_tables 9) = (Returns answer, s') /\
    answer = true /\ length (file_transfer (committed s')) = 1%nat.
Proof.
  destruct (create_within_quota example_transfer (healthy sample_tables 9)) as (answer & s' & E & _ & _ & Ha).
  - constructor.
  - vm_compute. split; discriminate.
  - exists answer, s'. split; [exact E|]. assert (answer = true) as Hy.
    { vm_compute in E. by injection E. }
    split; [exact Hy|]. destruct (Ha Hy) as (now & _ & _ & row & _ & _ & _ & _ & _ & _ & ->). reflexivity.
Defined.
