(* ===== verification/FileStore.v ===== *)
(** The encrypted attachments on disk:
    [src/servers/chat/files/EncryptedFileStore.cpp].

    libsodium is a parameter ([Aead]): the cipher, the keyed hash that derives
    an attachment's key and SHA-256.  The disk keeps the attachments as byte
    strings and the lock files that exist.  An operation completes, or is
    refused by the system before it writes (a file that cannot be opened or
    locked), or breaks after some of its bytes have reached the file (a full
    disk, a failed flush); an arbitrary function decides, operation by
    operation. *)
From S2P Require Import Prelude FileDao.

Class Aead := {
  encrypt : string -> string -> string -> string;          (** key, nonce, plaintext *)
  decrypt : string -> string -> string -> option string;   (** key, nonce, ciphertext *)
  generichash : string -> string -> string;                (** key, message *)
  sha256_hex : string -> string;                           (** the digest, in hexadecimal *)
}.

(** XChaCha20-Poly1305: decryption inverts encryption, and the tag adds
    [TagBytes]. *)
Definition TagBytes : Z := 16.

Class AeadLaws (A : Aead) : Prop := {
  decrypt_encrypt k n p : decrypt k n (encrypt k n p) = Some p;
  encrypt_size k n p : ssize (encrypt k n p) = ssize p + TagBytes;
}.

Definition Magic : string := "CHATFILE1".

(** ** Numbers *)

(** [writeLength] and [readLength]. *)
Definition writeLength (value : Z) : string :=
  String (byte_of (Z.shiftr value 24)) (String (byte_of (Z.shiftr value 16))
    (String (byte_of (Z.shiftr value 8)) (String (byte_of value) ""))).

Definition readLength (input : string) : option (Z * string) :=
  match input with
  | String a (String b (String c (String d rest))) =>
      Some (Z.lor (Z.lor (Z.lor (Z.shiftl (of_byte a) 24) (Z.shiftl (of_byte b) 16))
                         (Z.shiftl (of_byte c) 8)) (of_byte d), rest)
  | _ => None
  end.

(** ** The disk *)

(** [Refused locked]: [create] had made the lock file or not. *)
Inductive fate := Completes | Refused (locked : bool) | Breaks (kept : nat).

Record Disk := mkDisk {
  files : gmap string string;      (** the contents, by path *)
  locks : gset string;             (** the lock files, by path *)
  dcalls : nat;
  doracle : nat -> fate;
}.

(** The fate of the operation. *)
Definition next_fate (d : Disk) : fate * Disk :=
  (doracle d (dcalls d), mkDisk (files d) (locks d) (S (dcalls d)) (doracle d)).

Definition set_file (path content : string) (d : Disk) : Disk :=
  mkDisk (<[path := content]> (files d)) (locks d) (dcalls d) (doracle d).
Definition add_lock (path : string) (d : Disk) : Disk :=
  mkDisk (files d) ({[path]} ∪ locks d) (dcalls d) (doracle d).

(** Writing [bytes] at the end of [path] and flushing: what is there after a
    break is some of them. *)
Definition write_sync (f : fate) (path old bytes : string) : prog Disk unit := fun d =>
  match f with
  | Completes => (Returns tt, set_file path (old ++ bytes) d)
  | Refused _ => (Throws, d)
  | Breaks kept => (Throws, set_file path (old ++ stake kept bytes) d)
  end.

Definition id_char (c : ascii) : bool :=
  let x := of_byte c in (48 <=? x) && (x <=? 57) || (97 <=? x) && (x <=? 102) || (x =? 45).

Definition pathFor (transfer_id : string) : outcome string :=
  if negb (ssize transfer_id =? 36) || negb (sall id_char transfer_id) then Throws
  else Returns (transfer_id ++ ".enc")%string.

Section Store.
Context `{Aead} (master_key : string).

Definition transferKey (transfer_id : string) : string := generichash master_key transfer_id.

(** The index in eight bytes, the lowest first, after the prefix. *)
Fixpoint little_endian (n : nat) (x : Z) : string :=
  match n with O => "" | S n => String (byte_of x) (little_endian n (Z.shiftr x 8)) end.
Definition nonceFor (prefix : string) (chunk_index : Z) : string :=
  prefix ++ little_endian 8 chunk_index.

(** The 25 bytes at the start: the prefix and what follows. *)
Definition read_header (content : string) : option (string * string) :=
  if ssize content <? 25 then None
  else if negb (String.eqb (stake 9 content) Magic) then None
  else Some (stake 16 (sdrop 9 content), sdrop 16 (sdrop 9 content)).

(** ** Operations *)

(** The 16 bytes of [prefix] are drawn by [randombytes_buf]. *)
Definition create (transfer_id prefix : string) : prog Disk unit := fun d =>
  match pathFor transfer_id with
  | Throws => (Throws, d)
  | Returns path =>
      let '(f, d) := next_fate d in
      match f with
      | Refused false => (Throws, d)
      | _ =>
          let d := add_lock path d in
          match files d !! path with
          | Some _ => (Throws, d)
          | None => write_sync f path "" (Magic ++ prefix) d
          end
      end
  end.

(** The loop over the confirmed records; [file_size - ssize rest] is [tellg]. *)
Fixpoint skip_confirmed (n : nat) (file_size : Z) (header : string) : option string :=
  match n with
  | O => Some header
  | S n =>
      '(confirmed_size, rest) ← readLength header;
      if negb (confirmed_size =? PlainChunkBytes)
         || (file_size <? file_size - ssize rest + confirmed_size + TagBytes)
      then None
      else skip_confirmed n file_size (sdrop (Z.to_nat (confirmed_size + TagBytes)) rest)
  end.

(** [append] from the reading of the header on; [f] is the fate of the
    writing. *)
Definition append_record (f : fate) (transfer_id path content : string) (offset : Z) (plaintext : string)
    : prog Disk Z := fun d =>
  match read_header content with
  | None => (Throws, d)
  | Some (prefix, body) =>
      let chunk_index := offset / PlainChunkBytes in
      match skip_confirmed (Z.to_nat chunk_index) (ssize content) body with
      | None => (Throws, d)
      | Some header =>
          let ciphertext := encrypt (transferKey transfer_id) (nonceFor prefix chunk_index) plaintext in
          if negb (sempty header) then
            match readLength header with
            | None => (Throws, d)
            | Some (existing_size, rest) =>
                if negb (existing_size =? ssize plaintext)
                   || (ssize header <? 4 + ssize ciphertext) then (Throws, d)
                else if negb (String.eqb (stake (String.length ciphertext) rest) ciphertext)
                then (Throws, d)
                else match f with
                     | Completes => (Returns (u64 (offset + ssize plaintext)), d)
                     | _ => (Throws, d)
                     end
            end
          else
            let '(r, d) := write_sync f path content (writeLength (ssize plaintext) ++ ciphertext) d in
            match r with
            | Returns _ => (Returns (u64 (offset + ssize plaintext)), d)
            | Throws => (Throws, d)
            end
      end
  end.

Definition append (transfer_id : string) (offset : Z) (plaintext : string) : prog Disk Z := fun d =>
  if sempty plaintext || (PlainChunkBytes <? ssize plaintext) || negb (offset mod PlainChunkBytes =? 0)
  then (Throws, d)
  else
    match pathFor transfer_id with
    | Throws => (Throws, d)
    | Returns path =>
        let '(f, d) := next_fate d in
        if bool_decide (path ∉ locks d) then (Throws, d)
        else
          match files d !! path with
          | None => (Throws, d)
          | Some content => append_record f transfer_id path content offset plaintext d
          end
    end.

(** The loop of [read]: [n] records to pass, [index] is the record it is at. *)
Fixpoint read_record (n : nat) (index : Z) (key prefix input : string) : option string :=
  '(plain_size, rest) ← readLength input;
  if (plain_size =? 0) || (PlainChunkBytes <? plain_size) then None
  else if ssize rest <? plain_size + TagBytes then None
  else
    match n with
    | O => decrypt key (nonceFor prefix index) (stake (Z.to_nat (plain_size + TagBytes)) rest)
    | S n => read_record n (index + 1) key prefix (sdrop (Z.to_nat (plain_size + TagBytes)) rest)
    end.

Definition read (transfer_id : string) (offset maximum_bytes : Z) : prog Disk string := fun d =>
  if negb (offset mod PlainChunkBytes =? 0) || (maximum_bytes =? 0) then (Throws, d)
  else
    match pathFor transfer_id with
    | Throws => (Throws, d)
    | Returns path =>
        let '(f, d) := next_fate d in
        match f, bool_decide (path ∈ locks d), files d !! path with
        | Completes, true, Some content =>
            match '(prefix, body) ← read_header content;
                  read_record (Z.to_nat (offset / PlainChunkBytes)) 0 (transferKey transfer_id) prefix body with
            | Some plaintext =>
                if maximum_bytes <? ssize plaintext then (Throws, d) else (Returns plaintext, d)
            | None => (Throws, d)
            end
        | _, _, _ => (Throws, d)
        end
    end.

(** The loop of [sha256], with the bytes fed to the hash so far; a turn
    advances the offset by a chunk, so the size bounds the turns. *)
Fixpoint sha256_from (fuel : nat) (transfer_id : string) (offset total_size : Z) (fed : string)
    : prog Disk string :=
  if total_size <=? offset then mret (sha256_hex fed)
  else
    match fuel with
    | O => throw
    | S fuel =>
        chunk ← read transfer_id offset PlainChunkBytes;
        sha256_from fuel transfer_id (offset + PlainChunkBytes) total_size (fed ++ chunk)
    end.
Definition sha256 (transfer_id : string) (total_size : Z) : prog Disk string :=
  sha256_from (Z.to_nat total_size) transfer_id 0 total_size "".

Definition remove (transfer_id : string) : prog Disk unit := fun d =>
  match pathFor transfer_id with
  | Throws => (Throws, d)
  | Returns path =>
      let '(f, d) := next_fate d in
      match f with
      | Completes => (Returns tt, mkDisk (delete path (files d)) (locks d) (dcalls d) (doracle d))
      | _ => (Throws, d)
      end
  end.

End Store.

(** ** The contract *)

(** An attachment is the list of its chunks; [broken] when a write did not
    complete, after which it only grows by a new upload. *)
Record attachment := mkAttachment { chunks : list string; broken : bool }.

Inductive file_op :=
| Create (transfer_id prefix : string)
| Append (transfer_id : string) (offset : Z) (plaintext : string)
| Read (transfer_id : string) (offset maximum_bytes : Z)
| Remove (transfer_id : string).

Inductive result := Done | NewOffset (offset : Z) | Bytes (plaintext : string).

Definition op_id (op : file_op) : string :=
  match op with Create id _ | Append id _ _ | Read id _ _ | Remove id => id end.

(** The identifiers the server makes: 36 hexadecimal digits and dashes. *)
Definition transfer_id_ok (id : string) : bool := (ssize id =? 36) && sall id_char id.

Definition chunk_ok (p : string) : Prop := 1 <= ssize p <= PlainChunkBytes.
Definition full (p : string) : Prop := ssize p = PlainChunkBytes.

#[global] Instance chunk_ok_dec p : Decision (chunk_ok p).
Proof. unfold chunk_ok. apply _. Defined.
#[global] Instance full_dec p : Decision (full p).
Proof. unfold full. apply _. Defined.

Abbreviation attachments := (gmap string attachment).

(** What the operations do on a disk that works. *)
Definition spec_append (offset : Z) (p : string) (a : attachment) : outcome result * attachment :=
  let i := Z.to_nat (offset / PlainChunkBytes) in
  match chunks a !! i with
  | Some q => (if decide (q = p) then Returns (NewOffset (u64 (offset + ssize p))) else Throws, a)
  | None =>
      if decide (i = length (chunks a) /\ Forall full (chunks a) /\ broken a = false)
      then (Returns (NewOffset (u64 (offset + ssize p))), mkAttachment (chunks a ++ [p]) false)
      else (Throws, a)
  end.

Definition spec_read (offset maximum_bytes : Z) (a : attachment) : outcome result :=
  match chunks a !! Z.to_nat (offset / PlainChunkBytes) with
  | Some q => if decide (ssize q <= maximum_bytes) then Returns (Bytes q) else Throws
  | None => Throws
  end.

Definition spec (op : file_op) (st : attachments) : outcome result * attachments :=
  if negb (transfer_id_ok (op_id op)) then (Throws, st)
  else
    match op with
    | Create id _ =>
        match st !! id with
        | Some _ => (Throws, st)
        | None => (Returns Done, <[id := mkAttachment [] false]> st)
        end
    | Append id offset p =>
        if decide (chunk_ok p /\ offset mod PlainChunkBytes = 0) then
          match st !! id with
          | Some a => let '(r, a) := spec_append offset p a in (r, <[id := a]> st)
          | None => (Throws, st)
          end
        else (Throws, st)
    | Read id offset maximum_bytes =>
        if decide (offset mod PlainChunkBytes = 0 /\ maximum_bytes <> 0) then
          match st !! id with
          | Some a => (spec_read offset maximum_bytes a, st)
          | None => (Throws, st)
          end
        else (Throws, st)
    | Remove id => (Returns Done, delete id st)
    end.

(** An interrupted write. *)
Definition break_off (id : string) (st : attachments) : attachments :=
  match st !! id with
  | Some a => <[id := mkAttachment (chunks a) true]> st
  | None => <[id := mkAttachment [] true]> st
  end.

(** ** Representation *)

Section Refinement.
Context `{A : Aead} `{!AeadLaws A} (master_key : string).

Definition record (id prefix : string) (i : nat) (p : string) : string :=
  writeLength (ssize p) ++ encrypt (transferKey master_key id) (nonceFor prefix (Z.of_nat i)) p.

Fixpoint records (id prefix : string) (i : nat) (cs : list string) : string :=
  match cs with [] => "" | p :: cs => record id prefix i p ++ records id prefix (S i) cs end.

Definition image (id prefix : string) (cs : list string) (torn : string) : string :=
  (Magic ++ prefix) ++ records id prefix 0 cs ++ torn.

(** Chunks of which only the last may be short. *)
Definition chunks_ok (cs : list string) : Prop :=
  Forall chunk_ok cs /\ forall i p, cs !! i = Some p -> (S i < length cs)%nat -> full p.

(** What follows the records: nothing, or a part of one more record. *)
Definition torn_ok (id prefix : string) (a : attachment) (torn : string) : Prop :=
  if broken a
  then Forall full (chunks a) /\
       exists p k, chunk_ok p /\ torn = stake k (record id prefix (length (chunks a)) p) /\
                   (0 < k < String.length (record id prefix (length (chunks a)) p))%nat
  else torn = ""%string.

Definition represents (id : string) (a : attachment) (content : string) : Prop :=
  chunks_ok (chunks a) /\
  ((broken a = true /\ chunks a = [] /\ ssize content < 25) \/
   exists prefix torn, ssize prefix = 16 /\ content = image id prefix (chunks a) torn /\
                       torn_ok id prefix a torn).

Definition path_of (id : string) : string := id ++ ".enc".

Definition holds (d : Disk) (st : attachments) : Prop :=
  (forall id a, st !! id = Some a -> transfer_id_ok id = true /\ path_of id ∈ locks d /\
     exists content, files d !! path_of id = Some content /\ represents id a content) /\
  (forall id, transfer_id_ok id = true -> st !! id = None -> files d !! path_of id = None).

(** *** Bytes *)

Lemma readLength_bytes a b c d rest :
  readLength (String a (String b (String c (String d rest)))) =
  Some (of_byte a * 2 ^ 24 + of_byte b * 2 ^ 16 + of_byte c * 2 ^ 8 + of_byte d, rest).
Proof.
  cbn [readLength]. do 2 f_equal.
  pose proof (of_byte_bound a). pose proof (of_byte_bound b). pose proof (of_byte_bound c).
  pose proof (of_byte_bound d).
  assert (forall x k, 0 <= x -> 0 <= k -> 0 <= Z.shiftl x k) as Hs by (intros; by apply Z.shiftl_nonneg).
  change 24 with (8 + 16) at 1. rewrite <- Z.shiftl_shiftl, <- Z.shiftl_lor by lia.
  change 16 with (8 + 8) at 1. rewrite <- Z.shiftl_shiftl, <- Z.shiftl_lor by lia.
  rewrite !lor_shiftl_add by lia. lia.
Qed.

Lemma ssize_writeLength v : ssize (writeLength v) = 4.
Proof. done. Qed.

Lemma readLength_writeLength v rest : 0 <= v < 2 ^ 32 ->
  readLength (writeLength v ++ rest) = Some (v, rest).
Proof.
  intros Hv. unfold writeLength. rewrite !string_app_cons.
  change ("" ++ rest)%string with rest. rewrite readLength_bytes. do 2 f_equal.
  rewrite !of_byte_byte_of, !Z.shiftr_div_pow2 by lia.
  change (2 ^ 24) with 16777216. change (2 ^ 16) with 65536. change (2 ^ 8) with 256.
  change (2 ^ 32) with 4294967296 in Hv. Z.to_euclidean_division_equations; lia.
Qed.
(** *** Records *)

Implicit Types (id prefix p torn : string) (cs : list string).

Lemma record_size id prefix i p : ssize (record id prefix i p) = 4 + (ssize p + TagBytes).
Proof. unfold record. rewrite ssize_app, encrypt_size. done. Qed.

Lemma chunk_range p : chunk_ok p -> 1 <= ssize p <= 32768.
Proof. done. Qed.

Lemma readLength_record id prefix i p rest : chunk_ok p ->
  readLength (record id prefix i p ++ rest) =
  Some (ssize p, encrypt (transferKey master_key id) (nonceFor prefix (Z.of_nat i)) p ++ rest)%string.
Proof.
  intros Hp%chunk_range. unfold record. rewrite <- (assoc_L String.append).
  apply readLength_writeLength. lia.
Qed.

Lemma readLength_short s : ssize s < 4 -> readLength s = None.
Proof.
  destruct s as [|? [|? [|? [|? s]]]]; try done. rewrite !ssize_cons. pose proof (ssize_nonneg s). lia.
Qed.

(** A part of a record announces more than there is. *)
Lemma readLength_torn id prefix i p k : chunk_ok p -> (k < String.length (record id prefix i p))%nat ->
  readLength (stake k (record id prefix i p)) = None \/
  exists rest, readLength (stake k (record id prefix i p)) = Some (ssize p, rest) /\
               ssize rest < ssize p + TagBytes.
Proof.
  intros Hp%chunk_range Hk. pose proof (record_size id prefix i p) as Hs. unfold ssize in Hs at 1.
  destruct (decide (k < 4)%nat) as [Hlt|Hge].
  - left. apply readLength_short. rewrite ssize_stake. lia.
  - right. unfold record. rewrite stake_app_ge by (change (String.length (writeLength _)) with 4%nat; lia).
    eexists. split; [apply readLength_writeLength; lia|]. rewrite ssize_stake.
    change (String.length (writeLength _)) with 4%nat. lia.
Qed.

Lemma read_header_image id prefix cs torn : ssize prefix = 16 ->
  read_header (image id prefix cs torn) = Some (prefix, records id prefix 0 cs ++ torn)%string.
Proof.
  intros Hp. unfold read_header, image. rewrite <- !(assoc_L String.append).
  assert (ssize Magic = Z.of_nat 9) as Hm by done. rewrite (stake_size 9), (sdrop_size 9) by done.
  rewrite (stake_size 16), (sdrop_size 16) by (rewrite Hp; done). rewrite !ssize_app, Hm, Hp, String.eqb_refl.
  set (n := ssize _ + ssize torn).
  assert (0 <= n) by (unfold n; pose proof (ssize_nonneg (records id prefix 0 cs)); pose proof (ssize_nonneg torn); lia).
  by rewrite (proj2 (Z.ltb_ge _ _)) by lia.
Qed.

Lemma record_rest id prefix i p rest :
  sdrop (Z.to_nat (ssize p + TagBytes))
    (encrypt (transferKey master_key id) (nonceFor prefix (Z.of_nat i)) p ++ rest) = rest.
Proof. apply sdrop_size. rewrite encrypt_size. unfold TagBytes. pose proof (ssize_nonneg p). lia. Qed.

(** The loop over confirmed records passes full ones, and no others. *)
Lemma skip_full n fs id prefix torn : forall i cs, (n <= length cs)%nat -> Forall full (take n cs) ->
  skip_confirmed n fs (records id prefix i cs ++ torn) = Some (records id prefix (i + n) (drop n cs) ++ torn)%string.
Proof.
  induction n as [|n IH]; intros i cs Hn Hf; [by rewrite Nat.add_0_r|].
  destruct cs as [|p cs]; [simpl in Hn; lia|]. simpl in Hf. apply Forall_cons in Hf as [Hp Hf]. unfold full in Hp.
  cbn [skip_confirmed records drop]. rewrite <- (assoc_L String.append).
  rewrite readLength_record by (unfold chunk_ok; rewrite Hp; done). cbn [mbind option_bind].
  rewrite Hp, ssize_app, encrypt_size, Z.eqb_refl, Hp. cbn [negb orb].
  rewrite (proj2 (Z.ltb_ge _ _)) by (pose proof (ssize_nonneg (records id prefix (S i) cs ++ torn)); lia).
  rewrite <- Hp, record_rest, IH by (simpl in Hn; (lia || done)). by rewrite Nat.add_succ_comm.
Qed.

(** A tail of which no record can be read. *)
Definition no_record (tail : string) : Prop :=
  readLength tail = None \/ exists v rest, readLength tail = Some (v, rest) /\ ssize rest < v + TagBytes.

Lemma no_record_torn id prefix a torn : torn_ok id prefix a torn -> no_record torn.
Proof.
  unfold torn_ok. destruct (broken a); [|intros ->; by left].
  intros (_ & p & k & Hp & -> & Hk). destruct (readLength_torn id prefix (length (chunks a)) p k Hp) as [?|(rest & ? & ?)];
    [lia|by left|right; eauto].
Qed.

Lemma skip_fail n fs id prefix torn : forall i cs, no_record torn -> Forall chunk_ok cs ->
  ~ ((n <= length cs)%nat /\ Forall full (take n cs)) ->
  skip_confirmed n fs (records id prefix i cs ++ torn) = None.
Proof.
  induction n as [|n IH]; intros i cs Ht Hok Hn.
  { destruct Hn. split; [lia|constructor]. }
  destruct cs as [|p cs]; cbn [skip_confirmed records].
  - change ("" ++ torn)%string with torn. destruct Ht as [->|(v & rest & -> & Hr)]; [done|].
    cbn [mbind option_bind]. rewrite (proj2 (Z.ltb_lt _ _)) by lia. by rewrite orb_true_r.
  - apply Forall_cons in Hok as [Hp Hok]. rewrite <- (assoc_L String.append), readLength_record by done.
    cbn [mbind option_bind]. destruct (Z.eqb_spec (ssize p) PlainChunkBytes) as [E|E]; [|done].
    cbn [negb orb]. case_code; [done|]. rewrite record_rest. apply IH; [done..|].
    intros [H1 H2]. apply Hn. simpl. split; [lia|by constructor].
Qed.

Lemma read_record_at n id prefix torn : forall i cs p, Forall chunk_ok cs -> cs !! n = Some p ->
  read_record n (Z.of_nat i) (transferKey master_key id) prefix (records id prefix i cs ++ torn) = Some p.
Proof.
  induction n as [|n IH]; intros i [|q cs] p Hok Hn; try done; apply Forall_cons in Hok as [Hq Hok];
    cbn [read_record records]; rewrite <- (assoc_L String.append), readLength_record by done;
    cbn [mbind option_bind]; pose proof (chunk_range q Hq);
    rewrite (proj2 (Z.eqb_neq _ _)), (proj2 (Z.ltb_ge _ _)) by (unfold PlainChunkBytes; lia); cbn [orb];
    rewrite ssize_app, encrypt_size;
    rewrite (proj2 (Z.ltb_ge _ _)) by (pose proof (ssize_nonneg (records id prefix (S i) cs ++ torn)); lia).
  - injection Hn as ->. rewrite stake_size; [apply decrypt_encrypt|].
    rewrite encrypt_size. unfold TagBytes. lia.
  - rewrite record_rest. rewrite <- (IH (S i) cs p Hok Hn) at 1. f_equal; lia.
Qed.

Lemma read_record_none n id prefix torn : forall i cs, no_record torn -> Forall chunk_ok cs -> cs !! n = None ->
  read_record n (Z.of_nat i) (transferKey master_key id) prefix (records id prefix i cs ++ torn) = None.
Proof.
  induction n as [|n IH]; intros i [|q cs] Ht Hok Hn; try done.
  1, 2: cbn [records]; change ("" ++ torn)%string with torn; cbn [read_record];
    destruct Ht as [->|(v & rest & -> & Hr)]; [done|]; cbn [mbind option_bind]; case_code; [done|];
    by rewrite (proj2 (Z.ltb_lt _ _)) by lia.
  apply Forall_cons in Hok as [Hq Hok].
  cbn [read_record records]; rewrite <- (assoc_L String.append), readLength_record by done.
  cbn [mbind option_bind]. do 2 (case_code; [done|]). rewrite record_rest.
  rewrite <- (IH (S i) cs Ht Hok Hn). f_equal; lia.
Qed.

(** *** Appending *)

Section Appending.
Context (f : fate) (id path content p : string) (offset : Z) (a : attachment) (d : Disk).
Context (Hrep : represents id a content) (Hp : chunk_ok p) (Ho : 0 <= offset)
        (Hmod : offset mod PlainChunkBytes = 0).
Let i := Z.to_nat (offset / PlainChunkBytes).

Lemma index_of : Z.of_nat i = offset / PlainChunkBytes.
Proof. unfold i. rewrite Z2Nat.id; [done|]. apply Z.div_pos; [done|]. by unfold PlainChunkBytes. Qed.

(** At a chunk that is there: the same bytes are confirmed again, others are
    refused, and nothing is written. *)
Lemma append_hit q : chunks a !! i = Some q ->
  append_record master_key f id path content offset p d =
  (if decide (q = p)
   then match f with Completes => Returns (u64 (offset + ssize p)) | _ => Throws end else Throws, d).
Proof.
  intros Hq. destruct Hrep as [[Hok Hfull] [(_ & E & _)|(prefix & torn & Hpre & -> & Ht)]];
    [by rewrite E in Hq|].
  unfold append_record. rewrite read_header_image by done. fold i.
  pose proof (lookup_lt_Some _ _ _ Hq) as Hlt.
  rewrite skip_full; [|lia|].
  2: { apply Forall_lookup. intros j x [Hx Hj]%lookup_take_Some. apply (Hfull j); [done|lia]. }
  rewrite (drop_S _ _ _ Hq). cbn [records plus]. rewrite <- (assoc_L String.append).
  set (rest := (records id prefix (S i) _ ++ torn)%string).
  assert (sempty (record id prefix i q ++ rest) = false) as -> by done. cbn [negb].
  assert (chunk_ok q) as Hqok by (rewrite Forall_lookup in Hok; eauto).
  rewrite readLength_record by done. rewrite <- index_of, ssize_app, record_size, encrypt_size.
  destruct (decide (q = p)) as [->|Hne].
  - rewrite Z.eqb_refl, stake_app, String.eqb_refl. cbn [negb orb].
    rewrite (proj2 (Z.ltb_ge _ _)) by (pose proof (ssize_nonneg rest); lia). by destruct f.
  - case_code; [done|]. bool_hyps. rewrite stake_size.
    + destruct (String.eqb_spec (encrypt (transferKey master_key id) (nonceFor prefix (Z.of_nat i)) q)
        (encrypt (transferKey master_key id) (nonceFor prefix (Z.of_nat i)) p)) as [E|E]; [|done].
      apply (f_equal (decrypt (transferKey master_key id) (nonceFor prefix (Z.of_nat i)))) in E.
      rewrite !decrypt_encrypt in E. congruence.
    + pose proof (encrypt_size (transferKey master_key id) (nonceFor prefix (Z.of_nat i)) p) as E1.
      rewrite encrypt_size. unfold ssize in *. lia.
Qed.

(** After the last chunk of an attachment that can grow: one more record. *)
Lemma append_grow : i = length (chunks a) -> Forall full (chunks a) -> broken a = false ->
  exists prefix, ssize prefix = 16 /\ content = image id prefix (chunks a) "" /\
    append_record master_key f id path content offset p d =
    let '(r, d) := write_sync f path content (record id prefix (length (chunks a)) p) d in
    (match r with Returns _ => Returns (u64 (offset + ssize p)) | Throws => Throws end, d).
Proof.
  intros Hi Hfull Hb. destruct Hrep as [_ [(E & _)|(prefix & torn & Hpre & -> & Ht)]]; [congruence|].
  unfold torn_ok in Ht. rewrite Hb in Ht. subst torn. exists prefix. split_and!; [done|done|].
  unfold append_record. rewrite read_header_image by done. fold i.
  rewrite skip_full; [|lia|by apply Forall_take]. rewrite Hi, drop_all. cbn [records].
  change ("" ++ "")%string with ""%string. cbn [sempty negb].
  rewrite <- index_of, Hi. unfold record. destruct (write_sync _ _ _ _ _) as [[]]; done.
Qed.

(** Anywhere else: refused. *)
Lemma append_miss : chunks a !! i = None ->
  ~ (i = length (chunks a) /\ Forall full (chunks a) /\ broken a = false) ->
  append_record master_key f id path content offset p d = (Throws, d).
Proof.
  intros Hn Hno. unfold append_record.
  destruct Hrep as [[Hok Hfull] [(_ & _ & Hs)|(prefix & torn & Hpre & -> & Ht)]].
  { unfold read_header. by rewrite (proj2 (Z.ltb_lt _ _) Hs). }
  rewrite read_header_image by done. fold i. apply lookup_ge_None in Hn.
  destruct (decide (i = length (chunks a) /\ Forall full (chunks a))) as [[Hi Hf]|Hc]; cycle 1.
  { rewrite skip_fail; [done|by eapply no_record_torn|done|]. intros [H1 H2]. apply Hc.
    assert (i = length (chunks a)) as Hi by lia. split; [done|]. by rewrite Hi, firstn_all in H2. }
  rewrite skip_full; [|lia|by apply Forall_take]. rewrite Hi, drop_all. cbn [records].
  change ("" ++ torn)%string with torn. unfold torn_ok in Ht. destruct (broken a) eqn:Hb; [|by destruct Hno].
  destruct Ht as (_ & p0 & k & Hp0 & -> & Hk).
  destruct (sempty _) eqn:Es; cbn [negb].
  { rewrite sempty_ssize, ssize_stake in Es. bool_hyps. unfold ssize in Es. lia. }
  pose proof (record_size id prefix (length (chunks a)) p0) as Hr0. unfold ssize in Hr0 at 1.
  destruct (readLength_torn id prefix (length (chunks a)) p0 k Hp0) as [->|(rest & -> & Hr)]; [lia|done|].
  destruct (Z.eqb_spec (ssize p0) (ssize p)) as [E|]; [|done]. cbn [negb orb].
  rewrite encrypt_size, (proj2 (Z.ltb_lt _ _)); [done|]. rewrite ssize_stake. lia.
Qed.

End Appending.

(** *** The simulation *)

Lemma transfer_id_path id : pathFor id = if transfer_id_ok id then Returns (path_of id) else Throws.
Proof.
  unfold pathFor, transfer_id_ok, path_of. destruct (ssize id =? 36); [|done]. by destruct (sall id_char id).
Qed.

Lemma path_of_inj id id' : transfer_id_ok id = true -> transfer_id_ok id' = true ->
  path_of id = path_of id' -> id = id'.
Proof.
  unfold transfer_id_ok, path_of. intros. bool_hyps.
  by destruct (string_app_split id ".enc" id' ".enc" ltac:(congruence) ltac:(done)).
Qed.

Lemma holds_same d d' st : files d' = files d -> locks d ⊆ locks d' -> holds d st -> holds d' st.
Proof.
  intros Ef El [H1 H2]. split.
  - intros id a Ha. destruct (H1 id a Ha) as (? & ? & ?). rewrite Ef. split_and!; [done|set_solver|done].
  - intros id Hid Ha. rewrite Ef. auto.
Qed.

Lemma holds_set id a content d st : transfer_id_ok id = true -> path_of id ∈ locks d ->
  represents id a content -> holds d st -> holds (set_file (path_of id) content d) (<[id := a]> st).
Proof.
  intros Hid Hl Hr [H1 H2]. split.
  - intros id' a' [[<- <-]|[Hne Ha]]%lookup_insert_Some.
    + split_and!; [done|done|]. exists content. cbn. by rewrite lookup_insert_eq.
    + destruct (H1 id' a' Ha) as (Hid' & Hl' & c & Hc & Hr'). split_and!; [done|done|]. exists c. cbn.
      rewrite lookup_insert_ne; [done|]. intros E. by apply Hne, path_of_inj.
  - intros id' Hid' [Ha Hne]%lookup_insert_None. cbn. rewrite lookup_insert_ne; [auto|].
    intros E. by apply Hne, path_of_inj.
Qed.

Lemma records_snoc id prefix cs p : forall i,
  records id prefix i (cs ++ [p]) = (records id prefix i cs ++ record id prefix (i + length cs) p)%string.
Proof.
  induction cs as [|q cs IH]; intros i; cbn [records app length].
  - by rewrite Nat.add_0_r, (right_id_L "" String.append).
  - rewrite IH, <- (assoc_L String.append). by rewrite Nat.add_succ_comm.
Qed.

Lemma chunks_ok_snoc cs p : Forall full cs -> chunk_ok p -> chunks_ok (cs ++ [p]).
Proof.
  intros Hf Hp. split.
  - apply Forall_app. split; [|by constructor]. eapply Forall_impl; [done|]. intros q Hq.
    unfold full, chunk_ok in *. rewrite Hq. done.
  - intros i q Hq Hi. rewrite length_app in Hi. simpl in Hi. rewrite lookup_app_l in Hq by lia.
    rewrite Forall_lookup in Hf. eauto.
Qed.

Lemma image_app id prefix cs torn : (image id prefix cs "" ++ torn)%string = image id prefix cs torn.
Proof. unfold image. by rewrite <- !(assoc_L String.append). Qed.

Lemma grown_full id prefix cs p : ssize prefix = 16 -> Forall full cs -> chunk_ok p ->
  represents id (mkAttachment (cs ++ [p]) false) (image id prefix cs "" ++ record id prefix (length cs) p).
Proof.
  intros Hpre Hf Hp. split; [by apply chunks_ok_snoc|]. right. exists prefix, ""%string.
  split_and!; [done| |done]. rewrite image_app. unfold image. cbn [chunks].
  by rewrite records_snoc, (right_id_L "" String.append).
Qed.

(** The states a write of one more record can leave. *)
Lemma grown_represents id prefix cs p kept : ssize prefix = 16 -> Forall full cs -> chunk_ok p ->
  let content := (image id prefix cs "" ++ stake kept (record id prefix (length cs) p))%string in
  content = image id prefix cs "" \/
  represents id (mkAttachment cs true) content \/ represents id (mkAttachment (cs ++ [p]) false) content.
Proof.
  intros Hpre Hf Hp content. unfold content. destruct (decide (kept = 0%nat)) as [->|H0].
  { left. apply image_app. }
  right. destruct (decide (kept < String.length (record id prefix (length cs) p))%nat) as [Hk|Hk].
  - left. rewrite image_app. pose proof (proj1 (chunks_ok_snoc cs p Hf Hp)) as Hall. split.
    { split; [by apply Forall_app in Hall as [? _]|]. intros i q Hq _. rewrite Forall_lookup in Hf. eauto. }
    right. exists prefix. eexists. split_and!; [done|done|].
    unfold torn_ok. cbn [broken chunks]. split; [done|]. exists p, kept. split_and!; [done|done|lia..].
  - right. rewrite stake_all by lia. by apply grown_full.
Qed.

Lemma created_full id prefix : ssize prefix = 16 -> represents id (mkAttachment [] false) (Magic ++ prefix).
Proof.
  intros Hpre. split; [split; [constructor|done]|]. right. exists prefix, ""%string. split_and!; [done| |done].
  unfold image. cbn [chunks records]. by rewrite !(right_id_L "" String.append).
Qed.

Lemma created_represents id prefix kept : ssize prefix = 16 ->
  let content := stake kept (Magic ++ prefix) in
  represents id (mkAttachment [] true) content \/ represents id (mkAttachment [] false) content.
Proof.
  intros Hpre content. assert (ssize (Magic ++ prefix) = 25) as Hs by by rewrite ssize_app, Hpre.
  destruct (decide (kept < 25)%nat) as [Hk|Hk].
  - left. split; [split; [constructor|done]|]. left. split_and!; [done..|].
    unfold content. rewrite ssize_stake. lia.
  - right. unfold content. rewrite stake_all by (unfold ssize in Hs; lia). by apply created_full.
Qed.

(** One operation of the store. *)
Definition run_op (op : file_op) : prog Disk result :=
  match op with
  | Create id prefix => create id prefix ;; mret Done
  | Append id offset p => z ← append master_key id offset p; mret (NewOffset z)
  | Read id offset maximum_bytes => b ← read master_key id offset maximum_bytes; mret (Bytes b)
  | Remove id => remove id ;; mret Done
  end.

Definition op_ok (op : file_op) : Prop :=
  match op with
  | Create _ prefix => ssize prefix = 16
  | Append _ offset _ | Read _ offset _ => 0 <= offset
  | Remove _ => True
  end.

(** What an operation may leave when it does not complete. *)
Definition interrupted (op : file_op) (st st' : attachments) : Prop :=
  st' = st \/
  match op with
  | Create id _ | Append id _ _ => st' = (spec op st).2 \/ st' = break_off id st
  | _ => False
  end.

(** The outcome and the state follow the contract. *)
Definition conforms (op : file_op) (f : fate) (st : attachments) (r : outcome result) (d' : Disk) : Prop :=
  match f with
  | Completes => exists st', spec op st = (r, st') /\ holds d' st'
  | _ => r = Throws /\ exists st', interrupted op st st' /\ holds d' st'
  end.

Lemma conforms_throws op f st d' : spec op st = (Throws, st) -> holds d' st -> conforms op f st Throws d'.
Proof. intros E Hh. destruct f; [by exists st|..]; (split; [done|]; exists st; split; [by left|done]). Qed.

Lemma create_conforms id prefix d st : ssize prefix = 16 -> holds d st ->
  let '(r, d') := run_op (Create id prefix) d in conforms (Create id prefix) (doracle d (dcalls d)) st r d'.
Proof.
  intros Hpre Hh. cbn [run_op]. unfold mbind, prog_bind, create. rewrite transfer_id_path.
  destruct (transfer_id_ok id) eqn:Hid; [|apply conforms_throws; [by unfold spec; simpl; rewrite Hid|done]].
  cbn [next_fate]. set (d1 := (next_fate d).2).
  assert (holds d1 st) as Hh1 by by apply (holds_same d).
  assert (holds (add_lock (path_of id) d1) st) as Hh2 by (apply (holds_same d1); [done|set_solver|done]).
  assert (path_of id ∈ locks (add_lock (path_of id) d1)) as Hl by set_solver.
  assert (forall r, r = Throws -> st !! id <> None \/ doracle d (dcalls d) <> Completes ->
    conforms (Create id prefix) (doracle d (dcalls d)) st r d1 /\
    conforms (Create id prefix) (doracle d (dcalls d)) st r (add_lock (path_of id) d1)) as Hsame.
  { intros r -> Hc. destruct (st !! id) as [a|] eqn:Ea.
    - split; apply conforms_throws; try done; unfold spec; simpl; by rewrite Hid, Ea.
    - destruct Hc as [?|Hc]; [done|]. unfold conforms.
      destruct (doracle d (dcalls d)); try done; split; (split; [done|exists st; split; [by left|done]]). }
  destruct (files d !! path_of id) as [c|] eqn:Ec.
  - assert (st !! id <> None) as Hs by (intros E; by rewrite (proj2 Hh id Hid E) in Ec).
    destruct (doracle d (dcalls d)) as [|[]|k]; cbn [add_lock files]; rewrite ?Ec; apply Hsame; auto.
  - assert (st !! id = None) as Hs.
    { destruct (st !! id) as [a|] eqn:Ea; [|done]. destruct Hh as [Hh _].
      destruct (Hh id a Ea) as (_ & _ & c & E & _). congruence. }
    assert (spec (Create id prefix) st = (Returns Done, <[id := mkAttachment [] false]> st)) as Hspec
      by (unfold spec; simpl; by rewrite Hid, Hs).
    assert (forall a content, represents id a content ->
      holds (set_file (path_of id) content (add_lock (path_of id) d1)) (<[id := a]> st)) as Hset
      by (intros; by apply holds_set).
    destruct (doracle d (dcalls d)) as [|[]|k] eqn:Ef; cbn [add_lock files]; rewrite ?Ec;
      [|apply Hsame; auto..|]; cbn [write_sync].
    + exists (<[id := mkAttachment [] false]> st). split; [done|]. apply Hset.
      by apply created_full.
    + split; [done|]. destruct (created_represents id prefix k Hpre) as [H|H];
        (eexists; split; [|by apply Hset]); right; [right|left]; unfold break_off; by rewrite ?Hs, ?Hspec.
Qed.

Lemma spec_append_same id offset p st a : transfer_id_ok id = true -> chunk_ok p ->
  offset mod PlainChunkBytes = 0 -> st !! id = Some a ->
  spec (Append id offset p) st = ((spec_append offset p a).1, <[id := (spec_append offset p a).2]> st).
Proof.
  intros Hid Hp Hm Ha. unfold spec. cbn [op_id]. rewrite Hid. cbn [negb]. rewrite decide_True by done.
  rewrite Ha. by destruct (spec_append offset p a).
Qed.

Lemma append_args offset p :
  (sempty p || (PlainChunkBytes <? ssize p) || negb (offset mod PlainChunkBytes =? 0)) = false <->
  chunk_ok p /\ offset mod PlainChunkBytes = 0.
Proof.
  rewrite sempty_ssize, !orb_false_iff, negb_false_iff, Z.eqb_eq, Z.eqb_neq, Z.ltb_ge.
  unfold chunk_ok. pose proof (ssize_nonneg p). lia.
Qed.

(** Appending to an attachment that is there. *)
Lemma append_record_conforms id offset p a content d st : let f := doracle d (dcalls d) in
  transfer_id_ok id = true -> chunk_ok p -> offset mod PlainChunkBytes = 0 -> 0 <= offset ->
  st !! id = Some a -> files d !! path_of id = Some content -> path_of id ∈ locks d ->
  represents id a content -> holds d st -> forall d1, files d1 = files d -> locks d1 = locks d ->
  let '(r, d') := append_record master_key f id (path_of id) content offset p d1 in
  conforms (Append id offset p) f st (match r with Returns z => Returns (NewOffset z) | Throws => Throws end) d'.
Proof.
  intros f Hid Hp Hm Ho Ha Hc Hl Hrep Hh d1 Ef El.
  assert (holds d1 st) as Hh1 by (apply (holds_same d); [done|set_solver|done]).
  pose proof (spec_append_same id offset p st a Hid Hp Hm Ha) as Hs. unfold spec_append in Hs.
  cbn zeta in Hs.
  destruct (chunks a !! Z.to_nat (offset / PlainChunkBytes)) as [q|] eqn:Eq.
  - rewrite (append_hit f id (path_of id) content p offset a d1 Hrep Ho q Eq). cbn [fst snd] in Hs.
    rewrite insert_id in Hs by done.
    destruct (decide (q = p)); [|by apply conforms_throws].
    destruct f; [by exists st|..]; (split; [done|]; exists st; split; [by left|done]).
  - case_decide as Hg; cbn [fst snd] in Hs.
    + destruct Hg as (Hi & Hf & Hb).
      destruct (append_grow f id (path_of id) content p offset a d1 Hrep Ho Hi Hf Hb)
        as (prefix & Hpre & Econ & ->).
      assert (forall b c, represents id b c -> holds (set_file (path_of id) c d1) (<[id := b]> st)) as Hset
        by (intros; apply holds_set; [done|by rewrite El|done|done]).
      assert (forall k, let c := (content ++ stake k (record id prefix (length (chunks a)) p))%string in
        exists st', interrupted (Append id offset p) st st' /\ holds (set_file (path_of id) c d1) st') as Hint.
      { intros k c. unfold c. rewrite Econ.
        destruct (grown_represents id prefix (chunks a) p k Hpre Hf Hp) as [->|[H|H]].
        - exists st. split; [by left|]. rewrite <- Econ. rewrite <- (insert_id st id a) by done. by apply Hset.
        - eexists. split; [|by apply Hset]. right. right. unfold break_off. by rewrite Ha.
        - eexists. split; [|by apply Hset]. right. left. by rewrite Hs. }
      destruct f; cbn [write_sync].
      * exists (<[id := mkAttachment (chunks a ++ [p]) false]> st). split; [done|]. apply Hset.
        rewrite Econ. by apply grown_full.
      * split; [done|]. exists st. split; [by left|done].
      * split; [done|]. apply Hint.
    + rewrite insert_id in Hs by done.
      rewrite (append_miss f id (path_of id) content p offset a d1 Hrep Eq Hg). by apply conforms_throws.
Qed.

Lemma append_conforms id offset p d st : 0 <= offset -> holds d st ->
  let '(r, d') := run_op (Append id offset p) d in conforms (Append id offset p) (doracle d (dcalls d)) st r d'.
Proof.
  intros Ho Hh. cbn [run_op]. unfold mbind, prog_bind, append. rewrite transfer_id_path.
  destruct (_ || _) eqn:Eargs.
  { apply conforms_throws; [|done]. unfold spec. cbv beta iota. destruct (negb (transfer_id_ok _)); [done|]. rewrite decide_False; [done|].
    rewrite <- append_args. congruence. }
  apply append_args in Eargs as [Hp Hm].
  destruct (transfer_id_ok id) eqn:Hid; [|apply conforms_throws; [by unfold spec; simpl; rewrite Hid|done]].
  cbn [next_fate]. set (d1 := (next_fate d).2).
  assert (holds d1 st) as Hh1 by by apply (holds_same d).
  destruct (st !! id) as [a|] eqn:Ea.
  - destruct (proj1 Hh id a Ea) as (_ & Hl & content & Hc & Hrep).
    rewrite bool_decide_eq_false_2 by (intros []; exact Hl). change (files d1) with (files d). cbn [files].
    rewrite Hc. pose proof (append_record_conforms id offset p a content d st Hid Hp Hm Ho Ea Hc Hl Hrep Hh d1
      eq_refl eq_refl) as H. cbn zeta in H.
    change (mkDisk (files d) (locks d) (S (dcalls d)) (doracle d)) with d1.
    by destruct (append_record _ _ _ _ _ _ _ d1) as [[z|] d'].
  - cbn [files]. rewrite (proj2 Hh id Hid Ea).
    destruct (bool_decide _); (apply conforms_throws; [|done]); unfold spec; cbn [op_id];
      rewrite Hid; cbn [negb]; rewrite decide_True by done; by rewrite Ea.
Qed.

Lemma read_conforms id offset maximum_bytes d st : 0 <= offset -> holds d st ->
  let '(r, d') := run_op (Read id offset maximum_bytes) d in
  conforms (Read id offset maximum_bytes) (doracle d (dcalls d)) st r d'.
Proof.
  intros Ho Hh. cbn [run_op]. unfold mbind, prog_bind, read. rewrite transfer_id_path.
  destruct (_ || _) eqn:Eargs.
  { apply conforms_throws; [|done]. unfold spec. cbv beta iota. destruct (negb (transfer_id_ok _)); [done|]. rewrite decide_False; [done|].
    intros [H1 H2]. apply orb_true_iff in Eargs as [E|E]; bool_hyps; lia. }
  bool_hyps.
  destruct (transfer_id_ok id) eqn:Hid; [|apply conforms_throws; [by unfold spec; simpl; rewrite Hid|done]].
  cbn [next_fate]. set (d1 := mkDisk (files d) (locks d) (S (dcalls d)) (doracle d)).
  assert (holds d1 st) as Hh1 by by apply (holds_same d).
  change (files d1) with (files d). change (locks d1) with (locks d).
  assert (spec (Read id offset maximum_bytes) st =
    (match st !! id with Some a => spec_read offset maximum_bytes a | None => Throws end, st)) as Hs.
  { unfold spec. cbn [op_id]. rewrite Hid. cbn [negb]. rewrite decide_True by done. by destruct (st !! id). }
  destruct (doracle d (dcalls d)); cycle 1.
  1, 2: split; [done|]; exists st; split; [by left|done].
  destruct (st !! id) as [a|] eqn:Ea; cycle 1.
  { rewrite (proj2 Hh id Hid Ea). destruct (bool_decide _); by apply conforms_throws. }
  destruct (proj1 Hh id a Ea) as (_ & Hl & content & Hc & [Hok Hrep]).
  rewrite bool_decide_eq_true_2, Hc by done. unfold spec_read in Hs.
  destruct Hrep as [(_ & Ec & Hsz)|(prefix & torn & Hpre & -> & Ht)].
  { rewrite Ec in Hs. unfold read_header. rewrite (proj2 (Z.ltb_lt _ _) Hsz). by apply conforms_throws. }
  rewrite read_header_image by done. cbn [mbind option_bind]. change 0 with (Z.of_nat 0).
  destruct (chunks a !! Z.to_nat (offset / PlainChunkBytes)) as [q|] eqn:Eq.
  - rewrite (read_record_at _ _ _ _ 0 _ q) by (done || apply Hok).
    destruct (Z.ltb_spec maximum_bytes (ssize q)); [rewrite decide_False in Hs by lia; by apply conforms_throws|].
    rewrite decide_True in Hs by lia. by exists st.
  - rewrite read_record_none; [by apply conforms_throws|by eapply no_record_torn|apply Hok|done].
Qed.

Lemma remove_conforms id d st : holds d st ->
  let '(r, d') := run_op (Remove id) d in conforms (Remove id) (doracle d (dcalls d)) st r d'.
Proof.
  intros Hh. cbn [run_op]. unfold mbind, prog_bind, remove. rewrite transfer_id_path.
  destruct (transfer_id_ok id) eqn:Hid; [|apply conforms_throws; [by unfold spec; simpl; rewrite Hid|done]].
  cbn [next_fate]. set (d1 := mkDisk (files d) (locks d) (S (dcalls d)) (doracle d)).
  assert (holds d1 st) as Hh1 by by apply (holds_same d).
  destruct (doracle d (dcalls d)); [|split; [done|]; exists st; split; [by left|done]..].
  exists (delete id st). split; [unfold spec; simpl; by rewrite Hid|]. destruct Hh as [H1 H2]. split.
  - intros id' a [Hne Ha]%lookup_delete_Some. destruct (H1 id' a Ha) as (Hid' & Hl & c & Hc & Hr).
    split_and!; [done|done|]. exists c. cbn. rewrite lookup_delete_ne; [done|].
    intros E. by apply Hne, path_of_inj.
  - intros id' Hid' Ha. cbn. destruct (decide (id' = id)) as [->|Hne]; [by rewrite lookup_delete_eq|].
    rewrite lookup_delete_ne in Ha by done. rewrite lookup_delete_ne; [auto|].
    intros E. by apply Hne, path_of_inj.
Qed.

Lemma run_op_conforms op d st : op_ok op -> holds d st ->
  let '(r, d') := run_op op d in conforms op (doracle d (dcalls d)) st r d'.
Proof.
  intros Hop Hh. destruct op.
  - by apply create_conforms.
  - by apply append_conforms.
  - by apply read_conforms.
  - by apply remove_conforms.
Qed.

(** A step of the contract, with the fate of the operation. *)
Definition allowed (op : file_op) (f : fate) (r : outcome result) (st st' : attachments) : Prop :=
  match f with
  | Completes => spec op st = (r, st')
  | _ => r = Throws /\ interrupted op st st'
  end.

(** A run of the contract. *)
Fixpoint allowed_run (l : list (file_op * (fate * outcome result))) (st st' : attachments) : Prop :=
  match l with
  | [] => st' = st
  | (op, (f, r)) :: l => exists st1, allowed op f r st st1 /\ allowed_run l st1 st'
  end.

(** A run of the store, with the fates and the outcomes. *)
Definition run_store : list file_op -> Disk -> list (file_op * (fate * outcome result)) * Disk :=
  run_ops (fun op d => ((doracle d (dcalls d), (run_op op d).1), (run_op op d).2)).

Lemma run_op_allowed op d st : op_ok op -> holds d st ->
  exists st', allowed op (doracle d (dcalls d)) (run_op op d).1 st st' /\ holds (run_op op d).2 st'.
Proof.
  intros Hop Hh. pose proof (run_op_conforms op d st Hop Hh) as H. destruct (run_op op d) as [r d'].
  unfold conforms in H. unfold allowed. cbn [fst snd]. destruct (doracle d (dcalls d)).
  - exact H.
  - destruct H as (-> & st' & Hi & Hh'). by exists st'.
  - destruct H as (-> & st' & Hi & Hh'). by exists st'.
Qed.

Lemma run_store_allowed ops : forall d st, Forall op_ok ops -> holds d st ->
  exists st', allowed_run (run_store ops d).1 st st' /\ holds (run_store ops d).2 st'.
Proof.
  induction ops as [|op ops IH]; intros d st Hok Hh; [by exists st|].
  apply Forall_cons in Hok as [Hop Hok].
  destruct (run_op_allowed op d st Hop Hh) as (st1 & Ha & Hh1).
  destruct (IH _ st1 Hok Hh1) as (st' & Hr & Hh'). unfold run_store in *. cbn [run_ops].
  destruct (run_ops _ ops _) as [rs d2]. exists st'. split; [|done]. exists st1. by split.
Qed.

(** C23. The store refines its contract: whatever sequence of operations is run
    from a disk that holds what an abstract store describes, the outcomes and
    the final disk are those of a run of the contract.  In it every operation
    that completes returns exactly what the contract says, and every one that
    the system refuses or that breaks, after any number of bytes, throws and
    leaves the state as it was, completed, or with this one attachment marked
    broken.  So chunks come back as they were confirmed, a repeated chunk is
    confirmed again, and a different or out-of-place chunk is refused. *)
Theorem store_refines ops d st : Forall op_ok ops -> holds d st ->
  exists st', allowed_run (run_store ops d).1 st st' /\ holds (run_store ops d).2 st'.
Proof. apply run_store_allowed. Qed.

(** *** Confirmed chunks *)

Definition has_chunk (id : string) (i : nat) (p : string) (st : attachments) : Prop :=
  exists a, st !! id = Some a /\ chunks a !! i = Some p.

Definition spares (id : string) (op : file_op) : Prop :=
  match op with Remove id' => id' <> id | _ => True end.

Lemma has_chunk_insert id i p id' a' st : has_chunk id i p st ->
  (forall a, st !! id' = Some a -> exists more, chunks a' = chunks a ++ more) ->
  has_chunk id i p (<[id' := a']> st).
Proof.
  intros (a & Ha & Hi) Hgrow. destruct (decide (id' = id)) as [->|Hne].
  - exists a'. split; [by rewrite lookup_insert_eq|]. destruct (Hgrow a Ha) as [more ->].
    by apply lookup_app_l_Some.
  - exists a. by rewrite lookup_insert_ne.
Qed.

Lemma has_chunk_spec id i p op st : spares id op -> has_chunk id i p st -> has_chunk id i p (spec op st).2.
Proof.
  intros Hs Hc. unfold spec. destruct (negb (transfer_id_ok _)); [done|].
  destruct op as [id' ?|id' offset q|id' offset m|id'].
  - destruct (st !! id') as [a|] eqn:E; [done|]. apply has_chunk_insert; [done|]. congruence.
  - case_decide; [|done]. destruct (st !! id') as [a|] eqn:E; [|done].
    assert (exists more, chunks (spec_append offset q a).2 = chunks a ++ more) as Hg.
    { unfold spec_append. case_match; [by exists []; rewrite app_nil_r|].
      case_decide; [by exists [q]|by exists []; rewrite app_nil_r]. }
    destruct (spec_append offset q a) as [r a']. apply has_chunk_insert; [done|]. intros b Hb.
    rewrite E in Hb. injection Hb as <-. exact Hg.
  - case_decide; [|done]. by destruct (st !! id').
  - destruct Hc as (a & Ha & Hi). exists a. simpl in *. by rewrite lookup_delete_ne.
Qed.

Lemma has_chunk_allowed id i p op f r st st' : spares id op -> allowed op f r st st' ->
  has_chunk id i p st -> has_chunk id i p st'.
Proof.
  intros Hs Ha Hc. assert (has_chunk id i p (spec op st).2) as Hc1 by by apply has_chunk_spec.
  assert (forall id', has_chunk id i p (break_off id' st)) as Hc2.
  { intros id'. unfold break_off. destruct (st !! id') as [a|] eqn:E; apply has_chunk_insert; try done.
    - intros b Hb. rewrite E in Hb. injection Hb as <-. exists []. by rewrite app_nil_r.
    - congruence. }
  unfold allowed, interrupted in Ha. destruct f; [by rewrite Ha in Hc1|..];
    destruct Ha as [_ [->|Ha]]; try done; destruct op; try done; destruct Ha as [->| ->]; auto.
Qed.

Lemma has_chunk_run id i p l : forall st st', Forall (fun x => spares id x.1) l ->
  allowed_run l st st' -> has_chunk id i p st -> has_chunk id i p st'.
Proof.
  induction l as [|[op [f r]] l IH]; intros st st' Hs; simpl; [by intros ->|].
  apply Forall_cons in Hs as [Hs1 Hs]. intros (st1 & Ha & Hr) Hc.
  eapply IH; [done|done|]. by eapply has_chunk_allowed.
Qed.

(** An append that returns has put the chunk at its place. *)
Lemma appended_chunk id offset p f z st st' :
  allowed (Append id offset p) f (Returns (NewOffset z)) st st' ->
  has_chunk id (Z.to_nat (offset / PlainChunkBytes)) p st' /\ z = u64 (offset + ssize p) /\
  offset mod PlainChunkBytes = 0 /\ transfer_id_ok id = true.
Proof.
  unfold allowed. destruct f; [|by intros [? _]..]. unfold spec. cbn [op_id].
  destruct (transfer_id_ok id) eqn:Hid; [|done]. cbn [negb]. case_decide as Hargs; [|done].
  destruct (st !! id) as [a|] eqn:Ea; [|done]. unfold spec_append. cbn zeta.
  destruct (chunks a !! _) as [q|] eqn:Eq.
  - case_decide as Hq; [|done]. intros [= <- <-]. subst q. split_and!; [|done|apply Hargs|done].
    exists a. by rewrite lookup_insert_eq.
  - case_decide as Hg; [|done]. intros [= <- <-]. split_and!; [|done|apply Hargs|done].
    eexists. split; [by rewrite lookup_insert_eq|]. destruct Hg as (-> & _). cbn [chunks].
    apply list_lookup_middle. done.
Qed.

(** A confirmed chunk is not lost: after [append] returned, and whatever is
    then done with the store, by anyone, and however often the disk fails, as
    long as the attachment is not removed, a read of that offset that
    completes returns exactly the bytes that were appended. *)
Theorem chunk_durable id offset p z ops d st maximum_bytes :
  holds d st -> 0 <= offset -> (run_op (Append id offset p) d).1 = Returns (NewOffset z) ->
  Forall op_ok ops -> Forall (spares id) ops ->
  let d' := (run_store ops (run_op (Append id offset p) d).2).2 in
  doracle d' (dcalls d') = Completes -> ssize p <= maximum_bytes ->
  z = u64 (offset + ssize p) /\
  (run_op (Read id offset maximum_bytes) d').1 = Returns (Bytes p).
Proof.
  intros Hh Ho Hr Hok Hsp d' Hf Hm.
  destruct (run_op_allowed (Append id offset p) d st Ho Hh) as (st1 & Ha & Hh1). rewrite Hr in Ha.
  destruct (appended_chunk _ _ _ _ _ _ _ Ha) as (Hc1 & -> & Hmod & Hid). split; [done|].
  destruct (run_store_allowed ops _ st1 Hok Hh1) as (st2 & Hrun & Hh2).
  assert (Forall (fun x => spares id x.1) (run_store ops (run_op (Append id offset p) d).2).1) as Hsp'.
  { clear -Hsp. generalize (run_op (Append id offset p) d).2. unfold run_store.
    induction Hsp as [|op ops Hop Hsp IH]; intros d0; cbn [run_ops]; [constructor|].
    specialize (IH (run_op op d0).2). destruct (run_ops _ ops _). by constructor. }
  destruct (has_chunk_run _ _ _ _ _ _ Hsp' Hrun Hc1) as (a & Hst & Hci).
  destruct (run_op_allowed (Read id offset maximum_bytes) d' st2 Ho Hh2) as (st3 & Ha3 & _).
  rewrite Hf in Ha3. unfold allowed, spec in Ha3. cbn [op_id] in Ha3. rewrite Hid in Ha3. cbn [negb] in Ha3.
  destruct (proj1 Hh2 id a Hst) as (_ & _ & _ & _ & [Hok2 _] & _). rewrite Forall_lookup in Hok2.
  specialize (Hok2 _ _ Hci). unfold chunk_ok in Hok2.
  rewrite decide_True, Hst in Ha3 by (split; [done|lia]). unfold spec_read in Ha3. rewrite Hci in Ha3.
  rewrite decide_True in Ha3 by lia. by injection Ha3.
Qed.

(** *** The digest *)

Fixpoint joined (cs : list string) : string :=
  match cs with [] => "" | p :: cs => p ++ joined cs end.

Definition works_from (d : Disk) : Prop := forall n, (dcalls d <= n)%nat -> doracle d n = Completes.

Lemma read_frame id offset m d : let d' := (read master_key id offset m d).2 in
  files d' = files d /\ locks d' = locks d /\ doracle d' = doracle d /\ (dcalls d <= dcalls d')%nat.
Proof. unfold read, next_fate. repeat (case_match; simplify_eq/=; try (split_and!; (done || lia))). Qed.

(** A read of a chunk returns it, or throws on a disk that does not work. *)
Lemma read_chunk id i a q d st : holds d st -> st !! id = Some a -> chunks a !! i = Some q ->
  exists r d', read master_key id (PlainChunkBytes * Z.of_nat i) PlainChunkBytes d = (r, d') /\ holds d' st /\
    (r = Returns q /\ (works_from d -> works_from d') \/ r = Throws /\ ~ works_from d).
Proof.
  intros Hh Ha Hi. pose proof (read_frame id (PlainChunkBytes * Z.of_nat i) PlainChunkBytes d) as Hf.
  assert (0 < PlainChunkBytes) as Hpos by done.
  pose proof (read_conforms id (PlainChunkBytes * Z.of_nat i) PlainChunkBytes d st ltac:(lia) Hh) as Hc.
  cbn [run_op] in Hc. unfold mbind, prog_bind in Hc.
  destruct (proj1 Hh id a Ha) as (Hid & _ & _ & _ & [Hok _] & _). rewrite Forall_lookup in Hok.
  specialize (Hok _ _ Hi). unfold chunk_ok in Hok.
  destruct (read master_key id _ _ d) as [r d']. cbn [snd] in Hf. destruct Hf as (Ef & El & Eo & En).
  exists r, d'. split_and!; [done|by apply (holds_same d); [|rewrite El|]|].
  destruct (doracle d (dcalls d)) eqn:Ed.
  - left. split; [|intros Hw n Hn; rewrite Eo; apply Hw; lia].
    unfold conforms, spec in Hc. cbn [op_id] in Hc. rewrite Hid in Hc. cbn [negb] in Hc.
    rewrite Z.mul_comm, Z.mod_mul, decide_True, Ha in Hc by (lia || done). unfold spec_read in Hc.
    rewrite Z.div_mul, Nat2Z.id, Hi, decide_True in Hc by lia.
    destruct r as [x|]; destruct Hc as (st' & E & _); [|done]. by injection E as <-.
  - right. split; [destruct r; by destruct Hc|]. intros Hw. by rewrite Hw in Ed.
  - right. split; [destruct r; by destruct Hc|]. intros Hw. by rewrite Hw in Ed.
Qed.

Lemma full_size cs : Forall full cs -> zsum ssize cs = PlainChunkBytes * Z.of_nat (length cs).
Proof.
  induction 1 as [|p cs Hp _ IH]; [done|]. unfold zsum in *. csimpl. rewrite Hp, IH. lia.
Qed.

Lemma zsum_ssize_nonneg cs : 0 <= zsum ssize cs.
Proof. unfold zsum. induction cs as [|x cs IH]; csimpl; [done|]. pose proof (ssize_nonneg x). lia. Qed.

(** A chunk is preceded by full ones. *)
Lemma chunk_end cs i q : chunks_ok cs -> cs !! i = Some q ->
  PlainChunkBytes * Z.of_nat i + ssize q <= zsum ssize cs.
Proof.
  intros [_ Hfull] Hi. pose proof (lookup_lt_Some _ _ _ Hi) as Hlt.
  rewrite <- (take_drop_middle _ _ _ Hi), zsum_app, full_size.
  - rewrite length_take, Nat.min_l by lia. unfold zsum. csimpl.
    pose proof (zsum_ssize_nonneg (drop (S i) cs)) as H. unfold zsum in H. lia.
  - apply Forall_lookup. intros j x [Hx Hj]%lookup_take_Some. apply (Hfull j); [done|lia].
Qed.

(** The loop returns the digest of all chunks or throws; it returns on a disk
    that works. *)
Lemma sha256_from_spec id a st fuel total : total = zsum ssize (chunks a) -> st !! id = Some a ->
  forall rest pre fed d, chunks a = pre ++ rest -> (length rest <= fuel)%nat -> holds d st ->
  let '(r, d') := sha256_from master_key fuel id (PlainChunkBytes * Z.of_nat (length pre)) total fed d in
  holds d' st /\ (r = Returns (sha256_hex (fed ++ joined rest)) \/ r = Throws /\ ~ works_from d).
Proof.
  intros Ht Ha. assert (0 < PlainChunkBytes) as Hpos by done.
  induction fuel as [|fuel IH]; intros rest pre fed d E Hl Hh;
    destruct (proj1 Hh id a Ha) as (_ & _ & _ & _ & [Hok Hfull] & _); rewrite E in Ht;
    rewrite zsum_app in Ht; (destruct rest as [|q rest]; [|]).
  1, 3: cbn [sha256_from joined]; rewrite (proj2 (Z.leb_le _ _)), (right_id_L "" String.append); [unfold mret, prog_ret; by auto|];
    rewrite Ht; rewrite E, app_nil_r in Hok; pose proof (zsum_le_const ssize PlainChunkBytes pre) as Hz;
    unfold zsum at 2; simpl; (etrans; [|apply Hz]; [lia|]); (eapply Forall_impl; [done|]); by intros ? [].
  - simpl in Hl. lia.
  - assert (chunks a !! length pre = Some q) as Hq by (rewrite E; by apply list_lookup_middle).
    cbn [sha256_from]. rewrite (proj2 (Z.leb_gt _ _)); cycle 1.
    { assert (chunks_ok (pre ++ q :: rest)) as Hcs by (rewrite <- E; done).
      pose proof (chunk_end _ (length pre) q Hcs) as Hce. rewrite zsum_app in Hce.
      assert (chunk_ok q) as Hcq by (rewrite Forall_lookup in Hok; eauto). unfold chunk_ok in Hcq.
      rewrite E in Hq. specialize (Hce Hq). lia. }
    unfold mbind, prog_bind.
    destruct (read_chunk id (length pre) a q d st Hh Ha Hq) as (r & d' & Er & Hh' & Hr).
    rewrite Er. destruct Hr as [[-> Hw]|[-> Hw]]; [|by auto].
    specialize (IH rest (pre ++ [q]) (fed ++ q)%string d'). rewrite <- (assoc_L app) in IH.
    rewrite length_app in IH. cbn [length] in IH, Hl.
    replace (PlainChunkBytes * Z.of_nat (length pre) + PlainChunkBytes)
      with (PlainChunkBytes * Z.of_nat (length pre + 1)) by lia.
    specialize (IH E ltac:(lia) Hh'). destruct (sha256_from _ _ _ _ _ _ d') as [r2 d2].
    cbn [joined]. rewrite (assoc_L String.append). destruct IH as [Hh2 [->|[-> Hnw]]]; [by auto|].
    split; [done|]. right. auto.
Qed.

Lemma chunks_fuel cs : Forall chunk_ok cs -> (length cs <= Z.to_nat (zsum ssize cs))%nat.
Proof.
  intros Hok. assert (Z.of_nat (length cs) <= zsum ssize cs); [|lia].
  induction Hok as [|p cs Hp _ IH]; [done|]. unfold zsum in *. csimpl. unfold chunk_ok in Hp. lia.
Qed.

Lemma sha256_spec id a d st : holds d st -> st !! id = Some a ->
  let '(r, d') := sha256 master_key id (zsum ssize (chunks a)) d in
  holds d' st /\ (r = Returns (sha256_hex (joined (chunks a))) \/ r = Throws /\ ~ works_from d).
Proof.
  intros Hh Ha. destruct (proj1 Hh id a Ha) as (_ & _ & _ & _ & [Hok _] & _).
  exact (sha256_from_spec id a st _ _ eq_refl Ha (chunks a) [] ""%string d eq_refl (chunks_fuel _ Hok) Hh).
Qed.

(** The digest of an attachment on a disk that works is that of its chunks in
    order, when it is asked for the size they have. *)
Theorem sha256_whole id a d st : holds d st -> works_from d -> st !! id = Some a ->
  (sha256 master_key id (zsum ssize (chunks a)) d).1 = Returns (sha256_hex (joined (chunks a))).
Proof.
  intros Hh Hw Ha. pose proof (sha256_spec id a d st Hh Ha) as H.
  destruct (sha256 _ _ _ d) as [r d']. by destruct H as [_ [->|[_ Hn]]].
Qed.

End Refinement.

(** ** Nonces *)

Lemma little_endian_inj n : forall x y, 0 <= x < 2 ^ (8 * Z.of_nat n) -> 0 <= y < 2 ^ (8 * Z.of_nat n) ->
  little_endian n x = little_endian n y -> x = y.
Proof.
  induction n as [|n IH]; intros x y Hx Hy; [simpl in *; lia|].
  cbn [little_endian]. intros E. injection E as E1 E2.
  rewrite !Z.shiftr_div_pow2 in E2 by lia. change (2 ^ 8) with 256 in E2.
  replace (8 * Z.of_nat (S n)) with (8 + 8 * Z.of_nat n) in * by lia.
  rewrite Z.pow_add_r in Hx, Hy by lia. change (2 ^ 8) with 256 in *.
  apply (f_equal of_byte) in E1. rewrite !of_byte_byte_of in E1.
  assert (x / 256 = y / 256) as E3.
  { apply IH; [split; [apply Z.div_pos; lia|apply Z.div_lt_upper_bound; lia]..|done]. }
  rewrite (Z.div_mod x 256), (Z.div_mod y 256), E1, E3 by lia. done.
Qed.

(** No nonce is used for two places: the chunks of one attachment, and of
    attachments with different random prefixes, have different nonces. *)
Theorem nonce_unique prefix prefix' i j : ssize prefix = 16 -> ssize prefix' = 16 ->
  0 <= i < 2 ^ 64 -> 0 <= j < 2 ^ 64 -> nonceFor prefix i = nonceFor prefix' j -> prefix = prefix' /\ i = j.
Proof.
  intros Hp Hp' Hi Hj E. unfold nonceFor in E.
  apply string_app_split in E as [-> E]; [|congruence]. split; [done|]. by apply little_endian_inj in E.
Qed.

(** ** Example *)

Module Example.

(** A cipher that is none, to run the definitions: the tag is sixteen dots. *)
Definition tag : string := "................".

#[local] Instance plain_aead : Aead := {|
  encrypt _ _ p := (p ++ tag)%string;
  decrypt _ _ c := Some (stake (String.length c - 16) c);
  generichash _ m := m;
  sha256_hex s := s;
|}.

#[local] Instance plain_laws : AeadLaws plain_aead.
Proof.
  split.
  - intros k n p. cbn. f_equal. pose proof (ssize_app p tag) as E. change (ssize tag) with 16 in E.
    apply stake_size. unfold ssize in *. lia.
  - intros k n p. cbn [encrypt plain_aead]. by rewrite ssize_app.
Qed.

Definition id1 : string := "00000000-0000-4000-8000-000000000001".
Definition prefix1 : string := "0123456789abcdef".

(** The second append breaks after five bytes. *)
Definition empty_disk : Disk :=
  mkDisk ∅ ∅ 0 (fun n => if (n =? 2)%nat then Breaks 5 else Completes).

Lemma empty_holds : holds "key" empty_disk ∅.
Proof. split; [intros id a Ha; by rewrite lookup_empty in Ha|done]. Qed.

Definition example_ops : list file_op :=
  [Create id1 prefix1; Append id1 0 "hello"; Append id1 32768 "world"; Append id1 0 "hello";
   Append id1 0 "other"; Read id1 0 100].

Lemma store_refines_witness : exists st',
  allowed_run (run_store "key" example_ops empty_disk).1 ∅ st' /\
  holds "key" (run_store "key" example_ops empty_disk).2 st'.
Proof. apply (store_refines "key" example_ops empty_disk ∅); [by repeat constructor|apply empty_holds]. Defined.

Lemma created_holds : exists st, holds "key" (run_op "key" (Create id1 prefix1) empty_disk).2 st.
Proof.
  destruct (run_op_allowed "key" (Create id1 prefix1) empty_disk ∅) as (st & _ & H); [done|apply empty_holds|].
  by exists st.
Qed.

Lemma chunk_durable_witness :
  let d := (run_op "key" (Create id1 prefix1) empty_disk).2 in
  (run_op "key" (Read id1 0 100)
     (run_store "key" [Append id1 32768 "world"; Append id1 0 "other"]
        (run_op "key" (Append id1 0 "hello") d).2).2).1 = Returns (Bytes "hello").
Proof.
  destruct created_holds as [st Hst].
  apply (chunk_durable "key" id1 0 "hello" 5 [Append id1 32768 "world"; Append id1 0 "other"] _ st 100);
    try done; by repeat constructor.
Defined.

End Example.
