(* ===== verification/ResourceSupport.v ===== *)
(** Support of the resource server
    ([src/servers/resource/ResourceSupport.h], [src/common/ResourceLock.h]):
    errors, connections, transactions and locks over tables of any type, and
    the rules to show that an operation keeps an invariant of the committed
    tables and the encrypted files ([FileStore]) whatever calls fail. *)
From S2P Require Import Prelude Mysql FileDao FileStore.

(** ** State *)

(** The connection to the database, the disk, and the status of the last
    [Error]. *)
Record World (T : Type) := mkWorld { w_db : db T; w_disk : Disk; w_status : Z }.
Arguments mkWorld {T}.
Arguments w_db {T}.
Arguments w_disk {T}.
Arguments w_status {T}.

Section Operations.
Context {T : Type}.
Local Abbreviation World := (World T).

Definition set_w_db (d : db T) (w : World) : World := mkWorld d (w_disk w) (w_status w).
Definition set_w_disk (d : Disk) (w : World) : World := mkWorld (w_db w) d (w_status w).
Definition set_w_status (st : Z) (w : World) : World := mkWorld (w_db w) (w_disk w) st.

Definition on_db {A} (m : prog (db T) A) : prog World A := zoom w_db set_w_db m.
Definition on_disk {A} (m : prog Disk A) : prog World A := zoom w_disk set_w_disk m.

(** ** Support *)

(** [throw Error(status, ...)] and [require]. *)
Definition fail {A} (status : Z) : prog World A := modify (set_w_status status) ;; throw.
Definition require (ok : bool) (status : Z) : prog World unit := if ok then mret tt else fail status.

(** [number]: [std::from_chars] of a [std::uint64_t] over the whole string. *)
Definition digit (c : ascii) : bool := let x := of_byte c in (48 <=? x) && (x <=? 57).
Definition number (s : string) : option Z :=
  if sempty s || negb (sall digit s) then None
  else n ← decimal s; if n <? 2 ^ 64 then Some n else None.

(** [Database::Lease] *)
Definition lease {A} (body : prog World A) : prog World A :=
  con ← on_db getConnection;
  if con : bool
  then finally body (fun w => set_w_db (returnConnection (w_db w)) w)
  else fail 503.

(** [Transaction]: the destructor rolls back when the scope is left before the
    commit. *)
Definition rolling_back {A} (m : prog World A) : prog World A := fun w =>
  match m w with
  | (Throws, w) => (Throws, (on_db abandon w).2)
  | r => r
  end.
Definition Transaction {A} (m : prog World A) : prog World A :=
  on_db (setAutoCommit false) ;;
  a ← rolling_back (a ← m; on_db commit ;; mret a);
  on_db (setAutoCommit true) ;;
  mret a.

(** [validId] of [ResourceLock.h]: the dashes of a UUID. *)
Definition hex_char (c : ascii) : bool :=
  let x := of_byte c in (48 <=? x) && (x <=? 57) || (97 <=? x) && (x <=? 102).
Fixpoint valid_at (i : nat) (s : string) : bool :=
  match s with
  | EmptyString => true
  | String c s =>
      (if (i =? 8)%nat || (i =? 13)%nat || (i =? 18)%nat || (i =? 23)%nat
       then Ascii.eqb c "-" else hex_char c) && valid_at (S i) s
  end.
Definition validId (id : string) : bool := (ssize id =? 36) && valid_at 0 id.

(** A valid identifier, and the lock obtained in time. *)
Definition ResourceLock (obtained : bool) (id : string) : prog World unit :=
  if validId id && obtained then mret tt else throw.

End Operations.

Lemma number_nonneg s n : number s = Some n -> 0 <= n.
Proof.
  unfold number, decimal. destruct (sempty s || negb (sall digit s)) eqn:E; [done|].
  apply orb_false_iff in E as [_ E%negb_false_iff]. destruct s as [|c s]; [done|].
  cbn [sall] in E. apply andb_true_iff in E as [Hc _]. unfold DecimalString.NilZero.int_of_string.
  destruct (Ascii.eqb c "-") eqn:Em; [apply Ascii.eqb_eq in Em; by subst c|].
  destruct (DecimalString.NilZero.uint_of_string _) as [u|]; [|done]. cbn.
  destruct (_ <? _); [|done]. intros [= <-]. unfold Z.of_int, Z.of_uint. lia.
Qed.

(** ** Operations on the disk *)

Section Files.
Context `{A : Aead} `{!AeadLaws A} {master_key : string} {T : Type}.

Local Abbreviation World := (World T).

Lemma append_step (w : World) st i at_ p Q : holds master_key (w_disk w) st -> 0 <= at_ ->
  (forall r d' f st', allowed (Append i at_ p) f (match r with Returns z => Returns (NewOffset z) | Throws => Throws end)
      st st' -> holds master_key d' st' -> Q r (set_w_disk d' w)) ->
  wp (on_disk (FileStore.append master_key i at_ p)) Q w.
Proof.
  intros Hh Ho HQ. apply wp_zoom. unfold wp.
  destruct (run_op_allowed master_key (Append i at_ p) (w_disk w) st Ho Hh) as (st' & Ha & Hh').
  cbn [run_op] in Ha, Hh'. unfold mbind, prog_bind in Ha, Hh'.
  destruct (FileStore.append _ _ _ _ _) as [[z|] d']; cbn [fst snd] in *; by eapply HQ.
Qed.

Lemma read_step (w : World) st i at_ m Q : holds master_key (w_disk w) st ->
  (forall r d', holds master_key d' st -> Q r (set_w_disk d' w)) ->
  wp (on_disk (FileStore.read master_key i at_ m)) Q w.
Proof.
  intros Hh HQ. apply wp_zoom. unfold wp. pose proof (read_frame master_key i at_ m (w_disk w)) as Hf.
  destruct (FileStore.read _ _ _ _ _) as [r d']. cbn [fst snd] in *. destruct Hf as (Ef & El & _).
  apply HQ, (holds_same master_key (w_disk w)); [done|by rewrite El|done].
Qed.

(** Attachments with the same chunks, and others. *)
Definition keeps_chunks (st st' : attachments) : Prop :=
  forall j a, st !! j = Some a -> exists a', st' !! j = Some a' /\ chunks a' = chunks a.

Lemma create_step (w : World) i prefix Q : ssize prefix = 16 ->
  (forall r d', (forall st, holds master_key (w_disk w) st -> exists st', holds master_key d' st' /\
       keeps_chunks st st' /\ (r <> Throws -> st' !! i = Some (mkAttachment [] false))) -> Q r (set_w_disk d' w)) ->
  wp (on_disk (FileStore.create i prefix)) Q w.
Proof.
  intros Hp HQ. apply wp_zoom. unfold wp. apply HQ. intros st Hh.
  destruct (run_op_allowed master_key (Create i prefix) (w_disk w) st Hp Hh) as (st' & Ha & Hh').
  cbn [run_op] in Ha, Hh'. unfold mbind, prog_bind in Ha, Hh'.
  assert (keeps_chunks st st) as Hsame by (intros j a E; by exists a).
  assert (forall x, keeps_chunks st (<[i := x]> st) \/ is_Some (st !! i)) as Hnew.
  { intros x. destruct (st !! i) as [b|] eqn:Eb; [by right; exists b|left].
    intros j a E. exists a. rewrite lookup_insert_ne by congruence. done. }
  assert (forall st2, st2 = (spec (Create i prefix) st).2 \/ st2 = st \/ st2 = break_off i st -> keeps_chunks st st2) as Hcases.
  { intros st2 [->|[->| ->]]; [|done|].
    - unfold spec. destruct (negb _); [done|]. destruct (st !! i) eqn:Ei; [done|].
      destruct (Hnew (mkAttachment [] false)) as [|[y Hy]]; [done|congruence].
    - unfold break_off. destruct (st !! i) as [b|] eqn:Ei.
      + intros j a E. destruct (decide (i = j)) as [<-|Hj];
          [rewrite lookup_insert_eq; eexists; split; [done|simpl; congruence]|rewrite lookup_insert_ne by done; by exists a].
      + destruct (Hnew (mkAttachment [] true)) as [|[y Hy]]; [done|congruence]. }
  destruct (FileStore.create i prefix (w_disk w)) as [r d']. cbn [fst snd] in *. exists st'.
  assert (holds master_key d' st') as Hh'' by by destruct r.
  split; [done|]. unfold allowed, interrupted in Ha. destruct (doracle _ _).
  - split; [apply Hcases; left; by rewrite Ha|]. intros Hr. destruct r as [[]|]; [|done].
    unfold spec in Ha. destruct (negb _); [done|]. destruct (st !! i) as [b|]; [done|]. injection Ha as <-.
    by rewrite lookup_insert_eq.
  - destruct Ha as [Hr Ha]. destruct r; [done|]. split; [apply Hcases; tauto|done].
  - destruct Ha as [Hr Ha]. destruct r; [done|]. split; [apply Hcases; tauto|done].
Qed.

Lemma remove_step (w : World) i Q :
  (forall r d', (forall st, holds master_key (w_disk w) st -> exists st', holds master_key d' st' /\
       (st' = st \/ st' = delete i st)) -> Q r (set_w_disk d' w)) ->
  wp (on_disk (FileStore.remove i)) Q w.
Proof.
  intros HQ. apply wp_zoom. unfold wp. apply HQ. intros st Hh.
  destruct (run_op_allowed master_key (Remove i) (w_disk w) st I Hh) as (st' & Ha & Hh').
  cbn [run_op] in Ha, Hh'. unfold mbind, prog_bind in Ha, Hh'.
  destruct (FileStore.remove i (w_disk w)) as [r d']. cbn [fst snd] in *. exists st'.
  split; [by destruct r|]. unfold allowed, interrupted in Ha. destruct (doracle _ _); [|tauto..].
  unfold spec in Ha. destruct (negb _); injection Ha as _ <-; auto.
Qed.

(** The other operations in the same form. *)
Lemma create_allowed (w : World) st i prefix Q : holds master_key (w_disk w) st -> ssize prefix = 16 ->
  (forall r d' f st', allowed (Create i prefix) f (match r with Returns _ => Returns Done | Throws => Throws end) st st' ->
     holds master_key d' st' -> Q r (set_w_disk d' w)) ->
  wp (on_disk (FileStore.create i prefix)) Q w.
Proof.
  intros Hh Hp HQ. apply wp_zoom. unfold wp.
  destruct (run_op_allowed master_key (Create i prefix) (w_disk w) st Hp Hh) as (st' & Ha & Hh').
  cbn [run_op] in Ha, Hh'. unfold mbind, prog_bind in Ha, Hh'.
  destruct (FileStore.create _ _ _) as [[[]|] d']; cbn [fst snd] in *; by eapply HQ.
Qed.

Lemma remove_allowed (w : World) st i Q : holds master_key (w_disk w) st ->
  (forall r d' st', st' = st \/ st' = delete i st -> holds master_key d' st' -> Q r (set_w_disk d' w)) ->
  wp (on_disk (FileStore.remove i)) Q w.
Proof. intros Hh HQ. apply remove_step. intros r d' Hd. destruct (Hd st Hh) as (st' & Hh' & Hc). by eapply HQ. Qed.

Lemma read_allowed (w : World) st i at_ m Q : holds master_key (w_disk w) st -> 0 <= at_ ->
  (forall r d', holds master_key d' st ->
     (forall p, r = Returns p -> exists a, st !! i = Some a /\ chunks a !! Z.to_nat (at_ / PlainChunkBytes) = Some p) ->
     Q r (set_w_disk d' w)) ->
  wp (on_disk (FileStore.read master_key i at_ m)) Q w.
Proof.
  intros Hh Ho HQ. apply wp_zoom. unfold wp.
  pose proof (read_frame master_key i at_ m (w_disk w)) as Hf.
  destruct (run_op_allowed master_key (Read i at_ m) (w_disk w) st Ho Hh) as (st' & Ha & _).
  cbn [run_op] in Ha. unfold mbind, prog_bind in Ha.
  destruct (FileStore.read _ _ _ _ _) as [r d']. cbn [fst snd] in *. destruct Hf as (Ef & El & _).
  apply HQ; [apply (holds_same master_key (w_disk w)); [done|by rewrite El|done]|].
  intros p ->. cbn [fst] in Ha. unfold allowed in Ha. destruct (doracle _ _); [|by destruct Ha..].
  unfold spec in Ha. destruct (negb _); [done|]. case_decide; [|done]. destruct (st !! i) as [a|]; [|done].
  exists a. split; [done|]. unfold spec_read in Ha. destruct (chunks a !! _) as [q|]; [|done]. case_decide; [|done].
  by injection Ha as ->.
Qed.

End Files.

(** ** Keeping an invariant *)

Section Frame.
Context `{A : Aead} `{!AeadLaws A} {master_key : string}.
Context {T : Type} {Inv : Z -> T -> attachments -> Prop}.

(** [NOW()] at the n-th call. *)
Context {ck : nat -> Z}.

Local Abbreviation World := (World T).

(** The invariant holds of the disk and the tables [t], at a moment that is
    not in the future. *)
Definition fine (w : World) (t : T) : Prop :=
  clock (w_db w) = ck /\
  exists now st, (forall n, (calls (w_db w) <= n)%nat -> now <= ck n) /\
    holds master_key (w_disk w) st /\ Inv now t st.

Definition sound (w : World) : Prop := fine w (committed (w_db w)).

Lemma fine_db w t d : fine w t -> clock d = clock (w_db w) -> (calls (w_db w) <= calls d)%nat ->
  fine (set_w_db d w) t.
Proof.
  intros [Hc (now & st & Hn & Hh & Hi)] Ed El. split; [by rewrite <- Hc|].
  exists now, st. split_and!; [|done|done]. intros n Hle. apply Hn. simpl in Hle. lia.
Qed.

Lemma fine_status w t z : fine w t -> fine (set_w_status z w) t.
Proof. done. Qed.

Lemma returnConnection_calls (s : db T) : (calls s <= calls (returnConnection s))%nat /\
  clock (returnConnection s) = clock s.
Proof.
  unfold returnConnection, ResetMysqlTransaction, mbind, prog_bind, gets.
  destruct s as [c w a b n o k]; simpl. destruct a; simpl; [done|].
  unfold rollback, setAutoCommit, server_call, tick. simpl.
  destruct (o n); simpl; try (split; [lia|done]); destruct (o (S n)); simpl; (split; [lia|done]).
Qed.

(** A connection in automatic mode with nothing open. *)
Definition lent (w : World) : Prop := autocommit (w_db w) = true /\ working (w_db w) = None.

Definition returnable (w : World) : Prop := autocommit (w_db w) = true -> working (w_db w) = None.

Lemma wp_on_db {X} (m : prog (db T) X) Q w :
  wp m (fun r d => Q r (set_w_db d w)) (w_db w) -> wp (on_db m) Q w.
Proof. apply wp_zoom. Qed.

Lemma wp_fail {X} z (Q : outcome X -> World -> Prop) w : Q Throws (set_w_status z w) -> wp (fail z) Q w.
Proof. intros HQ. by apply wp_bind, wp_modify, wp_throw. Qed.

Lemma wp_require b z Q (w : World) : (b = true -> Q (Returns tt) w) -> Q Throws (set_w_status z w) -> wp (require b z) Q w.
Proof. intros Ht Hf. unfold require. destruct b; [by apply wp_ret, Ht|by apply wp_fail]. Qed.

Lemma wp_lock obtained i Q (w : World) : Q Throws w -> (validId i = true -> Q (Returns tt) w) -> wp (ResourceLock obtained i) Q w.
Proof.
  intros Ht Hr. unfold ResourceLock. destruct (validId i); [|by apply wp_throw].
  destruct obtained; [by apply wp_ret, Hr|by apply wp_throw].
Qed.

Lemma wp_lock_obtained obtained i Q (w : World) : Q Throws w ->
  (validId i = true -> obtained = true -> Q (Returns tt) w) -> wp (ResourceLock obtained i) Q w.
Proof. intros Ht Hr. destruct obtained; [apply wp_lock; [done|]; intros Hv; by apply Hr|]. unfold ResourceLock. rewrite andb_false_r. by apply wp_throw. Qed.

(** How an operation may leave its connection. *)
Definition leaves {X} (r : outcome X) (w : World) : Prop := sound w /\ returnable w.

Lemma leaves_lent {X} (r : outcome X) w : sound w -> lent w -> leaves r w.
Proof. intros Hs [Ha Hw]. split; [done|]. intros _. done. Qed.

(** A connection as the pool gives it. *)
Definition leased (d : db T) : db T :=
  mkDb (committed d) None true (borrowed d + 1) (S (calls d)) (oracle d) (clock d).

Lemma wp_lease_at {X} (body : prog World X) Q w :
  (oracle (w_db w) (calls (w_db w)) <> Fine -> Q Throws (set_w_status 503 (set_w_db (tick (w_db w)) w))) ->
  wp body (fun r w' => Q r (set_w_db (returnConnection (w_db w')) w')) (set_w_db (leased (w_db w)) w) ->
  wp (lease body) Q w.
Proof.
  intros Hf Hb. apply wp_bind, wp_on_db. unfold wp at 1, getConnection.
  destruct (oracle (w_db w) (calls (w_db w))); cbn [fst snd]; [|by apply wp_fail, Hf..]. by apply wp_finally.
Qed.

(** The frame of the operations. *)
Lemma wp_lease {X} (body : prog World X) w :
  sound w -> (forall w1, lent w1 -> sound w1 -> wp body leaves w1) ->
  wp (lease body) (fun _ w' => sound w') w.
Proof.
  intros Hs Hbody. apply wp_lease_at.
  - intros _. apply (fine_db w); [exact Hs|done|simpl; lia].
  - eapply wp_mono; [apply Hbody; try done|].
    { apply (fine_db w); [exact Hs|done|simpl; lia]. }
    intros r w' (Hs' & Hret). destruct (returnConnection_committed (w_db w') Hret) as (Ec & _).
    destruct (returnConnection_calls (w_db w')) as [Hcalls Hclock].
    unfold sound. cbn [w_db set_w_db]. rewrite Ec. by apply fine_db.
Qed.

(** *** Statements in automatic mode *)

Lemma wp_lent_query {X} (f : Z -> T -> X) Q w : lent w -> sound w ->
  (forall r w', w_disk w' = w_disk w -> committed (w_db w') = committed (w_db w) -> lent w' -> sound w' ->
     (r = Throws \/ r = Returns (f (ck (calls (w_db w'))) (committed (w_db w)))) -> Q r w') ->
  wp (on_db (query f)) Q w.
Proof.
  intros [Ha Hw] Hs HQ. assert (sound (set_w_db (tick (w_db w)) w)) as Hs'
    by (apply (fine_db w); [exact Hs|done|simpl; lia]).
  apply wp_on_db, wp_query; apply HQ; try done; [by left|right].
  destruct Hs as [Hck _]. unfold view. simpl. by rewrite Hck, Hw.
Qed.

(** A change keeps the invariant when every possible effect of it does. *)
Lemma wp_lent_exec {X} (f : Z -> T -> option (X * T)) Q w : lent w -> sound w ->
  (forall n a t, (calls (w_db w) <= n)%nat -> f (ck n) (committed (w_db w)) = Some (a, t) ->
     fine (set_w_db (tick (w_db w)) w) t) ->
  (forall r w', w_disk w' = w_disk w -> lent w' -> sound w' ->
     (r = Throws /\ committed (w_db w') = committed (w_db w) \/
      exists n a, (calls (w_db w) <= n)%nat /\ f (ck n) (committed (w_db w)) = Some (a, committed (w_db w')) /\
        (r = Returns a \/ r = Throws)) -> Q r w') ->
  wp (on_db (exec f)) Q w.
Proof.
  intros [Ha Hw] Hs Hf HQ. assert (sound (set_w_db (tick (w_db w)) w)) as Hs'
    by (apply (fine_db w); [exact Hs|done|simpl; lia]).
  apply wp_on_db, wp_exec; [apply HQ; try done; by left|].
  intros a t E. destruct Hs as [Hck _]. rewrite Hck in E. unfold view in E. rewrite Hw in E. simpl in E.
  assert (sound (set_w_db (store t (tick (w_db w))) w)) as Hs1.
  { unfold store. simpl. rewrite Ha. apply (Hf _ _ _ (Nat.le_succ_diag_r _) E). }
  assert (lent (set_w_db (store t (tick (w_db w))) w)) as Hl
    by (unfold lent, store; simpl; by rewrite Ha).
  assert (committed (w_db (set_w_db (store t (tick (w_db w))) w)) = t) as Ec
    by (unfold store; simpl; by rewrite Ha).
  split; apply HQ; try done; right; exists (S (calls (w_db w))), a; rewrite Ec; (split_and!; [lia|done|auto]).
Qed.

(** *** Transactions *)

Definition intx (c : T) (w : World) : Prop :=
  committed (w_db w) = c /\ autocommit (w_db w) = false /\ fine w c /\ fine w (view (w_db w)).

Lemma wp_tx_query {X} (f : Z -> T -> X) c Q w : intx c w ->
  (forall r w', w_disk w' = w_disk w -> intx c w' -> view (w_db w') = view (w_db w) ->
     (calls (w_db w) <= calls (w_db w'))%nat ->
     (r = Throws \/ r = Returns (f (ck (calls (w_db w'))) (view (w_db w)))) -> Q r w') ->
  wp (on_db (query f)) Q w.
Proof.
  intros (Hc & Ha & Hf1 & Hf2) HQ.
  assert (intx c (set_w_db (tick (w_db w)) w)) as Hi.
  { split_and!; [done|done|..]; (apply (fine_db w); [done|done|simpl; lia]). }
  apply wp_on_db, wp_query; apply HQ; try done; try (simpl; lia); [by left|right].
  destruct Hf1 as [Hck _]. simpl. by rewrite Hck.
Qed.

Lemma wp_tx_exec {X} (f : Z -> T -> option (X * T)) c Q w : intx c w ->
  (forall n a t, (calls (w_db w) <= n)%nat -> f (ck n) (view (w_db w)) = Some (a, t) ->
     fine (set_w_db (tick (w_db w)) w) t) ->
  (forall r w', w_disk w' = w_disk w -> intx c w' -> Q r w') ->
  wp (on_db (exec f)) Q w.
Proof.
  intros (Hc & Ha & Hf1 & Hf2) Hf HQ.
  assert (forall t, fine (set_w_db (tick (w_db w)) w) t ->
    intx c (set_w_db (Mysql.store t (tick (w_db w))) w)) as Hst.
  { intros t Ht. unfold Mysql.store. simpl. rewrite Ha. split_and!; [done|done| |exact Ht].
    apply (fine_db w); [done|done|simpl; lia]. }
  apply wp_on_db, wp_exec.
  - apply HQ; [done|]. split_and!; [done|done|..]; (apply (fine_db w); [done|done|simpl; lia]).
  - intros a t E. pose proof Hf1 as [Hck _]. rewrite Hck in E.
    specialize (Hst t (Hf _ _ _ (Nat.le_succ_diag_r _) E)). split; by apply HQ.
Qed.

Lemma abandon_calls (s : db T) : (calls s <= calls (abandon s).2)%nat /\ clock (abandon s).2 = clock s.
Proof.
  destruct s as [c w a b n o k]. unfold abandon, try_catch, mbind, prog_bind, rollback, setAutoCommit, server_call, tick.
  simpl. destruct (o n); simpl; try destruct (o (S n)); simpl; (split; [lia|done]).
Qed.

(** A transaction with a state that is sound to go back to; what its
    statements have done so far need not be. *)
Definition opened (c : T) (w : World) : Prop :=
  committed (w_db w) = c /\ autocommit (w_db w) = false /\ fine w c.

Lemma opened_tick c w : opened c w -> opened c (set_w_db (tick (w_db w)) w).
Proof. intros (Hc & Ha & Hf). split_and!; [done|done|]. apply (fine_db w); [done|done|simpl; lia]. Qed.

Lemma wp_opened_query {X} (f : Z -> T -> X) c Q w : opened c w ->
  (forall r w', w_disk w' = w_disk w -> opened c w' -> view (w_db w') = view (w_db w) ->
     (calls (w_db w) <= calls (w_db w'))%nat ->
     (r = Throws \/ r = Returns (f (ck (calls (w_db w'))) (view (w_db w)))) -> Q r w') ->
  wp (on_db (query f)) Q w.
Proof.
  intros Ho HQ. pose proof (opened_tick c w Ho) as Ht.
  apply wp_on_db, wp_query; apply HQ; try done; try (simpl; lia); [by left|right].
  destruct Ho as (_ & _ & [Hck _]). simpl. by rewrite Hck.
Qed.

Lemma wp_opened_exec {X} (f : Z -> T -> option (X * T)) c Q w : opened c w ->
  (forall r w', w_disk w' = w_disk w -> opened c w' -> (calls (w_db w) <= calls (w_db w'))%nat ->
     (r = Throws \/ exists n a, (calls (w_db w) <= n)%nat /\ f (ck n) (view (w_db w)) = Some (a, view (w_db w')) /\ r = Returns a) ->
     Q r w') ->
  wp (on_db (exec f)) Q w.
Proof.
  intros Ho HQ. pose proof (opened_tick c w Ho) as Ht. pose proof Ho as (Hc & Ha & [Hck _]).
  apply wp_on_db, wp_exec; [apply HQ; try done; [simpl; lia|by left]|].
  intros a t E. rewrite Hck in E. unfold Mysql.store. simpl. rewrite Ha.
  assert (opened c (set_w_db (mkDb (committed (w_db w)) (Some t) false (borrowed (w_db w)) (S (calls (w_db w)))
    (oracle (w_db w)) (clock (w_db w))) w)) as Ho2.
  { split_and!; [done|done|]. apply (fine_db w); [apply Ho|done|simpl; lia]. }
  split; apply HQ; try done; try (simpl; lia); [right|by left].
  exists (S (calls (w_db w))), a. split_and!; [lia|exact E|done].
Qed.

(** What a transaction leaves when its body, when it returns, leaves a sound
    state related to its result. *)
Lemma wp_Transaction_post {X} (R : X -> T -> Prop) (m : prog World X) w : lent w -> sound w ->
  (forall w1, opened (committed (w_db w)) w1 -> w_disk w1 = w_disk w -> view (w_db w1) = committed (w_db w) ->
     (calls (w_db w) <= calls (w_db w1))%nat ->
     wp m (fun r w' => opened (committed (w_db w)) w' /\
       forall x, r = Returns x -> fine w' (view (w_db w')) /\ R x (view (w_db w'))) w1) ->
  wp (Transaction m) (fun r w' => leaves r w' /\
    match r with
    | Returns x => lent w' /\ R x (committed (w_db w'))
    | Throws => committed (w_db w') = committed (w_db w) \/ exists x, R x (committed (w_db w'))
    end) w.
Proof.
  intros [Ha Hw] Hs Hm. set (c := committed (w_db w)) in *.
  (* manual mode, with a sound state committed *)
  set (P := fun w' => sound w' /\ autocommit (w_db w') = false /\ (committed (w_db w') = c \/ exists x, R x (committed (w_db w')))).
  match goal with |- wp _ ?Q _ => set (G := Q) end.
  assert (forall w', P w' -> G Throws w') as HP
    by (intros w' (Hs' & Ha' & Hc); split; [split; [done|]; intros Ht; congruence|done]).
  assert (forall w', P w' -> G Throws (on_db abandon w').2) as Hab.
  { intros w' (Hs' & Ha' & Hc). unfold on_db, zoom. destruct (abandon_calls (w_db w')) as [Hn Hck].
    pose proof (wp_abandon (fun _ s' => committed s' = committed (w_db w') /\
      (autocommit s' = true -> working s' = None)) (w_db w')) as Hwp. unfold wp in Hwp.
    destruct (abandon (w_db w')) as [r d']. cbn [fst snd] in *.
    destruct Hwp as [Ec Hr]; [intros s' E1 _ _ _ E2 _; split; [done|]; intros Ht; destruct (E2 Ht); congruence|].
    split; [split; [|done]|]; unfold sound; simpl; rewrite Ec; [by apply fine_db|done]. }
  unfold Transaction. apply wp_bind, wp_on_db, wp_server_call.
  { split; [apply leaves_lent; [|done]|by left]. apply (fine_db w); [done|done|simpl; lia]. }
  intros [] d1 [= <-]. unfold view. simpl. rewrite Hw. simpl. set (d1 := mkDb _ _ _ _ _ _ _).
  assert (opened c (set_w_db d1 w)) as Hi1
    by (split_and!; [done|done|]; (apply (fine_db w); [exact Hs|done|simpl; lia])).
  split; [|apply HP; split_and!; [apply Hi1|done|by left]].
  apply wp_bind. unfold rolling_back, wp at 1.
  pose proof (Hm (set_w_db d1 w) Hi1 eq_refl eq_refl (Nat.le_succ_diag_r _)) as Hbody.
  set (body := (a ← m; on_db commit;; mret a)).
  assert (wp body (fun r w' => P w' /\ forall x, r = Returns x -> working (w_db w') = None /\ R x (committed (w_db w')))
    (set_w_db d1 w)) as Hb.
  { apply wp_bind. eapply wp_mono; [exact Hbody|]. intros [x|] w' ((Hc & Hac & Hf1) & Hx); cycle 1.
    { split; [|done]. split_and!; [unfold sound; by rewrite Hc|done|by left]. }
    destruct (Hx x eq_refl) as [Hf2 HR]. apply wp_bind, wp_on_db, wp_server_call.
    - split; [|done]. split_and!; [|done|by left]. unfold sound. simpl. rewrite Hc. apply (fine_db w'); [done|done|simpl; lia].
    - intros [] d2 [= <-]. split; [apply wp_ret|]; (split; [split_and!; [|done|right; by exists x]|]);
        try (unfold sound; simpl; (apply (fine_db w'); [exact Hf2|done|simpl; lia])); [|done].
      intros y [= <-]. done. }
  unfold wp in Hb. destruct (body (set_w_db d1 w)) as [[x|] w2]; cbn [fst snd] in *; [|apply Hab, Hb].
  destruct Hb as [(Hs2 & Ha2 & Hc2) Hx]. destruct (Hx x eq_refl) as [Hw2 HR]. apply wp_bind, wp_on_db, wp_server_call.
  - apply HP. split_and!; [|done|done]. apply (fine_db w2); [exact Hs2|done|simpl; lia].
  - intros [] d3 [= <-]. unfold view. simpl. rewrite Hw2.
    split; [apply wp_ret|]; (split; [split; [|by intros _]|]); try (apply (fine_db w2); [exact Hs2|done|simpl; lia]); done.
Qed.

Lemma wp_Transaction {X} (m : prog World X) w : lent w -> sound w ->
  (forall w1, intx (committed (w_db w)) w1 -> w_disk w1 = w_disk w -> view (w_db w1) = committed (w_db w) ->
     (calls (w_db w) <= calls (w_db w1))%nat ->
     wp m (fun _ w' => intx (committed (w_db w)) w') w1) ->
  wp (Transaction m) (fun r w' => leaves r w' /\ (r <> Throws -> lent w')) w.
Proof.
  intros Hl Hs Hm. eapply wp_mono; [apply (wp_Transaction_post (fun _ _ => True)); [done|done|]|].
  - intros w1 (Hc & Ha & Hf) Ed Ev Ek. eapply wp_mono; [apply Hm; try done; split_and!; by rewrite ?Ev|].
    intros r w' (Hc' & Ha' & Hf1 & Hf2). split; [done|]. by intros x _.
  - intros [x|] w' [Hlv Hx]; [by split; [|intros _; apply Hx]|by split].
Qed.

End Frame.

Arguments fine {A} master_key {T} Inv ck w t.
Arguments sound {A} master_key {T} Inv ck w.
Arguments leaves {A} master_key {T} Inv ck {X} r w.
Arguments opened {A} master_key {T} Inv ck c w.
Arguments intx {A} master_key {T} Inv ck c w.
