(* ===== verification/AvatarImage.v ===== *)
(** The pictures of the resource server ([decode] and [thumbnail] of
    [src/servers/resource/Avatar.cpp]): the checks around the decoders and the
    square thumbnails, with the integers at their widths. *)
From S2P Require Import Prelude.

(** Pixels by rows, three bytes each. *)
Record Image := mkImage { width : Z; height : Z; rgb : list Z }.

(** ** Decoding *)

(** The length of a chunk: four bytes, the highest first. *)
Definition chunk_length (s : string) : Z :=
  match s with
  | String a (String b (String c (String d _))) =>
      Z.lor (Z.shiftl (of_byte a) 24) (Z.lor (Z.shiftl (of_byte b) 16) (Z.lor (Z.shiftl (of_byte c) 8) (of_byte d)))
  | _ => 0
  end.

(** The loop over the chunk headers; [None] is out of fuel, the [inl] the
    status of an error. *)
Fixpoint scan (fuel : nat) (bytes : string) (pos : Z) : option (Z + unit) :=
  match fuel with
  | O => None
  | S fuel =>
      if ssize bytes <? pos + 12 then Some (inr tt)
      else
        let b := sdrop (Z.to_nat pos) bytes in
        let length := chunk_length b in
        if ssize bytes - pos - 12 <? length then Some (inl 422)
        else if String.eqb (stake 4 (sdrop 4 b)) "acTL" then Some (inl 415)
        else scan fuel bytes (pos + (length + 12))
  end.

(** libpng and libjpeg-turbo: the dimensions and the pixels they read.  A
    decoder writes bytes, within the buffer it was given; the size of what is
    encoded has the bound of [PNG_IMAGE_PNG_SIZE_MAX]. *)
Class Codec := {
  png_sig : string -> bool;
  png_begin : string -> option (Z * Z);
  png_finish : string -> list Z -> option (list Z);
  tj_init : string -> bool;
  tj_header : string -> option (Z * Z);
  tj_decompress : string -> list Z -> option (list Z);
  png_encode : Z -> list Z -> option string }.

Class CodecLaws (C : Codec) : Prop := {
  png_dimensions s w h : png_begin s = Some (w, h) -> 0 <= w < 2 ^ 32 /\ 0 <= h < 2 ^ 32;
  tj_dimensions s w h : tj_header s = Some (w, h) -> is_int w = true /\ is_int h = true;
  png_within s l l' : png_finish s l = Some l' -> length l' = length l /\ Forall (fun b => 0 <= b < 256) l';
  tj_within s l l' : tj_decompress s l = Some l' -> length l' = length l /\ Forall (fun b => 0 <= b < 256) l';
  png_size n l s : png_encode n l = Some s -> Z.of_nat (length l) <= 256 * 256 * 3 -> ssize s <= 1024 * 1024 }.

Section Pictures.
Context `{Codec}.

(** [PNG_IMAGE_SIZE] of three channels, in 32 bits, and the buffer of a JPEG
    in [size_t]. *)
Definition png_buffer (w h : Z) : list Z := replicate (Z.to_nat (u32 (3 * w * h))) 0.
Definition jpeg_buffer (w h : Z) : list Z := replicate (Z.to_nat (u64 (u64 (w * h) * 3))) 0.

Definition decode_png (bytes : string) : Z + Image :=
  match scan (String.length bytes) bytes 8 with
  | None => inl 0
  | Some (inl status) => inl status
  | Some (inr _) =>
      match png_begin bytes with
      | None => inl 422
      | Some (w, h) =>
          if (w =? 0) || (h =? 0) || (16000000 <? u64 (w * h)) then inl 413
          else match png_finish bytes (png_buffer w h) with
               | None => inl 422
               | Some px => inr (mkImage w h px)
               end
      end
  end.

Definition decode_jpeg (bytes : string) : Z + Image :=
  if negb (tj_init bytes) then inl 503
  else match tj_header bytes with
       | None => inl 422
       | Some (w, h) =>
           if (w <=? 0) || (h <=? 0) || (16000000 <? u64 (w * h)) then inl 422
           else match tj_decompress bytes (jpeg_buffer w h) with
                | None => inl 422
                | Some px => inr (mkImage w h px)
                end
       end.

Definition decode (bytes : string) : Z + Image :=
  if (8 <=? ssize bytes) && png_sig bytes then decode_png bytes
  else if (2 <=? ssize bytes) && String.eqb (stake 2 bytes) (String (byte_of 255) (String (byte_of 216) EmptyString))
  then decode_jpeg bytes
  else inl 415.

(** ** Thumbnails *)

(** [int(x * side / size)] with unsigned [x] and [size]. *)
Definition scaled (x side size : Z) : Z := u32 (x * side) / size.

(** The part of the picture behind a column or a row of the thumbnail. *)
Definition span (start side size x : Z) : Z * Z :=
  let x0 := start + scaled x side size in
  let x1 := start + scaled (x + 1) side size in
  (x0, Z.max x1 (x0 + 1)).

(** [image.rgb[(size_t(yy) * image.width + xx) * 3 + k]]; [None] is a read
    outside of the vector. *)
Definition channel (image : Image) (k yy xx : Z) : option Z :=
  rgb image !! Z.to_nat (u64 (u64 (u64 (u64 (yy * width image) + xx) * 3) + k)).

(** [sum[k]] after the loops over an area. *)
Definition area_sum (image : Image) (k y0 y1 x0 x1 : Z) : option Z :=
  foldl (fun acc yy =>
    foldl (fun acc xx => n ← acc; v ← channel image k yy xx; Some (u64 (n + v))) acc (seqZ x0 (x1 - x0)))
    (Some 0) (seqZ y0 (y1 - y0)).

(** One channel of one pixel. *)
Definition pixel (image : Image) (size y x k : Z) : option Z :=
  let side := Z.min (width image) (height image) in
  let left := (width image - side) / 2 in
  let top := (height image - side) / 2 in
  let '(x0, x1) := span left side size x in
  let '(y0, y1) := span top side size y in
  n ← area_sum image k y0 y1 x0 x1;
  Some (n / ((x1 - x0) * (y1 - y0)) mod 256).

(** A write into a vector; [None] is one outside of it. *)
Definition store (i v : Z) (pixels : list Z) : option (list Z) :=
  if i <? Z.of_nat (length pixels) then Some (<[Z.to_nat i := v]> pixels) else None.

Definition store_channel (image : Image) (size : Z) (pixels : option (list Z)) (i : Z * Z * Z) : option (list Z) :=
  let '(y, x, k) := i in
  pixels ← pixels;
  v ← pixel image size y x k;
  store (u32 (u32 (u32 (u32 (y * size) + x) * 3) + k)) v pixels.

(** The loops over the rows, the columns and the channels. *)
Definition places (size : Z) : list (Z * Z * Z) :=
  y ← seqZ 0 size; x ← seqZ 0 size; k ← seqZ 0 3; [(y, x, k)].

Definition thumbnail_pixels (image : Image) (size : Z) : option (list Z) :=
  foldl (store_channel image size) (Some (replicate (Z.to_nat (u32 (u32 (size * size) * 3))) 0)) (places size).

(** The outer option is undefined behaviour, the [inl] the status of an
    error. *)
Definition thumbnail (image : Image) (size : Z) : option (Z + string) :=
  pixels ← thumbnail_pixels image size;
  Some match png_encode size pixels with None => inl 503 | Some output => inr output end.

End Pictures.

(** ** What a thumbnail shows *)

(** A picture within the limits of [decode]. *)
Record valid (image : Image) : Prop := {
  v_width : 0 < width image;
  v_height : 0 < height image;
  v_pixels : width image * height image <= 16000000;
  v_length : Z.of_nat (length (rgb image)) = width image * height image * 3;
  v_bytes : Forall (fun b => 0 <= b < 256) (rgb image) }.

Definition side (image : Image) : Z := width image `min` height image.
Definition left_ (image : Image) : Z := (width image - side image) / 2.
Definition top (image : Image) : Z := (height image - side image) / 2.

Definition value (image : Image) (k : Z) (p : Z * Z) : Z :=
  default 0 (rgb image !! Z.to_nat ((p.1 * width image + p.2) * 3 + k)).

(** A row or column of the square behind place [x] of [size] places: from
    [x * side / size] on, at least one. *)
Definition behind (start side size x : Z) : list Z :=
  seqZ (start + x * side / size) (Z.max 1 ((x + 1) * side / size - x * side / size)).

Definition area (image : Image) (size y x : Z) : list (Z * Z) :=
  yy ← behind (top image) (side image) size y;
  xx ← behind (left_ image) (side image) size x;
  [(yy, xx)].

Lemma side_bound image : valid image -> 0 < side image <= 4000.
Proof. intros [Hw Hh Hp _ _]. unfold side. nia. Qed.

Lemma crop_bounds image : valid image ->
  0 <= left_ image /\ left_ image + side image <= width image /\ 0 <= top image /\ top image + side image <= height image.
Proof.
  intros [Hw Hh Hp _ _]. unfold left_, top, side.
  pose proof (Z.div_mod (width image - width image `min` height image) 2).
  pose proof (Z.div_mod (height image - width image `min` height image) 2).
  pose proof (Z.mod_pos_bound (width image - width image `min` height image) 2).
  pose proof (Z.mod_pos_bound (height image - width image `min` height image) 2). lia.
Qed.

Lemma place_bound s size x : 0 < s -> 0 < size -> 0 <= x < size ->
  0 <= x * s / size < s /\ x * s / size <= (x + 1) * s / size <= s.
Proof.
  intros Hs Hz Hx. repeat split; [apply Z.div_pos; nia|apply Z.div_lt_upper_bound; nia|apply Z.div_le_mono; nia|].
  apply Z.div_le_upper_bound; nia.
Qed.

Lemma span_eq start s size x : 0 < s <= 4000 -> 0 < size <= 256 -> 0 <= x < size ->
  seqZ (span start s size x).1 ((span start s size x).2 - (span start s size x).1) = behind start s size x /\
  (span start s size x).2 - (span start s size x).1 = Z.of_nat (length (behind start s size x)).
Proof.
  intros Hs Hz Hx. unfold span, scaled, u32, behind. cbn [fst snd].
  rewrite length_seqZ, !Z.mod_small by nia. split; [f_equal|]; lia.
Qed.

Lemma elem_of_behind start s size x n : 0 < s -> 0 < size -> 0 <= x < size ->
  n ∈ behind start s size x -> start <= n < start + s.
Proof. intros Hs Hz Hx Hn%elem_of_seqZ. pose proof (place_bound s size x Hs Hz Hx). lia. Qed.

Lemma elem_of_area image size y x p : valid image -> 0 < size -> 0 <= x < size -> 0 <= y < size ->
  p ∈ area image size y x -> 0 <= p.1 < height image /\ 0 <= p.2 < width image.
Proof.
  intros Hv Hz Hx Hy (yy & H1 & Hyy)%list_elem_of_bind. apply list_elem_of_bind in H1 as (xx & ->%list_elem_of_singleton & Hxx).
  pose proof (side_bound _ Hv). pose proof (crop_bounds _ Hv). cbn [fst snd].
  apply elem_of_behind in Hyy, Hxx; lia.
Qed.

Lemma length_product {A B} (l : list A) (k : list B) :
  length (x ← l; y ← k; [(x, y)]) = (length l * length k)%nat.
Proof.
  induction l as [|x l IH]; csimpl; [done|]. rewrite length_app, IH. f_equal.
  clear. induction k; csimpl; lia.
Qed.

Lemma foldl_bind {A B C} (f : A -> C -> A) (g : B -> list C) l a :
  foldl f a (l ≫= g) = foldl (fun a x => foldl f a (g x)) a l.
Proof. revert a. induction l as [|x l IH]; intros a; csimpl; [done|]. by rewrite foldl_app, IH. Qed.

Lemma foldl_ext_in {A B} (f g : A -> B -> A) l a : (forall a x, x ∈ l -> f a x = g a x) -> foldl f a l = foldl g a l.
Proof.
  revert a. induction l as [|x l IH]; intros a Hf; csimpl; [done|]. rewrite Hf by set_solver.
  apply IH. set_solver.
Qed.

Lemma foldl_sum {A} (f : A -> option Z) (g : A -> Z) l n :
  (forall x, x ∈ l -> f x = Some (g x) /\ 0 <= g x < 256) -> 0 <= n -> n + 256 * Z.of_nat (length l) < 2 ^ 64 ->
  foldl (fun acc x => n ← acc; v ← f x; Some (u64 (n + v))) (Some n) l = Some (n + zsum g l).
Proof.
  revert n. induction l as [|x l IH]; intros n Hf Hn Hb; csimpl; [by rewrite Z.add_0_r|].
  destruct (Hf x) as [-> Hx]; [set_solver|]. csimpl. cbn [length] in Hb. unfold u64. rewrite Z.mod_small by lia.
  rewrite IH by (set_solver || lia). f_equal. unfold zsum. csimpl. lia.
Qed.

Lemma value_bound image k p : valid image -> 0 <= value image k p < 256.
Proof.
  intros Hv. unfold value. destruct (rgb image !! _) as [b|] eqn:E; cbn; [|lia].
  exact (Forall_lookup_1 _ _ _ _ (v_bytes _ Hv) E).
Qed.

Lemma channel_value image k yy xx : valid image -> 0 <= k < 3 -> 0 <= yy < height image -> 0 <= xx < width image ->
  channel image k yy xx = Some (value image k (yy, xx)).
Proof.
  intros Hv Hk Hy Hx. unfold channel, value, u64. cbn [fst snd].
  assert (0 <= yy * width image + xx < width image * height image) by nia.
  pose proof (v_pixels _ Hv). pose proof (v_length _ Hv).
  assert (0 <= yy * width image) by nia.
  rewrite (Z.mod_small (yy * width image)), (Z.mod_small (yy * width image + xx)) by lia.
  rewrite (Z.mod_small ((yy * width image + xx) * 3)), Z.mod_small by lia.
  destruct (lookup_lt_is_Some_2 (rgb image) (Z.to_nat ((yy * width image + xx) * 3 + k))) as [b E]; [lia|].
  by rewrite E.
Qed.

Lemma zsum_nonneg {A} (f : A -> Z) l : (forall x, 0 <= f x) -> 0 <= zsum f l.
Proof. intros Hf. unfold zsum. induction l as [|x l IH]; csimpl; [lia|]. pose proof (Hf x). lia. Qed.

Lemma area_small image size y x : valid image -> 0 < size <= 256 -> 0 <= x < size -> 0 <= y < size ->
  1 <= Z.of_nat (length (area image size y x)) <= 16000000.
Proof.
  intros Hv Hz Hx Hy. unfold area. rewrite length_product. unfold behind. rewrite !length_seqZ.
  pose proof (side_bound _ Hv) as Hs. pose proof (place_bound (side image) size x ltac:(lia) ltac:(lia) Hx).
  pose proof (place_bound (side image) size y ltac:(lia) ltac:(lia) Hy). nia.
Qed.

Lemma pixel_mean image size y x k : valid image -> 0 < size <= 256 -> 0 <= x < size -> 0 <= y < size -> 0 <= k < 3 ->
  pixel image size y x k =
  Some (zsum (value image k) (area image size y x) / Z.of_nat (length (area image size y x))).
Proof.
  intros Hv Hz Hx Hy Hk. pose proof (side_bound _ Hv) as Hs. unfold pixel.
  change (width image `min` height image) with (side image).
  change ((width image - side image) / 2) with (left_ image). change ((height image - side image) / 2) with (top image).
  destruct (span_eq (left_ image) (side image) size x) as [Ex Lx]; [lia..|].
  destruct (span_eq (top image) (side image) size y) as [Ey Ly]; [lia..|].
  destruct (span (left_ image) _ _ _) as [x0 x1]. destruct (span (top image) _ _ _) as [y0 y1]. cbn [fst snd] in *.
  pose proof (area_small image size y x Hv Hz Hx Hy) as Hn.
  assert (area_sum image k y0 y1 x0 x1 = Some (zsum (value image k) (area image size y x))) as ->.
  { unfold area_sum. rewrite Ex, Ey.
    transitivity (foldl (fun acc p => n ← acc; v ← channel image k p.1 p.2; Some (u64 (n + v))) (Some 0) (area image size y x)).
    { unfold area. rewrite foldl_bind. apply foldl_ext_in. intros a yy _. rewrite foldl_bind. done. }
    rewrite (foldl_sum _ (value image k)); [done| |lia|lia].
    intros p Hp. destruct (elem_of_area image size y x p Hv ltac:(lia) Hx Hy Hp). destruct p as [yy xx]. cbn [fst snd] in *.
    split; [|by apply value_bound]. by apply channel_value. }
  csimpl. f_equal. rewrite Lx, Ly.
  assert (Z.of_nat (length (behind (left_ image) (side image) size x)) * Z.of_nat (length (behind (top image) (side image) size y)) =
    Z.of_nat (length (area image size y x))) as -> by (unfold area; rewrite length_product; lia).
  apply Z.mod_small. split.
  - apply Z.div_pos; [|lia]. apply zsum_nonneg. intros p. pose proof (value_bound image k p Hv). lia.
  - apply Z.div_lt_upper_bound; [lia|].
    pose proof (zsum_le_const (value image k) 255 (area image size y x)) as Hb.
    rewrite Forall_forall in Hb. specialize (Hb ltac:(intros p _; pose proof (value_bound image k p Hv); lia)). lia.
Qed.

Definition place_index (size : Z) (i : Z * Z * Z) : Z := (i.1.1 * size + i.1.2) * 3 + i.2.

Lemma elem_of_places size i : i ∈ places size <-> 0 <= i.1.1 < size /\ 0 <= i.1.2 < size /\ 0 <= i.2 < 3.
Proof.
  unfold places. destruct i as [[y x] k]. cbn [fst snd]. set_unfold. split.
  - intros (y' & (x' & (k' & E & Hk) & Hx) & Hy). simplify_eq. lia.
  - intros (Hy & Hx & Hk). exists y. split; [|lia]. exists x. split; [|lia].
    exists k. split; [done|lia].
Qed.

Lemma place_index_inj size i j : i ∈ places size -> j ∈ places size -> place_index size i = place_index size j -> i = j.
Proof.
  rewrite !elem_of_places. destruct i as [[y x] k], j as [[y' x'] k']. unfold place_index. cbn [fst snd].
  intros (Hy & Hx & Hk) (Hy' & Hx' & Hk') E.
  assert (y * size + x = y' * size + x') as E2 by lia. assert (k = k') by lia.
  assert (y = y') by nia. subst. f_equal. f_equal. lia.
Qed.

Lemma NoDup_places size : NoDup (places size).
Proof.
  unfold places. apply NoDup_bind; [| |apply NoDup_seqZ].
  - intros y y' i _ _. set_unfold. naive_solver.
  - intros y _. apply NoDup_bind; [| |apply NoDup_seqZ].
    + intros x x' i _ _. set_unfold. naive_solver.
    + intros x _. apply NoDup_bind; [| |apply NoDup_seqZ]; intros; set_unfold; [naive_solver|]. apply NoDup_singleton.
Qed.

Lemma place_index_bound size i : 0 < size <= 256 -> i ∈ places size -> 0 <= place_index size i < size * size * 3.
Proof. rewrite elem_of_places. destruct i as [[y x] k]. unfold place_index. cbn [fst snd]. nia. Qed.

(** A loop of writes at different places leaves what it wrote. *)
Lemma foldl_writes {I} (step : option (list Z) -> I -> option (list Z)) (K : I -> nat) (f : I -> Z) n l :
  (forall px i, i ∈ l -> length px = n -> step (Some px) i = Some (<[K i := f i]> px)) ->
  (forall i, i ∈ l -> (K i < n)%nat) -> NoDup l -> (forall i j, i ∈ l -> j ∈ l -> K i = K j -> i = j) ->
  forall px, length px = n -> exists px', foldl step (Some px) l = Some px' /\ length px' = n /\
    (forall i, i ∈ l -> px' !! K i = Some (f i)).
Proof.
  induction l as [|i l IH] using rev_ind; intros Hs Hk Hd Hi px Hn; [exists px; set_solver|].
  rewrite foldl_app. apply NoDup_app in Hd as (Hd & Hl & _).
  destruct (IH ltac:(set_solver) ltac:(set_solver) Hd ltac:(set_solver) px Hn) as (px1 & E & Hn1 & H1).
  exists (<[K i := f i]> px1). rewrite E. cbn [foldl]. rewrite Hs by set_solver. rewrite length_insert. split_and!; try done.
  intros j [Hj| ->%list_elem_of_singleton]%elem_of_app.
  - rewrite list_lookup_insert_ne; [by apply H1|]. intros E1. apply Hi in E1; set_solver.
  - apply list_lookup_insert_eq. rewrite Hn1. apply Hk. set_solver.
Qed.

Lemma store_at image size px y x k : valid image -> 0 < size <= 256 -> (y, x, k) ∈ places size ->
  length px = Z.to_nat (size * size * 3) ->
  store_channel image size (Some px) (y, x, k) =
  Some (<[Z.to_nat (place_index size (y, x, k)) :=
          zsum (value image k) (area image size y x) / Z.of_nat (length (area image size y x))]> px).
Proof.
  intros Hv Hz Hi Hn. pose proof (place_index_bound size _ Hz Hi) as Hb. apply elem_of_places in Hi. unfold place_index in *. cbn [fst snd] in *.
  unfold store_channel. csimpl. rewrite pixel_mean by (done || lia). csimpl. unfold store, u32.
  assert (0 <= y * size) by nia.
  rewrite (Z.mod_small (y * size)), (Z.mod_small (y * size + x)), (Z.mod_small ((y * size + x) * 3)), Z.mod_small by nia.
  rewrite (proj2 (Z.ltb_lt _ _)) by lia. done.
Qed.

Lemma pixels_exact image size : valid image -> 0 < size <= 256 ->
  exists px, thumbnail_pixels image size = Some px /\ length px = Z.to_nat (size * size * 3) /\
    forall y x k, 0 <= y < size -> 0 <= x < size -> 0 <= k < 3 ->
      px !! Z.to_nat ((y * size + x) * 3 + k) =
      Some (zsum (value image k) (area image size y x) / Z.of_nat (length (area image size y x))).
Proof.
  intros Hv Hz. unfold thumbnail_pixels, u32. assert (0 <= size * size <= 256 * 256) by nia.
  rewrite (Z.mod_small (size * size)), Z.mod_small by lia.
  destruct (foldl_writes (store_channel image size) (fun i => Z.to_nat (place_index size i))
    (fun i => zsum (value image i.2) (area image size i.1.1 i.1.2) / Z.of_nat (length (area image size i.1.1 i.1.2)))
    (Z.to_nat (size * size * 3)) (places size)) with (px := replicate (Z.to_nat (size * size * 3)) 0) as (px & E & Hn & Hpx).
  - intros px [[y x] k] Hi Hn. by apply store_at.
  - intros i Hi%(place_index_bound size i Hz). lia.
  - apply NoDup_places.
  - intros i j Hi Hj E. apply (place_index_inj size); try done. apply (place_index_bound size) in Hi, Hj; lia.
  - apply length_replicate.
  - exists px. split_and!; try done. intros y x k Hy Hx Hk. apply (Hpx (y, x, k)), elem_of_places. cbn. lia.
Qed.

Lemma behind_unique start s size n : 0 < size <= s -> start <= n < start + s ->
  exists! x, 0 <= x < size /\ n ∈ behind start s size x.
Proof.
  intros Hz Hn. set (x := ((n - start + 1) * size - 1) / s).
  assert (forall x', n ∈ behind start s size x' <-> x' * s / size <= n - start < (x' + 1) * s / size) as Hb.
  { intros x'. unfold behind. rewrite elem_of_seqZ.
    assert (x' * s / size + 1 <= (x' + 1) * s / size); [|lia].
    rewrite <- Z.div_add by lia. apply Z.div_le_mono; lia. }
  pose proof (Z.mul_div_le ((n - start + 1) * size - 1) s ltac:(lia)) as H1.
  pose proof (Z.mul_succ_div_gt ((n - start + 1) * size - 1) s ltac:(lia)) as H2. fold x in H1, H2.
  assert (x * s / size <= n - start) as H3.
  { apply Z.lt_succ_r, Z.div_lt_upper_bound; lia. }
  assert (n - start + 1 <= (x + 1) * s / size) as H4.
  { apply Z.div_le_lower_bound; lia. }
  exists x. split; [split; [|apply Hb; lia]|].
  - split; [apply Z.div_pos; nia|]. apply Z.div_lt_upper_bound; nia.
  - intros x' [Hx' [H5 H6]%Hb].
    assert (x' * s < (n - start + 1) * size) by (apply Z.div_lt_upper_bound in H5 || (pose proof (Z.mul_succ_div_gt (x' * s) size ltac:(lia)); nia)).
    assert ((n - start + 1) * size <= (x' + 1) * s) by (pose proof (Z.mul_div_le ((x' + 1) * s) size ltac:(lia)); nia).
    assert (x < x' + 1) by nia. assert (x' < x + 1) by nia. lia.
Qed.

(** Each pixel of the square is behind one place of the thumbnail. *)
Lemma area_unique image size yy xx : 0 < size <= side image ->
  top image <= yy < top image + side image -> left_ image <= xx < left_ image + side image ->
  exists! p, (0 <= p.1 < size /\ 0 <= p.2 < size) /\ (yy, xx) ∈ area image size p.1 p.2.
Proof.
  intros Hz Hy Hx. destruct (behind_unique _ _ size _ Hz Hy) as (y & [Hy1 Hy2] & Uy).
  destruct (behind_unique _ _ size _ Hz Hx) as (x & [Hx1 Hx2] & Ux).
  assert (forall y x, (yy, xx) ∈ area image size y x <->
    yy ∈ behind (top image) (side image) size y /\ xx ∈ behind (left_ image) (side image) size x) as Ha.
  { intros y' x'. unfold area. rewrite list_elem_of_bind. split.
    - intros (y1 & (x1 & E%list_elem_of_singleton & H1)%list_elem_of_bind & H2). by simplify_eq.
    - intros [H1 H2]. exists yy. split; [|done]. apply list_elem_of_bind. exists xx. split; [set_solver|done]. }
  exists (y, x). split; cbn [fst snd]; [by rewrite Ha|]. intros [y' x']. cbn [fst snd]. rewrite Ha.
  intros [[H1 H2] [H3 H4]]. by rewrite (Uy y'), (Ux x').
Qed.

Section Decoded.
Context `{CL : CodecLaws}.

Lemma decode_valid bytes image : decode bytes = inr image -> valid image.
Proof.
  unfold decode, decode_png, decode_jpeg. intros E. repeat case_match; simplify_eq.
  - match goal with X : png_begin _ = _ |- _ => apply png_dimensions in X end.
    match goal with X : png_finish _ _ = _ |- _ => apply png_within in X as [Hl Hb] end.
    unfold png_buffer, u64 in *. rewrite length_replicate in Hl.
    match goal with X : _ || _ = false |- _ => rewrite !orb_false_iff, !Z.eqb_neq, Z.ltb_ge in X end.
    rewrite Z.mod_small in * by nia. constructor; cbn; try done; try nia.
    unfold u32 in Hl. rewrite Z.mod_small in Hl by nia. nia.
  - match goal with X : tj_header _ = _ |- _ => apply tj_dimensions in X end.
    match goal with X : tj_decompress _ _ = _ |- _ => apply tj_within in X as [Hl Hb] end.
    unfold jpeg_buffer, u64, is_int in *. rewrite length_replicate in Hl.
    match goal with X : _ || _ = false |- _ => rewrite !orb_false_iff, !Z.leb_gt, Z.ltb_ge in X end.
    rewrite !andb_true_iff, !Z.leb_le, !Z.ltb_lt in *.
    assert (0 <= z * z0 < 2 ^ 62) by nia.
    rewrite (Z.mod_small (z * z0)) in * by lia. rewrite Z.mod_small in Hl by lia. constructor; cbn; try done; nia.
Qed.

(** The thumbnail of a picture that [decode] lets through is computed without
    a read or a write outside of the vectors and without a wrapped integer.
    Every byte of it is the mean, rounded down, of the bytes of its channel
    over a non-empty area of the middle square of the picture; when the picture
    is no smaller than the thumbnail, these areas divide the square: each pixel
    of it counts at exactly one place. *)
Theorem thumbnail_exact bytes image size : decode bytes = inr image -> size ∈ [64; 128; 256] ->
  exists px, thumbnail_pixels image size = Some px /\ Z.of_nat (length px) = size * size * 3 /\
    (forall y x k, 0 <= y < size -> 0 <= x < size -> 0 <= k < 3 ->
      let n := Z.of_nat (length (area image size y x)) in
      exists v, px !! Z.to_nat ((y * size + x) * 3 + k) = Some v /\ 1 <= n /\
        v * n <= zsum (value image k) (area image size y x) < (v + 1) * n) /\
    (size <= side image -> forall yy xx,
      top image <= yy < top image + side image -> left_ image <= xx < left_ image + side image ->
      exists! p, (0 <= p.1 < size /\ 0 <= p.2 < size) /\ (yy, xx) ∈ area image size p.1 p.2).
Proof.
  intros Hd Hs. pose proof (decode_valid _ _ Hd) as Hv.
  assert (0 < size <= 256) as Hz by (set_unfold; lia).
  destruct (pixels_exact image size Hv Hz) as (px & E & Hn & Hpx). exists px. split_and!; [done|nia| |].
  - intros y x k Hy Hx Hk n. eexists. split; [by apply Hpx|]. pose proof (area_small image size y x Hv Hz Hx Hy).
    split; [lia|]. set (s := zsum _ _). fold n.
    pose proof (Z.mul_div_le s n ltac:(lia)). pose proof (Z.mul_succ_div_gt s n ltac:(lia)). lia.
  - intros Hle yy xx Hy Hx. apply area_unique; lia.
Qed.

End Decoded.

(** ** The chunks of a PNG *)

Record chunk := mkChunk { ctype : string; cdata : string; crc : string }.

Definition be32 (n : Z) : string :=
  String (byte_of (n / 2 ^ 24)) (String (byte_of (n / 2 ^ 16)) (String (byte_of (n / 2 ^ 8)) (String (byte_of n) EmptyString))).

Definition encode (c : chunk) : string := be32 (ssize (cdata c)) ++ ctype c ++ cdata c ++ crc c.

Definition well_formed (c : chunk) : Prop := ssize (ctype c) = 4 /\ ssize (crc c) = 4 /\ ssize (cdata c) < 2 ^ 32.

Fixpoint encode_all (l : list chunk) : string :=
  match l with [] => "" | c :: l => encode c ++ encode_all l end.

(** The loop seen from the bytes that are left. *)
Fixpoint scan_rest (fuel : nat) (rest : string) : option (Z + unit) :=
  match fuel with
  | O => None
  | S fuel =>
      if ssize rest <? 12 then Some (inr tt)
      else if ssize rest - 12 <? chunk_length rest then Some (inl 422)
      else if String.eqb (stake 4 (sdrop 4 rest)) "acTL" then Some (inl 415)
      else scan_rest fuel (sdrop (Z.to_nat (chunk_length rest + 12)) rest)
  end.

Lemma chunk_length_be a b c d s : chunk_length (String a (String b (String c (String d s)))) =
  of_byte a * 2 ^ 24 + of_byte b * 2 ^ 16 + of_byte c * 2 ^ 8 + of_byte d.
Proof.
  unfold chunk_length. pose proof (of_byte_bound a). pose proof (of_byte_bound b).
  pose proof (of_byte_bound c). pose proof (of_byte_bound d).
  rewrite (lor_shiftl_add (of_byte c)), (lor_shiftl_add (of_byte b)), (lor_shiftl_add (of_byte a)) by lia. lia.
Qed.

Lemma chunk_length_bound s : 0 <= chunk_length s < 2 ^ 32.
Proof.
  destruct s as [|a [|b [|c [|d s]]]]; try (cbn; lia). rewrite chunk_length_be.
  pose proof (of_byte_bound a). pose proof (of_byte_bound b). pose proof (of_byte_bound c). pose proof (of_byte_bound d). lia.
Qed.

Lemma chunk_length_be32 n s : 0 <= n < 2 ^ 32 -> chunk_length (be32 n ++ s) = n.
Proof.
  intros Hn. unfold be32. rewrite !string_app_cons. rewrite chunk_length_be, !of_byte_byte_of.
  Z.div_mod_to_equations. lia.
Qed.

Lemma be32_chunk_length s : 4 <= ssize s -> be32 (chunk_length s) = stake 4 s.
Proof.
  intros Hs. destruct s as [|a [|b [|c [|d s]]]]; try (unfold ssize in Hs; cbn [String.length] in Hs; lia). rewrite chunk_length_be. unfold be32.
  pose proof (of_byte_bound a). pose proof (of_byte_bound b). pose proof (of_byte_bound c). pose proof (of_byte_bound d).
  cbn [stake]. repeat f_equal; apply of_byte_inj; rewrite of_byte_byte_of; Z.div_mod_to_equations; lia.
Qed.

Lemma scan_from fuel bytes pos : 0 <= pos <= ssize bytes -> scan fuel bytes pos = scan_rest fuel (sdrop (Z.to_nat pos) bytes).
Proof.
  revert pos. induction fuel as [|fuel IH]; intros pos Hp; [done|]. cbn [scan scan_rest]. rewrite ssize_sdrop.
  replace (Z.max 0 (ssize bytes - Z.of_nat (Z.to_nat pos))) with (ssize bytes - pos) by lia.
  replace (ssize bytes <? pos + 12) with (ssize bytes - pos <? 12) by lia.
  pose proof (chunk_length_bound (sdrop (Z.to_nat pos) bytes)) as Hb.
  destruct (Z.ltb_spec (ssize bytes - pos) 12) as [|H1]; [done|].
  destruct (Z.ltb_spec (ssize bytes - pos - 12) (chunk_length (sdrop (Z.to_nat pos) bytes))) as [|H2]; [done|].
  destruct (String.eqb _ _); [done|]. rewrite IH by lia. rewrite sdrop_add. do 2 f_equal. lia.
Qed.

Lemma scan_chunk fuel c rest : well_formed c ->
  scan_rest (S fuel) (encode c ++ rest) = if String.eqb (ctype c) "acTL" then Some (inl 415) else scan_rest fuel rest.
Proof.
  intros (Ht & Hc & Hd). cbn [scan_rest]. unfold encode. pose proof (ssize_nonneg (cdata c)). pose proof (ssize_nonneg rest).
  rewrite <- !(assoc_L String.append). rewrite chunk_length_be32 by lia.
  assert (ssize (be32 (ssize (cdata c))) = 4) as Hb by done.
  rewrite !ssize_app, Hb, Ht, Hc. rewrite (proj2 (Z.ltb_ge _ 12)), (proj2 (Z.ltb_ge _ (ssize (cdata c)))) by lia.
  rewrite (sdrop_size 4 (be32 _)) by done. rewrite (stake_size 4) by done.
  destruct (String.eqb _ _); [done|]. f_equal.
  rewrite !(assoc_L String.append). apply sdrop_size. rewrite !ssize_app, Hb, Ht, Hc. lia.
Qed.

(** Bytes with a complete chunk at their start. *)
Lemma rest_chunk rest : 12 <= ssize rest -> chunk_length rest <= ssize rest - 12 ->
  exists c, well_formed c /\ rest = (encode c ++ sdrop (Z.to_nat (chunk_length rest + 12)) rest)%string /\
    ctype c = stake 4 (sdrop 4 rest).
Proof.
  intros H1 H2. pose proof (chunk_length_bound rest) as Hb. set (n := Z.to_nat (chunk_length rest)).
  assert (ssize (stake n (sdrop 8 rest)) = chunk_length rest) as Hd.
  { rewrite ssize_stake, ssize_sdrop. lia. }
  exists (mkChunk (stake 4 (sdrop 4 rest)) (stake n (sdrop 8 rest)) (stake 4 (sdrop (8 + n) rest))).
  unfold well_formed, encode. cbn [ctype cdata crc]. rewrite Hd, !ssize_stake, !ssize_sdrop. split_and!; try lia; [|done].
  rewrite be32_chunk_length by lia. rewrite <- (sdrop_add n 8), stake_add.
  change (sdrop 8 rest) with (sdrop (4 + 4) rest). rewrite <- (sdrop_add 4 4), stake_add, stake_add.
  replace (Z.to_nat (chunk_length rest + 12)) with (4 + (4 + (n + 4)))%nat by lia. by rewrite stake_sdrop.
Qed.

Lemma scan_clean fuel cs rest : Forall well_formed cs -> Forall (fun c => ctype c <> "acTL"%string) cs ->
  scan_rest (length cs + fuel) (encode_all cs ++ rest) = scan_rest fuel rest.
Proof.
  induction 1 as [|c cs Hc _ IH]; intros Ht; [done|]. apply Forall_cons in Ht as [Hn Ht].
  cbn [encode_all length Nat.add]. rewrite <- (assoc_L String.append), scan_chunk by done.
  rewrite (proj2 (String.eqb_neq _ _)) by done. by apply IH.
Qed.

(** What the bytes after the signature are. *)
Definition still (rest : string) : Prop := exists cs tail,
  rest = (encode_all cs ++ tail)%string /\ ssize tail < 12 /\ Forall well_formed cs /\ Forall (fun c => ctype c <> "acTL"%string) cs.

Definition animated (rest : string) : Prop := exists cs c tail,
  rest = (encode_all cs ++ encode c ++ tail)%string /\ ctype c = "acTL"%string /\
  Forall well_formed (cs ++ [c]) /\ Forall (fun c => ctype c <> "acTL"%string) cs.

Definition cut_short (rest : string) : Prop := exists cs tail,
  rest = (encode_all cs ++ tail)%string /\ 12 <= ssize tail < 12 + chunk_length tail /\
  Forall well_formed cs /\ Forall (fun c => ctype c <> "acTL"%string) cs.

Lemma scan_decides fuel rest : ssize rest < 12 * Z.of_nat fuel ->
  (scan_rest fuel rest = Some (inr tt) /\ still rest) \/ (scan_rest fuel rest = Some (inl 415) /\ animated rest) \/
  (scan_rest fuel rest = Some (inl 422) /\ cut_short rest).
Proof.
  revert rest. induction fuel as [|fuel IH]; intros rest Hf; [pose proof (ssize_nonneg rest); lia|].
  destruct (Z.lt_ge_cases (ssize rest) 12) as [H1|H1].
  { left. cbn [scan_rest]. rewrite (proj2 (Z.ltb_lt _ _)) by done. split; [done|]. by exists [], rest. }
  destruct (Z.lt_ge_cases (ssize rest - 12) (chunk_length rest)) as [H2|H2].
  { do 2 right. cbn [scan_rest]. rewrite (proj2 (Z.ltb_ge _ _)), (proj2 (Z.ltb_lt _ _)) by lia.
    split; [done|]. exists [], rest. split_and!; try done; lia. }
  destruct (rest_chunk rest H1 H2) as (c & Hc & E & _). set (rest1 := sdrop _ _) in E. clearbody rest1. subst rest.
  rewrite scan_chunk by done. destruct (String.eqb_spec (ctype c) "acTL") as [Ht|Ht].
  { right; left. split; [done|]. exists [], c, rest1. split_and!; try done. by apply Forall_singleton. }
  assert (12 <= ssize (encode c)).
  { unfold encode. destruct Hc as (Hc1 & Hc2 & _). rewrite !ssize_app, Hc1, Hc2.
    change (ssize (be32 _)) with 4. pose proof (ssize_nonneg (cdata c)). lia. }
  rewrite ssize_app in Hf. destruct (IH rest1) as [[-> H3]|[[-> H3]|[-> H3]]]; [lia|left|right; left|right; right]; (split; [done|]).
  - destruct H3 as (cs & tail & -> & ? & ? & ?). exists (c :: cs), tail. cbn [encode_all].
    rewrite <- (assoc_L String.append). split_and!; try done; by constructor.
  - destruct H3 as (cs & c' & tail & -> & ? & ? & ?). exists (c :: cs), c', tail. cbn [encode_all]. rewrite <- app_comm_cons.
    rewrite <- (assoc_L String.append). split_and!; try done; by constructor.
  - destruct H3 as (cs & tail & -> & ? & ? & ?). exists (c :: cs), tail. cbn [encode_all].
    rewrite <- (assoc_L String.append). split_and!; try done; try lia; by constructor.
Qed.

Lemma scan_more f fuel rest r : scan_rest fuel rest = Some r -> scan_rest (f + fuel) rest = Some r.
Proof.
  revert rest. rewrite Nat.add_comm. induction fuel as [|fuel IH]; intros rest; [done|]. cbn [scan_rest Nat.add].
  repeat case_match; try done. apply IH.
Qed.

(** The bytes of a file are of one of the three kinds only. *)
Lemma scan_still rest : still rest -> exists fuel, forall more, scan_rest (fuel + more) rest = Some (inr tt).
Proof.
  intros (cs & tail & -> & Ht & Hw & Hn). exists (length cs + 1)%nat. intros more.
  rewrite <- Nat.add_assoc, scan_clean by done. cbn [Nat.add scan_rest]. by rewrite (proj2 (Z.ltb_lt _ _)).
Qed.

Lemma scan_animated rest : animated rest -> exists fuel, forall more, scan_rest (fuel + more) rest = Some (inl 415).
Proof.
  intros (cs & c & tail & -> & Ht & [Hw Hc]%Forall_app & Hn). exists (length cs + 1)%nat. intros more.
  rewrite <- Nat.add_assoc, scan_clean by done. cbn [Nat.add]. apply Forall_cons in Hc as [Hc _]. rewrite scan_chunk by done.
  by rewrite Ht.
Qed.

(** The scan of the chunk headers of a PNG ends, and its verdict is that of
    the format: it passes exactly the files that are, after the signature, whole
    chunks none of which is an animation control chunk ([acTL]), followed by
    fewer than twelve bytes; it answers 415 exactly for those where such a
    chunk follows whole chunks of other types, and 422 for all others, where
    a chunk is longer than the file. *)
Theorem png_scan bytes : 8 <= ssize bytes ->
  exists r, scan (String.length bytes) bytes 8 = Some r /\
    (r = inr tt <-> still (sdrop 8 bytes)) /\ (r = inl 415 <-> animated (sdrop 8 bytes)) /\
    (r = inl 422 <-> ~ still (sdrop 8 bytes) /\ ~ animated (sdrop 8 bytes)) /\
    (r = inl 422 -> cut_short (sdrop 8 bytes)).
Proof.
  intros Hs. rewrite scan_from by lia. change (Z.to_nat 8) with 8%nat. set (rest := sdrop 8 bytes).
  set (fuel := String.length bytes).
  assert (ssize rest < 12 * Z.of_nat fuel) as Hf.
  { unfold rest, fuel. rewrite ssize_sdrop. unfold ssize in *. lia. }
  assert (forall r, scan_rest fuel rest = Some r -> forall f v, (forall more, scan_rest (f + more) rest = Some v) -> r = v) as Hu.
  { intros r E f v Hv. specialize (Hv fuel). apply (scan_more f) in E. congruence. }
  assert (still rest -> forall r, scan_rest fuel rest = Some r -> r = inr tt) as Hst.
  { intros [f Hv]%scan_still r E. by apply (Hu r E f). }
  assert (animated rest -> forall r, scan_rest fuel rest = Some r -> r = inl 415) as Han.
  { intros [f Hv]%scan_animated r E. by apply (Hu r E f). }
  destruct (scan_decides fuel rest Hf) as [[E H]|[[E H]|[E H]]]; rewrite E; eexists; (split; [done|]);
    pose proof (fun h => Hst h _ E); pose proof (fun h => Han h _ E); naive_solver.
Qed.

Module Example.

(** Decoders that read a grey picture of three by two pixels from any bytes
    with a PNG signature, and none from a JPEG. *)
Definition signature : string :=
  String (byte_of 137) (String "P" (String "N" (String "G" (String (byte_of 13) (String (byte_of 10) (String (byte_of 26) (String (byte_of 10) EmptyString))))))).

Instance toy_codec : Codec := {
  png_sig s := String.eqb (stake 8 s) signature;
  png_begin s := Some (3, 2);
  png_finish s l := Some ((fun _ => 128) <$> l);
  tj_init s := true;
  tj_header s := None;
  tj_decompress s l := None;
  png_encode size l := Some "png"%string }.

Instance toy_codec_laws : CodecLaws toy_codec.
Proof.
  split; try done.
  - intros s w h E. cbn in E. simplify_eq. lia.
  - intros s l l' E. cbn in E. simplify_eq. rewrite length_fmap. split; [done|]. apply Forall_fmap, Forall_true. cbn. lia.
  - intros n l s E _. cbn in E. by simplify_eq.
Qed.

Definition header : chunk := mkChunk "IHDR" "0000000000000" "0000".
Definition control : chunk := mkChunk "acTL" "00000000" "0000".
Definition plain : string := signature ++ encode header.
Definition moving : string := plain ++ encode control.
Definition picture : Image := mkImage 3 2 (replicate 18 128).

Lemma thumbnail_exact_witness : decode plain = inr picture /\ exists px, thumbnail_pixels picture 64 = Some px /\ Z.of_nat (length px) = 12288.
Proof.
  assert (decode plain = inr picture) as E by reflexivity. split; [exact E|].
  destruct (thumbnail_exact plain picture 64 E (list_elem_of_here _ _)) as (px & H1 & H2 & _). exact (ex_intro _ px (conj H1 H2)).
Defined.

Lemma png_scan_witness : 8 <= ssize moving /\ decode moving = inl 415 /\ animated (sdrop 8 moving).
Proof.
  assert (8 <= ssize moving) as H by done. split; [exact H|]. split; [reflexivity|].
  destruct (png_scan moving H) as (r & E & _ & Ha & _). apply Ha.
  assert (scan (String.length moving) moving 8 = Some (inl 415)) as E2 by reflexivity. congruence.
Defined.

End Example.
