(* ===== verification/Resource.v ===== *)
(** The resource server: uploads, publication, download and clean-up of
    attachments ([src/servers/resource/ResourceService.cpp], the helpers of
    [ResourceSupport.h] and the download loop of [main.cpp]), over the tables
    of [Schema], the attachment metadata of [FileDao] and the encrypted files
    of [FileStore].

    The operations on one attachment are serialised by [ResourceLock]
    ([src/common/ResourceLock.h]), so an operation is a step.  The database,
    the disk and the lock may fail at every call.  An [Error] is an exception
    whose status is left in [w_status]. *)
From S2P Require Import Prelude Mysql Schema FileDao FileStore ResourceSupport.

(** ** State *)

(** A row of [resource_outbox]; the payload of a file event. *)
Record Event := mkEvent {
  e_key : string; e_kind : string; e_payload : TransferRow;
  e_attempts : Z; e_next_attempt : Z; e_delivered : option Z;
}.

(** The tables, with the column [idempotency_key] of [file_transfer] (the
    sender and the key, by attachment) and [resource_outbox]. *)
Record RTables := mkRTables {
  base : Tables;
  idempotency : list (string * (Z * string));
  outbox : list Event;
}.

Definition set_base (b : Tables) (t : RTables) : RTables := mkRTables b (idempotency t) (outbox t).
Definition set_outbox (o : list Event) (t : RTables) : RTables := mkRTables (base t) (idempotency t) o.

Abbreviation World := (ResourceSupport.World RTables).

(** What is drawn, and whether the lock is obtained in time. *)
Record Draws := mkDraws { lock_ok : bool; new_id : string; new_prefix : string }.

Section Service.
Context `{Collation} `{Aead} (master_key : string).

Definition rows (t : RTables) : list TransferRow := file_transfer (base t).

(** ** [Service] *)

Definition with_id (i : string) (r : TransferRow) : TransferRow :=
  mkTransferRow i (x_sender r) (x_receiver r) (x_name r) (x_mime r) (x_total r) (x_uploaded r) (x_sha256 r)
    (x_status r) (x_created r) (x_completed r) (x_downloaded r) (x_expires r).

(** The row and [expires_at<=NOW()]. *)
Definition file (id : string) : prog World (TransferRow * bool) :=
  require (validId id) 400 ;;
  row ← on_db (query (fun now t =>
    (fun r => (with_id id r, x_expires r <=? now)) <$> List.find (has_id id) (rows t)));
  match row with
  | None => fail 404
  | Some f => mret f
  end.

Definition with_uploaded (n : Z) (r : TransferRow) : TransferRow :=
  mkTransferRow (x_id r) (x_sender r) (x_receiver r) (x_name r) (x_mime r) (x_total r) n (x_sha256 r)
    (x_status r) (x_created r) (x_completed r) (x_downloaded r) (x_expires r).

(** The body of an upload request, its member types checked. *)
Record Upload := mkUpload {
  q_touid : Z; q_name : string; q_mime : string; q_total : Z; q_sha256 : string; q_key : string;
}.

Definition name_char (c : ascii) : bool :=
  let x := of_byte c in negb ((x =? 47) || (x =? 92) || (x =? 13) || (x =? 10) || (x =? 0)).

Definition name_ok (name : string) : bool :=
  negb (sempty name) && (ssize name <=? 255) && sall name_char name
  && negb (String.eqb name ".") && negb (String.eqb name "..").

Definition metadata_ok (v : Upload) : bool :=
  (ssize (q_sha256 v) =? 64) && sall hex_char (q_sha256 v) && negb (sempty (q_key v))
  && (ssize (q_key v) <=? 128) && (ssize (q_mime v) <=? 128).

(** [INSERT INTO file_transfer]: also the unique key of a sender's
    idempotency keys. *)
Definition insert_upload (x : TransferRecord) (key : string) (now : Z) (t : RTables) : option (Z * RTables) :=
  if existsb (fun e => (e.2.1 =? t_sender_uid x) && bool_decide (weight e.2.2 = weight key)) (idempotency t)
  then None
  else '(n, b) ← insert_transfer x now (base t);
       Some (n, mkRTables b (idempotency t ++ [(FileDao.id x, (t_sender_uid x, key))]) (outbox t)).

Definition find_prior (uid : Z) (key : string) (t : RTables) : option string :=
  fst <$> List.find (fun e => (e.2.1 =? uid) && bool_decide (weight e.2.2 = weight key)) (idempotency t).

Definition same_upload (v : Upload) (r : TransferRow) : bool :=
  (x_receiver r =? q_touid v) && String.eqb (x_name r) (q_name v) && String.eqb (x_sha256 r) (q_sha256 v)
  && (x_total r =? q_total v) && String.eqb (x_mime r) (q_mime v).

(** A new attachment, with the answer of the request. *)
Definition create_new (d : Draws) (uid : Z) (v : Upload) : prog World unit :=
  friendship ← on_db (query (fun _ t =>
    existsb (fun r => (f_self r =? uid) && (f_friend r =? q_touid v)) (friend (base t))));
  require friendship 403 ;;
  usage ← on_db (query (fun now t => (item_count uid now (base t), total_bytes uid now (base t))));
  require ((usage.1 <? 16) && (u64 (usage.2 + q_total v) <=? 1024 * 1024 * 1024)) 429 ;;
  ResourceLock (lock_ok d) (new_id d) ;;
  on_disk (FileStore.create (new_id d) (new_prefix d)) ;;
  on_db (exec (insert_upload (mkTransferRecord (new_id d) uid (q_touid v) (q_name v) (q_mime v) (q_total v) 0
                                (q_sha256 v) Uploading) (q_key v))) ;;
  mret tt.

Definition create (d : Draws) (uid : Z) (v : Upload) : prog World (TransferRow * bool) :=
  require (name_ok (q_name v)) 400 ;;
  require (metadata_ok v) 400 ;;
  require (q_total v <=? MaxFileBytes) 413 ;;
  lease (
    f ← Transaction (
      known ← on_db (query (fun _ t => user_exists (base t) uid));
      require known 403 ;;
      prior ← on_db (query (fun _ t => find_prior uid (q_key v) t));
      match prior with
      | Some old =>
          f ← file old;
          require (same_upload v f.1) 409 ;;
          require (negb f.2 && negb (bool_decide (x_status f.1 = Cancelled))) 410 ;;
          mret (Some f)
      | None => create_new d uid v ;; mret None
      end);
    match f with
    | Some f => mret f
    | None => file (new_id d)
    end).

(** The pieces of a body, of [PlainChunkBytes] and a last shorter one. *)
Fixpoint pieces (fuel : nat) (bytes : string) : list string :=
  if sempty bytes then []
  else match fuel with
       | O => []
       | S fuel => stake (Z.to_nat PlainChunkBytes) bytes :: pieces fuel (sdrop (Z.to_nat PlainChunkBytes) bytes)
       end.

(** [UPDATE file_transfer SET uploaded_size=? WHERE id=? AND uploaded_size=?
    AND status='uploading' AND expires_at>NOW()] *)
Definition advance_row (id : string) (confirmed next : Z) (now : Z) (t : RTables) : option (Z * RTables) :=
  let '(n, l) := update_where
    (fun r => has_id id r && (x_uploaded r =? confirmed) && bool_decide (x_status r = Uploading) && (now <? x_expires r))
    (fun r => set_uploaded next now r) (rows t) in
  Some (n, set_base (set_transfers l (base t)) t).

(** The loop of [chunk] from the position [at_] on; the new confirmed offset. *)
Fixpoint put_pieces (id : string) (parts : list string) (at_ confirmed : Z) : prog World Z :=
  match parts with
  | [] => mret confirmed
  | part :: parts =>
      if at_ <? confirmed then
        previous ← on_disk (FileStore.read master_key id at_ (ssize part));
        require (String.eqb previous part) 409 ;;
        put_pieces id parts (at_ + PlainChunkBytes) confirmed
      else
        next ← try_catch (on_disk (FileStore.append master_key id at_ part)) (fail 409);
        n ← on_db (exec (advance_row id confirmed next));
        require (n =? 1) 503 ;;
        put_pieces id parts (at_ + PlainChunkBytes) next
  end.

Definition chunk (d : Draws) (uid : Z) (id : string) (offset : Z) (bytes : string) : prog World TransferRow :=
  require (negb (sempty bytes) && (ssize bytes <=? 256 * 1024) && (offset mod PlainChunkBytes =? 0)) 400 ;;
  ResourceLock (lock_ok d) id ;;
  lease (
    f ← file id;
    require (x_sender f.1 =? uid) 403 ;;
    require (negb f.2 && bool_decide (x_status f.1 = Uploading)) 410 ;;
    let total := x_total f.1 in
    let confirmed := x_uploaded f.1 in
    require ((offset <=? total) && (ssize bytes <=? total - offset)
             && ((ssize bytes mod PlainChunkBytes =? 0) || (offset + ssize bytes =? total))) 400 ;;
    require (offset <=? confirmed) 409 ;;
    confirmed ← put_pieces id (pieces (String.length bytes) bytes) offset confirmed;
    mret (with_uploaded confirmed f.1)).

(** [notify]: an event that is already there stays as it is. *)
Definition notify (key kind : string) (payload : TransferRow) (now : Z) (t : RTables) : option (unit * RTables) :=
  if existsb (fun e => bool_decide (weight (e_key e) = weight key)) (outbox t) then Some (tt, t)
  else Some (tt, set_outbox (outbox t ++ [mkEvent key kind payload 0 now None]) t).

(** [UPDATE file_transfer SET status='available',... WHERE id=? AND
    status='uploading'] *)
Definition publish_row (id : string) (now : Z) (t : RTables) : option (Z * RTables) :=
  let '(n, l) := update_where (fun r => has_id id r && bool_decide (x_status r = Uploading))
                   (set_available now) (rows t) in
  Some (n, set_base (set_transfers l (base t)) t).

Definition with_status (s : TransferStatus) (r : TransferRow) : TransferRow :=
  mkTransferRow (x_id r) (x_sender r) (x_receiver r) (x_name r) (x_mime r) (x_total r) (x_uploaded r) (x_sha256 r)
    s (x_created r) (x_completed r) (x_downloaded r) (x_expires r).

Definition complete (d : Draws) (uid : Z) (id : string) : prog World TransferRow :=
  ResourceLock (lock_ok d) id ;;
  lease (
    f ← file id;
    require (x_sender f.1 =? uid) 403 ;;
    require (negb f.2 && negb (bool_decide (x_status f.1 = Cancelled))) 410 ;;
    if bool_decide (x_status f.1 = Available \/ x_status f.1 = Downloaded) then mret f.1
    else
      require (x_uploaded f.1 =? x_total f.1) 409 ;;
      digest ← on_disk (FileStore.sha256 master_key id (x_total f.1));
      require (String.eqb digest (x_sha256 f.1)) 422 ;;
      Transaction (
        n ← on_db (exec (publish_row id));
        require (n =? 1) 409 ;;
        let published := with_status Available f.1 in
        on_db (exec (notify ("file:" ++ id) "file" published)) ;;
        mret published)).

(** The remaining routes of [handle], on the attachment [id]. *)

Definition mark_rows (id : string) (upd : Z -> TransferRow -> TransferRow) (now : Z) (t : RTables)
    : option (Z * RTables) :=
  let '(n, l) := update_where (has_id id) (upd now) (rows t) in
  Some (n, set_base (set_transfers l (base t)) t).

(** The checks before the routes: a participant, and for [uploads] the
    sender; neither expired nor cancelled. *)
Definition open_file (d : Draws) (uid : Z) (uploads : bool) (id : string) : prog World TransferRow :=
  f ← file id;
  require ((x_sender f.1 =? uid) || (x_receiver f.1 =? uid)) 403 ;;
  require (negb uploads || (x_sender f.1 =? uid)) 403 ;;
  require (negb f.2 && negb (bool_decide (x_status f.1 = Cancelled))) 410 ;;
  mret f.1.

(** The part of the file that a [Range] header asks for, as the first byte and
    the length, or the status of the refusal. *)
Definition byte_range (range : string) (total : Z) : Z + Z * Z :=
  if sempty range then inr (0, total)
  else if negb (String.eqb (stake 6 range) "bytes=") || match sfind "," range with Some _ => true | None => false end
  then inl 416
  else
    match sfind "-" (sdrop 6 range) with
    | None => inl 416
    | Some (first, last) =>
        if total <=? 0 then inl 416
        else
          let bounds :=
            if sempty first then
              match number last with
              | None => inl 400
              | Some suffix => if suffix <=? 0 then inl 416 else inr (total - Z.min total suffix, total - 1)
              end
            else
              match number first with
              | None => inl 400
              | Some begin =>
                  if sempty last then inr (begin, total - 1)
                  else match number last with None => inl 400 | Some l => inr (begin, Z.min (total - 1) l) end
              end in
          match bounds with
          | inl status => inl status
          | inr (begin, finish) =>
              if (begin <? total) && (begin <=? finish) then inr (begin, finish - begin + 1) else inl 416
          end
    end.

Inductive verb := Get | Post | Put | Delete | OtherVerb.

#[global] Instance verb_eq_dec : EqDecision verb.
Proof. solve_decision. Defined.

(** The status, the metadata in the body, and for a download the attachment
    with the first byte and the length. *)
Record Response := mkResponse { status : Z; body : option TransferRow; streams : option (string * Z * Z) }.
Definition result (status : Z) (f : TransferRow) : Response := mkResponse status (Some f) None.

(** The routes of one attachment. *)
Definition access (d : Draws) (uid : Z) (method : verb) (uploads : bool) (id action range : string)
    : prog World Response :=
  ResourceLock (lock_ok d) id ;;
  lease (
    f ← open_file d uid uploads id;
    if bool_decide (method = Get) && sempty action then mret (result 200 f)
    else if bool_decide (method = Delete) && sempty action then
      require (negb uploads || bool_decide (x_status f = Uploading)) 409 ;;
      on_db (exec (mark_rows id set_cancelled)) ;;
      mret (mkResponse 204 None None)
    else
      require (negb uploads && (x_receiver f =? uid)) 403 ;;
      require (bool_decide (x_status f = Available \/ x_status f = Downloaded)) 409 ;;
      if bool_decide (method = Post) && String.eqb action "downloaded" then
        on_db (exec (mark_rows id set_downloaded)) ;;
        mret (result 200 f)
      else
        require (bool_decide (method = Get) && String.eqb action "content") 404 ;;
        match byte_range range (x_total f) with
        | inl status => fail status
        | inr (begin, length) =>
            mret (mkResponse (if sempty range then 200 else 206) None (Some (id, begin, length)))
        end).

(** A request of an authenticated user; [upload] is the body read as the JSON
    of an upload, when it has the members of the wanted types. *)
Record Request := mkRequest {
  method : verb; target : string; range : string; content : string; upload : option Upload;
}.

(** [handle] below the prefix of the routes, but for the avatars. *)
Definition handle (d : Draws) (uid : Z) (req : Request) : prog World Response :=
  if String.eqb (target req) "uploads" && bool_decide (method req = Post) then
    match upload req with
    | None => fail 400
    | Some v => f ← create d uid v; mret (result 201 f.1)
    end
  else
    match sfind "/" (target req) with
    | None => fail 404
    | Some (group, rest) =>
        require (String.eqb group "uploads" || String.eqb group "files") 404 ;;
        let uploads := String.eqb group "uploads" in
        let '(id, action) := match sfind "/" rest with Some p => p | None => (rest, ""%string) end in
        if uploads && bool_decide (method req = Put) && String.eqb (stake 14 action) "chunks?offset=" then
          match number (sdrop 14 action) with
          | None => fail 400
          | Some offset => f ← chunk d uid id offset (content req); mret (result 200 f)
          end
        else if uploads && String.eqb action "complete" && bool_decide (method req = Post) then
          f ← complete d uid id; mret (result 200 f)
        else access d uid (method req) uploads id action (range req)
    end.

(** The worker task of [Connection::start]: an [Error] is answered with its
    status, another exception with 503. *)
Definition respond (d : Draws) (uid : Z) (req : Request) (w : World) : Response * World :=
  match handle d uid req (set_w_status 503 w) with
  | (Returns r, w) => (r, w)
  | (Throws, w) => (mkResponse (w_status w) None None, w)
  end.

(** [Service::read], which the download loop calls. *)
Definition read (d : Draws) (id : string) (offset : Z) : prog World string :=
  ResourceLock (lock_ok d) id ;;
  lease (
    f ← file id;
    require (negb f.2 && bool_decide (x_status f.1 = Available \/ x_status f.1 = Downloaded)) 410 ;;
    on_disk (FileStore.read master_key id offset PlainChunkBytes)).

(** [Connection::next] of [main.cpp]: the bytes written until the connection
    is closed.  Every turn writes a byte or stops, so the length bounds the
    turns. *)
Fixpoint stream (fuel : nat) (ds : nat -> Draws) (id : string) (offset remaining : Z) (w : World) : string * World :=
  if remaining =? 0 then ("", w)
  else
    match fuel with
    | O => ("", w)
    | S fuel =>
        let base := offset / PlainChunkBytes * PlainChunkBytes in
        match read (ds fuel) id base w with
        | (Throws, w) => ("", w)
        | (Returns bytes, w) =>
            let skip := offset - base in
            if ssize bytes <=? skip then ("", w)
            else
              let part := stake (Z.to_nat (Z.min (ssize bytes - skip) remaining)) (sdrop (Z.to_nat skip) bytes) in
              let '(more, w) := stream fuel ds id (offset + ssize part) (remaining - ssize part) w in
              ((part ++ more)%string, w)
        end
    end.

(** ** Maintenance of the attachments *)

(** [expires_at<=NOW() OR status='cancelled'] *)
Definition lapsed (now : Z) (r : TransferRow) : bool :=
  (x_expires r <=? now) || bool_decide (x_status r = Cancelled).

Definition drop_event (key : string) (now : Z) (t : RTables) : option (unit * RTables) :=
  Some (tt, set_outbox (filter (fun e => weight (e_key e) <> weight key) (outbox t)) t).
Definition drop_row (id : string) (now : Z) (t : RTables) : option (unit * RTables) :=
  Some (tt, mkRTables (set_transfers (filter (fun r => has_id id r = false) (rows t)) (base t))
              (filter (fun e => weight e.1 <> weight id) (idempotency t)) (outbox t)).

(** One turn of the loop over the lapsed attachments. *)
Definition reclaim (d : Draws) (id : string) : prog World unit :=
  ResourceLock (lock_ok d) id ;;
  Transaction (
    row ← on_db (query (fun now t => existsb (fun r => has_id id r && lapsed now r) (rows t)));
    if row : bool then
      on_disk (FileStore.remove id) ;;
      on_db (exec (drop_event ("file:" ++ id))) ;;
      on_db (exec (drop_row id)) ;;
      mret tt
    else mret tt).

Fixpoint reclaim_all (d : nat -> Draws) (ids : list string) : prog World unit :=
  match ids with
  | [] => mret tt
  | id :: ids => reclaim (d (length ids)) id ;; reclaim_all d ids
  end.

(** Delivery of the first event that is due: [sent] is the answer of a peer;
    every peer is called. *)
Definition settle_event (key : string) (sent : bool) (now : Z) (t : RTables) : option (unit * RTables) :=
  Some (tt, set_outbox ((fun e =>
    if String.eqb (e_key e) key
    then if sent then mkEvent (e_key e) (e_kind e) (e_payload e) (e_attempts e) (e_next_attempt e) (Some now)
         else mkEvent (e_key e) (e_kind e) (e_payload e) (e_attempts e + 1) (now + 10) (e_delivered e)
    else e) <$> outbox t) t).

Definition deliver (peers : list string) (sent : string -> Event -> bool) : prog World unit :=
  Transaction (
    row ← on_db (query (fun now t => List.find (fun e =>
      bool_decide (e_delivered e = None) && (e_next_attempt e <=? now)) (outbox t)));
    match row with
    | None => mret tt
    | Some e => on_db (exec (settle_event (e_key e) (forallb (fun peer => sent peer e) peers)))
    end).

(** [maintenance], without the avatars. *)
Definition maintenance (peers : list string) (sent : string -> Event -> bool) (d : nat -> Draws)
    : prog World unit :=
  lease (
    deliver peers sent ;;
    ids ← on_db (query (fun now t => x_id <$> take 32 (filter (fun r => lapsed now r = true) (rows t))));
    reclaim_all d ids).

End Service.

(** ** The invariant *)

Section Invariant.
Context `{Collation} `{A : Aead} `{!AeadLaws A} (master_key : string).

(** The collation of the schema tells identifiers apart. *)
Context (id_weight : forall i j, validId i = true -> validId j = true -> weight i = weight j -> i = j).

(** [NOW()] at the n-th call; time does not go back. *)
Context (ck : nat -> Z) (ck_mono : forall n n', (n <= n')%nat -> ck n <= ck n').

(** The confirmed bytes of a row are on the disk, and no more than the file
    has; a published file is complete and has the announced digest. *)
Definition backed (st : attachments) (r : TransferRow) : Prop :=
  exists a, st !! x_id r = Some a /\
    0 <= x_uploaded r <= zsum ssize (chunks a) /\ zsum ssize (chunks a) <= x_total r /\
    (ready r = true -> x_uploaded r = x_total r /\ sha256_hex (joined (chunks a)) = x_sha256 r).

Record Inv (now : Z) (t : RTables) (st : attachments) : Prop := {
  inv_key : NoDup ((fun r => weight (x_id r)) <$> rows t);
  inv_id : Forall (fun r => validId (x_id r) = true) (rows t);
  inv_total : Forall (fun r => 0 <= x_total r <= MaxFileBytes) (rows t);
  inv_backed : forall r, r ∈ rows t -> active r = true -> now < x_expires r -> backed st r;
}.

(** *** Rows *)

Abbreviation fine := (ResourceSupport.fine master_key Inv ck).
Abbreviation sound := (ResourceSupport.sound master_key Inv ck).
Abbreviation leaves := (ResourceSupport.leaves master_key Inv ck).
Abbreviation intx := (ResourceSupport.intx master_key Inv ck).
Abbreviation create_step := (ResourceSupport.create_step (master_key := master_key)).
Abbreviation remove_step := (ResourceSupport.remove_step (master_key := master_key)).
Abbreviation wp_Transaction := (ResourceSupport.wp_Transaction (master_key := master_key) (Inv := Inv) (ck := ck)).
Abbreviation wp_lent_query := (ResourceSupport.wp_lent_query (master_key := master_key) (Inv := Inv) (ck := ck)).
Abbreviation wp_lent_exec := (ResourceSupport.wp_lent_exec (master_key := master_key) (Inv := Inv) (ck := ck)).
Abbreviation wp_tx_query := (ResourceSupport.wp_tx_query (master_key := master_key) (Inv := Inv) (ck := ck)).
Abbreviation wp_tx_exec := (ResourceSupport.wp_tx_exec (master_key := master_key) (Inv := Inv) (ck := ck)).

Lemma Inv_later now now' t st : now <= now' -> Inv now t st -> Inv now' t st.
Proof. intros Hle [H1 H2 H3 H4]. split; try done. intros r Hr Ha Hx. apply H4; [done..|lia]. Qed.

Lemma has_id_row now t st i r : Inv now t st -> validId i = true -> r ∈ rows t ->
  has_id i r = true <-> x_id r = i.
Proof.
  intros Hi Hv Hr. unfold has_id. rewrite bool_decide_eq_true. split; [|by intros ->].
  intros E. apply id_weight; [|done|done]. pose proof (inv_id _ _ _ Hi) as H1. rewrite Forall_forall in H1. auto.
Qed.

Lemma row_unique now t st r r' : Inv now t st -> r ∈ rows t -> r' ∈ rows t -> x_id r = x_id r' -> r = r'.
Proof.
  intros Hi Hr Hr' E. apply (NoDup_fmap_eq (fun r => weight (x_id r)) (rows t)); try done; [apply Hi|congruence].
Qed.

(** Changing rows one by one. *)
Lemma Inv_map now now' t st st' g : now <= now' -> Inv now t st ->
  (forall r, r ∈ rows t -> x_id (g r) = x_id r /\ x_total (g r) = x_total r /\
     (active (g r) = true -> now' < x_expires (g r) -> backed st' (g r))) ->
  Inv now' (set_base (set_transfers (g <$> rows t) (base t)) t) st'.
Proof.
  intros Hle [H1 H2 H3 H4] Hg. unfold rows. simpl. fold (rows t). rewrite Forall_forall in H2, H3.
  split; unfold rows; simpl; fold (rows t).
  - rewrite <- list_fmap_compose. assert ((fun r => weight (x_id (g r))) <$> rows t = (fun r => weight (x_id r)) <$> rows t) as E.
    { apply list_fmap_ext. intros i r Hr. apply list_elem_of_lookup_2 in Hr. by destruct (Hg r Hr) as [-> _]. }
    unfold compose. by rewrite E.
  - apply Forall_fmap, Forall_forall. intros r Hr. unfold compose. destruct (Hg r Hr) as [-> _]. auto.
  - apply Forall_fmap, Forall_forall. intros r Hr. unfold compose. destruct (Hg r Hr) as (_ & -> & _). auto.
  - intros r (r0 & -> & Hr0)%list_elem_of_fmap. by apply Hg.
Qed.

Lemma with_id_same r : with_id (x_id r) r = r.
Proof. by destruct r. Qed.

(** [file] in automatic mode: a row of the committed tables under this
    identifier, and whether it had expired at the call. *)
Lemma wp_file i Q w : lent w -> sound w ->
  (forall w' z, w_disk w' = w_disk w -> committed (w_db w') = committed (w_db w) -> lent w' -> sound w' ->
     Q Throws (set_w_status z w')) ->
  (forall w', w_disk w' = w_disk w -> committed (w_db w') = committed (w_db w) -> lent w' -> sound w' ->
     forall r, validId i = true -> r ∈ rows (committed (w_db w)) -> x_id r = i ->
     Q (Returns (r, x_expires r <=? ck (calls (w_db w')))) w') ->
  wp (file i) Q w.
Proof.
  intros Hl Hs Ht Hr. apply wp_bind, wp_require; [|by apply Ht].
  intros Hv. apply wp_bind, wp_lent_query; [done..|]. intros r w' Ed Ec Hl' Hs' [->| ->].
  { apply (Ht w' (w_status w')) in Ed; try done. by destruct w'. }
  destruct (List.find (has_id i) (rows (committed (w_db w)))) as [row|] eqn:Ef; cbn [fmap option_fmap option_map];
    [|by apply wp_fail, Ht].
  apply wp_ret. apply find_some in Ef as [Hin%list_elem_of_In Hid].
  destruct Hs as [_ (now & st & _ & _ & Hinv)]. apply (has_id_row now (committed (w_db w)) st) in Hid; [|done..].
  rewrite <- Hid at 1. rewrite with_id_same. by apply Hr.
Qed.

(** *** The disk *)

(** An append leaves the other attachments, and this one within a bound that
    covers it and the new chunk. *)
Lemma append_bound i at_ p f r st st' d : holds master_key d st -> 0 <= at_ ->
  allowed (Append i at_ p) f r st st' ->
  (forall j, j <> i -> st' !! j = st !! j) /\
  forall a bound, st !! i = Some a -> zsum ssize (chunks a) <= bound -> at_ + ssize p <= bound ->
    exists a', st' !! i = Some a' /\ zsum ssize (chunks a) <= zsum ssize (chunks a') <= bound.
Proof.
  intros Hh Ho Ha.
  assert (forall a, st !! i = Some a -> let a' := (spec_append at_ p a).2 in
    at_ mod PlainChunkBytes = 0 -> forall bound, zsum ssize (chunks a) <= bound -> at_ + ssize p <= bound ->
    zsum ssize (chunks a) <= zsum ssize (chunks a') <= bound) as Hgrow.
  { intros a Ea a' Hm bound Hb1 Hb2. unfold a', spec_append. cbn zeta.
    case_match; [simpl; lia|]. case_decide as Hg; [|simpl; lia]. cbn [snd chunks]. rewrite zsum_app.
    destruct Hg as (Hi & Hf & _). rewrite (full_size _ Hf) in *. unfold zsum. csimpl.
    rewrite <- Hi, Z2Nat.id by (apply Z.div_pos; [done|unfold PlainChunkBytes; lia]).
    rewrite (Z.div_mod at_ PlainChunkBytes), Hm in Hb2 by done.
    assert (0 <= ssize p) by apply ssize_nonneg. lia. }
  assert (forall st2, st2 = (spec (Append i at_ p) st).2 \/ st2 = st \/ st2 = break_off i st ->
    (forall j, j <> i -> st2 !! j = st !! j) /\
    forall a bound, st !! i = Some a -> zsum ssize (chunks a) <= bound -> at_ + ssize p <= bound ->
    exists a', st2 !! i = Some a' /\ zsum ssize (chunks a) <= zsum ssize (chunks a') <= bound) as Hcases.
  { intros st2 [->|[->| ->]].
    - unfold spec. cbn [op_id]. destruct (transfer_id_ok i); cbn [negb]; [|split; [done|]; intros a B Ea; eexists; split; [done|lia]].
      case_decide as Hargs; [|split; [done|]; intros a B Ea; eexists; split; [done|lia]].
      destruct (st !! i) as [a|] eqn:Ea; [|done]. specialize (Hgrow a eq_refl (proj2 Hargs)).
      destruct (spec_append at_ p a) as [r' a']. cbn [snd] in *. split; [intros j Hj; by rewrite lookup_insert_ne|].
      intros b B [= <-] H1 H2. exists a'. rewrite lookup_insert_eq. auto.
    - split; [done|]. intros a B Ea H1 H2. exists a. split; [done|lia].
    - unfold break_off. split; [intros j Hj; destruct (st !! i); by rewrite lookup_insert_ne|].
      intros a B Ea H1 H2. rewrite Ea. eexists. rewrite lookup_insert_eq. split; [done|simpl; lia]. }
  apply Hcases. unfold allowed, interrupted in Ha. destruct f; [left; by rewrite Ha|..]; tauto.
Qed.

(** *** Uploading *)

(** The rows under [i] are being uploaded and reach at least to [end_]. *)
Definition uploading (t : RTables) (i : string) (end_ : Z) : Prop :=
  forall r, r ∈ rows t -> x_id r = i -> x_status r = Uploading /\ end_ <= x_total r.

(** Parts laid out from [at_] stay before [end_]. *)
Fixpoint laid (at_ : Z) (parts : list string) (end_ : Z) : Prop :=
  match parts with
  | [] => True
  | p :: parts => at_ + ssize p <= end_ /\ laid (at_ + PlainChunkBytes) parts end_
  end.

Lemma laid_pieces fuel : forall bytes at_ end_, at_ + ssize bytes <= end_ -> laid at_ (pieces fuel bytes) end_.
Proof.
  induction fuel as [|fuel IH]; intros bytes at_ end_ He; cbn [pieces]; destruct (sempty bytes); try done.
  cbn [laid]. rewrite ssize_stake. split; [lia|].
  destruct (Z.le_gt_cases (ssize bytes) PlainChunkBytes) as [Hle|Hgt].
  - assert (sempty (sdrop (Z.to_nat PlainChunkBytes) bytes) = true) as Hd.
    { rewrite sempty_ssize, ssize_sdrop. apply Z.eqb_eq. lia. }
    by destruct fuel; cbn [pieces]; rewrite Hd.
  - apply IH. rewrite ssize_sdrop. unfold PlainChunkBytes in *. lia.
Qed.

(** The rows that may be advanced stay backed by what was appended. *)
Lemma advance_fine w i end_ confirmed next now st n a t : clock (w_db w) = ck -> validId i = true ->
  (forall m, (calls (w_db w) <= m)%nat -> now <= ck m) -> holds master_key (w_disk w) st ->
  Inv now (committed (w_db w)) st -> uploading (committed (w_db w)) i end_ ->
  (forall b, st !! i = Some b -> 0 <= next <= zsum ssize (chunks b)) ->
  advance_row i confirmed next (ck n) (committed (w_db w)) = Some (a, t) -> 
  fine (set_w_db (tick (w_db w)) w) t /\ uploading t i end_.
Proof.
  intros Hck Hv Hn Hh Hi Hup Hnext E. unfold advance_row, update_where in E. injection E as _ <-. split.
  - split; [done|]. exists now, st. split_and!; [intros m Hm; apply Hn; simpl in Hm; lia|done|].
    apply (Inv_map now now _ st); [lia|done|]. intros r Hr. simpl.
    destruct (has_id i r && _ && _ && _) eqn:Ep; (split_and!; [done..|]).
    + apply andb_true_iff in Ep as [[[Hid _]%andb_true_iff Hst%bool_decide_eq_true]%andb_true_iff _].
      intros Ha Hx. apply (has_id_row now (committed (w_db w)) st) in Hid; [|done..].
      destruct (inv_backed _ _ _ Hi r Hr) as (b & Hb & Hu & Ht & Hrd); [unfold active; by rewrite Hst|done|].
      exists b. unfold ready. simpl. rewrite Hst. rewrite Hid in Hb. specialize (Hnext b Hb).
      rewrite Hid. split_and!; (done || lia).
    + intros Ha Hx. by apply (inv_backed _ _ _ Hi).
  - intros r (r0 & -> & Hr0)%list_elem_of_fmap Hid. specialize (Hup r0 Hr0).
    destruct (has_id i r0 && _ && _ && _); simpl in *; auto.
Qed.

Lemma put_pieces_sound i end_ parts : validId i = true -> end_ < 2 ^ 64 ->
  forall at_ confirmed w, lent w -> sound w -> 0 <= at_ -> laid at_ parts end_ ->
  uploading (committed (w_db w)) i end_ -> wp (put_pieces master_key i parts at_ confirmed) leaves w.
Proof.
  intros Hv Hend. assert (0 < PlainChunkBytes) as Hpos by done.
  induction parts as [|p parts IH]; intros at_ confirmed w Hl Hs Hat Hlaid Hup; cbn [put_pieces];
    [by apply wp_ret, leaves_lent|]. destruct Hlaid as [Hp Hlaid].
  pose proof Hs as [Hck (now & st & Hn & Hh & Hi)]. destruct (at_ <? confirmed).
  - apply wp_bind, (read_step w st); [done|]. intros [previous|] d' Hh'.
    2: { apply leaves_lent; [|done]. split; [done|]. by exists now, st. }
    assert (sound (set_w_disk d' w)) as Hs' by (split; [done|]; by exists now, st).
    apply wp_bind, wp_require; [intros _|by apply leaves_lent]. apply IH; try done. lia.
  - assert (forall f r d' st', allowed (Append i at_ p) f r st st' -> holds master_key d' st' ->
      Inv now (committed (w_db w)) st') as Happ.
    { intros f r d' st' Ha Hh'. destruct (append_bound i at_ p f r st st' _ Hh Hat Ha) as [Hother Hthis].
      destruct Hi as [I1 I2 I3 I4]. split; try done. intros r0 Hr0 Hact Hx.
      destruct (I4 r0 Hr0 Hact Hx) as (a & Ea & Hu & Ht & Hrd).
      destruct (decide (x_id r0 = i)) as [Heq|Hne]; [|exists a; by rewrite (Hother _ Hne)].
      destruct (Hup r0 Hr0 Heq) as [Hst Htot]. rewrite <- Heq in Hthis.
      destruct (Hthis a (x_total r0) Ea Ht ltac:(lia)) as (a' & Ea' & Hz). exists a'.
      unfold ready. rewrite Hst. split_and!; (done || lia). }
    apply wp_bind, wp_try, (append_step w st); [done|lia|]. intros r d' f st' Ha Hh'.
    specialize (Happ _ _ _ _ Ha Hh') as Hi'.
    assert (sound (set_w_disk d' w)) as Hs' by (split; [done|]; by exists now, st').
    destruct r as [next|]; [|by apply wp_fail, leaves_lent].
    destruct (appended_chunk _ _ _ _ _ _ _ Ha) as ((a & Ea & Hci) & Hz & Hm & _).
    assert (forall b, st' !! i = Some b -> 0 <= next <= zsum ssize (chunks b)) as Hnext.
    { intros b Hb. rewrite Ea in Hb. injection Hb as <-. destruct (proj1 Hh' i a Ea) as (_ & _ & _ & _ & Hok & _).
      pose proof (chunk_end _ _ _ Hok Hci) as Hce. pose proof (ssize_nonneg p).
      rewrite Z2Nat.id in Hce by (apply Z.div_pos; lia).
      assert (PlainChunkBytes * (at_ / PlainChunkBytes) = at_) as Eat
        by (symmetry; apply Z.div_exact; [lia|done]).
      rewrite Eat in Hce. rewrite Hz. unfold u64. rewrite Z.mod_small; lia. }
    apply wp_bind, wp_lent_exec; [done|done| |].
    { intros n x t _ E. by eapply (advance_fine _ i end_ confirmed next now st'). }
    intros r w' Ed Hl' Hs2 [[-> Ec]|(n & x & _ & E & [->| ->])]; [by apply leaves_lent| |by apply leaves_lent].
    apply wp_bind, wp_require; [intros _|by apply leaves_lent]. apply IH; [done|done|lia|done|].
    by eapply (advance_fine (set_w_disk d' w) i end_ confirmed next now st').
Qed.

Lemma chunk_sound d uid i offset bytes w : sound w -> 0 <= offset ->
  wp (chunk master_key d uid i offset bytes) (fun _ w' => sound w') w.
Proof.
  intros Hs Ho. unfold chunk. apply wp_bind, wp_require; [intros _|done].
  apply wp_bind, wp_lock; [done|]. intros Hv. apply wp_lease; [done|]. intros w1 Hl1 Hs1.
  apply wp_bind, wp_file; [done..|by intros; apply leaves_lent|]. intros w2 Ed Ec Hl2 Hs2 r _ Hr Hid.
  cbn [fst snd].
  apply wp_bind, wp_require; [intros _|by apply leaves_lent].
  apply wp_bind, wp_require; [intros Hst|by apply leaves_lent].
  apply wp_bind, wp_require; [intros Hlen|by apply leaves_lent].
  apply wp_bind, wp_require; [intros _|by apply leaves_lent].
  apply andb_true_iff in Hst as [_ Hst%bool_decide_eq_true]. apply andb_true_iff in Hlen as [Hlen _]. bool_hyps.
  pose proof Hs1 as [_ (now & st & _ & _ & Hi)].
  assert (0 <= x_total r <= MaxFileBytes) as Htot
    by (pose proof (inv_total _ _ _ Hi) as Ht; rewrite Forall_forall in Ht; auto).
  apply wp_bind. eapply wp_mono; [apply (put_pieces_sound i (offset + ssize bytes)); try done|].
  4: { intros [z|] w' Hw'; [apply wp_ret|]; exact Hw'. }
  - unfold MaxFileBytes in Htot. lia.
  - apply laid_pieces. lia.
  - rewrite Ec. intros r' Hr' Hid'. assert (r' = r) as -> by (eapply row_unique; [done..|congruence]).
    split; [done|lia].
Qed.

(** *** Publication *)

Lemma Inv_rows now t t' st : rows t' = rows t -> Inv now t st -> Inv now t' st.
Proof. intros E [H1 H2 H3 H4]. split; by rewrite E. Qed.

Lemma digest_step (w : World) st i total Q : holds master_key (w_disk w) st ->
  (forall r d', holds master_key d' st ->
     (forall a, st !! i = Some a -> zsum ssize (chunks a) = total ->
        forall x, r = Returns x -> x = sha256_hex (joined (chunks a))) -> Q r (set_w_disk d' w)) ->
  wp (on_disk (FileStore.sha256 master_key i total)) Q w.
Proof.
  intros Hh HQ. apply wp_zoom. unfold wp. apply HQ.
  - assert (forall fuel offset fed d, holds master_key d st ->
      holds master_key (sha256_from master_key fuel i offset total fed d).2 st) as H1; [|by apply H1].
    clear HQ Hh w. induction fuel as [|fuel IH]; intros offset fed d Hh; cbn [sha256_from];
      (destruct (total <=? offset); [done|]); [done|]. unfold mbind, prog_bind.
    pose proof (read_frame master_key i offset PlainChunkBytes d) as Hf.
    destruct (FileStore.read _ _ _ _ d) as [r d']. cbn [snd] in Hf. destruct Hf as (Ef & El & _).
    assert (holds master_key d' st) as Hh' by (apply (holds_same master_key d); [done|by rewrite El|done]).
    destruct r as [chunk|]; [by apply IH|done].
  - intros a Ha <- x Hx. pose proof (sha256_spec master_key i a (w_disk w) st Hh Ha) as Hs.
    destruct (FileStore.sha256 _ _ _ _) as [r d']. cbn [fst] in Hx. destruct Hs as [_ [->|[-> _]]]; congruence.
Qed.

Lemma publish_fine w now st r digest n a t : (forall m, (calls (w_db w) <= m)%nat -> now <= ck m) ->
  clock (w_db w) = ck -> holds master_key (w_disk w) st ->
  Inv now (view (w_db w)) st -> r ∈ rows (view (w_db w)) -> validId (x_id r) = true -> now < x_expires r ->
  x_uploaded r = x_total r -> digest = x_sha256 r ->
  (forall b, st !! x_id r = Some b -> zsum ssize (chunks b) = x_total r -> digest = sha256_hex (joined (chunks b))) ->
  publish_row (x_id r) (ck n) (view (w_db w)) = Some (a, t) -> fine (set_w_db (tick (w_db w)) w) t.
Proof.
  intros Hn Hck Hh Hi Hr Hv Hx Hu Hd Hdig E. unfold publish_row, update_where in E. injection E as _ <-.
  split; [done|]. exists now, st. split_and!; [intros m Hm; apply Hn; simpl in Hm; lia|done|].
  apply (Inv_map now now _ st); [lia|done|]. intros r' Hr'. simpl.
  destruct (has_id (x_id r) r' && _) eqn:Ep; (split_and!; [done..|]).
  - apply andb_true_iff in Ep as [Hid Hst%bool_decide_eq_true]. apply (has_id_row now (view (w_db w)) st) in Hid; [|done..].
    assert (r' = r) as -> by by eapply row_unique. intros _ _.
    destruct (inv_backed _ _ _ Hi r Hr) as (b & Hb & Hub & Ht & _); [unfold active; by rewrite Hst|done|].
    exists b. simpl. split_and!; [done|lia|lia|lia|]. intros _. split; [done|].
    rewrite <- Hd. symmetry. apply Hdig; [done|lia].
  - intros Ha Hx'. by apply (inv_backed _ _ _ Hi).
Qed.

Lemma complete_sound d uid i w : sound w -> wp (complete master_key d uid i) (fun _ w' => sound w') w.
Proof.
  intros Hs. unfold complete. apply wp_bind, wp_lock; [done|]. intros Hv. apply wp_lease; [done|].
  intros w1 Hl1 Hs1. apply wp_bind, wp_file; [done..|by intros; apply leaves_lent|].
  intros w2 Ed Ec Hl2 Hs2 r _ Hr Hid. cbn [fst snd]. subst i.
  apply wp_bind, wp_require; [intros _|by apply leaves_lent].
  apply wp_bind, wp_require; [intros Hst|by apply leaves_lent]. apply andb_true_iff in Hst as [Hx _].
  apply negb_true_iff in Hx. apply Z.leb_gt in Hx.
  case_bool_decide; [by apply wp_ret, leaves_lent|].
  apply wp_bind, wp_require; [intros Hu%Z.eqb_eq|by apply leaves_lent].
  pose proof Hs2 as [Hck (now & st & Hn & Hh & Hi)].
  apply wp_bind, (digest_step w2 st); [done|]. intros digest d' Hh' Hdig.
  assert (sound (set_w_disk d' w2)) as Hs3 by (split; [done|]; by exists now, st).
  destruct digest as [digest|]; [|by apply leaves_lent].
  apply wp_bind, wp_require; [intros Hd%String.eqb_eq|by apply leaves_lent].
  eapply wp_mono; [apply wp_Transaction; [done|done|]|by intros r' w' [Hlv _]]. intros w3 Hi3 Ed3 Ev3 Ek3. cbn [set_w_disk w_db w_disk] in *.
  set (c := committed (w_db w2)) in *.
  assert (now < x_expires r) as Hnow by (specialize (Hn (calls (w_db w2)) (le_n _)); lia).
  apply wp_bind, (wp_tx_exec _ c); [done| |].
  { intros n x t _ E. pose proof Hi3 as (_ & _ & [Hck3 _] & _). rewrite Ev3 in E.
    apply (publish_fine w3 now st r digest n x); rewrite ?Ev3, ?Ed3; try done.
    - intros m Hm. apply Hn. lia.
    - by rewrite Ec.
    - intros b Hb Hz. by apply (Hdig b Hb Hz). }
  intros [n|] w4 Ed4 Hi4; [|done]. apply wp_bind, wp_require; [intros _|done].
  apply wp_bind, (wp_tx_exec _ c); [done| |].
  { intros m x t _ E. destruct Hi4 as (_ & _ & _ & Hf). unfold notify in E.
    assert (rows t = rows (view (w_db w4))) as Er by (case_match; by injection E as _ <-).
    destruct Hf as [Hck4 (now4 & st4 & Hn4 & Hh4 & Hinv4)]. split; [done|]. exists now4, st4.
    split_and!; [intros k Hk; apply Hn4; simpl in Hk; lia|done|by eapply Inv_rows]. }
  intros [[]|] w5 _ Hi5; [by apply wp_ret|done].
Qed.

(** *** The routes of one attachment *)

Lemma open_file_step d uid uploads i (Q : outcome TransferRow -> World -> Prop) w : lent w -> sound w ->
  (forall w', lent w' -> sound w' -> Q Throws w') ->
  (forall w' r, w_disk w' = w_disk w -> committed (w_db w') = committed (w_db w) -> lent w' -> sound w' ->
     r ∈ rows (committed (w_db w)) -> validId i = true -> x_id r = i -> ck (calls (w_db w')) < x_expires r ->
     x_status r <> Cancelled -> Q (Returns r) w') ->
  wp (open_file d uid uploads i) Q w.
Proof.
  intros Hl Hs Ht Hq. unfold open_file. apply wp_bind, wp_file; [done..|intros; by apply Ht|].
  intros w' Ed Ec Hl' Hs' r Hv Hr Hid. cbn [fst snd].
  apply wp_bind, wp_require; [intros _|by apply Ht]. apply wp_bind, wp_require; [intros _|by apply Ht].
  apply wp_bind, wp_require; [intros Hst|by apply Ht].
  apply andb_true_iff in Hst as [Hx%negb_true_iff Hc%negb_true_iff].
  apply Z.leb_gt in Hx. apply bool_decide_eq_false in Hc. by apply wp_ret, Hq.
Qed.

(** A change of the rows under an identifier that leaves them backed, or takes
    them out of force. *)
Lemma mark_fine w i upd n a t : sound w -> validId i = true ->
  (forall r, x_id (upd (ck n) r) = x_id r /\ x_total (upd (ck n) r) = x_total r) ->
  (forall r, r ∈ rows (committed (w_db w)) -> x_id r = i ->
     active (upd (ck n) r) = true ->
     ready r = true /\ x_expires (upd (ck n) r) <= x_expires r /\ x_uploaded (upd (ck n) r) = x_uploaded r /\
     x_sha256 (upd (ck n) r) = x_sha256 r) ->
  mark_rows i upd (ck n) (committed (w_db w)) = Some (a, t) -> fine (set_w_db (tick (w_db w)) w) t.
Proof.
  intros [Hck (now & st & Hn & Hh & Hi)] Hv Hupd Hrow E. unfold mark_rows, update_where in E. injection E as _ <-.
  split; [done|]. exists now, st. split_and!; [intros m Hm; apply Hn; simpl in Hm; lia|done|].
  apply (Inv_map now now _ st); [lia|done|]. intros r Hr.
  destruct (has_id i r) eqn:Hid; [|split_and!; [done..|]; intros; by apply (inv_backed _ _ _ Hi)].
  apply (has_id_row now (committed (w_db w)) st) in Hid; [|done..].
  destruct (Hupd r) as [E1 E2]. split_and!; [done..|]. cbn iota. intros Ha Hx.
  destruct (Hrow r Hr Hid Ha) as (Hrd & Hxx & Eu & Es).
  destruct (inv_backed _ _ _ Hi r Hr) as (b & Hb & Hu & Ht & Hready); [|lia|].
  { unfold ready, active in *. by destruct (x_status r). }
  exists b. rewrite E1, E2, Eu, Es. split_and!; try done; [lia..|]. intros _. by apply Hready.
Qed.

Lemma access_sound d uid m uploads i action range w : sound w ->
  wp (access d uid m uploads i action range) (fun _ w' => sound w') w.
Proof.
  intros Hs. apply wp_bind, wp_lock; [done|]. intros Hv. apply wp_lease; [done|]. intros w1 Hl1 Hs1.
  apply wp_bind, open_file_step; try done; [intros; by apply leaves_lent|].
  intros w2 r Ed Ec Hl2 Hs2 Hr _ Hid _ _. destruct (bool_decide _ && _); [by apply wp_ret, leaves_lent|].
  destruct (bool_decide _ && _).
  { apply wp_bind, wp_require; [intros _|by apply leaves_lent].
    apply wp_bind, wp_lent_exec; [done|done|intros n a t _ E; by eapply (mark_fine w2 i set_cancelled)|].
    intros [?|] w3 _ Hl3 Hs3 _; [apply wp_ret|]; by apply leaves_lent. }
  apply wp_bind, wp_require; [intros _|by apply leaves_lent].
  apply wp_bind, wp_require; [intros Hst%bool_decide_eq_true|by apply leaves_lent].
  destruct (bool_decide _ && _).
  { apply wp_bind, wp_lent_exec; [done|done| |].
    - intros n a t _ E. eapply (mark_fine w2 i set_downloaded); try done.
      intros r' Hr' Hid' _. rewrite Ec in Hr'. pose proof Hs1 as [_ (now & st & _ & _ & Hi)].
      assert (r' = r) as -> by (eapply row_unique; [done..|congruence]). simpl.
      split_and!; [unfold ready; by destruct Hst as [->| ->]|lia|done|done].
    - intros [?|] w3 _ Hl3 Hs3 _; [apply wp_ret|]; by apply leaves_lent. }
  apply wp_bind, wp_require; [intros _|by apply leaves_lent].
  destruct (byte_range range (x_total r)) as [|[]]; [apply wp_fail|apply wp_ret]; by apply leaves_lent.
Qed.

Lemma read_sound d i offset w : sound w -> wp (read master_key d i offset) (fun _ w' => sound w') w.
Proof.
  intros Hs. apply wp_bind, wp_lock; [done|]. intros Hv. apply wp_lease; [done|]. intros w1 Hl1 Hs1.
  apply wp_bind, wp_file; [done..|by intros; apply leaves_lent|]. intros w2 Ed Ec Hl2 Hs2 r _ Hr Hid.
  apply wp_bind, wp_require; [intros _|by apply leaves_lent].
  pose proof Hs2 as [Hck (now & st & Hn & Hh & Hi)].
  apply (read_step w2 st); [done|]. intros x d' Hh'. apply leaves_lent; [|done]. split; [done|]. by exists now, st.
Qed.

(** *** New uploads *)

Lemma Inv_keep now t st st' : keeps_chunks st st' -> Inv now t st -> Inv now t st'.
Proof.
  intros Hk [H1 H2 H3 H4]. split; try done. intros r Hr Ha Hx.
  destruct (H4 r Hr Ha Hx) as (a & E & Hb). destruct (Hk _ _ E) as (a' & E' & Ec). exists a'. by rewrite Ec.
Qed.

Lemma insert_fine w now st v d uid n a t : (forall m, (calls (w_db w) <= m)%nat -> now <= ck m) ->
  clock (w_db w) = ck -> holds master_key (w_disk w) st -> Inv now (view (w_db w)) st ->
  st !! new_id d = Some (mkAttachment [] false) -> validId (new_id d) = true -> 0 <= q_total v <= MaxFileBytes ->
  insert_upload (mkTransferRecord (new_id d) uid (q_touid v) (q_name v) (q_mime v) (q_total v) 0 (q_sha256 v) Uploading)
    (q_key v) (ck n) (view (w_db w)) = Some (a, t) ->
  fine (set_w_db (tick (w_db w)) w) t.
Proof.
  intros Hn Hck Hh [H1 H2 H3 H4] Hst Hv Htot E. unfold insert_upload, insert_transfer in E. cbn in E.
  destruct (existsb _ (idempotency _)); [done|]. destruct (existsb (has_id (new_id d)) _) eqn:Ex; [done|].
  cbn [orb] in E. destruct (negb _); [done|]. injection E as _ <-. split; [done|]. exists now, st.
  split_and!; [intros m Hm; apply Hn; simpl in Hm; lia|done|].
  fold (rows (view (w_db w))) in *. split; unfold rows; cbn [base file_transfer set_transfers]; fold (rows (view (w_db w))).
  - rewrite fmap_app. apply NoDup_app. split_and!; [done| |apply NoDup_singleton].
    intros x (r & -> & Hr)%list_elem_of_fmap Hin%list_elem_of_singleton. cbn in Hin.
    assert (has_id (new_id d) r = true) as Hid by by apply bool_decide_eq_true.
    assert (existsb (has_id (new_id d)) (rows (view (w_db w))) = true); [|unfold rows in *; congruence].
    apply existsb_exists. exists r. by rewrite <- list_elem_of_In.
  - apply Forall_app. split; [done|]. by constructor.
  - apply Forall_app. split; [done|]. by constructor.
  - intros r [Hr|Hr%list_elem_of_singleton]%elem_of_app Ha Hx; [by apply H4|subst r].
    exists (mkAttachment [] false). cbn. split_and!; [done|lia|lia|lia|done].
Qed.

Lemma wp_tx_file c i Q w : intx c w -> (forall r w', intx c w' -> Q r w') -> wp (file i) Q w.
Proof.
  intros Hi HQ. apply wp_bind, wp_require; [intros _|by apply HQ].
  apply wp_bind, (wp_tx_query _ c); [done|]. intros [row|] w' _ Hi' _ _ _; [|by apply HQ].
  destruct row; [by apply wp_ret, HQ|by apply wp_fail, HQ].
Qed.

Lemma create_new_sound c d uid v w : intx c w -> ssize (new_prefix d) = 16 -> 0 <= q_total v <= MaxFileBytes ->
  wp (create_new d uid v) (fun _ w' => intx c w') w.
Proof.
  intros Hi Hp Hq. apply wp_bind, (wp_tx_query _ c); [done|]. intros [b|] w1 _ Hi1 _ _ _; [|done].
  apply wp_bind, wp_require; [intros _|done].
  apply wp_bind, (wp_tx_query _ c); [done|]. intros [u|] w2 _ Hi2 _ _ _; [|done].
  apply wp_bind, wp_require; [intros _|done]. apply wp_bind, wp_lock; [done|]. intros Hv.
  apply wp_bind, create_step; [done|]. intros r d' Hd.
  assert (forall t, fine w2 t -> fine (set_w_disk d' w2) t) as Hfine.
  { intros t [Hck (now & st & Hn & Hh & Hinv)]. destruct (Hd st Hh) as (st' & Hh' & Hk & _).
    split; [done|]. exists now, st'. split_and!; [done|done|by eapply Inv_keep]. }
  destruct Hi2 as (Hc & Ha & Hf1 & Hf2).
  assert (intx c (set_w_disk d' w2)) as Hi3 by (split_and!; [done|done|..]; by apply Hfine).
  destruct r as [[]|]; [|done]. apply wp_bind, (wp_tx_exec _ c); [done| |].
  - intros n a t _ E. destruct Hf2 as [Hck (now & st & Hn & Hh & Hinv)].
    destruct (Hd st Hh) as (st' & Hh' & Hk & Hnew).
    apply (insert_fine (set_w_disk d' w2) now st' v d uid n a); try done; [by eapply Inv_keep|by apply Hnew].
  - intros [x|] w3 _ Hi4; [by apply wp_ret|done].
Qed.

Lemma create_sound d uid v w : sound w -> ssize (new_prefix d) = 16 -> 0 <= q_total v ->
  wp (create d uid v) (fun _ w' => sound w') w.
Proof.
  intros Hs Hp Hq. do 2 (apply wp_bind, wp_require; [intros _|done]).
  apply wp_bind, wp_require; [intros Hm%Z.leb_le|done]. apply wp_lease; [done|]. intros w1 Hl1 Hs1.
  apply wp_bind. eapply wp_mono; [apply wp_Transaction; [done|done|]|].
  - intros w2 Hi2 _ _ _. set (c := committed (w_db w1)) in *.
    apply wp_bind, (wp_tx_query _ c); [done|]. intros [k|] w3 _ Hi3 _ _ _; [|done].
    apply wp_bind, wp_require; [intros _|done].
    apply wp_bind, (wp_tx_query _ c); [done|]. intros [[old|]|] w4 _ Hi4 _ _ _; [| |done].
    + apply wp_bind, (wp_tx_file c); [done|]. intros [f|] w5 Hi5; [|done].
      do 2 (apply wp_bind, wp_require; [intros _|done]). by apply wp_ret.
    + apply wp_bind. eapply wp_mono; [by apply (create_new_sound c)|]. intros [[]|] w5 Hi5; [by apply wp_ret|done].
  - intros [[f|]|] w2 [Hlv Hl2]; [by apply wp_ret| |done]. specialize (Hl2 ltac:(done)). destruct Hlv as [Hs2 _].
    apply wp_file; [done..|by intros; apply leaves_lent|by intros; apply leaves_lent].
Qed.

(** *** Clean-up and delivery *)

Lemma Inv_filter now t t' st (P : TransferRow -> Prop) `{!forall r, Decision (P r)} :
  rows t' = filter P (rows t) -> Inv now t st -> Inv now t' st.
Proof.
  intros E [H1 H2 H3 H4]. split; rewrite E.
  - eapply sublist_NoDup; [exact H1|]. apply fmap_sublist, sublist_filter.
  - rewrite Forall_forall in *. intros r [_ Hr]%list_elem_of_filter. by apply H2.
  - rewrite Forall_forall in *. intros r [_ Hr]%list_elem_of_filter. by apply H3.
  - intros r [_ Hr]%list_elem_of_filter. by apply H4.
Qed.

(** Without the file of a row that has lapsed. *)
Lemma Inv_delete now t st i : Inv now t st -> existsb (fun r => has_id i r && lapsed now r) (rows t) = true ->
  validId i = true -> Inv now t (delete i st).
Proof.
  intros Hi (r0 & Hr0%list_elem_of_In & [Hid Hlap]%andb_true_iff)%existsb_exists Hv. pose proof Hi as [H1 H2 H3 H4].
  apply (has_id_row now t st) in Hid; [|done..]. split; try done. intros r Hr Ha Hx.
  destruct (decide (x_id r = i)) as [E|E].
  - assert (r = r0) as -> by (eapply row_unique; [done..|congruence]). exfalso.
    unfold lapsed in Hlap. apply orb_true_iff in Hlap as [Hlap%Z.leb_le|Hlap%bool_decide_eq_true]; [lia|].
    unfold active in Ha. by rewrite Hlap in Ha.
  - destruct (H4 r Hr Ha Hx) as (a & Ea & Hb). exists a. by rewrite lookup_delete_ne.
Qed.

Lemma reclaim_sound d i w : lent w -> sound w ->
  wp (reclaim d i) (fun r w' => leaves r w' /\ (r <> Throws -> lent w')) w.
Proof.
  intros Hl Hs. apply wp_bind, wp_lock; [split; [by apply leaves_lent|done]|]. intros Hv.
  apply wp_Transaction; [done|done|]. intros w1 Hi1 _ Ev1 _. set (c := committed (w_db w)) in *.
  apply wp_bind, (wp_tx_query _ c); [done|]. intros [b|] w2 _ Hi2 Ev2 _ Hb; [|done].
  destruct Hb as [|Hb]; [done|]. injection Hb as Hb. destruct b; [symmetry in Hb|by apply wp_ret].
  rewrite Ev1 in Hb, Ev2. apply wp_bind, remove_step. intros r d' Hd.
  assert (intx c (set_w_disk d' w2)) as Hi3.
  { destruct Hi2 as (Hc & Ha & Hf1 & Hf2). assert (fine (set_w_disk d' w2) c) as Hf.
    { destruct Hf1 as [Hck (now & st & Hn & Hh & Hinv)]. destruct (Hd st Hh) as (st' & Hh' & Hcase).
      split; [done|]. exists (ck (calls (w_db w2))), st'. split_and!; [intros m Hm; by apply ck_mono|done|].
      apply (Inv_later now (ck (calls (w_db w2)))) in Hinv; [|by apply Hn].
      destruct Hcase as [->| ->]; [done|by apply Inv_delete]. }
    split_and!; [done|done|done|]. simpl. by rewrite Ev2. }
  destruct r as [[]|]; [|done].
  apply wp_bind, (wp_tx_exec _ c); [done| |].
  { intros n a t _ [= <- <-]. destruct Hi3 as (_ & _ & _ & [Hck (now & st & Hn & Hh & Hinv)]). split; [done|].
    exists now, st. split_and!; [intros m Hm; apply Hn; simpl in *; lia|done|by eapply Inv_rows, Hinv]. }
  intros [[]|] w4 _ Hi4; [|done]. apply wp_bind, (wp_tx_exec _ c); [done| |].
  { intros n a t _ [= <- <-]. destruct Hi4 as (_ & _ & _ & [Hck (now & st & Hn & Hh & Hinv)]). split; [done|].
    exists now, st. split_and!; [intros m Hm; apply Hn; simpl in *; lia|done|by eapply Inv_filter, Hinv]. }
  intros [[]|] w5 _ Hi5; [by apply wp_ret|done].
Qed.

Lemma reclaim_all_sound d ids : forall w, lent w -> sound w -> wp (reclaim_all d ids) leaves w.
Proof.
  induction ids as [|i ids IH]; intros w Hl Hs; [by apply wp_ret, leaves_lent|].
  apply wp_bind. eapply wp_mono; [by apply reclaim_sound|]. intros [[]|] w' [Hlv Hl']; [|done].
  apply IH; [by apply Hl'|apply Hlv].
Qed.

Lemma deliver_sound peers sent w : lent w -> sound w ->
  wp (deliver peers sent) (fun r w' => leaves r w' /\ (r <> Throws -> lent w')) w.
Proof.
  intros Hl Hs. apply wp_Transaction; [done|done|]. intros w1 Hi1 _ _ _. set (c := committed (w_db w)) in *.
  apply wp_bind, (wp_tx_query _ c); [done|]. intros [[e|]|] w2 _ Hi2 _ _ _; [|by apply wp_ret|done].
  apply (wp_tx_exec _ c); [done| |done].
  intros n a t _ [= <- <-]. destruct Hi2 as (_ & _ & _ & [Hck (now & st & Hn & Hh & Hinv)]). split; [done|].
  exists now, st. split_and!; [intros m Hm; apply Hn; simpl in *; lia|done|by eapply Inv_rows, Hinv].
Qed.

Lemma maintenance_sound peers sent d w : sound w -> wp (maintenance peers sent d) (fun _ w' => sound w') w.
Proof.
  intros Hs. apply wp_lease; [done|]. intros w1 Hl1 Hs1.
  apply wp_bind. eapply wp_mono; [by apply deliver_sound|]. intros [[]|] w2 [Hlv Hl2]; [|done].
  specialize (Hl2 ltac:(done)). destruct Hlv as [Hs2 _].
  apply wp_bind, wp_lent_query; [done..|]. intros [ids|] w3 _ _ Hl3 Hs3 _; [|by apply leaves_lent].
  by apply reclaim_all_sound.
Qed.

(** *** Requests *)

(** The values a request may carry: an unsigned size, a prefix of 16 bytes. *)
Definition request_ok (d : Draws) (req : Request) : Prop :=
  ssize (new_prefix d) = 16 /\ match upload req with Some v => 0 <= q_total v | None => True end.

Lemma handle_sound d uid req w : sound w -> request_ok d req ->
  wp (handle master_key d uid req) (fun _ w' => sound w') w.
Proof.
  intros Hs [Hp Hu]. unfold handle.
  assert (forall X (m : prog World X) g, wp m (fun _ w' => sound w') w ->
    wp (f ← m; mret (g f)) (fun (_ : outcome Response) w' => sound w') w) as Hmap.
  { intros X m g Hm. apply wp_bind. eapply wp_mono; [exact Hm|]. intros [x|] w' Hw'; [by apply wp_ret|done]. }
  destruct (_ && _); [destruct (upload req); [by apply Hmap, create_sound|by apply wp_fail]|].
  destruct (sfind "/" (target req)) as [[group rest]|]; [|by apply wp_fail].
  apply wp_bind, wp_require; [intros _|done]. cbn zeta.
  destruct (match sfind "/" rest with Some p => p | None => _ end) as [i action].
  destruct (_ && String.eqb (stake 14 action) _).
  { destruct (number (sdrop 14 action)) as [offset|] eqn:En; [|by apply wp_fail].
    apply Hmap, chunk_sound; [done|]. by eapply number_nonneg. }
  destruct (_ && bool_decide _); [by apply Hmap, complete_sound|by apply access_sound].
Qed.

(** What reaches the server: requests of authenticated users, the reads of
    running downloads, and the turns of the maintenance thread. *)
Inductive event :=
| Http (d : Draws) (uid : Z) (req : Request)
| Next (d : Draws) (id : string) (offset : Z)
| Maintain (peers : list string) (sent : string -> Event -> bool) (d : nat -> Draws).

Definition event_ok (e : event) : Prop :=
  match e with Http d _ req => request_ok d req | _ => True end.

Definition run_event (w : World) (e : event) : World :=
  match e with
  | Http d uid req => (respond master_key d uid req w).2
  | Next d id offset => (read master_key d id offset w).2
  | Maintain peers sent d => (maintenance peers sent d w).2
  end.

Lemma run_event_sound w e : event_ok e -> sound w -> sound (run_event w e).
Proof.
  intros Hok Hs. destruct e as [d uid req|d i offset|peers sent d]; cbn [run_event].
  - pose proof (handle_sound d uid req (set_w_status 503 w) Hs Hok) as Hh. unfold respond, wp in *.
    by destruct (handle _ _ _ _ _) as [[r|] w'].
  - exact (read_sound d i offset w Hs).
  - exact (maintenance_sound peers sent d w Hs).
Qed.

Lemma run_sound es : forall w, Forall event_ok es -> sound w -> sound (foldl run_event w es).
Proof.
  induction es as [|e es IH]; intros w Hok Hs; [done|]. inversion Hok; subst. cbn. by apply IH, run_event_sound.
Qed.

(** *** Downloads *)

(** The chunk with the byte at [offset]. *)
Lemma chunk_at cs : chunks_ok cs -> forall offset, 0 <= offset < zsum ssize cs ->
  exists q rest, cs !! Z.to_nat (offset / PlainChunkBytes) = Some q /\ offset mod PlainChunkBytes < ssize q /\
    sdrop (Z.to_nat offset) (joined cs) = (sdrop (Z.to_nat (offset mod PlainChunkBytes)) q ++ rest)%string.
Proof.
  assert (0 < PlainChunkBytes) as Hpos by done.
  induction cs as [|p cs IH]; intros [Hok Hfull] offset Ho; [unfold zsum in Ho; simpl in Ho; lia|].
  unfold zsum in Ho. csimpl in Ho. fold (zsum ssize cs) in Ho. inversion Hok as [|? ? Hp Hcs]; subst.
  assert (cs <> [] -> ssize p = PlainChunkBytes) as Hpf.
  { intros Hne. apply (Hfull 0%nat); [done|]. destruct cs; [done|simpl; lia]. }
  assert (cs = [] -> zsum ssize cs = 0) as Hnil by by intros ->.
  destruct (Z.lt_ge_cases offset PlainChunkBytes) as [Hlt|Hge].
  - rewrite Z.div_small, Z.mod_small by lia. assert (offset < ssize p).
    { destruct (decide (cs = [])) as [E|E]; [rewrite Hnil in Ho by done; lia|rewrite Hpf by done; lia]. }
    exists p, (joined cs). split_and!; [done|done|]. cbn [joined]. apply sdrop_app_le. unfold ssize in *. lia.
  - destruct (decide (cs = [])) as [E|E].
    { rewrite Hnil in Ho by done. unfold chunk_ok in Hp. lia. }
    specialize (Hpf E). destruct (IH ltac:(split; [done|]; intros i x Hx Hi; apply (Hfull (S i)); [done|simpl; lia])
      (offset - PlainChunkBytes) ltac:(lia)) as (q & rest & Hq & Hm & Hd).
    replace (offset - PlainChunkBytes) with (offset + (-1) * PlainChunkBytes) in Hq, Hm, Hd by lia.
    rewrite Z.div_add in Hq by lia. rewrite Z.mod_add in Hm, Hd by lia.
    exists q, rest. split_and!; [|done|].
    + assert (1 <= offset / PlainChunkBytes) by (apply Z.div_le_lower_bound; lia).
      replace (Z.to_nat (offset / PlainChunkBytes)) with (S (Z.to_nat (offset / PlainChunkBytes + -1))) by lia. done.
    + rewrite <- Hd. cbn [joined]. replace (Z.to_nat offset) with (String.length p + Z.to_nat (offset + -1 * PlainChunkBytes))%nat
        by (unfold ssize in Hpf; lia).
      rewrite <- sdrop_add. by rewrite sdrop_app.
Qed.

(** Nothing fails from now on, and it is before [expires]. *)
Definition smooth (expires : Z) (w : World) : Prop :=
  (forall n, (calls (w_db w) <= n)%nat -> oracle (w_db w) n = Fine /\ clock (w_db w) n < expires) /\
  works_from (w_disk w).

(** The rows and the files between two reads. *)
Definition serves (st : attachments) (row : TransferRow) (w : World) : Prop :=
  holds master_key (w_disk w) st /\ List.find (has_id (x_id row)) (rows (committed (w_db w))) = Some row.

Lemma read_piece d st row a k q w : validId (x_id row) = true -> ready row = true ->
  serves st row w -> st !! x_id row = Some a -> chunks a !! k = Some q ->
  wp (read master_key d (x_id row) (PlainChunkBytes * Z.of_nat k)) (fun r w' => serves st row w' /\
    (r = Returns q /\ (smooth (x_expires row) w -> smooth (x_expires row) w') \/
     r = Throws /\ ~ (smooth (x_expires row) w /\ lock_ok d = true))) w.
Proof.
  intros Hv Hrd [Hh Hf] Ha Hq. unfold read, ResourceLock. rewrite Hv. cbn [andb]. apply wp_bind.
  destruct (lock_ok d); [apply wp_ret|apply wp_throw; split; [done|right; split; [done|]; by intros [_ ?]]].
  apply wp_lease_at.
  { intros Hnf. split; [done|]. right. split; [done|]. intros [[Hs _] _]. by destruct (Hs (calls (w_db w)) (le_n _)). }
  unfold file. rewrite Hv. apply wp_bind, wp_bind, wp_ret, wp_bind, wp_on_db. unfold wp at 1, query, server_call.
  cbn [set_w_db w_db leased oracle calls tick clock view committed working default].
  destruct (oracle (w_db w) (S (calls (w_db w)))) eqn:Eo.
  2, 3: split; [done|]; right; split; [done|]; intros [[Hs _] _]; specialize (Hs (S (calls (w_db w))) ltac:(lia)) as [Hs _]; congruence.
  cbn [fst snd]. rewrite Hf. cbn [fmap option_fmap option_map]. rewrite with_id_same. apply wp_ret, wp_bind. cbn [fst snd].
  destruct (x_expires row <=? _) eqn:Ex.
  { apply wp_fail. split; [done|]. right. split; [done|]. intros [[Hs _] _].
    specialize (Hs (S (S (calls (w_db w)))) ltac:(lia)) as [_ Hs]. apply Z.leb_le in Ex. lia. }
  assert (bool_decide (x_status row = Available \/ x_status row = Downloaded) = true) as ->.
  { apply bool_decide_eq_true. unfold ready in Hrd. destruct (x_status row); auto; done. }
  apply wp_ret, wp_zoom. unfold wp. cbn [w_disk set_w_db].
  destruct (read_chunk master_key (x_id row) k a q (w_disk w) st Hh Ha Hq) as (r & d' & -> & Hh' & Hr).
  cbn [fst snd]. split; [done|]. destruct Hr as [[-> Hw]|[-> Hw]].
  - left. split; [done|]. intros [Hs Hd]. split; [|by apply Hw]. intros n Hn. apply Hs. cbn in Hn.
    destruct (returnConnection_calls (tick (leased (w_db w)))) as [Hle _]. change (calls (tick (leased (w_db w)))) with (S (S (calls (w_db w)))) in Hle. lia.
  - right. split; [done|]. by intros [[_ Hd] _].
Qed.

(** A download writes the bytes that were asked for, or some first ones when
    something fails. *)
Lemma stream_spec ds st row a : validId (x_id row) = true -> ready row = true -> st !! x_id row = Some a ->
  forall fuel offset remaining w, serves st row w -> 0 <= offset -> 0 <= remaining <= Z.of_nat fuel ->
  offset + remaining <= zsum ssize (chunks a) ->
  exists rest, stake (Z.to_nat remaining) (sdrop (Z.to_nat offset) (joined (chunks a))) =
    ((stream master_key fuel ds (x_id row) offset remaining w).1 ++ rest)%string /\
    (smooth (x_expires row) w -> (forall n, lock_ok (ds n) = true) -> rest = ""%string).
Proof.
  intros Hv Hrd Ha. assert (0 < PlainChunkBytes) as Hpos by done.
  induction fuel as [|fuel IH]; intros offset remaining w Hw Ho Hr Hend; cbn [stream].
  { destruct (Z.eqb_spec remaining 0) as [->|]; [|lia]. by exists ""%string. }
  destruct (Z.eqb_spec remaining 0) as [->|Hne]; [by exists ""%string|].
  assert (chunks_ok (chunks a)) as Hok by (destruct (proj1 (proj1 Hw) _ _ Ha) as (_ & _ & ? & _ & ? & _); done).
  destruct (chunk_at _ Hok offset ltac:(lia)) as (q & tail & Hq & Hm & Hd).
  pose proof (Z.div_pos offset PlainChunkBytes Ho Hpos) as Hdiv. pose proof (Z.mod_pos_bound offset _ Hpos) as Hmod.
  pose proof (Z.div_mod offset PlainChunkBytes ltac:(lia)) as Hdm.
  pose proof (read_piece (ds fuel) st row a _ q w Hv Hrd Hw Ha Hq) as Hread.
  rewrite Z2Nat.id in Hread by done. rewrite (Z.mul_comm _ PlainChunkBytes). unfold wp in Hread.
  destruct (read _ _ _ _ w) as [r w1]. cbn [fst snd] in Hread.
  destruct Hread as [Hw1 [[-> Hs1]|[-> Hns]]]; cycle 1.
  { exists (stake (Z.to_nat remaining) (sdrop (Z.to_nat offset) (joined (chunks a)))). split; [done|].
    intros Hs Hl. exfalso. auto. }
  replace (offset - PlainChunkBytes * (offset / PlainChunkBytes)) with (offset mod PlainChunkBytes) by lia.
  rewrite (proj2 (Z.leb_gt _ _)) by done. set (n := Z.min (ssize q - offset mod PlainChunkBytes) remaining).
  set (part := stake (Z.to_nat n) _). assert (ssize part = n) as Hn.
  { unfold part. rewrite ssize_stake, ssize_sdrop. lia. }
  assert (part = stake (Z.to_nat n) (sdrop (Z.to_nat offset) (joined (chunks a)))) as Hpart.
  { rewrite Hd, stake_app_le; [done|]. pose proof (ssize_sdrop (Z.to_nat (offset mod PlainChunkBytes)) q) as E.
    unfold ssize in *. lia. }
  rewrite Hn. destruct (IH (offset + n) (remaining - n) w1 Hw1 ltac:(lia) ltac:(lia) ltac:(lia)) as (rest & E & Hrest).
  destruct (stream _ _ _ _ _ _ w1) as [more w2]. cbn [fst] in *. exists rest. split; [|auto].
  rewrite Hpart, <- (assoc_L String.append), <- E.
  replace (Z.to_nat (offset + n)) with (Z.to_nat offset + Z.to_nat n)%nat by lia.
  rewrite <- sdrop_add, stake_add. f_equal. lia.
Qed.

Lemma byte_range_bounds range total b l : 0 <= total -> byte_range range total = inr (b, l) ->
  0 <= b /\ 0 <= l /\ b + l <= total.
Proof.
  intros Ht. unfold byte_range. destruct (sempty range); [intros [= <- <-]; lia|].
  destruct (_ || _); [done|]. destruct (sfind "-" _) as [[first last]|]; [|done].
  destruct (Z.leb_spec total 0); [done|]. cbn zeta.
  assert (forall begin finish, 0 <= begin -> finish <= total - 1 ->
    (if (begin <? total) && (begin <=? finish) then inr (begin, finish - begin + 1) else inl 416) = inr (b, l) ->
    0 <= b /\ 0 <= l /\ b + l <= total) as Hend.
  { intros begin finish Hb Hf. destruct (_ && _) eqn:E; [|done]. bool_hyps. intros [= <- <-]. lia. }
  destruct (sempty first); [destruct (number last) as [x|] eqn:Ex; [|done]; destruct (Z.leb_spec x 0); [done|]; apply Hend; lia|].
  destruct (number first) as [x|] eqn:Ex; [|done]. apply number_nonneg in Ex.
  destruct (sempty last); [apply Hend; lia|]. destruct (number last); [apply Hend; lia|done].
Qed.

Lemma wp_true {X} (m : prog World X) w : wp m (fun _ _ => True) w.
Proof. exact I. Qed.

Lemma joined_size cs : ssize (joined cs) = zsum ssize cs.
Proof.
  induction cs as [|p cs IH]; [done|]. cbn [joined]. rewrite ssize_app, IH. unfold zsum. by csimpl.
Qed.

(** What is known when a download is granted. *)
Definition granted (uid : Z) (range : string) (r : outcome Response) (w : World) : Prop :=
  forall resp i b l, r = Returns resp -> streams resp = Some (i, b, l) ->
  exists row st a, i = x_id row /\ validId i = true /\ row ∈ rows (committed (w_db w)) /\ x_receiver row = uid /\
    ready row = true /\ serves st row w /\ st !! i = Some a /\ zsum ssize (chunks a) = x_total row /\
    sha256_hex (joined (chunks a)) = x_sha256 row /\ byte_range range (x_total row) = inr (b, l).

Lemma no_stream uid range r w : (forall resp, r = Returns resp -> streams resp = None) -> granted uid range r w.
Proof. intros Hn resp i b l E Es. rewrite (Hn resp E) in Es. done. Qed.

Lemma access_granted d uid m uploads i action range w : sound w ->
  wp (access d uid m uploads i action range) (granted uid range) w.
Proof.
  intros Hs. assert (forall w', granted uid range Throws w') as Ht by (intros; by apply no_stream).
  apply wp_bind, wp_lock; [done|]. intros Hv. apply wp_lease_at; [done|].
  assert (lent (set_w_db (leased (w_db w)) w)) as Hl by done.
  assert (sound (set_w_db (leased (w_db w)) w)) as Hs1 by (apply (fine_db w); [exact Hs|done|simpl; lia]).
  set (w1 := set_w_db _ w) in *. clearbody w1.
  apply wp_bind, open_file_step; [done..|intros; done|]. intros w2 row Ed Ec Hl2 Hs2 Hr _ Hid Hx _.
  destruct (bool_decide _ && _); [apply wp_ret, no_stream; by intros ? [= <-]|].
  destruct (bool_decide _ && _).
  { apply wp_bind, wp_require; [intros _|done]. apply wp_bind.
    eapply wp_mono; [apply (wp_true _ w2)|]. intros [?|] w3 _; [|done]. apply wp_ret, no_stream. by intros ? [= <-]. }
  apply wp_bind, wp_require; [intros Hrec|done].
  apply wp_bind, wp_require; [intros Hst%bool_decide_eq_true|done].
  destruct (bool_decide _ && _).
  { apply wp_bind. eapply wp_mono; [apply (wp_true _ w2)|]. intros [?|] w3 _; [|done].
    apply wp_ret, no_stream. by intros ? [= <-]. }
  apply wp_bind, wp_require; [intros _|done].
  destruct (byte_range range (x_total row)) as [z|[b l]] eqn:Eb; [by apply wp_fail|]. apply wp_ret.
  intros resp j b' l' [= <-] [= <- <- <-]. apply andb_true_iff in Hrec as [_ Hrec%Z.eqb_eq].
  pose proof Hs2 as [Hck (now & st & Hn & Hh & Hi)]. rewrite Ec in Hi.
  assert (ready row = true) as Hrd by (unfold ready; by destruct Hst as [->| ->]).
  destruct (inv_backed _ _ _ Hi row Hr) as (a & Ha & Hup & Htot & Hready).
  { unfold active, ready in *. by destruct (x_status row). }
  { specialize (Hn (calls (w_db w2)) (le_n _)). lia. }
  destruct (Hready Hrd) as [Hu Hsha]. destruct (returnConnection_committed (w_db w2)) as (Ecm & _); [by intros _; apply Hl2|].
  exists row, st, a. cbn [w_db set_w_db]. rewrite Ecm, Ec. subst i.
  assert (List.find (has_id (x_id row)) (rows (committed (w_db w1))) = Some row) as Hfind.
  { destruct (List.find _ _) as [row'|] eqn:Ef.
    - apply find_some in Ef as [Hin%list_elem_of_In Hid%(has_id_row now (committed (w_db w1)) st)]; [|done..].
      f_equal. by eapply row_unique.
    - pose proof (find_none _ _ Ef row) as Hno. rewrite <- list_elem_of_In in Hno. specialize (Hno Hr).
      unfold has_id in Hno. by rewrite bool_decide_eq_true_2 in Hno. }
  split_and!; try done; [split; [done|by cbn; rewrite Ecm, Ec]|].
  lia.
Qed.

Lemma handle_granted d uid req w : sound w -> wp (handle master_key d uid req) (granted uid (range req)) w.
Proof.
  intros Hs. unfold handle. assert (forall w', granted uid (range req) Throws w') as Ht by (intros; by apply no_stream).
  assert (forall X (m : prog World X) g st, wp (f ← m; mret (result st (g f))) (granted uid (range req)) w) as Hmap.
  { intros X m g st. apply wp_bind. eapply wp_mono; [apply (wp_true m w)|]. intros [x|] w' _; [|done].
    apply wp_ret, no_stream. by intros ? [= <-]. }
  destruct (_ && _); [destruct (upload req); [apply Hmap|by apply wp_fail]|].
  destruct (sfind "/" (target req)) as [[group rest]|]; [|by apply wp_fail].
  apply wp_bind, wp_require; [intros _|done]. cbn zeta.
  destruct (match sfind "/" rest with Some p => p | None => _ end) as [i action].
  destruct (_ && String.eqb (stake 14 action) _).
  { destruct (number (sdrop 14 action)) as [offset|]; [apply (Hmap _ _ (fun f => f))|by apply wp_fail]. }
  destruct (_ && bool_decide _); [apply (Hmap _ _ (fun f => f))|by apply access_granted].
Qed.

(** A server that starts without attachments. *)
Definition started (w : World) : Prop :=
  clock (w_db w) = ck /\ rows (committed (w_db w)) = [] /\ files (w_disk w) = ∅.

Lemma started_sound w : started w -> sound w.
Proof.
  intros (Hck & Hr & Hf). split; [done|]. exists (ck (calls (w_db w))), ∅. split_and!; [by intros; apply ck_mono|..].
  - split; [by intros ? ? ?%lookup_empty_Some|]. intros i _ _. rewrite Hf. apply lookup_empty.
  - split; rewrite Hr; [apply NoDup_nil_2|done|done|]. by intros r ?%elem_of_nil.
Qed.

(** C19. After any requests, downloads and maintenance, and whatever failed at
    the database, the disk and the locks: a download is granted only to the
    receiver of a published attachment, for a range within it.  There are
    bytes of the announced size with the announced SHA-256, and the loop
    that serves the download writes the bytes of the range, in order and
    without gaps; it stops early only when something fails or the attachment
    expires meanwhile. *)
Theorem download_intact es w0 d uid req resp w i b l : started w0 -> Forall event_ok es ->
  respond master_key d uid req (foldl run_event w0 es) = (resp, w) -> streams resp = Some (i, b, l) ->
  exists row file, row ∈ rows (committed (w_db w)) /\ x_id row = i /\ x_receiver row = uid /\
    (x_status row = Available \/ x_status row = Downloaded) /\
    ssize file = x_total row /\ sha256_hex file = x_sha256 row /\
    byte_range (range req) (x_total row) = inr (b, l) /\ 0 <= b /\ 0 <= l /\ b + l <= ssize file /\
    forall ds, exists rest,
      stake (Z.to_nat l) (sdrop (Z.to_nat b) file) = ((stream master_key (Z.to_nat l) ds i b l w).1 ++ rest)%string /\
      (smooth (x_expires row) w -> (forall n, lock_ok (ds n) = true) -> rest = ""%string).
Proof.
  intros Hst Hok E Es. pose proof (run_sound es w0 Hok (started_sound w0 Hst)) as Hs.
  pose proof (handle_granted d uid req (set_w_status 503 _) Hs) as Hg. unfold respond, wp in *.
  destruct (handle _ _ _ _ _) as [[resp'|] w']; [|by simplify_eq/=]. injection E as -> ->.
  destruct (Hg resp i b l eq_refl Es) as (row & st & a & -> & Hv & Hr & Hu & Hrd & Hserve & Ha & Hz & Hsha & Hb).
  exists row, (joined (chunks a)). rewrite joined_size, Hz.
  assert (0 <= x_total row) as Ht by (rewrite <- Hz; apply zsum_ssize_nonneg).
  destruct (byte_range_bounds _ _ _ _ Ht Hb) as (H1 & H2 & H3). split_and!; try done.
  - unfold ready in Hrd. destruct (x_status row); auto; done.
  - intros ds. apply (stream_spec ds st row a); try done; lia.
Qed.

End Invariant.

Module Example.

#[local] Existing Instance FileStore.Example.plain_aead.
#[local] Existing Instance FileStore.Example.plain_laws.
#[local] Instance resource_collation : Collation := fold_case.

Lemma valid_weight k s : valid_at k s = true -> fold_case s = s.
Proof.
  revert k. induction s as [|c s IH]; intros k Hv; [done|]. cbn [valid_at] in Hv. apply andb_true_iff in Hv as [Hc Hv].
  cbn [fold_case]. rewrite (IH _ Hv). f_equal.
  assert (implb (Ascii.eqb c "-" || hex_char c) (negb ((65 <=? N_of_ascii c)%N && (N_of_ascii c <=? 90)%N)) = true) as Hsmall
    by (clear; revert c; apply (all_ascii (fun c => implb _ _)); by vm_compute).
  destruct (_ || _ || _ || _) in Hc; rewrite Hc, ?orb_true_r in Hsmall; cbn [orb implb] in Hsmall;
    apply negb_true_iff in Hsmall; cbv zeta; by rewrite Hsmall.
Qed.

Lemma example_weight i j : validId i = true -> validId j = true -> weight i = weight j -> i = j.
Proof.
  unfold validId. intros [_ Hi]%andb_true_iff [_ Hj]%andb_true_iff. unfold weight, resource_collation.
  by rewrite (valid_weight _ _ Hi), (valid_weight _ _ Hj).
Qed.

Definition id1 : string := FileStore.Example.id1.
Definition draws : Draws := mkDraws true id1 FileStore.Example.prefix1.

(** Two users who are friends; the concrete digest of a text is the text. *)
Definition person (uid : Z) : UserRow := mkUserRow uid "" "" "" "" "" "" 0 "".
Definition example_world : World :=
  mkWorld (mkDb (mkRTables (mkTables 2 [person 1; person 2] [] [mkFriendRow 1 2 ""; mkFriendRow 2 1 ""] [] []) [] [])
             None true 0 0 (fun n => if (n =? 1)%nat then FailsAfter else Fine) Z.of_nat)
    (mkDisk ∅ ∅ 0 (fun _ => Completes)) 0.

Definition text : string := "00112233445566778899aabbccddeeff00112233445566778899aabbccddeeff".
Definition new_upload : Upload := mkUpload 2 "notes.txt" "text/plain" 64 text "key-1".
Definition post : Request := mkRequest Post "uploads" "" "" (Some new_upload).
Definition example_events : list event :=
  [Http draws 1 post; Http draws 1 post;
   Http draws 1 (mkRequest Put ("uploads/" ++ id1 ++ "/chunks?offset=0") "" text None);
   Maintain ["chat1"] (fun _ _ => true) (fun _ => draws);
   Http draws 1 (mkRequest Post ("uploads/" ++ id1 ++ "/complete") "" "" None)].
Definition download : Request := mkRequest Get ("files/" ++ id1 ++ "/content") "bytes=2-6" "" None.
Definition example_run : Response * World :=
  respond "key" draws 2 download (foldl (run_event "key") example_world example_events).

Lemma download_intact_witness : exists row file,
  row ∈ rows (committed (w_db example_run.2)) /\ x_id row = id1 /\ x_receiver row = 2 /\
  (x_status row = Available \/ x_status row = Downloaded) /\
  ssize file = x_total row /\ sha256_hex file = x_sha256 row /\
  byte_range "bytes=2-6" (x_total row) = inr (2, 5) /\ 0 <= 2 /\ 0 <= 5 /\ 2 + 5 <= ssize file /\
  forall ds, exists rest,
    stake 5 (sdrop 2 file) = ((stream "key" 5 ds id1 2 5 example_run.2).1 ++ rest)%string /\
    (smooth (x_expires row) example_run.2 -> (forall n, lock_ok (ds n) = true) -> rest = ""%string).
Proof.
  apply (download_intact "key" example_weight Z.of_nat ltac:(intros; lia) example_events example_world draws 2 download
    (mkResponse 206 None (Some (id1, 2, 5))) _ id1 2 5); [done| |vm_compute; reflexivity|done].
  by repeat constructor.
Defined.

Example download_bytes :
  (stream "key" 5 (fun _ => draws) id1 2 5 example_run.2).1 = "11223"%string.
Proof. vm_compute. reflexivity. Qed.

End Example.
