(* ===== verification/Avatar.v ===== *)
(** Avatars of the resource server: the handler of [Service::avatar]
    ([src/servers/resource/Avatar.cpp]), the profile route of
    [Service::handle] and the avatars of [Service::maintenance]
    ([src/servers/resource/ResourceService.cpp]), over the tables of
    [src/database/migrations/002_resources.sql] and the encrypted files of
    [FileStore].

    A change of an avatar is cut in two steps, the files and the transaction,
    so that the steps of several changes interleave; between the two its
    connection is idle and its [ResourceLock] is held.  The JSON of a column
    or a body is its members. *)
From S2P Require Import Prelude Mysql Schema FileDao FileStore ResourceSupport AvatarImage Resource.

(** ** Tables *)

Record Variant := mkVariant { v_id : string; v_bytes : Z }.

(** A row of [resource_avatar]; the members of [variants] in the order they
    were added. *)
Record AvatarRow := mkAvatarRow {
  av_id : string; av_owner : Z; av_variants : list (string * Variant); av_expires : option Z }.

(** The columns of [user] that the service reads; a NULL [avatar_id] reads as
    the empty string. *)
Record Profile := mkProfile { p_uid : Z; p_avatar : string; p_version : Z }.

(** A row of [resource_outbox] of the kind avatar. *)
Record Change := mkChange { c_key : string; c_uid : Z; c_avatar : string; c_version : Z }.

Record ATables := mkATables { users : list Profile; avatars : list AvatarRow; changes : list Change }.

#[global] Instance Variant_eq_dec : EqDecision Variant.
Proof. solve_decision. Defined.
#[global] Instance AvatarRow_eq_dec : EqDecision AvatarRow.
Proof. solve_decision. Defined.
#[global] Instance Profile_eq_dec : EqDecision Profile.
Proof. solve_decision. Defined.

Abbreviation AWorld := (ResourceSupport.World ATables).

Definition set_avatars (l : list AvatarRow) (t : ATables) : ATables := mkATables (users t) l (changes t).
Definition set_users (l : list Profile) (t : ATables) : ATables := mkATables l (avatars t) (changes t).
Definition set_changes (l : list Change) (t : ATables) : ATables := mkATables (users t) (avatars t) l.

Definition with_variants (vs : list (string * Variant)) (r : AvatarRow) : AvatarRow :=
  mkAvatarRow (av_id r) (av_owner r) vs (av_expires r).
Definition with_expires (e : option Z) (r : AvatarRow) : AvatarRow :=
  mkAvatarRow (av_id r) (av_owner r) (av_variants r) e.

Definition day : Z := 86400.

Section Statements.
Context `{Collation}.

Definition is_avatar (id : string) (r : AvatarRow) : bool := bool_decide (weight (av_id r) = weight id).
Definition shows (id : string) (p : Profile) : bool := bool_decide (weight (p_avatar p) = weight id).
Definition is_user (uid : Z) (p : Profile) : bool := p_uid p =? uid.

(** [INSERT INTO resource_avatar]: the primary key, the owner exists. *)
Definition insert_avatar (id : string) (uid now : Z) (t : ATables) : option (Z * ATables) :=
  if existsb (is_avatar id) (avatars t) || negb (existsb (is_user uid) (users t)) then None
  else Some (1, set_avatars (avatars t ++ [mkAvatarRow id uid [] (Some (now + day))]) t).

(** [UPDATE resource_avatar SET ... WHERE id=?] *)
Definition update_avatar (id : string) (f : Z -> AvatarRow -> AvatarRow) (now : Z) (t : ATables) : option (Z * ATables) :=
  let '(n, l) := update_where (is_avatar id) (f now) (avatars t) in
  Some (n, set_avatars l t).

(** [UPDATE user SET avatar_id=?,avatar_version=avatar_version+1 WHERE uid=?];
    the column is a [BIGINT UNSIGNED]. *)
Definition change_profile (uid : Z) (id : string) (now : Z) (t : ATables) : option (Z * ATables) :=
  if existsb (fun p => is_user uid p && (2 ^ 64 <=? p_version p + 1)) (users t) then None
  else let '(n, l) := update_where (is_user uid) (fun p => mkProfile (p_uid p) id (p_version p + 1)) (users t) in
       Some (n, set_users l t).

Definition notify (c : Change) (now : Z) (t : ATables) : option (unit * ATables) :=
  if existsb (fun e => bool_decide (weight (c_key e) = weight (c_key c))) (changes t) then Some (tt, t)
  else Some (tt, set_changes (changes t ++ [c]) t).

Definition delete_avatar (id : string) (now : Z) (t : ATables) : option (unit * ATables) :=
  Some (tt, set_avatars (filter (fun r => is_avatar id r = false) (avatars t)) t).

End Statements.

(** ** [Service::avatar] *)

(** What is drawn for a change: the identifier of the avatar, and of each size
    the identifier and the nonce prefix of its file. *)
Record AvatarDraws := mkAvatarDraws { a_id : string; a_files : list (string * string) }.

Record AvatarRequest := mkAvatarRequest {
  a_method : verb; a_path : string; a_body : string; a_if_match : string; a_if_none_match : string }.

(** The body of a change, a picture with its [ETag], or status 304. *)
Inductive answer := Changed (uid : Z) (avatar_id : string) (version : Z) | Png (etag body : string) | NotModified (etag : string).

Definition sizes : list Z := [64; 128; 256].

Definition quote : string := String (byte_of 34) EmptyString.

(** The version of an [If-Match] header, without its quotes. *)
Definition unquote (version : string) : string :=
  if (2 <=? ssize version) && String.eqb (stake 1 version) quote && String.eqb (sdrop (String.length version - 1) version) quote
  then stake (String.length version - 2) (sdrop 1 version) else version.

Definition member {A} (k : string) (l : list (string * A)) : option A :=
  snd <$> List.find (fun e => String.eqb e.1 k) l.

(** The members of a JSON object in the order of their names. *)
Definition in_order (l : list (string * Variant)) : list Variant :=
  omap (fun k => member k l) ["128"; "256"; "64"]%string.

Section Avatar.
Context `{Collation} `{Aead} `{Codec} (master_key : string).

(** The loop that appends a thumbnail in chunks. *)
Fixpoint append_all (variant : string) (parts : list string) (at_ : Z) : prog AWorld unit :=
  match parts with
  | [] => mret tt
  | part :: parts =>
      on_disk (FileStore.append master_key variant at_ part) ;;
      append_all variant parts (at_ + PlainChunkBytes)
  end.

(** One size of a change: its member of [variants], its file. *)
Definition make_variant (id variant prefix output : string) (variants : list (string * Variant)) : prog AWorld unit :=
  on_db (exec (update_avatar id (fun _ => with_variants variants))) ;;
  on_disk (FileStore.create variant prefix) ;;
  append_all variant (pieces (String.length output) output) 0.

(** The loop over the sizes.  A thumbnail of a decoded picture is always
    computed. *)
Fixpoint make_variants (image : Image) (id : string) (todo : list (Z * (string * string)))
    (variants : list (string * Variant)) : prog AWorld unit :=
  match todo with
  | [] => mret tt
  | (size, (variant, prefix)) :: todo =>
      match thumbnail image size with
      | None => throw
      | Some (inl status) => fail status
      | Some (inr output) =>
          let variants := variants ++ [(to_string size, mkVariant variant (ssize output))] in
          make_variant id variant prefix output variants ;;
          make_variants image id todo variants
      end
  end.

(** A change up to its transaction; its expected version. *)
Definition stage (obtained : bool) (d : AvatarDraws) (uid : Z) (req : AvatarRequest) : prog AWorld Z :=
  require (negb (sempty (a_body req)) && (ssize (a_body req) <=? 5 * 1024 * 1024)) 413 ;;
  require (negb (sempty (a_if_match req))) 428 ;;
  match number (unquote (a_if_match req)) with
  | None => fail 400
  | Some expected =>
      match decode (a_body req) with
      | inl status => fail status
      | inr image =>
          on_db (exec (insert_avatar (a_id d) uid)) ;;
          ResourceLock obtained (a_id d) ;;
          make_variants image (a_id d) (zip sizes (a_files d)) [] ;;
          mret expected
      end
  end.

(** Its transaction and its answer. *)
Definition publish (uid expected : Z) (id : string) : prog AWorld answer :=
  Transaction (
    row ← on_db (query (fun _ t => List.find (is_user uid) (users t)));
    match row with
    | None => fail 403
    | Some row =>
        require (p_version row =? expected) 412 ;;
        on_db (exec (change_profile uid id)) ;;
        on_db (exec (update_avatar id (fun _ => with_expires None))) ;;
        (if sempty (p_avatar row) then mret 0
         else on_db (exec (update_avatar (p_avatar row) (fun now => with_expires (Some (now + day)))))) ;;
        on_db (exec (notify (mkChange ("avatar:" ++ id) uid id (u64 (expected + 1))))) ;;
        mret (Changed uid id (u64 (expected + 1)))
    end).

(** The loop that reads a picture from the store; each turn reads a chunk. *)
Fixpoint load (fuel : nat) (variant : string) (at_ total : Z) (body : string) : prog AWorld string :=
  if total <=? at_ then mret body
  else match fuel with
       | O => throw
       | S fuel =>
           bytes ← on_disk (FileStore.read master_key variant at_ PlainChunkBytes);
           load fuel variant (at_ + PlainChunkBytes) total (body ++ bytes)
       end.

Definition prefix_path : string := "/api/resources/v1/avatars/".

Definition get_avatar (obtained : string -> bool) (req : AvatarRequest) : prog AWorld answer :=
  require (bool_decide (a_method req = Get) && String.prefix prefix_path (a_path req)) 404 ;;
  match sfind "/" (sdrop (String.length prefix_path) (a_path req)) with
  | None => fail 404
  | Some (id, size) =>
      require (validId id && (String.eqb size "64" || String.eqb size "128" || String.eqb size "256")) 400 ;;
      ResourceLock (obtained id) id ;;
      row ← on_db (query (fun now t => List.find (fun r => is_avatar id r &&
        match av_expires r with None => true | Some e => now <? e end) (avatars t)));
      match row with
      | None => fail 404
      | Some row =>
          match member size (av_variants row) with
          | None => fail 404
          | Some variant =>
              let etag := (quote ++ id ++ ":" ++ size ++ quote)%string in
              if String.eqb (a_if_none_match req) etag then mret (NotModified etag)
              else
                require (v_bytes variant <=? 1024 * 1024) 503 ;;
                body ← load (Z.to_nat (v_bytes variant)) (v_id variant) 0 (v_bytes variant) "";
                mret (Png etag body)
          end
      end
  end.

Definition is_put (req : AvatarRequest) : bool :=
  String.eqb (a_path req) "/api/resources/v1/users/me/avatar" && bool_decide (a_method req = Put).

Definition avatar (obtained : string -> bool) (d : AvatarDraws) (uid : Z) (req : AvatarRequest) : prog AWorld answer :=
  lease (
    if is_put req then
      expected ← stage (obtained (a_id d)) d uid req;
      publish uid expected (a_id d)
    else get_avatar obtained req).

(** The route [users/<uid>/avatar] of a profile: the avatar and its version. *)
Definition profile (target : string) : prog AWorld (string * Z) :=
  match number (stake (String.length target - 13) (sdrop 6 target)) with
  | None => fail 400
  | Some uid =>
      lease (
        row ← on_db (query (fun _ t => List.find (is_user uid) (users t)));
        match row with
        | None => fail 404
        | Some p => mret (p_avatar p, p_version p)
        end)
  end.

(** ** The avatars of [maintenance] *)

Definition lapsed_avatar (now : Z) (r : AvatarRow) : bool :=
  match av_expires r with Some e => e <=? now | None => false end.

Fixpoint remove_all (l : list Variant) : prog AWorld unit :=
  match l with
  | [] => mret tt
  | v :: l => on_disk (FileStore.remove (v_id v)) ;; remove_all l
  end.

Definition reclaim_avatar (obtained : string -> bool) (id : string) : prog AWorld unit :=
  ResourceLock (obtained id) id ;;
  Transaction (
    row ← on_db (query (fun now t =>
      if existsb (shows id) (users t) then None
      else List.find (fun r => is_avatar id r && lapsed_avatar now r) (avatars t)));
    match row with
    | None => mret tt
    | Some row =>
        remove_all (in_order (av_variants row)) ;;
        on_db (exec (delete_avatar id)) ;;
        mret tt
    end).

Fixpoint reclaim_avatars (obtained : string -> bool) (ids : list string) : prog AWorld unit :=
  match ids with
  | [] => mret tt
  | id :: ids => reclaim_avatar obtained id ;; reclaim_avatars obtained ids
  end.

Definition maintain_avatars (obtained : string -> bool) : prog AWorld unit :=
  lease (
    ids ← on_db (query (fun now t => av_id <$> take 16 (filter (fun r => lapsed_avatar now r = true) (avatars t))));
    reclaim_avatars obtained ids).

End Avatar.

(** ** Steps of several users *)

(** A change between its two steps. *)
Record Staged := mkStaged { s_uid : Z; s_expected : Z; s_id : string }.

(** [answered] are the changes answered with 200: the user and the version that
    was expected. *)
Record State := mkState { here : AWorld; in_flight : list Staged; answered : list (Z * Z) }.

Inductive event :=
| Starts (obtained : bool) (d : AvatarDraws) (uid : Z) (req : AvatarRequest)
| Publishes (i : nat)
| Asks (obtained : string -> bool) (req : AvatarRequest)
| Maintains (obtained : string -> bool).

Section Steps.
Context `{Collation} `{Aead} `{Codec} (master_key : string).

(** The lock of a change under way is not to be had. *)
Definition free (obtained : string -> bool) (s : State) (id : string) : bool :=
  obtained id && negb (existsb (fun x => String.eqb (s_id x) id) (in_flight s)).

Definition returned (w : AWorld) : AWorld := set_w_db (returnConnection (w_db w)) w.

(** The connection of a change under way: idle. *)
Definition resumed (w : AWorld) : AWorld :=
  set_w_db (mkDb (committed (w_db w)) None true (borrowed (w_db w)) (calls (w_db w)) (oracle (w_db w)) (clock (w_db w))) w.

Definition start (obtained : bool) (d : AvatarDraws) (uid : Z) (req : AvatarRequest) (w : AWorld) : option Z * AWorld :=
  match on_db getConnection w with
  | (Returns true, w) =>
      match stage master_key obtained d uid req w with
      | (Returns expected, w) => (Some expected, w)
      | (Throws, w) => (None, returned w)
      end
  | (_, w) => (None, w)
  end.

Definition run_event (s : State) (e : event) : State :=
  match e with
  | Starts obtained d uid req =>
      match start obtained d uid req (here s) with
      | (Some expected, w) => mkState w (in_flight s ++ [mkStaged uid expected (a_id d)]) (answered s)
      | (None, w) => mkState w (in_flight s) (answered s)
      end
  | Publishes i =>
      match in_flight s !! i with
      | None => s
      | Some x =>
          match publish (s_uid x) (s_expected x) (s_id x) (resumed (here s)) with
          | (Returns _, w) => mkState (returned w) (delete i (in_flight s)) (answered s ++ [(s_uid x, s_expected x)])
          | (Throws, w) => mkState (returned w) (delete i (in_flight s)) (answered s)
          end
      end
  | Asks obtained req => mkState (lease (get_avatar master_key (free obtained s) req) (here s)).2 (in_flight s) (answered s)
  | Maintains obtained => mkState (maintain_avatars (free obtained s) (here s)).2 (in_flight s) (answered s)
  end.

(** The draws and the picture of every change that was started. *)
Definition uploads (l : list event) : list (AvatarDraws * string) :=
  omap (fun e => match e with Starts _ d _ req => Some (d, a_body req) | _ => None end) l.

(** File [vid] is to hold [out], the thumbnail of size [s] of the upload [u]. *)
Definition made (u : AvatarDraws * string) (s vid out : string) : Prop :=
  exists image size prefix, decode u.2 = inr image /\ (size, (vid, prefix)) ∈ zip sizes (a_files u.1) /\
    s = to_string size /\ thumbnail image size = Some (inr out).

(** The draws of UUIDs are different, and of the right shape. *)
Definition draws_ok (d : AvatarDraws) : Prop :=
  validId (a_id d) = true /\ length (a_files d) = 3%nat /\ Forall (fun f => ssize f.2 = 16) (a_files d).

Definition distinct (ups : list (AvatarDraws * string)) : Prop :=
  NoDup ((fun u => a_id u.1) <$> ups) /\ NoDup (ups ≫= fun u => (a_files u.1).*1).

End Steps.

(** A change whose steps are not separated is the handler of the request. *)
Lemma put_two_steps `{Collation} `{Aead} `{Codec} master_key obtained d uid req w expected w1 : is_put req = true ->
  start master_key (obtained (a_id d)) d uid req w = (Some expected, w1) -> lent w1 ->
  avatar master_key obtained d uid req w =
    (let '(r, w2) := publish uid expected (a_id d) (resumed w1) in (r, returned w2)).
Proof.
  intros Hp Es [Ha Hw]. assert (resumed w1 = w1) as ->.
  { destruct w1 as [[c k a b n o t] d1 st]. cbn in *. unfold resumed. cbn. by rewrite Ha, Hw. }
  unfold start in Es. unfold avatar. rewrite Hp. unfold lease, mbind, prog_bind.
  destruct (on_db getConnection w) as [[[]|] w0]; try done. unfold finally, mbind, prog_bind.
  destruct (stage _ _ _ _ _ w0) as [[e|] w2]; [|done]. injection Es as -> ->. done.
Qed.

(** ** Pieces *)

(** [pieces] with the size of a piece as an argument. *)
Fixpoint pieces_of (n fuel : nat) (bytes : string) : list string :=
  if sempty bytes then []
  else match fuel with O => [] | S fuel => stake n bytes :: pieces_of n fuel (sdrop n bytes) end.

Lemma pieces_of_whole n fuel : (0 < n)%nat -> forall bytes, (String.length bytes <= fuel)%nat ->
  joined (pieces_of n fuel bytes) = bytes /\
  forall k p, pieces_of n fuel bytes !! k = Some p ->
    1 <= ssize p <= Z.of_nat n /\ ((S k < length (pieces_of n fuel bytes))%nat -> ssize p = Z.of_nat n).
Proof.
  intros Hpos. induction fuel as [|fuel IH]; intros bytes Hl; cbn [pieces_of].
  { assert (bytes = ""%string) as -> by (destruct bytes; [done|simpl in Hl; lia]). done. }
  destruct (sempty bytes) eqn:E; [destruct bytes; [done|done]|].
  rewrite sempty_ssize in E. apply Z.eqb_neq in E. pose proof (ssize_nonneg bytes).
  destruct (IH (sdrop n bytes)) as [H1 H2].
  { pose proof (ssize_sdrop n bytes). unfold ssize in *. lia. }
  cbn [joined]. rewrite H1, stake_sdrop. split; [done|]. intros [|k] p Hk; cbn in Hk.
  - injection Hk as <-. rewrite ssize_stake. split; [lia|]. cbn [length]. intros Hn.
    destruct (Z.le_gt_cases (Z.of_nat n) (ssize bytes)); [lia|exfalso].
    assert (sempty (sdrop n bytes) = true) as Hd by (rewrite sempty_ssize, ssize_sdrop; apply Z.eqb_eq; lia).
    destruct fuel; cbn [pieces_of] in Hn; rewrite Hd in Hn; cbn [length] in Hn; lia.
  - destruct (H2 k p Hk) as [H3 H4]. split; [done|]. cbn [length]. intros Hn. apply H4. lia.
Qed.

Lemma pieces_eq fuel : forall bytes, pieces fuel bytes = pieces_of (Z.to_nat PlainChunkBytes) fuel bytes.
Proof. induction fuel as [|fuel IH]; intros bytes; cbn [pieces pieces_of]; [done|]. by rewrite IH. Qed.

Lemma pieces_whole bytes : let cs := pieces (String.length bytes) bytes in
  joined cs = bytes /\ forall k p, cs !! k = Some p -> chunk_ok p /\ ((S k < length cs)%nat -> full p).
Proof.
  rewrite pieces_eq. unfold chunk_ok, full.
  assert (0 < PlainChunkBytes) as Hpos by done. revert Hpos. generalize PlainChunkBytes as c. intros c Hpos.
  destruct (pieces_of_whole (Z.to_nat c) (String.length bytes) ltac:(lia) bytes (le_n _)) as [H1 H2].
  rewrite Z2Nat.id in H2 by lia. done.
Qed.

(** The pieces of [out]. *)
Definition cut (out : string) : list string := pieces (String.length out) out.

Lemma cut_size out : zsum ssize (cut out) = ssize out.
Proof. rewrite <- joined_size. unfold cut. by rewrite (proj1 (pieces_whole out)). Qed.

Lemma cut_joined out : joined (cut out) = out.
Proof. apply pieces_whole. Qed.

(** A part of the pieces with all the bytes is all of them. *)
Lemma cut_take out n : zsum ssize (take n (cut out)) = ssize out -> take n (cut out) = cut out.
Proof.
  intros E. rewrite <- (cut_size out) in E. rewrite <- (take_drop n (cut out)) in E at 2. rewrite zsum_app in E.
  destruct (drop n (cut out)) as [|p l] eqn:Ed; [by rewrite <- (take_drop n (cut out)) at 2; rewrite Ed, app_nil_r|exfalso].
  assert (cut out !! n = Some p) as Hp by (rewrite <- (Nat.add_0_r n), <- lookup_drop, Ed; done).
  destruct (proj2 (pieces_whole out) _ _ Hp) as [Hok _]. unfold chunk_ok in Hok.
  pose proof (zsum_ssize_nonneg l). unfold zsum in *. csimpl in E. lia.
Qed.

(** ** The invariant *)

(** An element of two parts of a concatenation without duplicates. *)
Lemma NoDup_bind_eq {A B} (f : A -> list B) l x y b : NoDup (l ≫= f) -> x ∈ l -> y ∈ l -> b ∈ f x -> b ∈ f y -> x = y.
Proof.
  induction l as [|z l IH]; csimpl; [set_solver|]. intros (_ & Hd & Hl)%NoDup_app Hx Hy Hbx Hby.
  assert (forall y, y ∈ l -> b ∈ f y -> b ∈ l ≫= f) as Hin by (intros y' Hy' Hb; apply list_elem_of_bind; by exists y').
  apply elem_of_cons in Hx as [->|Hx]; apply elem_of_cons in Hy as [->|Hy]; try done; [| |by apply IH];
    exfalso; eapply Hd; eauto.
Qed.

Lemma create_exact i prefix f r st st' : allowed (Create i prefix) f r st st' ->
  (forall j, j <> i -> st' !! j = st !! j) /\
  (forall a', st' !! i = Some a' -> chunks a' = [] \/ exists a, st !! i = Some a /\ chunks a' = chunks a) /\
  (forall a, st !! i = Some a -> exists a', st' !! i = Some a' /\ chunks a' = chunks a) /\
  (r = Returns Done -> st' !! i = Some (mkAttachment [] false)).
Proof.
  intros Ha. assert (forall st2, st2 = (spec (Create i prefix) st).2 \/ st2 = st \/ st2 = break_off i st ->
    (forall j, j <> i -> st2 !! j = st !! j) /\
    (forall a', st2 !! i = Some a' -> chunks a' = [] \/ exists a, st !! i = Some a /\ chunks a' = chunks a) /\
    (forall a, st !! i = Some a -> exists a', st2 !! i = Some a' /\ chunks a' = chunks a)) as Hc.
  { intros st2 [->|[->| ->]]; [|naive_solver|].
    - unfold spec. destruct (negb _); cbn [snd]; [naive_solver|]. destruct (st !! i) eqn:E; cbn [snd]; [naive_solver|].
      split_and!; [intros j Hj; by rewrite lookup_insert_ne| |done]. intros a'. rewrite lookup_insert_eq. intros [= <-]. by left.
    - unfold break_off. destruct (st !! i) as [b|] eqn:E; (split_and!; [intros j Hj; by rewrite lookup_insert_ne| |]);
        try (intros a; rewrite lookup_insert_eq; intros [= <-]); try done; [right; by exists b|by eexists|by left]. }
  assert (st' = (spec (Create i prefix) st).2 \/ st' = st \/ st' = break_off i st) as Hst.
  { unfold allowed, interrupted in Ha. destruct f; [left; by rewrite Ha|tauto..]. }
  destruct (Hc st' Hst) as (H1 & H2 & H3). split_and!; try done. intros ->.
  unfold allowed in Ha. destruct f; [|by destruct Ha..]. unfold spec in Ha. destruct (negb _); [done|].
  destruct (st !! i); [done|]. injection Ha as <-. by rewrite lookup_insert_eq.
Qed.

Lemma append_exact i at_ p f r st st' a : allowed (Append i at_ p) f r st st' -> st !! i = Some a ->
  (forall j, j <> i -> st' !! j = st !! j) /\
  exists a', st' !! i = Some a' /\
    (chunks a' = chunks a \/ chunks a' = chunks a ++ [p] /\ length (chunks a) = Z.to_nat (at_ / PlainChunkBytes)).
Proof.
  intros Ha Ea. assert (st' = (spec (Append i at_ p) st).2 \/ st' = st \/ st' = break_off i st) as Hst.
  { unfold allowed, interrupted in Ha. destruct f; [left; by rewrite Ha|tauto..]. }
  destruct Hst as [->|[->| ->]]; [|naive_solver|].
  - unfold spec. destruct (negb _); [naive_solver|]. case_decide; [|naive_solver]. rewrite Ea.
    unfold spec_append. cbn zeta. destruct (chunks a !! _); [|case_decide as Hg]; cbn [snd];
      (split; [intros j Hj; by rewrite lookup_insert_ne|]); eexists; (split; [by rewrite lookup_insert_eq|]); auto.
    right. split; [done|]. by destruct Hg as [-> _].
  - unfold break_off. rewrite Ea. split; [intros j Hj; by rewrite lookup_insert_ne|]. eexists.
    split; [by rewrite lookup_insert_eq|by left].
Qed.

Section Invariant.
Context `{Collation} `{A : Aead} `{!AeadLaws A} `{CL : CodecLaws} (master_key : string).

(** The collation of the schema tells identifiers apart. *)
Context (id_weight : forall i j, validId i = true -> validId j = true -> weight i = weight j -> i = j).
Context (ck : nat -> Z).

(** The changes of a trace. *)
Context (ups : list (AvatarDraws * string)) (ups_distinct : distinct ups) (ups_ok : Forall (fun u => draws_ok u.1) ups).

Lemma made_file u s vid out : made u s vid out -> vid ∈ (a_files u.1).*1.
Proof.
  intros (image & size & prefix & _ & Hz & _). apply list_elem_of_lookup in Hz as [i Hi].
  apply lookup_zip_Some in Hi as [_ Hi]. apply list_elem_of_fmap. exists (vid, prefix). split; [done|].
  by eapply list_elem_of_lookup_2.
Qed.

(** The size decides the file and its contents. *)
Lemma made_size u s vid vid' out out' : made u s vid out -> made u s vid' out' -> vid = vid' /\ out = out'.
Proof.
  intros (image & size & prefix & Hd & Hz & -> & Ht) (image' & size' & prefix' & Hd' & Hz' & Es & Ht').
  assert (size = size') as <-.
  { apply (f_equal decimal) in Es. rewrite !decimal_to_string in Es. congruence. }
  rewrite Hd in Hd'. injection Hd' as <-. rewrite Ht in Ht'. injection Ht' as <-.
  apply list_elem_of_lookup in Hz as [i Hi], Hz' as [j Hj].
  apply lookup_zip_Some in Hi as [Hi1 Hi2], Hj as [Hj1 Hj2].
  assert (NoDup sizes) as Hn by (unfold sizes; repeat constructor; set_solver).
  assert (i = j) as <- by (eapply NoDup_lookup; eauto). rewrite Hi2 in Hj2. by injection Hj2 as <- <-.
Qed.

(** A file belongs to one size of one change. *)
Lemma made_once u u' s s' vid out out' : u ∈ ups -> u' ∈ ups -> made u s vid out -> made u' s' vid out' ->
  u = u' /\ s = s' /\ out = out'.
Proof.
  intros Hu Hu' Hm Hm'. assert (u = u') as <-.
  { eapply (NoDup_bind_eq (fun u => (a_files u.1).*1)); [apply ups_distinct|done|done|by eapply made_file..]. }
  assert (s = s') as <-; [|split_and!; try done; by eapply made_size].
  destruct Hm as (? & size & prefix & _ & Hz & -> & _), Hm' as (? & size' & prefix' & _ & Hz' & -> & _).
  apply list_elem_of_lookup in Hz as [i Hi], Hz' as [j Hj].
  apply lookup_zip_Some in Hi as [Hi1 Hi2], Hj as [Hj1 Hj2].
  assert (NoDup (a_files u.1).*1) as Hn.
  { destruct ups_distinct as [_ Hd]. clear -Hd Hu. induction ups as [|x l IH]; [set_solver|].
    csimpl in Hd. apply NoDup_app in Hd as (H1 & _ & H2). apply elem_of_cons in Hu as [->|Hu]; auto. }
  assert (i = j) as <-; [|congruence].
  eapply (NoDup_lookup (a_files u.1).*1 _ _ vid); [done|..]; by rewrite list_lookup_fmap, ?Hi2, ?Hj2.
Qed.

Definition stored (st : attachments) (e : string * Variant) : Prop :=
  exists a, st !! v_id e.2 = Some a /\ zsum ssize (chunks a) = v_bytes e.2.

(** All sizes are there, with their files. *)
Definition complete (st : attachments) (r : AvatarRow) : Prop :=
  (forall size, size ∈ sizes -> exists v, (to_string size, v) ∈ av_variants r) /\ Forall (stored st) (av_variants r).

Definition variants_of (u : AvatarDraws * string) (vs : list (string * Variant)) : Prop :=
  forall s v, (s, v) ∈ vs -> exists out, made u s (v_id v) out /\ v_bytes v = ssize out.

(** Every row belongs to a change, every file is a part of its thumbnail, and
    the avatars shown by a profile or about to be ([F]) are complete. *)
Record Inv (F : list string) (X : ATables -> attachments -> Prop) (now : Z) (t : ATables) (st : attachments) : Prop := {
  i_key : NoDup (av_id <$> avatars t);
  i_rows : forall r, r ∈ avatars t -> exists u, u ∈ ups /\ av_id r = a_id u.1 /\ variants_of u (av_variants r);
  i_files : forall u s vid out a, u ∈ ups -> made u s vid out -> st !! vid = Some a -> exists n, chunks a = take n (cut out);
  i_users : forall p, p ∈ users t -> p_avatar p <> ""%string ->
    exists r, r ∈ avatars t /\ av_id r = p_avatar p /\ av_expires r = None /\ complete st r;
  i_flight : forall i, i ∈ F ->
    (exists r, r ∈ avatars t /\ av_id r = i /\ complete st r) /\ forall p, p ∈ users t -> p_avatar p <> i;
  i_uid : NoDup (p_uid <$> users t);
  i_one : forall p p', p ∈ users t -> p' ∈ users t -> p_avatar p <> ""%string -> p_avatar p = p_avatar p' -> p = p';
  i_more : X t st }.

Abbreviation fine F X := (ResourceSupport.fine master_key (Inv F X) ck).
Abbreviation sound F X := (ResourceSupport.sound master_key (Inv F X) ck).

Lemma Inv_weaken F X Y now t st : (X t st -> Y t st) -> Inv F X now t st -> Inv F Y now t st.
Proof. intros HXY [H1 H2 H3 H4 H5 H6 H7 H8]. split; auto. Qed.

Lemma sound_weaken F (X Y : ATables -> attachments -> Prop) w : (forall st, X (committed (w_db w)) st -> Y (committed (w_db w)) st) ->
  sound F X w -> sound F Y w.
Proof.
  intros HXY [Hck (now & st & Hn & Hh & Hi)]. split; [done|]. exists now, st. split_and!; try done.
  exact (Inv_weaken _ _ _ _ _ _ (HXY st) Hi).
Qed.

Lemma upload_id u u' : u ∈ ups -> u' ∈ ups -> a_id u.1 = a_id u'.1 -> u = u'.
Proof. intros Hu Hu' E. by apply (NoDup_fmap_eq (fun u => a_id u.1) ups); [apply ups_distinct|..]. Qed.

Lemma row_valid F X now t st r : Inv F X now t st -> r ∈ avatars t -> validId (av_id r) = true.
Proof.
  intros Hi Hr. destruct (i_rows _ _ _ _ _ Hi r Hr) as (u & Hu & -> & _).
  rewrite Forall_forall in ups_ok. by apply ups_ok.
Qed.

Lemma is_avatar_row F X now t st i r : Inv F X now t st -> validId i = true -> r ∈ avatars t ->
  is_avatar i r = true <-> av_id r = i.
Proof.
  intros Hi Hv Hr. unfold is_avatar. rewrite bool_decide_eq_true. split; [|by intros ->].
  intros E. apply id_weight; [by eapply row_valid|done|done].
Qed.

(** The files of a change that is neither shown nor about to be may change. *)
Lemma Inv_disk F X Y u now t st st' : u ∈ ups -> a_id u.1 ∉ F -> (forall p, p ∈ users t -> p_avatar p <> a_id u.1) ->
  (forall j, j ∉ (a_files u.1).*1 -> st' !! j = st !! j) ->
  (forall s vid out a, made u s vid out -> st' !! vid = Some a -> exists n, chunks a = take n (cut out)) ->
  Inv F X now t st -> Y t st' -> Inv F Y now t st'.
Proof.
  intros Hu HF Hp Hsame Hfiles Hi HY. pose proof Hi as [H1 H2 H3 H4 H5 H6 H7 _].
  assert (forall u' vid, u' ∈ ups -> u' <> u -> vid ∈ (a_files u'.1).*1 -> st' !! vid = st !! vid) as Hother.
  { intros u' vid Hu' Hne Hvid. apply Hsame. intros Hin. destruct Hne.
    by eapply (NoDup_bind_eq (fun u => (a_files u.1).*1)); [apply ups_distinct|..]. }
  assert (forall r, r ∈ avatars t -> av_id r <> a_id u.1 -> complete st r -> complete st' r) as Hc.
  { intros r Hr Hne [Hc1 Hc2]. split; [done|]. destruct (H2 r Hr) as (u' & Hu' & E & Hv).
    rewrite Forall_forall in *. intros [s v] Hin. destruct (Hc2 _ Hin) as (a & Ha & Hz).
    destruct (Hv s v Hin) as (out & Hm & _). exists a. split; [|done]. rewrite <- Ha.
    apply (Hother u'); [done|congruence|]. by eapply made_file. }
  split; try done.
  - intros u' s vid out a Hu' Hm Ha. destruct (decide (a_id u'.1 = a_id u.1)) as [E|E].
    + apply upload_id in E; [|done..]. subst u'. by eapply Hfiles.
    + rewrite (Hother u') in Ha; [by eapply H3|done|congruence|by eapply made_file].
  - intros p Hin Hne. destruct (H4 p Hin Hne) as (r & Hr & E & Hx & Hcr). exists r. split_and!; try done.
    apply Hc; try done. rewrite E. by apply Hp.
  - intros i Hin. destruct (H5 i Hin) as [(r & Hr & E & Hcr) Hs]. split; [|done]. exists r. split_and!; try done.
    apply Hc; try done. rewrite E. by intros ->.
Qed.

(** The row of such a change may be added or changed. *)
Lemma Inv_row F X Y u now t st l : u ∈ ups -> a_id u.1 ∉ F -> (forall p, p ∈ users t -> p_avatar p <> a_id u.1) ->
  NoDup (av_id <$> l) -> (forall r, r ∈ avatars t -> av_id r <> a_id u.1 -> r ∈ l) ->
  (forall r, r ∈ l -> av_id r = a_id u.1 /\ variants_of u (av_variants r) \/ r ∈ avatars t) ->
  Inv F X now t st -> Y (set_avatars l t) st -> Inv F Y now (set_avatars l t) st.
Proof.
  intros Hu HF Hp Hd Hkeep Hl Hi HY. pose proof Hi as [H1 H2 H3 H4 H5 H6 H7 _].
  split; cbn [avatars users set_avatars]; try done.
  - intros r Hr. destruct (Hl r Hr) as [[E Hv]|Hr']; [by exists u|by apply H2].
  - intros p Hin Hne. destruct (H4 p Hin Hne) as (r & Hr & E & Hx & Hcr). exists r. split_and!; try done.
    apply Hkeep; [done|]. rewrite E. by apply Hp.
  - intros i Hin. destruct (H5 i Hin) as [(r & Hr & E & Hcr) Hs]. split; [|done]. exists r. split_and!; try done.
    apply Hkeep; [done|]. rewrite E. by intros ->.
Qed.

(** *** The files of a change *)

(** The profiles do not change, and some variants have their files. *)
Definition with_files (us : list Profile) (vs : list (string * Variant)) (t : ATables) (st : attachments) : Prop :=
  users t = us /\ Forall (stored st) vs.

Definition row_has (i : string) (vs : list (string * Variant)) (t : ATables) : Prop :=
  exists r, r ∈ avatars t /\ av_id r = i /\ av_variants r = vs.

(** What is known while the change [u] is staged. *)
Definition private (F : list string) (us : list Profile) (u : AvatarDraws * string) : Prop :=
  u ∈ ups /\ (a_id u.1 ∉ F) /\ forall p, p ∈ us -> p_avatar p <> a_id u.1.

Lemma append_all_sound F us u s vid out vs w : private F us u -> made u s vid out ->
  (forall e, e ∈ vs -> v_id e.2 <> vid) -> forall n k, (n + k = length (cut out))%nat -> lent w ->
  sound F (fun t st => with_files us vs t st /\ exists a, st !! vid = Some a /\ chunks a = take k (cut out)) w ->
  wp (append_all master_key vid (drop k (cut out)) (PlainChunkBytes * Z.of_nat k)) (fun r w' => w_db w' = w_db w /\
    match r with
    | Returns _ => sound F (with_files us (vs ++ [(s, mkVariant vid (ssize out))])) w'
    | Throws => sound F (with_files us []) w'
    end) w.
Proof.
  intros (Hu & HF & Hp) Hm Hvs n. assert (0 < PlainChunkBytes) as Hpos by done.
  induction n as [|n IH] in w |- *; intros k Hk Hl Hs.
  - rewrite drop_ge by lia. apply wp_ret. split; [done|]. eapply sound_weaken; [|exact Hs].
    intros st [[E Hst] (a & Ha & Hc)]. split; [done|]. apply Forall_app. split; [done|]. apply Forall_singleton.
    exists a. cbn. split; [done|]. rewrite Hc, take_ge by lia. apply cut_size.
  - destruct (lookup_lt_is_Some_2 (cut out) k ltac:(lia)) as [q Hq]. rewrite (drop_S _ q) by done. cbn [append_all].
    pose proof Hs as [Hck (now & st & Hn & Hh & Hi)]. pose proof (i_more _ _ _ _ _ Hi) as [[Eus Hst] (a & Ha & Hc)].
    apply wp_bind, (append_step w st); [done|lia|]. intros r d' f st' Hal Hh'.
    destruct (append_exact _ _ _ _ _ _ _ _ Hal Ha) as [Hsame (a' & Ha' & Hcase)].
    assert (exists k', (k' = k \/ k' = S k) /\ chunks a' = take k' (cut out)) as (k' & Hk' & Hc').
    { destruct Hcase as [E|[E _]]; rewrite Hc in E; [exists k; auto|exists (S k); split; [auto|]].
      by rewrite E, (take_S_r _ _ q). }
    assert (forall Y : ATables -> attachments -> Prop, Y (committed (w_db w)) st' -> sound F Y (set_w_disk d' w)) as Hsound.
    { intros Y HY. split; [done|]. exists now, st'. split_and!; try done.
      rewrite <- Eus in Hp. eapply (Inv_disk _ _ _ u _ _ st); try done.
      - intros j Hj. apply Hsame. intros ->. apply Hj. by eapply made_file.
      - intros s1 vid1 out1 a1 Hm1 Ha1. destruct (decide (vid1 = vid)) as [->|Hne].
        + destruct (made_once u u s1 s vid out1 out) as (_ & _ & ->); try done. exists k'. congruence.
        + rewrite Hsame in Ha1 by done. by eapply (i_files _ _ _ _ _ Hi). }
    destruct r as [z|]; [|split; [done|]; by apply Hsound].
    assert (k' = S k) as ->.
    { destruct Hk' as [->|]; [|done]. destruct (appended_chunk _ _ _ _ _ _ _ Hal) as ((b & Hb & Hbk) & _).
      rewrite Z.mul_comm, Z.div_mul, Nat2Z.id in Hbk by lia. rewrite Ha' in Hb. injection Hb as <-.
      rewrite Hc', lookup_take_ge in Hbk by lia. done. }
    replace (PlainChunkBytes * Z.of_nat k + PlainChunkBytes) with (PlainChunkBytes * Z.of_nat (S k)) by lia.
    apply (IH (set_w_disk d' w)); [lia|done|]. apply Hsound. split; [split; [done|]|by exists a'].
    rewrite Forall_forall in *. intros e He. destruct (Hst e He) as (b & Hb & Hz). exists b.
    by rewrite Hsame by (by apply Hvs).
Qed.

Lemma update_known F X now t st u vs n t' l : private F (users t) u -> Inv F X now t st -> variants_of u vs ->
  update_avatar (a_id u.1) (fun _ => with_variants vs) n t = Some (l, t') ->
  users t' = users t /\ (row_has (a_id u.1) vs t' \/ ~ exists vs', row_has (a_id u.1) vs' t) /\
  forall Y : ATables -> attachments -> Prop, Y t' st -> Inv F Y now t' st.
Proof.
  intros (Hu & HF & Hp) Hi Hvs E. unfold update_avatar, update_where in E. injection E as _ <-.
  assert (validId (a_id u.1) = true) as Hv by (rewrite Forall_forall in ups_ok; by apply ups_ok).
  pose proof (fun r => is_avatar_row _ _ _ _ _ (a_id u.1) r Hi Hv) as Hid. split_and!; [done| |].
  - destruct (decide (Exists (fun r => av_id r = a_id u.1) (avatars t))) as [Hx|Hx].
    + left. apply Exists_exists in Hx as (r & Hr & E). exists (with_variants vs r). split_and!; try done.
      cbn. apply list_elem_of_fmap. exists r. split; [|done]. by rewrite (proj2 (Hid r Hr) E).
    + right. intros (vs' & r & Hr & E & _). apply Hx, Exists_exists. by exists r.
  - intros Y HY. apply (Inv_row F X Y u); try done.
    + rewrite <- list_fmap_compose. assert (av_id ∘ (fun r => if is_avatar (a_id u.1) r then with_variants vs r else r) <$> avatars t = av_id <$> avatars t) as ->.
      { apply list_fmap_ext. intros i r _. unfold compose. by destruct (is_avatar _ r). }
      apply Hi.
    + intros r Hr Hne. apply list_elem_of_fmap. exists r. split; [|done].
      destruct (is_avatar _ r) eqn:Er; [|done]. by apply Hid in Er.
    + intros r (r0 & -> & Hr0)%list_elem_of_fmap. destruct (is_avatar _ r0) eqn:Er; [left|by right].
      apply Hid in Er; [|done]. done.
Qed.

Lemma create_variant_sound F us u s vid out prefix vs w : private F us u -> made u s vid out -> ssize prefix = 16 -> lent w ->
  sound F (with_files us vs) w ->
  wp (on_disk (FileStore.create vid prefix)) (fun r w' => w_db w' = w_db w /\
    match r with
    | Returns _ => sound F (fun t st => with_files us vs t st /\ exists a, st !! vid = Some a /\ chunks a = take 0 (cut out)) w'
    | Throws => sound F (with_files us []) w'
    end) w.
Proof.
  intros (Hu & HF & Hp) Hm Hpre Hl Hs. pose proof Hs as [Hck (now & st & Hn & Hh & Hi)].
  pose proof (i_more _ _ _ _ _ Hi) as [Eus Hst]. apply (create_allowed (master_key := master_key) w st); [done|done|]. intros r d' f st' Hal Hh'.
  destruct (create_exact _ _ _ _ _ _ Hal) as (Hsame & Hnew & Hkeep & Hdone).
  assert (forall Y : ATables -> attachments -> Prop, Y (committed (w_db w)) st' -> sound F Y (set_w_disk d' w)) as Hsound.
  { intros Y HY. split; [done|]. exists now, st'. split_and!; try done. rewrite <- Eus in Hp.
    eapply (Inv_disk _ _ _ u _ _ st); try done.
    - intros j Hj. apply Hsame. intros ->. apply Hj. by eapply made_file.
    - intros s1 vid1 out1 a1 Hm1 Ha1. destruct (decide (vid1 = vid)) as [->|Hne].
      + destruct (Hnew a1 Ha1) as [E|(b & Hb & E)]; [by exists 0%nat|]. rewrite E. by eapply (i_files _ _ _ _ _ Hi).
      + rewrite Hsame in Ha1 by done. by eapply (i_files _ _ _ _ _ Hi). }
  split; [done|]. destruct r as [[]|]; [|by apply Hsound]. apply Hsound. split; [split; [done|]|].
  - rewrite Forall_forall in *. intros e He. destruct (Hst e He) as (b & Hb & Hz).
    destruct (decide (v_id e.2 = vid)) as [E|E]; [|exists b; by rewrite Hsame].
    rewrite E in Hb. destruct (Hkeep b Hb) as (b' & Hb' & Ec). exists b'. by rewrite E, Ec.
  - eexists. split; [by apply Hdone|done].
Qed.

Lemma make_variant_sound F us u size vid prefix out vs w : private F us u -> made u (to_string size) vid out ->
  ssize prefix = 16 -> variants_of u vs -> (forall x, x ∈ vs -> v_id x.2 <> vid) -> lent w ->
  sound F (with_files us vs) w -> row_has (a_id u.1) vs (committed (w_db w)) ->
  let vs' := vs ++ [(to_string size, mkVariant vid (ssize out))] in
  wp (make_variant master_key (a_id u.1) vid prefix out vs') (fun r w' => lent w' /\
    match r with
    | Returns _ => sound F (with_files us vs') w' /\ row_has (a_id u.1) vs' (committed (w_db w'))
    | Throws => sound F (with_files us []) w'
    end) w.
Proof.
  intros Hpriv Hm Hpre Hvs Hne Hl Hs Hrow vs'. unfold make_variant.
  assert (variants_of u vs') as Hvs'.
  { intros s v [Hin|E%list_elem_of_singleton]%elem_of_app; [by apply Hvs|]. injection E as -> ->. by exists out. }
  pose proof Hs as [Hck (now & st & Hn & Hh & Hi)]. pose proof (i_more _ _ _ _ _ Hi) as [Eus Hst].
  assert (forall n x t, update_avatar (a_id u.1) (fun _ => with_variants vs') n (committed (w_db w)) = Some (x, t) ->
    users t = us /\ row_has (a_id u.1) vs' t /\ forall Y : ATables -> attachments -> Prop, Y t st -> Inv F Y now t st) as Hup.
  { intros n x t E. destruct (update_known F (with_files us vs) now (committed (w_db w)) st u vs' n t x) as (E1 & E2 & HY); try done;
      [by rewrite Eus|]. split_and!; [congruence| |done]. destruct E2 as [|Hno]; [done|]. destruct Hno. by exists vs. }
  apply wp_bind, (wp_lent_exec (master_key := master_key) (Inv := Inv F (with_files us vs)) (ck := ck)); [done|done| |].
  { intros n x t _ E. destruct (Hup _ _ _ E) as (E1 & _ & HY). split; [done|]. exists now, st.
    split_and!; [intros m Hle; apply Hn; simpl in Hle; lia|done|]. by apply HY. }
  intros r w1 Ed1 Hl1 Hs1 Hr. destruct r as [x|]; [|split; [done|by eapply sound_weaken, Hs1; intros ? [? _]]].
  destruct Hr as [[? _]|(n & x' & _ & E & _)]; [done|]. destruct (Hup _ _ _ E) as (_ & Hrow1 & _).
  apply wp_bind. eapply wp_mono; [by apply (create_variant_sound F us u (to_string size) vid out prefix vs)|].
  intros r w2 [Ew2 Hs2]. assert (lent w2) as Hl2 by (unfold lent; by rewrite Ew2).
  destruct r as [[]|]; [|done]. change (pieces (String.length out) out) with (cut out).
  pose proof (append_all_sound F us u (to_string size) vid out vs w2 Hpriv Hm Hne (length (cut out)) 0 ltac:(lia) Hl2 Hs2) as Ha.
  rewrite drop_0, Z.mul_0_r in Ha. eapply wp_mono; [exact Ha|].
  intros r w3 [Ew3 Hs3]. split; [unfold lent; by rewrite Ew3|]. destruct r as [[]|]; [|done].
  split; [done|]. by rewrite Ew3, Ew2.
Qed.

Lemma make_variants_sound F us u image : private F us u -> decode u.2 = inr image ->
  forall todo vs w, (forall x, x ∈ todo -> x ∈ zip sizes (a_files u.1)) ->
  NoDup (vs.*1 ++ ((fun x => to_string x.1) <$> todo)) -> variants_of u vs -> lent w ->
  sound F (with_files us vs) w -> row_has (a_id u.1) vs (committed (w_db w)) ->
  wp (make_variants master_key image (a_id u.1) todo vs) (fun r w' => lent w' /\
    match r with
    | Returns _ => exists vs', sound F (with_files us vs') w' /\ row_has (a_id u.1) vs' (committed (w_db w')) /\
        vs'.*1 = vs.*1 ++ ((fun x => to_string x.1) <$> todo)
    | Throws => sound F (with_files us []) w'
    end) w.
Proof.
  intros Hpriv Hd. induction todo as [|[size [vid prefix]] todo IH]; intros vs w Htodo Hnd Hvs Hl Hs Hrow; cbn [make_variants].
  { apply wp_ret. split; [done|]. exists vs. split_and!; [done|done|]. csimpl. by rewrite app_nil_r. }
  assert (sound F (with_files us []) w) as Hless by (eapply sound_weaken, Hs; by intros st [E _]).
  destruct (thumbnail image size) as [[status|out]|] eqn:Et; [by apply wp_fail| |by apply wp_throw].
  pose proof (Htodo _ ltac:(left)) as Hin0.
  assert (made u (to_string size) vid out) as Hm by (by exists image, size, prefix).
  assert (ssize prefix = 16) as Hpre.
  { destruct Hpriv as (Hu & _). rewrite Forall_forall in ups_ok. destruct (ups_ok u Hu) as (_ & _ & Hf).
    apply list_elem_of_lookup in Hin0 as [i Hi]. apply lookup_zip_Some in Hi as [_ Hi]. exact (Forall_lookup_1 _ _ _ _ Hf Hi). }
  set (e := (to_string size, mkVariant vid (ssize out))).
  assert (variants_of u (vs ++ [e])) as Hvs'.
  { intros s v [Hin|E%list_elem_of_singleton]%elem_of_app; [by apply Hvs|]. injection E as -> ->. by exists out. }
  assert (forall x, x ∈ vs -> v_id x.2 <> vid) as Hne.
  { intros [s v] Hin E2. destruct (Hvs s v Hin) as (out' & Hm' & _). cbn in E2. rewrite E2 in Hm'.
    destruct (made_once u u s (to_string size) vid out' out) as (_ & -> & _); try done; [apply Hpriv..|].
    apply NoDup_app in Hnd as (_ & Hnd & _). eapply Hnd; [apply list_elem_of_fmap; by exists (to_string size, v)|]. left. }
  apply wp_bind. eapply wp_mono; [by apply (make_variant_sound F us u size vid prefix out vs)|].
  intros r w1 [Hl1 Hr]. destruct r as [[]|]; [|done]. destruct Hr as [Hs1 Hrow1].
  assert ((vs ++ [e]).*1 ++ ((fun x => to_string x.1) <$> todo) =
    vs.*1 ++ ((fun x : Z * (string * string) => to_string x.1) <$> ((size, (vid, prefix)) :: todo))) as Eq
    by (rewrite fmap_app, <- (assoc_L (++)); done).
  eapply wp_mono; [apply IH; try done; [intros y Hy; apply Htodo; by right|by rewrite Eq]|].
  intros r w2 [Hl2 Hr2]. split; [done|]. destruct r; [|done]. by rewrite <- Eq.
Qed.

Lemma insert_known F X now t st u uid n t' l : u ∈ ups -> Inv F X now t st ->
  insert_avatar (a_id u.1) uid n t = Some (l, t') ->
  users t' = users t /\ row_has (a_id u.1) [] t' /\ private F (users t) u /\
  forall Y : ATables -> attachments -> Prop, Y t' st -> Inv F Y now t' st.
Proof.
  intros Hu Hi E. unfold insert_avatar in E. destruct (existsb (is_avatar _) _) eqn:Ex; [done|].
  cbn [orb] in E. destruct (negb _); [done|]. injection E as _ <-.
  assert (validId (a_id u.1) = true) as Hv by (rewrite Forall_forall in ups_ok; by apply ups_ok).
  assert (forall r, r ∈ avatars t -> av_id r <> a_id u.1) as Hno.
  { intros r Hr Er. apply (is_avatar_row _ _ _ _ _ (a_id u.1) r Hi Hv Hr) in Er.
    assert (existsb (is_avatar (a_id u.1)) (avatars t) = true); [|congruence].
    apply existsb_exists. exists r. by rewrite <- list_elem_of_In. }
  assert (private F (users t) u) as Hpriv.
  { split_and!; [done|..].
    - intros HF. destruct (i_flight _ _ _ _ _ Hi _ HF) as [(r & Hr & Er & _) _]. by apply (Hno r).
    - intros p Hp Ep. destruct (i_users _ _ _ _ _ Hi p Hp) as (r & Hr & Er & _); [rewrite Ep; by intros E0; rewrite E0 in Hv|].
      apply (Hno r); congruence. }
  set (row := mkAvatarRow _ _ _ _). split_and!; [done| |done|].
  - exists row. split_and!; try done. cbn. set_solver.
  - intros Y HY. destruct Hpriv as (_ & HF & Hp). apply (Inv_row F X Y u); try done.
    + rewrite fmap_app. apply NoDup_app. split_and!; [apply Hi| |apply NoDup_singleton].
      intros x (r & -> & Hr)%list_elem_of_fmap Hin%list_elem_of_singleton. by apply (Hno r).
    + intros r Hr _. set_solver.
    + intros r [Hr|Hr%list_elem_of_singleton]%elem_of_app; [by right|left]. subst r. split; [done|].
      intros s v Hin. cbn in Hin. set_solver.
Qed.

Lemma zip_names files : length files = 3%nat ->
  (fun x : Z * (string * string) => to_string x.1) <$> zip sizes files = to_string <$> sizes.
Proof. intros Hl. do 4 (destruct files as [|? files]; try done). Qed.

(** A staged change is complete. *)
Lemma staged_inv F us u vs now t st : private F us u -> vs.*1 = to_string <$> sizes -> row_has (a_id u.1) vs t ->
  Inv F (with_files us vs) now t st -> Inv (a_id u.1 :: F) (with_files us []) now t st.
Proof.
  intros (Hu & HF & Hp) Ev (r & Hr & Er & Evr) Hi. pose proof Hi as [H1 H2 H3 H4 H5 H6 H7 [E Hst]]. split; try done.
  intros i [->|Hin]%elem_of_cons; [|by apply H5]. rewrite E. split; [|done]. exists r. split_and!; try done.
  split; rewrite Evr; [|done]. intros size Hsize. assert (to_string size ∈ vs.*1) as Hin.
  { rewrite Ev. apply list_elem_of_fmap. by exists size. }
  apply list_elem_of_fmap in Hin as ([s v] & -> & Hin). by exists v.
Qed.

Lemma stage_sound F us obtained d uid req w : (d, a_body req) ∈ ups -> lent w -> sound F (with_files us []) w ->
  wp (stage master_key obtained d uid req) (fun r w' => lent w' /\
    match r with
    | Returns _ => (a_id d ∉ F) /\ sound (a_id d :: F) (with_files us []) w'
    | Throws => sound F (with_files us []) w'
    end) w.
Proof.
  intros Hu Hl Hs. unfold stage. do 2 (apply wp_bind, wp_require; [intros _|done]).
  destruct (number _) as [expected|]; [|by apply wp_fail]. destruct (decode (a_body req)) as [status|image] eqn:Ed; [by apply wp_fail|].
  set (u := (d, a_body req)) in *. change (a_id d) with (a_id u.1).
  pose proof Hs as [Hck (now & st & Hn & Hh & Hi)]. pose proof (i_more _ _ _ _ _ Hi) as [Eus Hst].
  apply wp_bind, (wp_lent_exec (master_key := master_key) (Inv := Inv F (with_files us [])) (ck := ck)); [done|done| |].
  { intros n x t _ E. destruct (insert_known F _ now _ st u uid (ck n) t x Hu Hi E) as (E1 & _ & _ & HY).
    split; [done|]. exists now, st. split_and!; [intros m Hle; apply Hn; simpl in Hle; lia|done|].
    apply HY. split; [congruence|done]. }
  intros r w1 Ed1 Hl1 Hs1 Hr. destruct r as [x|]; [|done]. destruct Hr as [[? _]|(n & x' & _ & E & _)]; [done|].
  destruct (insert_known F _ now _ st u uid (ck n) _ x' Hu Hi E) as (_ & Hrow & Hpriv & _). rewrite Eus in Hpriv.
  apply wp_bind, wp_lock; [done|]. intros _. apply wp_bind.
  assert (length (a_files d) = 3%nat) as Hlen by (rewrite Forall_forall in ups_ok; by apply (ups_ok u)).
  eapply wp_mono; [apply (make_variants_sound F us u image); try done|].
  - rewrite fmap_nil, app_nil_l, zip_names by done. apply NoDup_fmap_2_strong; [|unfold sizes; repeat constructor; set_solver].
    intros a b _ _ Eab. apply (f_equal decimal) in Eab. rewrite !decimal_to_string in Eab. congruence.
  - intros s v Hin. set_solver.
  - intros r w2 [Hl2 Hr2]. destruct r as [[]|]; [|done]. destruct Hr2 as (vs' & Hs2 & Hrow2 & Ev). apply wp_ret.
    split; [done|]. split; [apply Hpriv|]. destruct Hs2 as [Hck2 (now2 & st2 & Hn2 & Hh2 & Hi2)]. split; [done|].
    exists now2, st2. split_and!; try done. eapply staged_inv; try done. rewrite Ev, fmap_nil, app_nil_l. by apply zip_names.
Qed.

(** *** The transaction of a change *)

Lemma Inv_fewer F F' X now t st : (forall i, i ∈ F' -> i ∈ F) -> Inv F X now t st -> Inv F' X now t st.
Proof. intros HF [H1 H2 H3 H4 H5 H6 H7 H8]. split; auto. Qed.

(** The profiles after the change of one. *)
Definition changed (uid : Z) (i : string) (us : list Profile) : list Profile :=
  (fun p => if is_user uid p then mkProfile (p_uid p) i (p_version p + 1) else p) <$> us.

Definition has_complete (i : string) (t : ATables) (st : attachments) : Prop :=
  exists r, r ∈ avatars t /\ av_id r = i /\ complete st r.

(** The rows after it, with the expiry [e] of the old avatar. *)
Definition relabel (i old : string) (e : Z) (r : AvatarRow) : AvatarRow :=
  let r := if is_avatar i r then with_expires None r else r in
  if sempty old then r else if is_avatar old r then with_expires (Some e) r else r.

Lemma relabel_same i old e r : av_id (relabel i old e r) = av_id r /\ av_variants (relabel i old e r) = av_variants r.
Proof. unfold relabel. destruct (is_avatar i r), (sempty old); try done; destruct (is_avatar old _); done. Qed.

(** The rows of the new avatar and of those shown by others do not expire. *)
Lemma relabel_none F X now t st i row e r : Inv F X now t st -> validId i = true -> row ∈ users t -> r ∈ avatars t ->
  av_expires r = None \/ av_id r = i -> av_id r <> p_avatar row \/ p_avatar row = ""%string ->
  av_expires (relabel i (p_avatar row) e r) = None.
Proof.
  intros Hi Hv Hrow Hr Hx Hne. unfold relabel.
  assert (av_expires (if is_avatar i r then with_expires None r else r) = None) as E.
  { destruct (is_avatar i r) eqn:Er; [done|]. destruct Hx as [Hx|Hx]; [done|].
    apply (is_avatar_row _ _ _ _ _ i r Hi Hv Hr) in Hx. congruence. }
  destruct (sempty (p_avatar row)) eqn:Es; [done|]. destruct Hne as [Hne|Hne]; [|by rewrite Hne in Es].
  destruct (is_avatar (p_avatar row) _) eqn:Er; [|done]. destruct Hne.
  destruct (i_users _ _ _ _ _ Hi row Hrow) as (r1 & Hr1 & E1 & _); [by intros E1; rewrite E1 in Es|].
  apply (is_avatar_row _ _ _ _ _ _ _ Hi); [rewrite <- E1; by eapply row_valid|done|]. revert Er. by destruct (is_avatar i r).
Qed.

Lemma changed_uid uid i us : p_uid <$> changed uid i us = p_uid <$> us.
Proof.
  unfold changed. rewrite <- list_fmap_compose. apply list_fmap_ext. intros k p _. unfold compose. by destruct (is_user uid p).
Qed.

(** Nobody else shows the new avatar. *)
Lemma changed_one uid i us p p' : NoDup (p_uid <$> us) -> (forall q, q ∈ us -> p_avatar q <> i) ->
  (forall q q', q ∈ us -> q' ∈ us -> p_avatar q <> ""%string -> p_avatar q = p_avatar q' -> q = q') ->
  p ∈ changed uid i us -> p' ∈ changed uid i us -> p_avatar p <> ""%string -> p_avatar p = p_avatar p' -> p = p'.
Proof.
  intros Hnd Hno Hone (p0 & -> & Hp0)%list_elem_of_fmap (p1 & -> & Hp1)%list_elem_of_fmap. unfold is_user.
  destruct (Z.eqb_spec (p_uid p0) uid) as [E1|E1], (Z.eqb_spec (p_uid p1) uid) as [E2|E2]; cbn [p_avatar]; intros Hne E.
  - assert (p0 = p1) as -> by (apply (NoDup_fmap_eq p_uid us); congruence || done). done.
  - by destruct (Hno p1 Hp1).
  - by destruct (Hno p0 Hp0).
  - by apply Hone.
Qed.

Lemma publish_inv F i uid row now e t t' st : Inv F (has_complete i) now t st -> (i ∉ F) -> validId i = true ->
  (forall p, p ∈ users t -> p_avatar p <> i) -> List.find (is_user uid) (users t) = Some row ->
  users t' = changed uid i (users t) -> avatars t' = relabel i (p_avatar row) e <$> avatars t ->
  Inv F (has_complete i) now t' st.
Proof.
  intros Hi HF Hv Hp Hrow Eu Ea. pose proof Hi as [H1 H2 H3 H4 H5 H6 H7 (r0 & Hr0 & E0 & Hc0)].
  apply find_some in Hrow as [Hrow%list_elem_of_In Hid]. unfold is_user in Hid. apply Z.eqb_eq in Hid.
  pose proof (relabel_same i (p_avatar row) e) as Hsame.
  assert (forall r, r ∈ avatars t -> complete st r -> exists r', r' ∈ avatars t' /\ r' = relabel i (p_avatar row) e r /\
    av_id r' = av_id r /\ complete st r') as Hc.
  { intros r Hr [Hc1 Hc2]. exists (relabel i (p_avatar row) e r). destruct (Hsame r) as [E1 E2]. split_and!; try done.
    - rewrite Ea. apply list_elem_of_fmap. by exists r.
    - split; by rewrite E2. }
  assert (p_avatar row <> i) as Hri by (by apply Hp). split.
  - rewrite Ea, <- list_fmap_compose. erewrite list_fmap_ext; [exact H1|]. intros k r _. apply Hsame.
  - intros r. rewrite Ea. intros (r1 & -> & Hr1)%list_elem_of_fmap. destruct (Hsame r1) as [-> ->]. auto.
  - done.
  - intros p. rewrite Eu. intros (p0 & -> & Hp0)%list_elem_of_fmap. unfold is_user.
    destruct (Z.eqb_spec (p_uid p0) uid) as [E|E]; cbn [p_avatar]; intros Hne.
    + destruct (Hc r0 Hr0 Hc0) as (r' & Hr' & -> & E' & Hcr). eexists. split_and!; [done|congruence| |done].
      eapply relabel_none; try done; [by right|left; congruence].
    + destruct (H4 p0 Hp0 Hne) as (r & Hr & Er & Hx & Hcr). destruct (Hc r Hr Hcr) as (r' & Hr' & -> & E' & Hcr').
      eexists. split_and!; [done|congruence| |done]. eapply relabel_none; try done; [by left|].
      destruct (decide (p_avatar row = ""%string)); [by right|left].
      intros E2. destruct E. rewrite (H7 p0 row); try done; congruence.
  - intros j Hj. destruct (H5 j Hj) as [(r & Hr & Er & Hcr) Hs]. split.
    + destruct (Hc r Hr Hcr) as (r' & Hr' & _ & E' & Hcr'). exists r'. split_and!; congruence || done.
    + intros p. rewrite Eu. intros (p0 & -> & Hp0)%list_elem_of_fmap. destruct (is_user uid p0); [|by apply Hs].
      cbn. by intros ->.
  - by rewrite Eu, changed_uid.
  - intros p p'. rewrite Eu. by apply changed_one.
  - destruct (Hc r0 Hr0 Hc0) as (r' & Hr' & _ & E' & Hcr). exists r'. split_and!; congruence || done.
Qed.

(** The version was the expected one, and the profile has changed. *)
Definition accepted (uid expected : Z) (i : string) (us : list Profile) (t : ATables) : Prop :=
  users t = changed uid i us /\ exists p, p ∈ us /\ p_uid p = uid /\ p_version p = expected.

Abbreviation wp_step F i c := (wp_opened_exec (master_key := master_key) (Inv := Inv F (has_complete i)) (ck := ck) _ c).

Lemma publish_sound F i uid expected us w : (i ∉ F) -> validId i = true -> lent w -> sound (i :: F) (with_files us []) w ->
  wp (publish uid expected i) (fun r w' => (sound F (fun _ _ => True) w' /\ returnable w') /\
    match r with
    | Returns _ => accepted uid expected i us (committed (w_db w'))
    | Throws => users (committed (w_db w')) = us \/ accepted uid expected i us (committed (w_db w'))
    end) w.
Proof.
  intros HF Hv Hl Hs. pose proof Hs as [Hck (now & st & Hn & Hh & Hi)]. pose proof (i_more _ _ _ _ _ Hi) as [Eus _].
  destruct (i_flight _ _ _ _ _ Hi i ltac:(left)) as [Hrow Hp].
  assert (sound F (has_complete i) w) as Hs1.
  { split; [done|]. exists now, st. split_and!; try done. eapply Inv_weaken, Inv_fewer, Hi; [done|]. intros j Hj. by right. }
  eapply wp_mono; [apply (wp_Transaction_post (master_key := master_key) (Inv := Inv F (has_complete i)) (ck := ck)
    (fun _ t => accepted uid expected i us t)); [done|done|]|].
  2: { intros r w' [[Hs' Hret] Hr]. split; [split; [|done]; by eapply sound_weaken, Hs'|].
       destruct r; [apply Hr|]. destruct Hr as [->|[_ Hr]]; [by left|by right]. }
  intros w1 Ho1 _ Ev1 _. set (c := committed (w_db w)) in *.
  apply wp_bind, (wp_opened_query (master_key := master_key) (Inv := Inv F (has_complete i)) (ck := ck) _ c); [done|].
  intros r w2 _ Ho2 Ev2 _ [->|Hr]; [done|]. rewrite Ev1 in Hr, Ev2. subst r.
  destruct (List.find (is_user uid) (users c)) as [row|] eqn:Ef; [|by apply wp_fail].
  apply wp_bind, wp_require; [intros Hver%Z.eqb_eq|by split].
  apply wp_bind, (wp_step F i c); [done|].
  intros r w3 _ Ho3 _ [->|(n3 & x3 & _ & E3 & ->)]; [done|]. rewrite Ev2 in E3. unfold change_profile in E3.
  destruct (existsb _ _); [done|]. injection E3 as _ E3.
  apply wp_bind, (wp_step F i c); [done|].
  intros r w4 _ Ho4 _ [->|(n4 & x4 & _ & E4 & ->)]; [done|]. injection E4 as _ E4.
  apply wp_bind.
  apply (wp_mono _ (fun r w5 => opened master_key (Inv F (has_complete i)) ck c w5 /\ (r <> Throws ->
    users (view (w_db w5)) = changed uid i us /\ exists e, avatars (view (w_db w5)) = relabel i (p_avatar row) e <$> avatars c))).
  { unfold relabel. destruct (sempty (p_avatar row)).
    - apply wp_ret. split; [done|]. intros _. rewrite <- E4, <- E3. cbn. split; [by rewrite Eus|]. by exists 0.
    - apply (wp_step F i c); [done|].
      intros r w5 _ Ho5 _ [->|(n5 & x5 & _ & E5 & ->)]; [done|]. injection E5 as _ E5. split; [done|]. intros _.
      rewrite <- E5, <- E4, <- E3. cbn. split; [by rewrite Eus|]. exists (ck n5 + day). by rewrite <- list_fmap_compose. }
  intros r w5 [Ho5 Hr5]. destruct r as [x5|]; [|done]. destruct (Hr5 ltac:(done)) as [Eu5 (e & Ea5)].
  apply wp_bind, (wp_step F i c); [done|].
  intros r w6 _ Ho6 _ [->|(n6 & x6 & _ & E6 & ->)]; [done|].
  assert (users (view (w_db w6)) = changed uid i us /\ avatars (view (w_db w6)) = relabel i (p_avatar row) e <$> avatars c) as [Eu Ea].
  { unfold notify in E6. destruct (existsb _ _); by injection E6 as _ <-. }
  apply wp_ret. split; [done|]. intros y _. pose proof Ho6 as (_ & _ & [Hck6 (now6 & st6 & Hn6 & Hh6 & Hi6)]). split.
  - split; [done|]. exists now6, st6. split_and!; try done. eapply (publish_inv F i uid row); try done. by rewrite Eus.
  - split; [done|]. apply find_some in Ef as [Hin%list_elem_of_In Hid%Z.eqb_eq]. exists row. by rewrite <- Eus.
Qed.

(** *** Clean-up *)

Abbreviation intx F X := (ResourceSupport.intx master_key (Inv F X) ck).
Abbreviation leaves F X := (ResourceSupport.leaves master_key (Inv F X) ck).

Lemma remove_all_sound F us u c l w : private F us u -> users c = us -> (forall v, v ∈ l -> v_id v ∈ (a_files u.1).*1) ->
  intx F (with_files us []) c w -> view (w_db w) = c ->
  wp (remove_all l) (fun _ w' => intx F (with_files us []) c w' /\ view (w_db w') = c) w.
Proof.
  intros (Hu & HF & Hp) Eus. revert w. induction l as [|v l IH]; intros w Hl Hi Ev; cbn [remove_all]; [by apply wp_ret|].
  pose proof Hi as (Hc & Ha & Hf & _). pose proof Hf as [Hck (now & st & Hn & Hh & Hinv)].
  apply wp_bind, (remove_allowed (master_key := master_key) w st); [done|]. intros r d' st' Hst' Hh'.
  assert (fine F (with_files us []) (set_w_disk d' w) c) as Hf'.
  { split; [done|]. exists now, st'. split_and!; try done. destruct Hst' as [->| ->]; [done|].
    eapply (Inv_disk _ _ _ u _ _ st); try done; [by rewrite Eus| |].
    - intros j Hj. rewrite lookup_delete_ne; [done|]. intros <-. apply Hj, Hl. by left.
    - intros s vid out a Hm Hd. apply lookup_delete_Some in Hd as [_ Hd]. by eapply (i_files _ _ _ _ _ Hinv). }
  assert (intx F (with_files us []) c (set_w_disk d' w)) as Hi' by (split_and!; [done|done|done|simpl; by rewrite Ev]).
  destruct r as [[]|]; [|done]. apply IH; try done. intros v' Hv'. apply Hl. by right.
Qed.

Lemma in_order_elem l v : v ∈ in_order l -> exists s, (s, v) ∈ l.
Proof.
  unfold in_order. intros (k & _ & Hm)%list_elem_of_omap. unfold member in Hm.
  destruct (List.find _ l) as [[s v']|] eqn:E; [|done]. cbn in Hm. injection Hm as ->.
  apply find_some in E as [Hin%list_elem_of_In _]. by exists s.
Qed.

Lemma reclaim_avatar_sound F us obtained i w : (forall j, obtained j = true -> j ∉ F) -> lent w ->
  sound F (with_files us []) w ->
  wp (reclaim_avatar obtained i) (fun r w' => leaves F (with_files us []) r w' /\ (r <> Throws -> lent w')) w.
Proof.
  intros Hfree Hl Hs. unfold reclaim_avatar. apply wp_bind, wp_lock_obtained; [split; [by apply leaves_lent|done]|].
  intros Hv Hob. apply (wp_Transaction (master_key := master_key) (Inv := Inv F (with_files us [])) (ck := ck)); [done|done|].
  intros w1 Hi1 _ Ev1 _. set (c := committed (w_db w)) in *.
  apply wp_bind, (wp_tx_query (master_key := master_key) (Inv := Inv F (with_files us [])) (ck := ck) _ c); [done|].
  intros r w2 _ Hi2 Ev2 _ [->|Hr]; [done|]. rewrite Ev1 in Hr, Ev2. subst r.
  destruct (existsb (shows i) (users c)) eqn:Esh; [by apply wp_ret|].
  destruct (List.find _ (avatars c)) as [row|] eqn:Ef; [|by apply wp_ret].
  apply find_some in Ef as [Hrow%list_elem_of_In [Hid _]%andb_true_iff].
  pose proof Hi2 as (_ & _ & [_ (now & st & _ & _ & Hinv)] & _). pose proof (i_more _ _ _ _ _ Hinv) as [Eus _].
  apply (is_avatar_row _ _ _ _ _ i row Hinv Hv Hrow) in Hid.
  destruct (i_rows _ _ _ _ _ Hinv row Hrow) as (u & Hu & Eu & Hvs).
  assert (private F us u) as Hpriv.
  { split_and!; [done|rewrite <- Eu, Hid; by apply Hfree|]. intros p Hp Ep. rewrite <- Eus in Hp.
    assert (existsb (shows i) (users c) = true); [|congruence]. apply existsb_exists. exists p. rewrite <- list_elem_of_In.
    split; [done|]. unfold shows. apply bool_decide_eq_true. congruence. }
  apply wp_bind. eapply wp_mono; [apply (remove_all_sound F us u c); try done|].
  { intros v (s & Hin)%in_order_elem. destruct (Hvs s v Hin) as (out & Hm & _). by eapply made_file. }
  intros r w3 [Hi3 Ev3]. destruct r as [[]|]; [|done].
  apply wp_bind, (wp_tx_exec (master_key := master_key) (Inv := Inv F (with_files us [])) (ck := ck) _ c); [done| |].
  - intros n x t _ E. rewrite Ev3 in E. injection E as _ <-. destruct Hi3 as (_ & _ & [Hck (now3 & st3 & Hn3 & Hh3 & Hinv3)] & _).
    split; [done|]. exists now3, st3. split_and!; [intros m Hm; apply Hn3; simpl in Hm; lia|done|].
    destruct Hpriv as (_ & HF & Hp). eapply (Inv_row F _ _ u); [done|done|by rewrite Eus| | | |exact Hinv3|done].
    + eapply sublist_NoDup; [apply Hinv3|]. apply fmap_sublist, sublist_filter.
    + intros r Hr Hne. apply list_elem_of_filter. split; [|done]. apply not_true_iff_false.
      rewrite (is_avatar_row _ _ _ _ _ i r Hinv3 Hv Hr). congruence.
    + intros r [_ Hr]%list_elem_of_filter. by right.
  - intros r w4 _ Hi4. destruct r as [[]|]; [by apply wp_ret|done].
Qed.

Lemma maintain_sound F us obtained w : (forall j, obtained j = true -> j ∉ F) -> sound F (with_files us []) w ->
  wp (maintain_avatars obtained) (fun _ w' => sound F (with_files us []) w') w.
Proof.
  intros Hfree Hs. apply wp_lease; [done|]. intros w1 Hl1 Hs1.
  apply wp_bind, (wp_lent_query (master_key := master_key) (Inv := Inv F (with_files us [])) (ck := ck)); [done..|].
  intros r w2 _ _ Hl2 Hs2 _. destruct r as [ids|]; [|by apply leaves_lent]. clear Hs1 Hl1 Hs w w1.
  revert w2 Hl2 Hs2. induction ids as [|i ids IH]; intros w Hl Hs; cbn [reclaim_avatars]; [by apply wp_ret, leaves_lent|].
  apply wp_bind. eapply wp_mono; [by apply reclaim_avatar_sound|]. intros r w' [Hlv Hl'].
  destruct r as [[]|]; [|done]. apply IH; [by apply Hl'|apply Hlv].
Qed.

(** *** Reading an avatar *)

Lemma joined_snoc l p : joined (l ++ [p]) = (joined l ++ p)%string.
Proof. induction l as [|q l IH]; cbn [joined app]; [by rewrite (right_id_L _ String.append)|]. by rewrite IH, (assoc_L String.append). Qed.

(** The pieces up to the offset of a loop that has reached the end. *)
Lemma cut_end out k : ssize out <= PlainChunkBytes * Z.of_nat k -> take k (cut out) = cut out.
Proof.
  intros Hle. apply take_ge. destruct (le_lt_dec (length (cut out)) k) as [|Hlt]; [done|exfalso].
  destruct (lookup_lt_is_Some_2 (cut out) k Hlt) as [q Hq]. pose proof (proj2 (pieces_whole out)) as Hp. fold (cut out) in Hp.
  assert (Forall full (take k (cut out))) as Hf.
  { apply Forall_lookup. intros i p Hi. apply lookup_take_Some in Hi as [Hi Hik]. apply (Hp i p Hi). lia. }
  pose proof (full_size _ Hf) as Hz. rewrite length_take_le in Hz by lia.
  destruct (Hp k q Hq) as [Hok _]. unfold chunk_ok in Hok. pose proof (cut_size out) as Hs.
  rewrite <- (take_drop_middle _ _ _ Hq), zsum_app in Hs. pose proof (zsum_ssize_nonneg (drop (S k) (cut out))) as H0.
  unfold zsum in *. csimpl in Hs. lia.
Qed.

Lemma cut_bound out k : zsum ssize (take k (cut out)) <= PlainChunkBytes * Z.of_nat k.
Proof.
  etrans; [apply (zsum_le_const _ PlainChunkBytes)|rewrite length_take; assert (0 < PlainChunkBytes) by done; nia].
  apply Forall_take, Forall_lookup. intros i p Hi. apply (proj2 (pieces_whole out) i p Hi).
Qed.

Lemma load_exact vid out st : (forall a, st !! vid = Some a -> exists n, chunks a = take n (cut out)) ->
  forall fuel k w, holds master_key (w_disk w) st ->
  wp (load master_key fuel vid (PlainChunkBytes * Z.of_nat k) (ssize out) (joined (take k (cut out))))
    (fun r w' => w_db w' = w_db w /\ holds master_key (w_disk w') st /\ forall body, r = Returns body -> body = out) w.
Proof.
  intros Hst. assert (0 < PlainChunkBytes) as Hpos by done. induction fuel as [|fuel IH]; intros k w Hh; cbn [load];
    destruct (Z.leb_spec (ssize out) (PlainChunkBytes * Z.of_nat k)) as [Hle|Hle].
  1, 3: apply wp_ret; split_and!; try done; intros body [= <-]; by rewrite (cut_end _ _ Hle), cut_joined.
  { by apply wp_throw. }
  apply wp_bind, (read_allowed w st); [done|lia|]. intros r d' Hh' Hr. destruct r as [p|]; [|done].
  destruct (Hr p eq_refl) as (a & Ha & Hp). rewrite Z.mul_comm, Z.div_mul, Nat2Z.id in Hp by lia.
  destruct (Hst a Ha) as [n En]. rewrite En in Hp. apply lookup_take_Some in Hp as [Hp _].
  rewrite <- joined_snoc, <- (take_S_r _ _ p) by done.
  replace (PlainChunkBytes * Z.of_nat k + PlainChunkBytes) with (PlainChunkBytes * Z.of_nat (S k)) by lia.
  by apply (IH (S k) (set_w_disk d' w)).
Qed.

(** The picture of a size of a change. *)
Definition picture_of (u : AvatarDraws * string) (s body : string) : Prop :=
  exists image size, decode u.2 = inr image /\ size ∈ sizes /\ s = to_string size /\ thumbnail image size = Some (inr body).

Lemma made_picture u s vid out : made u s vid out -> picture_of u s out.
Proof.
  intros (image & size & prefix & Hd & Hz & Es & Ht). exists image, size. split_and!; try done.
  apply list_elem_of_lookup in Hz as [i Hi]. apply lookup_zip_Some in Hi as [Hi _]. by eapply list_elem_of_lookup_2.
Qed.

Lemma member_elem {X} k (l : list (string * X)) x : member k l = Some x -> (k, x) ∈ l.
Proof.
  unfold member. destruct (List.find _ l) as [[k' y]|] eqn:E; [|done]. cbn. intros [= <-].
  apply find_some in E as [Hin%list_elem_of_In E%String.eqb_eq]. cbn in E. by subst k'.
Qed.

Lemma get_avatar_sound F X obtained req w : lent w -> sound F X w ->
  wp (get_avatar master_key obtained req) (fun r w' => lent w' /\ sound F X w' /\
    forall etag body, r = Returns (Png etag body) -> exists i size u,
      sfind "/" (sdrop (String.length prefix_path) (a_path req)) = Some (i, size) /\ u ∈ ups /\ a_id u.1 = i /\ picture_of u size body) w.
Proof.
  intros Hl Hs. unfold get_avatar. apply wp_bind, wp_require; [intros _|done].
  destruct (sfind _ _) as [[i size]|] eqn:Ep; [|by apply wp_fail].
  apply wp_bind, wp_require; [intros [Hv _]%andb_true_iff|done]. apply wp_bind, wp_lock; [done|]. intros _.
  apply wp_bind, (wp_lent_query (master_key := master_key) (Inv := Inv F X) (ck := ck)); [done..|].
  intros r w1 Ed1 Ec1 Hl1 Hs1 [->| ->]; [done|].
  destruct (List.find _ _) as [row|] eqn:Ef; [|by apply wp_fail].
  apply find_some in Ef as [Hrow%list_elem_of_In [Hid _]%andb_true_iff].
  destruct (member size (av_variants row)) as [v|] eqn:Em; [|by apply wp_fail].
  destruct (String.eqb _ _); [by apply wp_ret|]. apply wp_bind, wp_require; [intros _|done].
  pose proof Hs1 as [Hck (now & st & Hn & Hh & Hi)]. rewrite <- Ec1 in Hrow.
  apply (is_avatar_row _ _ _ _ _ i row Hi Hv Hrow) in Hid.
  destruct (i_rows _ _ _ _ _ Hi row Hrow) as (u & Hu & Eu & Hvs). apply member_elem in Em.
  destruct (Hvs _ _ Em) as (out & Hm & Eb). rewrite Eb.
  apply wp_bind. eapply wp_mono.
  { pose proof (load_exact (v_id v) out st (fun a => i_files _ _ _ _ _ Hi u size (v_id v) out a Hu Hm) (Z.to_nat (ssize out)) 0 w1 Hh) as HL.
    rewrite Z.mul_0_r in HL. exact HL. }
  intros r w2 (Ew2 & Hh2 & Hbody). assert (lent w2) as Hl2 by (unfold lent; by rewrite Ew2).
  assert (sound F X w2) as Hs2.
  { unfold ResourceSupport.sound, ResourceSupport.fine. rewrite Ew2. split; [done|]. by exists now, st. }
  destruct r as [body|]; [|done]. apply wp_ret. split_and!; try done. intros etag b [= <- <-].
  exists i, size, u. split_and!; try done; [congruence|]. rewrite (Hbody body eq_refl). by eapply made_picture.
Qed.

(** *** Traces *)

Lemma returned_sound F X w : sound F X w -> returnable w ->
  sound F X (returned w) /\ committed (w_db (returned w)) = committed (w_db w).
Proof.
  intros Hs Hret. destruct (returnConnection_committed (w_db w) Hret) as (Ec & _).
  destruct (returnConnection_calls (w_db w)) as [Hcalls Hclock]. unfold returned. split; [|done].
  unfold ResourceSupport.sound. cbn [w_db set_w_db]. rewrite Ec. by apply fine_db.
Qed.

Lemma lent_returnable (w : AWorld) : lent w -> returnable w.
Proof. by intros [_ Hw] _. Qed.

Definition flying (s : State) : list string := s_id <$> in_flight s.
Definition profiles (s : State) : list Profile := users (committed (w_db (here s))).

Definition good (s : State) : Prop := sound (flying s) (fun _ _ => True) (here s) /\ NoDup (flying s).

Definition event_ok (e : event) : Prop := match e with Starts _ d _ req => (d, a_body req) ∈ ups | _ => True end.

(** What a step does to the profiles and to the answers. *)
Definition advance (s s' : State) : Prop :=
  profiles s' = profiles s /\ answered s' = answered s \/
  exists uid expected i, accepted uid expected i (profiles s) (committed (w_db (here s'))) /\
    (answered s' = answered s \/ answered s' = answered s ++ [(uid, expected)]).

Lemma sound_users F w : sound F (fun _ _ => True) w -> sound F (with_files (users (committed (w_db w))) []) w.
Proof. apply sound_weaken. intros st _. split; [done|constructor]. Qed.

Lemma sound_flat F us w : sound F (with_files us []) w -> users (committed (w_db w)) = us /\ sound F (fun _ _ => True) w.
Proof.
  intros Hs. split; [|by eapply sound_weaken, Hs]. destruct Hs as [_ (now & st & _ & _ & Hi)]. by destruct (i_more _ _ _ _ _ Hi).
Qed.

Lemma sound_flying F F' X w : (forall i, i ∈ F' -> i ∈ F) -> sound F X w -> sound F' X w.
Proof.
  intros HF [Hck (now & st & Hn & Hh & Hi)]. split; [done|]. exists now, st. split_and!; try done. by eapply Inv_fewer.
Qed.

Lemma start_good s obtained d uid req : (d, a_body req) ∈ ups -> good s ->
  good (run_event master_key s (Starts obtained d uid req)) /\ advance s (run_event master_key s (Starts obtained d uid req)).
Proof.
  intros Hu [Hs Hnd]. apply sound_users in Hs. cbn [run_event]. unfold start, on_db, zoom, getConnection.
  set (us := users (committed (w_db (here s)))) in *.
  assert (forall w, sound (flying s) (with_files us []) w -> good (mkState w (in_flight s) (answered s)) /\
    advance s (mkState w (in_flight s) (answered s))) as Hkeep.
  { intros w Hw. apply sound_flat in Hw as [E Hw]. split; [done|]. left. split; [exact E|done]. }
  destruct (oracle _ _); [|apply Hkeep, (fine_db (here s)); [exact Hs|done|simpl; lia]..].
  set (w1 := set_w_db _ _). assert (lent w1) as Hl1 by done.
  assert (sound (flying s) (with_files us []) w1) as Hs1 by (apply (fine_db (here s)); [exact Hs|done|simpl; lia]).
  pose proof (stage_sound (flying s) us obtained d uid req w1 Hu Hl1 Hs1) as Hst. unfold wp in Hst.
  destruct (stage _ _ _ _ _ w1) as [[expected|] w2]; destruct Hst as [Hl2 Hst].
  - destruct Hst as [Hno Hs2]. apply sound_flat in Hs2 as [E Hs2]. split.
    + split; unfold flying; cbn [in_flight here]; rewrite fmap_app.
      * eapply sound_flying, Hs2. set_solver.
      * apply NoDup_app. split_and!; [done|set_solver|apply NoDup_singleton].
    + left. split; [exact E|done].
  - apply Hkeep. apply returned_sound; [done|by apply lent_returnable].
Qed.

Lemma publish_good s i : good s ->
  good (run_event master_key s (Publishes i)) /\ advance s (run_event master_key s (Publishes i)).
Proof.
  intros [Hs Hnd]. cbn [run_event]. destruct (in_flight s !! i) as [x|] eqn:Ex; [|split; [done|by left]].
  set (us := users (committed (w_db (here s)))) in *. set (F := s_id <$> delete i (in_flight s)).
  assert (flying s ≡ₚ s_id x :: F) as HF.
  { unfold flying, F. rewrite (delete_Permutation _ _ _ Ex) at 1. done. }
  rewrite HF in Hnd. apply NoDup_cons in Hnd as [Hno Hnd].
  assert (sound (s_id x :: F) (with_files us []) (resumed (here s))) as Hs1.
  { apply sound_users. eapply sound_flying; [|exact Hs]. intros j Hj. by rewrite HF. }
  assert (validId (s_id x) = true) as Hv.
  { destruct Hs as [_ (now & st & _ & _ & Hi)]. destruct (i_flight _ _ _ _ _ Hi (s_id x)) as [(r & Hr & <- & _) _].
    - rewrite HF. left.
    - by eapply row_valid. }
  pose proof (publish_sound F (s_id x) (s_uid x) (s_expected x) us (resumed (here s)) Hno Hv ltac:(done) Hs1) as Hp.
  unfold wp in Hp. destruct (publish _ _ _ _) as [[y|] w']; cbn [fst snd] in Hp; destruct Hp as [[Hs' Hret] Hr];
    destruct (returned_sound _ _ _ Hs' Hret) as [Hs2 Ec]; (split; [done|]).
  - right. exists (s_uid x), (s_expected x), (s_id x). cbn [here answered]. rewrite Ec. auto.
  - unfold advance, profiles. cbn [here answered]. rewrite Ec. destruct Hr as [Hr|Hr]; [by left|right].
    exists (s_uid x), (s_expected x), (s_id x). auto.
Qed.

Lemma free_flying obtained s j : free obtained s j = true -> j ∉ flying s.
Proof.
  unfold free. intros [_ Hn%negb_true_iff]%andb_true_iff (x & -> & Hx)%list_elem_of_fmap.
  assert (existsb (fun y => String.eqb (s_id y) (s_id x)) (in_flight s) = true); [|congruence].
  apply existsb_exists. exists x. rewrite <- list_elem_of_In, String.eqb_refl. done.
Qed.

Lemma run_event_good s e : event_ok e -> good s ->
  good (run_event master_key s e) /\ advance s (run_event master_key s e).
Proof.
  intros He Hg. pose proof Hg as [Hs Hnd]. pose proof (sound_users _ _ Hs) as Hs1.
  assert (forall w, sound (flying s) (with_files (profiles s) []) w -> good (mkState w (in_flight s) (answered s)) /\
    advance s (mkState w (in_flight s) (answered s))) as Hkeep.
  { intros w Hw. apply sound_flat in Hw as [E Hw]. split; [done|]. left. split; [exact E|done]. }
  destruct e as [obtained d uid req|i|obtained req|obtained].
  - by apply start_good.
  - by apply publish_good.
  - assert (wp (lease (get_avatar master_key (free obtained s) req))
      (fun _ w' => sound (flying s) (with_files (profiles s) []) w') (here s)) as Hw; [|exact (Hkeep _ Hw)].
    apply wp_lease; [done|]. intros w1 Hl1 Hs2. eapply wp_mono; [by apply get_avatar_sound|].
    intros r w' (Hl' & Hs' & _). by apply leaves_lent.
  - assert (wp (maintain_avatars (free obtained s))
      (fun _ w' => sound (flying s) (with_files (profiles s) []) w') (here s)) as Hw; [|exact (Hkeep _ Hw)].
    apply maintain_sound; [|done]. intros j. apply free_flying.
Qed.

(** The versions of a user's answered changes increase, up to the profile's. *)
Definition ordered (s : State) : Prop :=
  (forall uid v p, (uid, v) ∈ answered s -> p ∈ profiles s -> p_uid p = uid -> v < p_version p) /\
  forall i j uid v v', (i < j)%nat -> answered s !! i = Some (uid, v) -> answered s !! j = Some (uid, v') -> v < v'.

Lemma advance_ordered s s' : NoDup (p_uid <$> profiles s) -> advance s s' -> ordered s -> ordered s'.
Proof.
  intros Hnd [[Ep Ea]|(uid & expected & i & [Eu (p & Hp & Hid & Hv)] & Ea)] [Ho1 Ho2].
  { unfold ordered. by rewrite Ea, Ep. }
  assert (forall q, q ∈ profiles s' -> exists q0, q0 ∈ profiles s /\ p_uid q = p_uid q0 /\
    p_version q = p_version q0 + (if p_uid q0 =? uid then 1 else 0)) as Hq.
  { intros q. unfold profiles at 1. rewrite Eu. intros (q0 & -> & Hq0)%list_elem_of_fmap. exists q0. unfold is_user.
    destruct (p_uid q0 =? uid); cbn [p_uid p_version]; split_and!; (done || lia). }
  assert (forall a v q, (a, v) ∈ answered s -> q ∈ profiles s' -> p_uid q = a -> v < p_version q) as Hold.
  { intros a v q Ha Hin Eq. destruct (Hq q Hin) as (q0 & Hq0 & E1 & E2). specialize (Ho1 a v q0 Ha Hq0 ltac:(congruence)).
    destruct (p_uid q0 =? uid); lia. }
  destruct Ea as [Ea|Ea]; unfold ordered; rewrite Ea; [split; done|]. split.
  - intros a v q [Ha|Ha%list_elem_of_singleton]%elem_of_app Hin Eq; [by eapply Hold|]. injection Ha as -> ->.
    destruct (Hq q Hin) as (q0 & Hq0 & E1 & E2). assert (q0 = p) as -> by (apply (NoDup_fmap_eq p_uid (profiles s)); congruence || done).
    rewrite Hid, Z.eqb_refl in E2. lia.
  - intros k j a v v' Hkj Hk Hj. destruct (decide (j < length (answered s))%nat) as [Hlt|Hge].
    + rewrite lookup_app_l in Hk, Hj by lia. by eapply (Ho2 k j).
    + pose proof (lookup_lt_Some _ _ _ Hj) as Hlen. rewrite length_app in Hlen. cbn in Hlen.
      rewrite lookup_app_l in Hk by lia. assert (j = length (answered s)) as -> by lia.
      rewrite list_lookup_middle in Hj by done. injection Hj as <- <-.
      rewrite <- Hv. eapply (Ho1 _ _ p); [by eapply list_elem_of_lookup_2|done|done].
Qed.

Lemma run_good l : forall s, Forall event_ok l -> good s -> ordered s ->
  good (foldl (run_event master_key) s l) /\ ordered (foldl (run_event master_key) s l).
Proof.
  induction l as [|e l IH]; intros s Hok Hg Ho; [done|]. inversion Hok; subst. cbn [foldl].
  destruct (run_event_good s e) as [Hg' Ha]; [done|done|]. apply IH; [done|done|].
  eapply advance_ordered; [|exact Ha|done]. destruct Hg as [[_ (now & st & _ & _ & Hi)] _]. apply (i_uid _ _ _ _ _ Hi).
Qed.

(** *** A shown avatar *)

Lemma load_works vid a out st : st !! vid = Some a -> chunks a = cut out ->
  forall fuel k (w : AWorld), holds master_key (w_disk w) st -> works_from (w_disk w) ->
  ((length (cut out) <= fuel + k)%nat) ->
  exists d', load master_key fuel vid (PlainChunkBytes * Z.of_nat k) (ssize out) (joined (take k (cut out))) w =
    (Returns out, set_w_disk d' w).
Proof.
  intros Ha Hc. assert (0 < PlainChunkBytes) as Hpos by done. induction fuel as [|fuel IH]; intros k w Hh Hw Hf; cbn [load];
    destruct (Z.leb_spec (ssize out) (PlainChunkBytes * Z.of_nat k)) as [Hle|Hle].
  1, 3: exists (w_disk w); rewrite (cut_end _ _ Hle), cut_joined; by destruct w.
  all: destruct (lookup_lt_is_Some (cut out) k) as [_ Hk];
    destruct Hk as [q Hq]; [destruct (le_lt_dec (length (cut out)) k) as [Hge|]; [exfalso|lia];
      rewrite <- (cut_size out), <- (take_ge (cut out) k) in Hle by done; pose proof (cut_bound out k); lia|].
  { apply lookup_lt_Some in Hq. lia. }
  destruct (read_chunk master_key vid k a q (w_disk w) st Hh Ha) as (r & d' & E & Hh' & [[-> Hw']|[_ Hn]]); [by rewrite Hc| |done].
  unfold mbind, prog_bind, on_disk, zoom. rewrite E, <- joined_snoc, <- (take_S_r _ _ q) by done.
  replace (PlainChunkBytes * Z.of_nat k + PlainChunkBytes) with (PlainChunkBytes * Z.of_nat (S k)) by lia.
  destruct (IH (S k) (set_w_disk d' w)) as [d2 E2]; [done|by apply Hw'|lia|]. exists d2. by rewrite E2.
Qed.

Lemma bind_returns {S X Y} (m : prog S X) (k : X -> prog S Y) s x s' : m s = (Returns x, s') -> (y ← m; k y) s = k x s'.
Proof. intros E. unfold mbind, prog_bind. by rewrite E. Qed.

Lemma query_works {X} (f : Z -> ATables -> X) (w : AWorld) : oracle (w_db w) (calls (w_db w)) = Fine ->
  on_db (query f) w = (Returns (f (clock (w_db w) (S (calls (w_db w)))) (view (w_db w))), set_w_db (tick (w_db w)) w).
Proof. intros E. unfold on_db, zoom, query, server_call. by rewrite E. Qed.

Lemma member_some {X} k (l : list (string * X)) x : (k, x) ∈ l -> exists y, member k l = Some y.
Proof.
  intros Hin. unfold member. destruct (List.find _ l) as [[k' y]|] eqn:E; [by exists y|].
  apply (find_none _ _ E) in Hin as Hk%list_elem_of_In || (rewrite list_elem_of_In in Hin; pose proof (find_none _ _ E _ Hin) as Hk).
  cbn in Hk. by rewrite String.eqb_refl in Hk.
Qed.

Lemma picture_small u s body : picture_of u s body -> ssize body <= 1024 * 1024.
Proof.
  intros (image & size & Hd & Hs & _ & Ht). unfold thumbnail in Ht.
  assert (0 < size <= 256) as Hz by (unfold sizes in Hs; set_unfold; lia).
  destruct (pixels_exact image size (decode_valid _ _ Hd) Hz) as (px & Ep & Hl & _). rewrite Ep in Ht. cbn in Ht.
  destruct (png_encode size px) as [out|] eqn:Ee; [|done]. injection Ht as <-. eapply png_size; [exact Ee|]. nia.
Qed.

Definition get_request (i size : string) : AvatarRequest :=
  mkAvatarRequest Get (prefix_path ++ i ++ String "/" size) "" "" "".

Lemma hex_no_slash i : validId i = true -> sall (fun c => negb (Ascii.eqb c "/")) i = true.
Proof.
  unfold validId. intros [_ Hv]%andb_true_iff. revert Hv. generalize 0%nat. induction i as [|c i IH]; intros n; [done|].
  cbn [valid_at sall]. intros [Hc Hi]%andb_true_iff. rewrite (IH _ Hi), andb_true_r.
  apply negb_true_iff, Ascii.eqb_neq. intros ->. by destruct (_ || _).
Qed.

Lemma prefix_app p s : String.prefix p (p ++ s) = true.
Proof. induction p as [|c p IH]; [by destruct s|]. rewrite string_app_cons. cbn. destruct (ascii_dec c c); [done|congruence]. Qed.

Lemma shown_row s p size : good s -> p ∈ profiles s -> p_avatar p <> ""%string -> size ∈ sizes ->
  validId (p_avatar p) = true /\ free (fun _ => true) s (p_avatar p) = true /\ exists u row v a body st,
    (forall now, List.find (fun r => is_avatar (p_avatar p) r && match av_expires r with None => true | Some e => now <? e end)
      (avatars (committed (w_db (here s)))) = Some row) /\
    member (to_string size) (av_variants row) = Some v /\ holds master_key (w_disk (here s)) st /\
    st !! v_id v = Some a /\ chunks a = cut body /\ v_bytes v = ssize body /\ u ∈ ups /\ a_id u.1 = p_avatar p /\
    picture_of u (to_string size) body.
Proof.
  intros [Hs _] Hp Hne Hsize. destruct Hs as [Hck (now & st & Hn & Hh & Hi)].
  destruct (i_users _ _ _ _ _ Hi p Hp Hne) as (r & Hr & Er & Hx & Hcomp & Hst).
  pose proof (row_valid _ _ _ _ _ r Hi Hr) as Hv. rewrite Er in Hv. split; [done|]. split.
  { unfold free. cbn [andb]. apply negb_true_iff, not_true_iff_false. intros (x & Hxin%list_elem_of_In & E%String.eqb_eq)%existsb_exists.
    destruct (i_flight _ _ _ _ _ Hi (s_id x)) as [_ Hno]; [apply list_elem_of_fmap; by exists x|]. by apply (Hno p Hp). }
  assert (forall now, List.find (fun r => is_avatar (p_avatar p) r && match av_expires r with None => true | Some e => now <? e end)
    (avatars (committed (w_db (here s)))) = Some r) as Hfind.
  { intros z. destruct (List.find _ _) as [row|] eqn:Ef.
    - apply find_some in Ef as [Hin%list_elem_of_In [Hid _]%andb_true_iff]. apply (is_avatar_row _ _ _ _ _ _ _ Hi Hv Hin) in Hid.
      f_equal. apply (NoDup_fmap_eq av_id (avatars (committed (w_db (here s))))); [apply (i_key _ _ _ _ _ Hi)|congruence || done..].
    - apply list_elem_of_In in Hr as Hr'. pose proof (find_none _ _ Ef r Hr') as Hno. cbn in Hno.
      apply (is_avatar_row _ _ _ _ _ _ _ Hi Hv Hr) in Er. by rewrite Er, Hx in Hno. }
  destruct (i_rows _ _ _ _ _ Hi r Hr) as (u & Hu & Eu & Hvs). destruct (Hcomp size Hsize) as [v0 Hv0].
  destruct (member_some _ _ _ Hv0) as [v Em]. pose proof (member_elem _ _ _ Em) as Hvin.
  destruct (Hvs _ _ Hvin) as (body & Hm & Eb). rewrite Forall_forall in Hst. destruct (Hst _ Hvin) as (a & Ha & Hz). cbn in Ha, Hz.
  destruct (i_files _ _ _ _ _ Hi u _ _ _ a Hu Hm Ha) as [n En].
  exists u, r, v, a, body, st. split_and!; try done; [|congruence|by eapply made_picture].
  rewrite En in Hz |- *. apply cut_take. congruence.
Qed.

Lemma shown_served s p size d uid : good s -> p ∈ profiles s -> p_avatar p <> ""%string -> size ∈ sizes ->
  (forall n, (calls (w_db (here s)) <= n)%nat -> oracle (w_db (here s)) n = Fine) -> works_from (w_disk (here s)) ->
  exists u body w', avatar master_key (free (fun _ => true) s) d uid (get_request (p_avatar p) (to_string size)) (here s) =
      (Returns (Png (quote ++ p_avatar p ++ ":" ++ to_string size ++ quote) body), w') /\
    u ∈ ups /\ a_id u.1 = p_avatar p /\ picture_of u (to_string size) body.
Proof.
  intros Hg Hp Hne Hsize Hfine Hworks.
  destruct (shown_row s p size Hg Hp Hne Hsize) as (Hv & Hfree & u & row & v & a & body & st & Ef & Em & Hh & Ha & Hc & Eb & Hu & Eu & Hpic).
  exists u, body. set (w1 := set_w_db (leased (w_db (here s))) (here s)).
  set (w2 := set_w_db (tick (w_db w1)) w1).
  destruct (load_works (v_id v) a body st Ha Hc (Z.to_nat (ssize body)) 0 w2 Hh Hworks) as [d' El].
  { rewrite Nat.add_0_r. rewrite <- (cut_size body). apply chunks_fuel. apply Forall_lookup. intros i q Hq. apply (proj2 (pieces_whole body) i q Hq). }
  rewrite Z.mul_0_r in El. change (joined (take 0 (cut body))) with ""%string in El.
  assert (get_avatar master_key (free (fun _ => true) s) (get_request (p_avatar p) (to_string size)) w1 =
    (Returns (Png (quote ++ p_avatar p ++ ":" ++ to_string size ++ quote) body), set_w_disk d' w2)) as Eg.
  { unfold get_avatar, get_request. cbn [a_method a_path a_if_none_match]. rewrite bool_decide_true, prefix_app by done.
    erewrite bind_returns by done. rewrite sdrop_app, sfind_skip by (by apply hex_no_slash).
    assert (String.eqb (to_string size) "64" || String.eqb (to_string size) "128" || String.eqb (to_string size) "256" = true) as ->.
    { unfold sizes in Hsize. set_unfold. destruct Hsize as [->|[->|[->|[]]]]; done. }
    rewrite Hv. erewrite bind_returns by done. unfold ResourceLock. rewrite Hv, Hfree. erewrite bind_returns by done.
    erewrite bind_returns by (apply query_works; apply Hfine; simpl; lia). cbn [view w_db set_w_db leased w1 default committed working].
    unfold view. cbn [w_db set_w_db leased working default committed w1]. rewrite Ef, Em. cbn zeta.
    change (String.eqb "" _) with false. cbv iota. rewrite Eb, (proj2 (Z.leb_le _ _)) by (by eapply picture_small).
    erewrite bind_returns by done. erewrite bind_returns by exact El. done. }
  eexists. split_and!; try done. unfold avatar, is_put. cbn [a_method get_request]. rewrite bool_decide_false, andb_false_r by done.
  unfold lease. erewrite bind_returns; cycle 1.
  { unfold on_db, zoom, getConnection. by rewrite Hfine by lia. }
  cbv iota. unfold finally. fold (leased (w_db (here s))). fold w1. rewrite Eg. done.
Qed.

(** A picture that is served is the one of the change with its identifier. *)
Lemma served_exact s obtained d uid req etag body w' : good s -> is_put req = false ->
  avatar master_key obtained d uid req (here s) = (Returns (Png etag body), w') ->
  exists i size u, sfind "/" (sdrop (String.length prefix_path) (a_path req)) = Some (i, size) /\
    u ∈ ups /\ a_id u.1 = i /\ picture_of u size body.
Proof.
  intros [Hs _] Hput E. unfold avatar in E. rewrite Hput in E. revert E. match goal with |- _ -> ?G => set (Q := G) end. intros E.
  apply (wp_intro (lease (get_avatar master_key obtained req)) (fun r _ => r = Returns (Png etag body) -> Q) (here s) (Returns (Png etag body)) w'); [|exact E|done]. clear E.
  apply wp_lease_at; [done|]. set (w1 := set_w_db _ _).
  assert (sound (flying s) (fun _ _ => True) w1) as Hs1 by (apply (fine_db (here s)); [exact Hs|done|simpl; lia]).
  eapply wp_mono; [by apply (get_avatar_sound (flying s) (fun _ _ => True))|]. intros r w2 (_ & _ & Hr) E. exact (Hr etag body E).
Qed.

End Invariant.

(** ** What the users see *)

Section Claims.
Context `{Collation} `{A : Aead} `{!AeadLaws A} `{CL : CodecLaws} (master_key : string).
Context (id_weight : forall i j, validId i = true -> validId j = true -> weight i = weight j -> i = j).

(** No avatar yet, and no file under an identifier that will be drawn. *)
Definition started (l : list event) (s : State) : Prop :=
  in_flight s = [] /\ answered s = [] /\ avatars (committed (w_db (here s))) = [] /\
  Forall (fun p => p_avatar p = ""%string) (profiles s) /\ NoDup (p_uid <$> profiles s) /\
  (forall n, 0 <= clock (w_db (here s)) n) /\
  exists st, holds master_key (w_disk (here s)) st /\
    forall u vid, u ∈ uploads l -> vid ∈ (a_files u.1).*1 -> st !! vid = None.

Definition draws_fresh (l : list event) : Prop :=
  distinct (uploads l) /\ Forall (fun u => draws_ok u.1) (uploads l).

Lemma started_good l s : started l s ->
  good master_key (clock (w_db (here s))) (uploads l) s /\ ordered s /\ Forall (event_ok (uploads l)) l.
Proof.
  intros (Ef & Ea & Er & Hp & Hnd & Hck & st & Hh & Hst). split_and!.
  - split; unfold flying; rewrite Ef; [|constructor].
    split; [done|]. exists 0, st. split_and!; [done|done|]. unfold profiles in Hp, Hnd. rewrite Forall_forall in Hp.
    split; rewrite ?Er; [constructor|intros r Hr; by apply not_elem_of_nil in Hr| | |intros i Hin; by apply not_elem_of_nil in Hin|done| |done].
    + intros u s0 vid out a Hu Hm Ha. rewrite (Hst u vid Hu) in Ha; [done|]. by eapply made_file.
    + intros p Hin. by rewrite (Hp p Hin).
    + intros p p' Hin _ Hne. by rewrite (Hp p Hin) in Hne.
  - unfold ordered. rewrite Ea. split; [intros uid v p Hin; by apply not_elem_of_nil in Hin|]. intros i j uid v v' _ Hi. by rewrite lookup_nil in Hi.
  - apply Forall_forall. intros e He. destruct e as [obtained d uid req| | |]; try done. cbn.
    apply list_elem_of_omap. by exists (Starts obtained d uid req).
Qed.

(** C22. No change of an avatar is lost without notice: however the changes of
    the clients interleave and whatever calls fail, of two changes of one user
    that were answered with 200 the later one expected a higher version than
    the earlier one, so two changes based on one version are never both
    accepted. *)
Theorem avatar_no_lost_update l s i j uid v v' : started l s -> draws_fresh l ->
  answered (foldl (run_event master_key) s l) !! i = Some (uid, v) ->
  answered (foldl (run_event master_key) s l) !! j = Some (uid, v') -> (i < j)%nat -> v < v'.
Proof.
  intros Hs [Hd Hok] Hi Hj Hij. destruct (started_good l s Hs) as (Hg & Ho & He).
  destruct (run_good master_key id_weight (clock (w_db (here s))) (uploads l) Hd Hok l s He Hg Ho) as [_ [_ Ho2]].
  by eapply (Ho2 i j).
Qed.

(** C21. After any sequence of steps, changes under way and clean-up rounds
    interleaved, with failures of the database and the disk: a picture that is
    served is exactly the thumbnail of its size made from the picture uploaded
    with its identifier; and the avatar that a profile shows is served, in
    every size, when the calls of the request do not fail. *)
Theorem avatar_served l s0 : started l s0 -> draws_fresh l ->
  let s := foldl (run_event master_key) s0 l in
  (forall obtained d uid req etag body w', is_put req = false ->
     avatar master_key obtained d uid req (here s) = (Returns (Png etag body), w') ->
     exists i size u, sfind "/" (sdrop (String.length prefix_path) (a_path req)) = Some (i, size) /\
       u ∈ uploads l /\ a_id u.1 = i /\ picture_of u size body) /\
  (forall p size d uid, p ∈ profiles s -> p_avatar p <> ""%string -> size ∈ sizes ->
     (forall n, (calls (w_db (here s)) <= n)%nat -> oracle (w_db (here s)) n = Fine) -> works_from (w_disk (here s)) ->
     exists u body w', avatar master_key (free (fun _ => true) s) d uid (get_request (p_avatar p) (to_string size)) (here s) =
         (Returns (Png (quote ++ p_avatar p ++ ":" ++ to_string size ++ quote) body), w') /\
       u ∈ uploads l /\ a_id u.1 = p_avatar p /\ picture_of u (to_string size) body).
Proof.
  intros Hs [Hd Hok] s. destruct (started_good l s0 Hs) as (Hg & Ho & He).
  destruct (run_good master_key id_weight (clock (w_db (here s0))) (uploads l) Hd Hok l s0 He Hg Ho) as [Hg' _]. split.
  - intros obtained d uid req etag body w'. by eapply served_exact.
  - intros p size d uid. by eapply shown_served.
Qed.

End Claims.

Module Example.

#[local] Existing Instance FileStore.Example.plain_aead.
#[local] Existing Instance FileStore.Example.plain_laws.
#[local] Existing Instance Resource.Example.resource_collation.
#[local] Existing Instance AvatarImage.Example.toy_codec.
#[local] Existing Instance AvatarImage.Example.toy_codec_laws.

Definition uuid (n : string) : string := "00000000-0000-4000-8000-0000000000" ++ n.
Definition files (a : string) : list (string * string) :=
  (fun k => (uuid (a ++ k), FileStore.Example.prefix1)) <$> ["1"; "2"; "3"]%string.
Definition draws1 : AvatarDraws := mkAvatarDraws (uuid "10") (files "1").
Definition draws2 : AvatarDraws := mkAvatarDraws (uuid "20") (files "2").
Definition draws3 : AvatarDraws := mkAvatarDraws (uuid "30") (files "3").

Definition put (version : string) : AvatarRequest :=
  mkAvatarRequest Put "/api/resources/v1/users/me/avatar" AvatarImage.Example.plain version "".

(** Two changes of user 1 based on version 0, and one based on version 1. *)
Definition example_events : list event :=
  [Starts true draws1 1 (put "0"); Starts true draws2 1 (put "0"); Publishes 1; Publishes 0;
   Maintains (fun _ => true); Starts true draws3 1 (put "1"); Publishes 0].

Definition first : State :=
  mkState (mkWorld (mkDb (mkATables [mkProfile 1 "" 0; mkProfile 2 "" 0] [] []) None true 0 0 (fun _ => Fine) Z.of_nat)
             (mkDisk ∅ ∅ 0 (fun _ => Completes)) 0) [] [].

(** The same steps with the thumbnails, which the encoder maps to one text. *)
Fixpoint toy_variants (id : string) (todo : list (Z * (string * string))) (variants : list (string * Variant)) : prog AWorld unit :=
  match todo with
  | [] => mret tt
  | (size, (variant, prefix)) :: todo =>
      let variants := variants ++ [(to_string size, mkVariant variant 3)] in
      make_variant "key" id variant prefix "png" variants ;; toy_variants id todo variants
  end.

Definition toy_stage (d : AvatarDraws) (uid : Z) (req : AvatarRequest) : prog AWorld Z :=
  match number (unquote (a_if_match req)) with
  | None => fail 400
  | Some expected =>
      on_db (exec (insert_avatar (a_id d) uid)) ;;
      ResourceLock true (a_id d) ;;
      toy_variants (a_id d) (zip sizes (a_files d)) [] ;;
      mret expected
  end.

Lemma toy_thumbnail size : size ∈ sizes -> thumbnail AvatarImage.Example.picture size = Some (inr "png"%string).
Proof.
  intros Hs. assert (0 < size <= 256) as Hz by (unfold sizes in Hs; set_unfold; lia).
  assert (decode AvatarImage.Example.plain = inr AvatarImage.Example.picture) as Hd by reflexivity.
  destruct (pixels_exact AvatarImage.Example.picture size (decode_valid _ _ Hd) Hz) as (px & E & _).
  unfold thumbnail. by rewrite E.
Qed.

Lemma toy_variants_eq id todo : (forall x, x ∈ todo -> x.1 ∈ sizes) -> forall vs w,
  make_variants "key" AvatarImage.Example.picture id todo vs w = toy_variants id todo vs w.
Proof.
  induction todo as [|[size [vid prefix]] todo IH]; intros Hin vs w; cbn [make_variants toy_variants]; [done|].
  rewrite (toy_thumbnail size) by (apply (Hin (size, (vid, prefix))); left). unfold mbind, prog_bind.
  change (ssize "png") with 3. destruct (make_variant _ _ _ _ _ _ w) as [[[]|] w']; [|done].
  apply IH. intros x Hx. apply Hin. by right.
Qed.

Lemma toy_stage_eq d uid v w : sempty v = false -> stage "key" true d uid (put v) w = toy_stage d uid (put v) w.
Proof.
  intros Hv. unfold stage, toy_stage. cbn [a_body a_if_match put]. rewrite Hv.
  change (decode AvatarImage.Example.plain) with (inr AvatarImage.Example.picture : Z + Image).
  erewrite bind_returns by reflexivity. erewrite bind_returns by reflexivity.
  destruct (number _); [|done]. unfold mbind, prog_bind. destruct (on_db _ w) as [[x|] w1]; [|done].
  destruct (ResourceLock _ _ w1) as [[[]|] w2]; [|done]. rewrite toy_variants_eq; [done|].
  intros [size f] Hx. apply list_elem_of_lookup in Hx as [i Hi]. apply lookup_zip_Some in Hi as [Hi _].
  by eapply list_elem_of_lookup_2.
Qed.

Definition toy_start (d : AvatarDraws) (uid : Z) (req : AvatarRequest) (w : AWorld) : option Z * AWorld :=
  match on_db getConnection w with
  | (Returns true, w) =>
      match toy_stage d uid req w with
      | (Returns expected, w) => (Some expected, w)
      | (Throws, w) => (None, returned w)
      end
  | (_, w) => (None, w)
  end.

Definition toy_event (s : State) (e : event) : State :=
  match e with
  | Starts _ d uid req =>
      match toy_start d uid req (here s) with
      | (Some expected, w) => mkState w (in_flight s ++ [mkStaged uid expected (a_id d)]) (answered s)
      | (None, w) => mkState w (in_flight s) (answered s)
      end
  | e => run_event "key" s e
  end.

Definition simple (e : event) : Prop :=
  match e with Starts obtained _ _ req => obtained = true /\ exists v, sempty v = false /\ req = put v | _ => True end.

Lemma toy_event_eq s e : simple e -> run_event "key" s e = toy_event s e.
Proof.
  destruct e as [obtained d uid req| | |]; try done. intros (-> & v & Hv & ->). cbn [run_event toy_event].
  unfold start, toy_start. destruct (on_db getConnection (here s)) as [[[]|] w]; try done. by rewrite toy_stage_eq.
Qed.

Lemma toy_run_eq l : Forall simple l -> forall s, foldl (run_event "key") s l = foldl toy_event s l.
Proof. induction 1 as [|e l He _ IH]; intros s; [done|]. cbn [foldl]. by rewrite toy_event_eq, IH. Qed.

Lemma example_simple : Forall simple example_events.
Proof. unfold example_events. repeat (apply Forall_cons_2; [first [done|split; [done|eexists; split; [|reflexivity]; done]]|]). apply Forall_nil_2. Qed.

Lemma avatars_started : started "key" example_events first.
Proof.
  split_and!; try done; [by repeat constructor|apply (bool_decide_unpack _); by vm_compute|cbn; lia|].
  exists ∅. split; [split; [intros i a Ha; by rewrite lookup_empty in Ha|done]|done].
Qed.

Lemma example_fresh : draws_fresh example_events.
Proof. split; [split; apply (bool_decide_unpack _); by vm_compute|]. by repeat constructor. Qed.

Lemma avatar_no_lost_update_witness :
  answered (foldl (run_event "key") first example_events) = [(1, 0); (1, 1)] /\ 0 < 1.
Proof.
  assert (answered (foldl (run_event "key") first example_events) = [(1, 0); (1, 1)]) as E
    by (rewrite (toy_run_eq _ example_simple); vm_compute; reflexivity).
  split; [exact E|].
  apply (avatar_no_lost_update "key" Resource.Example.example_weight example_events first 0 1 1 0 1 avatars_started example_fresh);
    [by rewrite E|by rewrite E|lia].
Defined.

Lemma avatar_served_witness : let s := foldl (run_event "key") first example_events in
  exists u body w', avatar "key" (free (fun _ => true) s) draws1 2 (get_request (uuid "30") (to_string 64)) (here s) =
      (Returns (Png (quote ++ uuid "30" ++ ":" ++ to_string 64 ++ quote) body), w') /\
    u ∈ uploads example_events /\ a_id u.1 = uuid "30" /\ picture_of u (to_string 64) body.
Proof.
  destruct (avatar_served "key" Resource.Example.example_weight example_events first avatars_started example_fresh) as [_ Hserved].
  apply (Hserved (mkProfile 1 (uuid "30") 2) 64 draws1 2); rewrite ?(toy_run_eq _ example_simple).
  - refine (list_elem_of_lookup_2 _ 0 _ _). vm_compute. reflexivity.
  - done.
  - left.
  - assert (oracle (w_db (here (foldl toy_event first example_events))) = fun _ => Fine) as -> by (vm_compute; reflexivity). done.
  - assert (doracle (w_disk (here (foldl toy_event first example_events))) = fun _ => Completes) as E by (vm_compute; reflexivity).
    intros n _. by rewrite E.
Defined.

End Example.
