(* ===== verification/Pool.v ===== *)
(** The connection pools: [src/common/MysqlConnectionPool.h] (module
    [MySqlPool]) and [src/common/RedisConnectionPool.h] (module
    [RedisConnectionPool]).  Both keep a queue of idle connections and a count
    [live_connections_] under one mutex; each region that holds the mutex is
    one function here, and the threads of the program interleave them. *)
From S2P Require Import Prelude.

(** The fields both pools have, and four counts of where the connections
    are that are not in the queue: with a caller, being created, being checked
    by the health thread, or destroyed by a caller that never returned them. *)
Record Pool := mkPool {
  pool_size : Z;
  connections_ : list nat;
  live_connections_ : Z;
  stopped_ : bool;
  lent : Z;
  creating : Z;
  checking : Z;
  lost : Z;
}.

Definition with_live (n : Z) (p : Pool) : Pool :=
  mkPool (pool_size p) (connections_ p) n (stopped_ p) (lent p) (creating p) (checking p) (lost p).
Definition with_queue (q : list nat) (p : Pool) : Pool :=
  mkPool (pool_size p) q (live_connections_ p) (stopped_ p) (lent p) (creating p) (checking p) (lost p).
Definition with_places (l c k x : Z) (p : Pool) : Pool :=
  mkPool (pool_size p) (connections_ p) (live_connections_ p) (stopped_ p) l c k x.

(** [if (live_connections_ > 0) --live_connections_;] *)
Definition drop_live (p : Pool) : Pool :=
  if 0 <? live_connections_ p then with_live (live_connections_ p - 1) p else p.

(** [getConnection] once the wait is over, by a connection, by the stop or by
    the timeout. *)
Definition getConnection (p : Pool) : option nat * Pool :=
  match connections_ p with
  | c :: rest =>
      if stopped_ p then (None, p)
      else (Some c, with_places (lent p + 1) (creating p) (checking p) (lost p) (with_queue rest p))
  | [] => (None, p)
  end.

(** The last region of [returnConnection], for a connection that is fine. *)
Definition put_back (c : nat) (p : Pool) : Pool :=
  if stopped_ p then drop_live p else with_queue (connections_ p ++ [c]) p.

Definition returned (p : Pool) : Pool :=
  with_places (lent p - 1) (creating p) (checking p) (lost p) p.

(** The first region of [CreateOneConnection]: reserve a place. *)
Definition reserve (p : Pool) : bool * Pool :=
  if stopped_ p || (pool_size p <=? live_connections_ p) then (false, p)
  else (true, with_places (lent p) (creating p + 1) (checking p) (lost p)
                (with_live (live_connections_ p + 1) p)).

(** Its last region: [made] is the new connection, or nothing. *)
Definition publish (made : option nat) (p : Pool) : bool * Pool :=
  let p := with_places (lent p) (creating p - 1) (checking p) (lost p) p in
  match made with
  | None => (false, with_live (live_connections_ p - 1) p)
  | Some c =>
      if stopped_ p then (false, with_live (live_connections_ p - 1) p)
      else (true, with_queue (connections_ p ++ [c]) p)
  end.

(** [CreateOneConnection] when nothing interleaves with it. *)
Definition CreateOneConnection (made : option nat) (p : Pool) : bool * Pool :=
  let '(ok, p) := reserve p in
  if ok then publish made p else (false, p).

Definition DiscardConnection (p : Pool) : Pool := drop_live p.

(** The region of [CheckIdleConnections] that takes a connection, and
    [getConNonBlock] of the Redis pool. *)
Definition take_idle (p : Pool) : option nat * Pool :=
  match connections_ p with
  | c :: rest =>
      if stopped_ p then (None, p)
      else (Some c, with_places (lent p) (creating p) (checking p + 1) (lost p) (with_queue rest p))
  | [] => (None, p)
  end.

Definition checked (p : Pool) : Pool :=
  with_places (lent p) (creating p) (checking p - 1) (lost p) p.

(** The loop of [CheckIdleConnections] when nothing interleaves with it;
    [healthy c] is the verdict on a connection. *)
Fixpoint check_loop (healthy : nat -> bool) (idle_count : nat) (p : Pool) : Pool :=
  match idle_count with
  | O => p
  | S n =>
      match take_idle p with
      | (None, p) => p
      | (Some c, p) =>
          let p := checked p in
          check_loop healthy n (if healthy c then put_back c p else DiscardConnection p)
      end
  end.

Definition CheckIdleConnections (healthy : nat -> bool) (p : Pool) : Pool :=
  check_loop healthy (length (connections_ p)) p.

(** [while (CreateOneConnection()) {}]: [made n] is what the n-th attempt
    makes.  Each successful round takes a free place, so [fuel] of one more
    than the free places is enough. *)
Fixpoint replenish_loop (fuel : nat) (made : nat -> option nat) (n : nat) (p : Pool) : option Pool :=
  match fuel with
  | O => None
  | S fuel =>
      match CreateOneConnection (made n) p with
      | (true, p) => replenish_loop fuel made (S n) p
      | (false, p) => Some p
      end
  end.

Definition ReplenishConnections (made : nat -> option nat) (p : Pool) : option Pool :=
  replenish_loop (S (Z.to_nat (pool_size p - live_connections_ p))) made 0 p.

(** The round of [HealthWorker] between two waits. *)
Definition health_round (healthy : nat -> bool) (made : nat -> option nat) (p : Pool) : option Pool :=
  if stopped_ p then Some p else ReplenishConnections made (CheckIdleConnections healthy p).

(** The loop of the constructor. *)
Fixpoint fill (n : nat) (made : nat -> option nat) (p : Pool) : Pool :=
  match n with
  | O => p
  | S n => match CreateOneConnection (made n) p with
           | (true, p) => fill n made p
           | (false, p) => p
           end
  end.

Definition create (size : Z) (made : nat -> option nat) : Pool :=
  fill (Z.to_nat size) made (mkPool size [] 0 false 0 0 0 0).

(** [Close]: the flag, and after the join the emptied queue. *)
Definition set_stopped (p : Pool) : Pool :=
  mkPool (pool_size p) (connections_ p) (live_connections_ p) true (lent p) (creating p) (checking p) (lost p).

Definition ClearConnections (p : Pool) : Pool :=
  with_queue [] (foldl (fun p _ => drop_live p) p (connections_ p)).

Module MySqlPool.

(** [returnConnection]: [sanitized] is whether the sanitizer returned; if
    not the connection is discarded and one is made in its place. *)
Definition returnConnection (c : nat) (sanitized : bool) (made : option nat) (p : Pool) : Pool :=
  let p := returned p in
  if sanitized then put_back c p else (CreateOneConnection made (DiscardConnection p)).2.

Definition Close (p : Pool) : Pool := ClearConnections (set_stopped p).

End MySqlPool.

Module RedisConnectionPool.

Definition returnConnection (c : nat) (p : Pool) : Pool := put_back c (returned p).

Definition Close (p : Pool) : Pool := ClearConnections (set_stopped p).

(** [Authenticate]: the reply of [AUTH] that counts as a success. *)
Inductive reply := Status (str : string) | OtherReply.

Definition Authenticate (password_ : string) (answer : option reply) : bool :=
  if sempty password_ then true
  else match answer with
       | Some (Status str) => String.eqb str "OK" || String.eqb str "ok"
       | _ => false
       end.

(** The verdict of the health check on the reply of [PING]. *)
Definition healthy_reply (answer : option reply) (context_ok : bool) : bool :=
  match answer with Some (Status str) => String.eqb str "PONG" | _ => false end && context_ok.

End RedisConnectionPool.

(** ** The interleavings *)

(** The regions as steps of a pool shared by callers, the health thread and
    the closing thread.  [step_lose] is a caller that destroys its connection
    without returning it. *)
Inductive step : Pool -> Pool -> Prop :=
| step_get p : step p (getConnection p).2
| step_put c p : 0 < lent p -> step p (put_back c (returned p))
| step_discard p : 0 < lent p -> step p (DiscardConnection (returned p))
| step_lose p : 0 < lent p ->
    step p (with_places (lent p - 1) (creating p) (checking p) (lost p + 1) p)
| step_reserve p : step p (reserve p).2
| step_publish made p : 0 < creating p -> step p (publish made p).2
| step_take p : step p (take_idle p).2
| step_checked c p : 0 < checking p -> step p (put_back c (checked p))
| step_unhealthy p : 0 < checking p -> step p (DiscardConnection (checked p))
| step_stop p : step p (set_stopped p)
| step_clear p : stopped_ p = true -> step p (ClearConnections p).

Inductive reachable (size : Z) : Pool -> Prop :=
| reach_create made : reachable size (create size made)
| reach_step p p' : reachable size p -> step p p' -> reachable size p'.

(** Every live connection is somewhere, and there are at most [pool_size]. *)
Record inv (p : Pool) : Prop := {
  inv_places : live_connections_ p =
    Z.of_nat (length (connections_ p)) + lent p + creating p + checking p + lost p;
  inv_counts : 0 <= lent p /\ 0 <= creating p /\ 0 <= checking p /\ 0 <= lost p;
  inv_size : live_connections_ p <= Z.max 0 (pool_size p);
}.

Lemma inv_reserve p : inv p -> inv (reserve p).2.
Proof.
  intros [Hp Hc Hs]. unfold reserve. destruct (_ || _) eqn:E; [done|]. bool_hyps.
  split; simpl; lia.
Qed.

Lemma inv_publish made p : 0 < creating p -> inv p -> inv (publish made p).2.
Proof.
  intros Hpos [Hp Hc Hs]. unfold publish. destruct made; simpl; [destruct (stopped_ p)|];
    split; simpl; rewrite ?length_app; simpl; lia.
Qed.

Lemma inv_put_back c p : live_connections_ p - 1 =
    Z.of_nat (length (connections_ p)) + lent p + creating p + checking p + lost p ->
  0 <= lent p /\ 0 <= creating p /\ 0 <= checking p /\ 0 <= lost p ->
  live_connections_ p <= Z.max 0 (pool_size p) -> inv (put_back c p) /\ inv (DiscardConnection p).
Proof.
  intros Hp Hc Hs. unfold put_back, DiscardConnection, drop_live.
  rewrite (proj2 (Z.ltb_lt 0 (live_connections_ p))) by lia.
  split; [destruct (stopped_ p)|]; split; simpl; rewrite ?length_app; simpl; lia.
Qed.

Lemma inv_drop_many (q : list nat) p :
  live_connections_ p = Z.of_nat (length q) + lent p + creating p + checking p + lost p ->
  0 <= lent p /\ 0 <= creating p /\ 0 <= checking p /\ 0 <= lost p ->
  live_connections_ p <= Z.max 0 (pool_size p) ->
  inv (with_queue [] (foldl (fun p _ => drop_live p) p q)).
Proof.
  revert p. induction q as [|c q IH]; intros p Hp Hc Hs; simpl in *; [by split|].
  apply IH; unfold drop_live; rewrite (proj2 (Z.ltb_lt 0 (live_connections_ p))) by lia; simpl; lia.
Qed.

Lemma pool_step_inv p p' : inv p -> step p p' -> inv p'.
Proof.
  intros I St. destruct St; pose proof I as [Hp Hc Hs].
  - unfold getConnection. destruct (connections_ p) as [|c rest] eqn:E; [done|].
    destruct (stopped_ p); [done|]. simpl in *. split; simpl; lia.
  - apply (inv_put_back c); simpl; lia.
  - apply (proj2 (inv_put_back 0 (returned p) ltac:(simpl; lia) ltac:(simpl; lia) ltac:(simpl; lia))).
  - split; simpl; lia.
  - by apply inv_reserve.
  - by apply inv_publish.
  - unfold take_idle. destruct (connections_ p) as [|c rest] eqn:E; [done|].
    destruct (stopped_ p); [done|]. simpl in *. split; simpl; lia.
  - apply (inv_put_back c); simpl; lia.
  - apply (proj2 (inv_put_back 0 (checked p) ltac:(simpl; lia) ltac:(simpl; lia) ltac:(simpl; lia))).
  - by split.
  - by apply inv_drop_many.
Qed.

Lemma inv_create_one made p : inv p -> inv (CreateOneConnection made p).2.
Proof.
  intros I. unfold CreateOneConnection. destruct (reserve p) as [ok p1] eqn:E.
  pose proof (inv_reserve p I) as I1. rewrite E in I1. simpl in I1.
  destruct ok; [|done]. apply inv_publish; [|done].
  unfold reserve in E. case_code; [done|]. injection E as <-. simpl. destruct I. lia.
Qed.

Lemma inv_fill n made p : inv p -> inv (fill n made p).
Proof.
  revert p. induction n as [|n IH]; intros p I; simpl; [done|].
  pose proof (inv_create_one (made n) p I) as I1.
  destruct (CreateOneConnection (made n) p) as [[] p1]; [by apply IH|done].
Qed.

Lemma pool_reachable_inv size p : reachable size p -> inv p.
Proof.
  induction 1; [|eauto using pool_step_inv]. apply inv_fill. split; simpl; lia.
Qed.

Lemma pool_size_step p p' : step p p' -> pool_size p' = pool_size p.
Proof.
  assert (forall (q : list nat) p, pool_size (foldl (fun p _ => drop_live p) p q) = pool_size p) as Hf.
  { induction q as [|c q IH]; intros p0; simpl; [done|]. rewrite IH. unfold drop_live. by case_code. }
  destruct 1; unfold getConnection, put_back, DiscardConnection, reserve, publish, take_idle,
    ClearConnections, drop_live; try (simpl; apply Hf); repeat case_code; simplify_eq/=; done.
Qed.

Lemma lost_step p p' : step p p' -> lost p <= lost p'.
Proof.
  assert (forall (q : list nat) p, lost (foldl (fun p _ => drop_live p) p q) = lost p) as Hf.
  { induction q as [|c q IH]; intros p0; simpl; [done|]. rewrite IH. unfold drop_live. by case_code. }
  destruct 1; unfold getConnection, put_back, DiscardConnection, reserve, publish, take_idle,
    ClearConnections, drop_live; try (simpl; rewrite Hf; lia); repeat case_code; simplify_eq/=; lia.
Qed.

(** ** Properties *)

(** In every interleaving of callers, the health thread and the closing
    thread the pool has at most [pool_size] live connections and its count is
    exact: each live connection is idle, lent, being made, being checked or
    was destroyed by a caller that never returned it.  In particular the
    counter never goes below zero, with or without the source's guards. *)
Theorem pool_accounting size p :
  reachable size p ->
  live_connections_ p =
    Z.of_nat (length (connections_ p)) + lent p + creating p + checking p + lost p /\
  0 <= live_connections_ p <= Z.max 0 (pool_size p).
Proof. intros [Hp Hc Hs]%pool_reachable_inv. split; lia. Qed.

(** A connection that is not returned is never replaced: once as many
    connections as the pool has places were destroyed by their callers, no
    later request, whatever the health thread does in between, is given a
    connection. *)
Theorem lost_connections_starve size p p' :
  reachable size p -> pool_size p <= lost p -> rtc step p p' -> (getConnection p').1 = None.
Proof.
  intros Hr Hl Hst.
  assert (reachable size p' /\ pool_size p' <= lost p') as [Hr' Hl'].
  { induction Hst as [p|p p1 p2 St _ IH]; [done|]. apply IH; [by eapply reach_step|].
    rewrite (pool_size_step _ _ St). pose proof (lost_step _ _ St). lia. }
  apply pool_reachable_inv in Hr' as [Hp Hc Hs]. unfold getConnection.
  destruct (connections_ p') as [|c rest] eqn:E; [done|]. simpl in *. lia.
Qed.

Lemma replenish_loop_total fuel made n p :
  inv p -> (Z.to_nat (pool_size p - live_connections_ p) < fuel)%nat ->
  exists p', replenish_loop fuel made n p = Some p' /\ inv p'.
Proof.
  revert n p. induction fuel as [|fuel IH]; intros n p I Hf; [lia|]. simpl.
  pose proof (inv_create_one (made n) p I) as I1.
  destruct (CreateOneConnection (made n) p) as [[] p1] eqn:E; [|eauto].
  apply IH; [done|]. unfold CreateOneConnection, reserve, publish in E.
  destruct (_ || _) eqn:Eg; [done|]. destruct (made n); simpl in E; [|done].
  bool_hyps. rewrite H in E. simplify_eq. simpl in *. lia.
Qed.


(** ** Examples: a pool of one place *)

Definition full_pool : Pool := create 1 Some.
Definition lending_pool : Pool := (getConnection full_pool).2.
Definition leaked_pool : Pool :=
  with_places (lent lending_pool - 1) (creating lending_pool) (checking lending_pool)
              (lost lending_pool + 1) lending_pool.

Lemma lending_pool_reachable : reachable 1 lending_pool.
Proof. eapply reach_step; [apply (reach_create 1 Some)|apply step_get]. Qed.

Lemma leaked_pool_reachable : reachable 1 leaked_pool.
Proof. eapply reach_step; [apply lending_pool_reachable|by apply step_lose]. Qed.

Lemma pool_accounting_witness : live_connections_ lending_pool = 1 /\ lent lending_pool = 1 /\
  live_connections_ lending_pool <= Z.max 0 (pool_size lending_pool).
Proof.
  split; [reflexivity|]. split; [reflexivity|].
  apply (pool_accounting 1 lending_pool lending_pool_reachable).
Defined.

Lemma lost_connections_starve_witness : (getConnection (reserve leaked_pool).2).1 = None.
Proof.
  apply (lost_connections_starve 1 leaked_pool _ leaked_pool_reachable).
  - vm_compute. discriminate.
  - apply rtc_once, step_reserve.
Defined.

