(* ===== verification/Redis.v ===== *)
(** Redis as the servers use it: [src/servers/chat/storage/RedisMgr.cpp],
    [DistLock.cpp], the [SetEx] of [src/servers/status/storage/RedisMgr.cpp]
    and the verification codes of [src/servers/gate/storage/RedisMgr.cpp].

    A command reaches the server and is answered, or fails before it does
    (no pooled connection, or a broken one), or is executed and its answer is
    lost; an arbitrary function [oracle] decides, command by command. *)
From S2P Require Import Prelude Mysql.

(** The values of the store and the replies of hiredis. *)
Inductive rvalue := VString (s : string) | VList (l : list string) | VHash (h : gmap string string).

Inductive Reply :=
| ReplyNil
| ReplyString (str : string)
| ReplyInteger (n : Z)
| ReplyStatus (str : string)
| ReplyError (str : string).

Record entry := mkEntry { rval : rvalue; expires : option Z }.

Record redis := mkRedis {
  keys : gmap string entry;
  rcalls : nat;
  roracle : nat -> fault;
  rclock : nat -> Z;          (** the server's time at the n-th command, in milliseconds *)
}.

Definition WRONGTYPE : Reply :=
  ReplyError "WRONGTYPE Operation against a key holding the wrong kind of value".

(** An expired key is as good as absent. *)
Definition live (now : Z) (e : entry) : bool :=
  match expires e with None => true | Some t => now <? t end.
Definition lookup_key (now : Z) (k : string) (m : gmap string entry) : option entry :=
  e ← m !! k; if live now e then Some e else None.

(** One command; [None] is a missing connection or a NULL reply. *)
Definition command (f : Z -> gmap string entry -> Reply * gmap string entry) (s : redis)
    : option Reply * redis :=
  let n := rcalls s in
  match roracle s n with
  | FailsBefore => (None, mkRedis (keys s) (S n) (roracle s) (rclock s))
  | o => let '(r, m) := f (rclock s n) (keys s) in
         (match o with Fine => Some r | _ => None end, mkRedis m (S n) (roracle s) (rclock s))
  end.

(** ** Commands *)

Definition GET (k : string) (now : Z) (m : gmap string entry) : Reply * gmap string entry :=
  (match lookup_key now k m with
   | None => ReplyNil
   | Some (mkEntry (VString v) _) => ReplyString v
   | Some _ => WRONGTYPE
   end, m).

(** [SET k v [EX ttl] [NX]] *)
Definition SET (k v : string) (ttl : option Z) (nx : bool) (now : Z) (m : gmap string entry)
    : Reply * gmap string entry :=
  match nx, lookup_key now k m with
  | true, Some _ => (ReplyNil, m)
  | _, _ => (ReplyStatus "OK", <[k := mkEntry (VString v) ((fun t => now + 1000 * t) <$> ttl)]> m)
  end.

Definition DEL (k : string) (now : Z) (m : gmap string entry) : Reply * gmap string entry :=
  (ReplyInteger (match lookup_key now k m with Some _ => 1 | None => 0 end), delete k m).

Definition EXISTS (k : string) (now : Z) (m : gmap string entry) : Reply * gmap string entry :=
  (ReplyInteger (match lookup_key now k m with Some _ => 1 | None => 0 end), m).

Definition PUSH (front : bool) (k v : string) (now : Z) (m : gmap string entry)
    : Reply * gmap string entry :=
  match lookup_key now k m with
  | None => (ReplyInteger 1, <[k := mkEntry (VList [v]) None]> m)
  | Some (mkEntry (VList l) t) =>
      (ReplyInteger (Z.of_nat (S (length l))),
       <[k := mkEntry (VList (if front then v :: l else l ++ [v])) t]> m)
  | Some _ => (WRONGTYPE, m)
  end.

(** A list that becomes empty is removed. *)
Definition POP (front : bool) (k : string) (now : Z) (m : gmap string entry)
    : Reply * gmap string entry :=
  match lookup_key now k m with
  | None => (ReplyNil, m)
  | Some (mkEntry (VList l) t) =>
      let '(x, rest) := if front then (head l, tail l) else (last l, take (length l - 1) l) in
      match x with
      | None => (ReplyNil, m)
      | Some v => (ReplyString v,
                   if decide (rest = []) then delete k m else <[k := mkEntry (VList rest) t]> m)
      end
  | Some _ => (WRONGTYPE, m)
  end.

Definition HSET (k f v : string) (now : Z) (m : gmap string entry) : Reply * gmap string entry :=
  match lookup_key now k m with
  | None => (ReplyInteger 1, <[k := mkEntry (VHash {[f := v]}) None]> m)
  | Some (mkEntry (VHash h) t) =>
      (ReplyInteger (match h !! f with None => 1 | Some _ => 0 end),
       <[k := mkEntry (VHash (<[f := v]> h)) t]> m)
  | Some _ => (WRONGTYPE, m)
  end.

Definition HGET (k f : string) (now : Z) (m : gmap string entry) : Reply * gmap string entry :=
  (match lookup_key now k m with
   | None => ReplyNil
   | Some (mkEntry (VHash h) _) => match h !! f with Some v => ReplyString v | None => ReplyNil end
   | Some _ => WRONGTYPE
   end, m).

Definition HDEL (k f : string) (now : Z) (m : gmap string entry) : Reply * gmap string entry :=
  match lookup_key now k m with
  | None => (ReplyInteger 0, m)
  | Some (mkEntry (VHash h) t) =>
      match h !! f with
      | None => (ReplyInteger 0, m)
      | Some _ => (ReplyInteger 1,
                   if decide (delete f h = ∅) then delete k m else <[k := mkEntry (VHash (delete f h)) t]> m)
      end
  | Some _ => (WRONGTYPE, m)
  end.

(** The script of [GetDel]: a missing value is returned as nil. *)
Definition EVAL_getdel (k : string) (now : Z) (m : gmap string entry) : Reply * gmap string entry :=
  match GET k now m with
  | (ReplyString v, _) => (ReplyString v, (DEL k now m).2)
  | (r, _) => (r, m)
  end.

(** The script of [releaseLock]. *)
Definition EVAL_release (k id : string) (now : Z) (m : gmap string entry) : Reply * gmap string entry :=
  match GET k now m with
  | (ReplyString v, _) => if String.eqb v id then DEL k now m else (ReplyInteger 0, m)
  | (ReplyError e, _) => (ReplyError e, m)
  | _ => (ReplyInteger 0, m)
  end.

(** ** [RedisMgr] *)

Module RedisMgr.

(** [GET %s] with [c_str] arguments; [value = reply->str]. *)
Definition Get (key : string) (s : redis) : option string * redis :=
  let '(r, s) := command (GET (c_str key)) s in
  (match r with Some (ReplyString v) => Some (c_str v) | _ => None end, s).

Definition GetDel (key : string) (s : redis) : option string * redis :=
  let '(r, s) := command (EVAL_getdel key) s in
  (match r with Some (ReplyString v) => Some v | _ => None end, s).

Definition is_ok (r : option Reply) : bool :=
  match r with Some (ReplyStatus v) => String.eqb v "OK" || String.eqb v "ok" | _ => false end.

Definition Set_ (key value : string) (s : redis) : bool * redis :=
  let '(r, s) := command (SET (c_str key) (c_str value) None false) s in (is_ok r, s).

Definition SetWithTtl (key value : string) (ttl_seconds : Z) (s : redis) : bool * redis :=
  if ttl_seconds <=? 0 then (false, s)
  else let '(r, s) := command (SET key value (Some ttl_seconds) false) s in
       (match r with Some (ReplyStatus v) => String.eqb v "OK" | _ => false end, s).

(** [SetEx] of the status server: only a new key. *)
Definition SetEx (key value : string) (ttl_seconds : Z) (s : redis) : bool * redis :=
  let '(r, s) := command (SET key value (Some ttl_seconds) true) s in
  (match r with Some (ReplyStatus v) => String.eqb v "OK" | _ => false end, s).

Definition pushed (r : option Reply) : bool :=
  match r with Some (ReplyInteger n) => 0 <? n | _ => false end.

Definition LPush (key value : string) (s : redis) : bool * redis :=
  let '(r, s) := command (PUSH true (c_str key) (c_str value)) s in (pushed r, s).
Definition RPush (key value : string) (s : redis) : bool * redis :=
  let '(r, s) := command (PUSH false (c_str key) (c_str value)) s in (pushed r, s).

(** Only nil is tested: the text of an error reply is taken as the value. *)
Definition popped (r : option Reply) : option string :=
  match r with
  | None | Some ReplyNil => None
  | Some (ReplyString v) | Some (ReplyStatus v) | Some (ReplyError v) => Some (c_str v)
  | Some (ReplyInteger _) => None
  end.

Definition LPop (key : string) (s : redis) : option string * redis :=
  let '(r, s) := command (POP true (c_str key)) s in (popped r, s).
Definition RPop (key : string) (s : redis) : option string * redis :=
  let '(r, s) := command (POP false (c_str key)) s in (popped r, s).

Definition HSet (key hkey value : string) (s : redis) : bool * redis :=
  let '(r, s) := command (HSET (c_str key) (c_str hkey) (c_str value)) s in
  (match r with Some (ReplyInteger _) => true | _ => false end, s).

(** The overload with a value of explicit length. *)
Definition HSetBytes (key hkey hvalue : string) (s : redis) : bool * redis :=
  let '(r, s) := command (HSET (c_str key) (c_str hkey) hvalue) s in
  (match r with Some (ReplyInteger _) => true | _ => false end, s).

Definition HGet (key hkey : string) (s : redis) : string * redis :=
  let '(r, s) := command (HGET key hkey) s in (default "" (popped r), s).

Definition HDel (key field : string) (s : redis) : bool * redis :=
  let '(r, s) := command (HDEL (c_str key) (c_str field)) s in (pushed r, s).

Definition Del (key : string) (s : redis) : bool * redis :=
  let '(r, s) := command (DEL (c_str key)) s in
  (match r with Some (ReplyInteger _) => true | _ => false end, s).

Definition ExistsKey (key : string) (s : redis) : bool * redis :=
  let '(r, s) := command (EXISTS (c_str key)) s in
  (match r with Some (ReplyInteger n) => negb (n =? 0) | _ => false end, s).

End RedisMgr.

(** ** The distributed lock *)

Module DistLock.

(** The key as the command receives it. *)
Definition lockKey (lockName : string) : string := c_str ("lock:" ++ lockName).

(** The loop of [acquireLock]; [rounds] is how many times it runs before its
    deadline.  [identifier] is the fresh UUID. *)
Fixpoint acquire_loop (key identifier : string) (lockTimeout : Z) (rounds : nat) (s : redis)
    : string * redis :=
  match rounds with
  | O => ("", s)
  | S n =>
      match command (SET key (c_str identifier) (Some lockTimeout) true) s with
      | (Some (ReplyStatus v), s) =>
          if String.eqb v "OK" then (identifier, s)
          else acquire_loop key identifier lockTimeout n s
      | (_, s) => acquire_loop key identifier lockTimeout n s
      end
  end.

Definition acquireLock (identifier lockName : string) (lockTimeout : Z) (rounds : nat) (s : redis)
    : string * redis :=
  acquire_loop (lockKey lockName) identifier lockTimeout rounds s.

Definition releaseLock (lockName identifier : string) (s : redis) : bool * redis :=
  if sempty identifier then (true, s)
  else let '(r, s) := command (EVAL_release (lockKey lockName) (c_str identifier)) s in
       (match r with Some (ReplyInteger n) => n =? 1 | _ => false end, s).

(** [identifier] holds the lock at time [now]. *)
Definition holds (lockName identifier : string) (now : Z) (s : redis) : Prop :=
  exists t, keys s !! lockKey lockName = Some (mkEntry (VString identifier) (Some t)) /\ now < t.

(** The lock is exclusive: while somebody holds it at the times of the
    commands of [acquireLock], acquiring gives nothing and changes nothing,
    however often it retries and whatever fails; and releasing it with another
    identifier changes nothing either. *)
Theorem lock_exclusive lockName owner other ttl rounds s :
  (forall n, holds lockName owner (rclock s n) s) -> owner <> c_str other -> sempty other = false ->
  (acquireLock other lockName ttl rounds s).1 = "" /\
  keys (acquireLock other lockName ttl rounds s).2 = keys s /\
  keys (releaseLock lockName other s).2 = keys s.
Proof.
  intros Hh Hne Hemp. split_and!.
  - unfold acquireLock. revert s Hh. induction rounds as [|n IH]; intros s Hh; simpl; [done|].
    destruct (Hh (rcalls s)) as (t & Hk & Hlt). unfold command, SET, lookup_key, live. rewrite Hk. simpl.
    rewrite (proj2 (Z.ltb_lt _ _) Hlt). destruct (roracle s (rcalls s)); simpl; apply IH, Hh.
  - unfold acquireLock. revert s Hh. induction rounds as [|n IH]; intros s Hh; simpl; [done|].
    destruct (Hh (rcalls s)) as (t & Hk & Hlt). unfold command, SET, lookup_key, live. rewrite Hk. simpl.
    rewrite (proj2 (Z.ltb_lt _ _) Hlt).
    destruct (roracle s (rcalls s)); simpl; (rewrite IH; [done|apply Hh]).
  - unfold releaseLock. rewrite Hemp. destruct (Hh (rcalls s)) as (t & Hk & Hlt).
    unfold command, EVAL_release, GET, lookup_key, live. rewrite Hk. simpl.
    rewrite (proj2 (Z.ltb_lt _ _) Hlt), (proj2 (String.eqb_neq _ _) Hne).
    by destruct (roracle s (rcalls s)).
Qed.

(** Whoever is given the lock holds it: a non-empty answer of
    [acquireLock] is the identifier, and from the command that was answered on
    it holds the lock for [lockTimeout] seconds. *)
Theorem lock_acquired identifier lockName ttl rounds s :
  c_str identifier = identifier ->
  (acquireLock identifier lockName ttl rounds s).1 <> "" ->
  exists n s', acquireLock identifier lockName ttl rounds s = (identifier, s') /\
    forall now, now < rclock s n + 1000 * ttl -> holds lockName identifier now s'.
Proof.
  intros Htext. unfold acquireLock, holds. revert s.
  induction rounds as [|k IH]; intros s; simpl; [done|].
  unfold command, SET. rewrite Htext.
  destruct (roracle s (rcalls s)); simpl;
    [|apply (IH (mkRedis _ _ _ (rclock s)))|].
  - destruct (lookup_key _ _ _) as [e|]; simpl; [apply (IH (mkRedis _ _ _ (rclock s)))|]. intros _.
    exists (rcalls s). eexists. split; [done|]. intros now Hlt. simpl.
    exists (rclock s (rcalls s) + 1000 * ttl). by rewrite lookup_insert_eq.
  - destruct (lookup_key _ _ _) as [e|]; simpl; apply (IH (mkRedis _ _ _ (rclock s))).
Qed.

(** *** Examples *)

Definition idle_redis : redis := mkRedis ∅ 0 (fun _ => Fine) (fun n => Z.of_nat n).

Lemma lock_acquired_witness :
  exists n s', acquireLock "id-1" "room" 10 3 idle_redis = ("id-1", s') /\
    forall now, now < rclock idle_redis n + 1000 * 10 -> holds "room" "id-1" now s'.
Proof. apply (lock_acquired "id-1" "room" 10 3 idle_redis); [reflexivity|discriminate]. Defined.

Definition locked_redis : redis :=
  mkRedis {[lockKey "room" := mkEntry (VString "id-1") (Some 10)]} 0
          (fun _ => Fine) (fun n => Z.min (Z.of_nat n) 9).

Lemma lock_exclusive_witness : (acquireLock "id-2" "room" 10 4 locked_redis).1 = "".
Proof.
  apply (lock_exclusive "room" "id-1" "id-2" 10 4 locked_redis); [|discriminate|reflexivity].
  intros n. exists 10. split; [reflexivity|]. simpl. lia.
Defined.

End DistLock.

(** ** Login tickets *)

(** The status server issues a ticket with [SetEx] ([insertToken]) and the
    chat server consumes it with [GetDel] ([LoginChatCallback]). *)
Module Tickets.

Definition CHAT_TICKET_PREFIX : string := "chat_ticket_".
Definition CHAT_TICKET_TTL_SECONDS : Z := 60.

Inductive ticket_op :=
| Issue (token ticket : string)
| Redeem (token : string).

Definition ticket_key (token : string) : string := CHAT_TICKET_PREFIX ++ token.

(** One operation, and the ticket a redemption obtained. *)
Definition run_ticket (op : ticket_op) (s : redis) : option string * redis :=
  match op with
  | Issue token ticket => (None, (RedisMgr.SetEx (ticket_key token) ticket CHAT_TICKET_TTL_SECONDS s).2)
  | Redeem token => RedisMgr.GetDel (ticket_key token) s
  end.

Definition run_tickets : list ticket_op -> redis -> list (ticket_op * option string) * redis :=
  run_ops run_ticket.

(** The tickets issued for a token, and those obtained with it. *)
Definition issued (token : string) (op : ticket_op) : list string :=
  match op with
  | Issue tk v => if String.eqb tk token then [v] else []
  | Redeem _ => []
  end.
Definition obtained (token : string) (r : ticket_op * option string) : list string :=
  match r with
  | (Redeem tk, v) => if String.eqb tk token then option_list v else []
  | _ => []
  end.

(** The ticket stored for a token, expired or not. *)
Definition stored_ticket (token : string) (s : redis) : list string :=
  match keys s !! ticket_key token with
  | Some (mkEntry (VString v) _) => [v]
  | _ => []
  end.

Lemma ticket_key_inj t1 t2 : ticket_key t1 = ticket_key t2 -> t1 = t2.
Proof. unfold ticket_key, CHAT_TICKET_PREFIX. intros E. by injection E. Qed.

Lemma setex_store token tk v ttl s :
  stored_ticket token (RedisMgr.SetEx (ticket_key tk) v ttl s).2 = stored_ticket token s \/
  tk = token /\ stored_ticket token (RedisMgr.SetEx (ticket_key tk) v ttl s).2 = [v].
Proof.
  unfold RedisMgr.SetEx, command, SET, stored_ticket.
  destruct (roracle s (rcalls s)); simpl; [|by left|];
    (destruct (lookup_key _ _ _); simpl; [by left|]);
    (destruct (decide (tk = token)) as [->|Hne];
      [right; by rewrite lookup_insert_eq|left; rewrite lookup_insert_ne; [done|]]);
    intros ?%ticket_key_inj; congruence.
Qed.

Lemma getdel_store token tk s :
  let '(r, s') := RedisMgr.GetDel (ticket_key tk) s in
  (stored_ticket token s' = stored_ticket token s /\ (tk = token -> r = None)) \/
  tk = token /\ stored_ticket token s' = [] /\
  exists v, stored_ticket token s = [v] /\ (r = Some v \/ r = None).
Proof.
  unfold RedisMgr.GetDel, command, EVAL_getdel, GET, stored_ticket.
  destruct (roracle s (rcalls s)) eqn:Eo; simpl; [|by left|];
    (destruct (lookup_key _ _ _) as [[[v| |] t]|] eqn:E; simpl; [|by left..]);
    (destruct (decide (tk = token)) as [->|Hne];
      [right|left; rewrite lookup_delete_ne; [done|intros ?%ticket_key_inj; congruence]]);
    unfold lookup_key in E; destruct (keys s !! _) as [e|]; simpl in E; try done;
    destruct (live _ e); simplify_eq; rewrite lookup_delete_eq; eauto 6.
Qed.

(** One step: what is obtained or stays was stored or has just been issued. *)
Lemma run_ticket_budget token op s :
  submseteq (obtained token (op, (run_ticket op s).1) ++ stored_ticket token (run_ticket op s).2)
            (issued token op ++ stored_ticket token s).
Proof.
  destruct op as [tk v|tk]; simpl.
  - destruct (setex_store token tk v CHAT_TICKET_TTL_SECONDS s) as [->|[-> ->]].
    + destruct (String.eqb tk token); [apply submseteq_cons|]; reflexivity || by apply submseteq_cons.
    + rewrite String.eqb_refl. simpl. apply submseteq_skip, submseteq_nil_l.
  - pose proof (getdel_store token tk s) as Hg. destruct (RedisMgr.GetDel (ticket_key tk) s) as [r s'].
    simpl. destruct (String.eqb_spec tk token) as [->|Hne]; destruct Hg as [[E Hr]|(? & E & v & E' & Hr)];
      try congruence; rewrite E.
    + rewrite (Hr eq_refl). reflexivity.
    + rewrite E'. destruct Hr as [->| ->]; simpl; [reflexivity|apply submseteq_nil_l].
    + reflexivity.
Qed.

(** C17. A login ticket is good for one login: over every sequence of issuing
    and redeeming, in any order, from any store and with any failures, the
    tickets obtained with a token are, counted with repetition, among those
    issued for it (and the one stored before); a token issued once is redeemed
    at most once, for what it was issued. *)
Theorem ticket_single_use token ops s :
  submseteq (concat (obtained token <$> (run_tickets ops s).1))
            (concat (issued token <$> ops) ++ stored_ticket token s).
Proof. apply run_budget. intros op s'. apply run_ticket_budget. Qed.

End Tickets.

(** ** E-mail verification codes *)

Module VerificationCode.

Inductive VerificationResult := Success | Expired | Mismatch | TooManyAttempts | RedisError.

#[global] Instance VerificationResult_eq_dec : EqDecision VerificationResult.
Proof. solve_decision. Defined.

(** [INCR]: a missing key counts from 0, the expiry is kept. *)
Definition INCR (k : string) (now : Z) (m : gmap string entry) : Reply * gmap string entry :=
  match lookup_key now k m with
  | None => (ReplyInteger 1, <[k := mkEntry (VString (to_string 1)) None]> m)
  | Some (mkEntry (VString v) t) =>
      match decimal v with
      | Some n =>
          if 2 ^ 63 - 1 <=? n then (ReplyError "ERR increment or decrement would overflow", m)
          else (ReplyInteger (n + 1), <[k := mkEntry (VString (to_string (n + 1))) t]> m)
      | None => (ReplyError "ERR value is not an integer or out of range", m)
      end
  | Some _ => (WRONGTYPE, m)
  end.

(** [TTL] of a key: -2 without key, -1 without expiry, else the seconds left,
    rounded to the nearest. *)
Definition TTL (k : string) (now : Z) (m : gmap string entry) : Z :=
  match lookup_key now k m with
  | None => -2
  | Some (mkEntry _ None) => -1
  | Some (mkEntry _ (Some t)) => (t - now + 500) / 1000
  end.

Definition EXPIRE (k : string) (ttl now : Z) (m : gmap string entry) : gmap string entry :=
  match lookup_key now k m with
  | None => m
  | Some e => <[k := mkEntry (rval e) (Some (now + 1000 * ttl))]> m
  end.

(** The script: [k1] holds the code, [k2] the failed attempts. *)
Definition script (k1 k2 submitted : string) (max_attempts : Z) (now : Z) (m : gmap string entry)
    : Reply * gmap string entry :=
  match GET k1 now m with
  | (ReplyNil, _) => (ReplyInteger (-1), m)
  | (ReplyString expected, _) =>
      if String.eqb expected submitted then
        (ReplyInteger 1, (DEL k2 now (DEL k1 now m).2).2)
      else
        match INCR k2 now m with
        | (ReplyInteger attempts, m1) =>
            let m2 := if attempts =? 1
                      then let ttl := TTL k1 now m1 in EXPIRE k2 (if ttl <? 1 then 300 else ttl) now m1
                      else m1 in
            if max_attempts <=? attempts
            then (ReplyInteger (-3), (DEL k2 now (DEL k1 now m2).2).2)
            else (ReplyInteger (-2), m2)
        | (r, m1) => (r, m1)
        end
  | (r, _) => (r, m)
  end.

Definition code_key (email : string) : string := "code_" ++ email.
Definition attempts_key (email : string) : string := "code_attempts_" ++ email.

Definition result_of (r : option Reply) : VerificationResult :=
  match r with
  | Some (ReplyInteger result) =>
      if result =? 1 then Success
      else if result =? -1 then Expired
      else if result =? -2 then Mismatch
      else if result =? -3 then TooManyAttempts
      else RedisError
  | _ => RedisError
  end.

Definition ConsumeVerificationCode (email submitted_code : string) (max_attempts : Z) (s : redis)
    : VerificationResult * redis :=
  let '(r, s) := command (script (code_key email) (attempts_key email) submitted_code max_attempts) s in
  (result_of r, s).

(** Successive submissions for one address. *)
Fixpoint submit (email : string) (max_attempts : Z) (codes : list string) (s : redis)
    : list VerificationResult * redis :=
  match codes with
  | [] => ([], s)
  | c :: rest =>
      let '(r, s) := ConsumeVerificationCode email c max_attempts s in
      let '(rs, s) := submit email max_attempts rest s in
      (r :: rs, s)
  end.

(** The submission was compared with the code and the verdict was told. *)
Definition compared (r : VerificationResult) : bool :=
  match r with Success | Mismatch | TooManyAttempts => true | _ => false end.

Lemma keys_differ email : code_key email <> attempts_key email.
Proof.
  unfold code_key, attempts_key. intros E. apply (f_equal String.length) in E. simpl in E. lia.
Qed.

(** The comparisons left to a code: the attempts counted under an expiry that
    outlives the code bound them; a counter that expires before the code
    (by at most half a second, the rounding of [TTL]) is followed by one that
    does not. *)
Definition credit (email : string) (max_attempts : Z) (m : gmap string entry) : Z :=
  match m !! code_key email with
  | Some (mkEntry (VString _) (Some t)) =>
      match m !! attempts_key email with
      | Some (mkEntry (VString v) (Some ta)) =>
          (if t <=? ta then max_attempts else 2 * max_attempts - 1) - default 0 (decimal v)
      | _ => 2 * max_attempts - 1
      end
  | _ => 0
  end.

(** What the script keeps true of the two keys. *)
Definition counted (email : string) (max_attempts : Z) (m : gmap string entry) : Prop :=
  match m !! code_key email with
  | None => True
  | Some (mkEntry c te) =>
      exists v t, c = VString v /\ te = Some t /\
      (m !! attempts_key email = None \/
       exists n ta, m !! attempts_key email = Some (mkEntry (VString (to_string n)) (Some ta)) /\
                    1 <= n < max_attempts /\ t - 500 < ta)
  end.

Definition verdict (r : Reply) : bool :=
  match r with ReplyInteger n => (n =? 1) || (n =? -2) || (n =? -3) | _ => false end.

Lemma compared_verdict r : compared (result_of (Some r)) = verdict r.
Proof.
  destruct r as [| |n| |]; try done. simpl. destruct (Z.eqb_spec n 1); [done|].
  destruct (Z.eqb_spec n (-1)) as [->|]; [done|]. destruct (n =? -2); [done|]. by destruct (n =? -3).
Qed.

Section credit.
Context (email : string) (max_attempts : Z) (Hmax : 1 <= max_attempts) (Hint : is_int max_attempts = true).

Lemma counted_nonneg m : counted email max_attempts m -> 0 <= credit email max_attempts m.
Proof.
  unfold counted, credit. destruct (m !! code_key email) as [[c te]|]; [|lia].
  intros (v & t & -> & -> & [->|(n & ta & -> & ? & ?)]); [lia|].
  rewrite decimal_to_string. simpl. case_match; lia.
Qed.

(** Both keys are gone after a success or the last attempt. *)
Lemma spent m now : let m' := (DEL (attempts_key email) now (DEL (code_key email) now m).2).2 in
  counted email max_attempts m' /\ credit email max_attempts m' = 0.
Proof.
  pose proof (keys_differ email). simpl. unfold counted, credit.
  by rewrite lookup_delete_ne, lookup_delete_eq by congruence.
Qed.

(** The counter of a first failure: it expires with the code, up to the
    rounding, and after it when less than half a second is left. *)
Lemma fresh_counter now m v t :
  m !! code_key email = Some (mkEntry (VString v) (Some t)) -> now < t ->
  let m1 := <[attempts_key email := mkEntry (VString (to_string 1)) None]> m in
  let ttl := TTL (code_key email) now m1 in
  exists ta, EXPIRE (attempts_key email) (if ttl <? 1 then 300 else ttl) now m1 =
             <[attempts_key email := mkEntry (VString (to_string 1)) (Some ta)]> m /\
             t - 500 < ta /\ (t - now < 500 -> t <= ta).
Proof.
  intros Em Ht m1 ttl. pose proof (keys_differ email).
  unfold ttl, TTL, EXPIRE, lookup_key, m1.
  rewrite lookup_insert_eq, lookup_insert_ne, Em by congruence. simpl. unfold live. simpl.
  rewrite (proj2 (Z.ltb_lt _ _) Ht), insert_insert_eq. eexists. split; [reflexivity|].
  pose proof (Z.div_mod (t - now + 500) 1000). pose proof (Z.mod_pos_bound (t - now + 500) 1000).
  case_match; lia.
Qed.

(** A failed attempt raises the counter, whose expiry is that of the code up to
    the rounding, and takes one comparison off the credit. *)
Lemma attempt_counted now m v t : counted email max_attempts m ->
  m !! code_key email = Some (mkEntry (VString v) (Some t)) -> now < t ->
  exists a ta m1, INCR (attempts_key email) now m = (ReplyInteger a, m1) /\
    (if a =? 1
     then let ttl := TTL (code_key email) now m1 in
          EXPIRE (attempts_key email) (if ttl <? 1 then 300 else ttl) now m1
     else m1) = <[attempts_key email := mkEntry (VString (to_string a)) (Some ta)]> m /\
    1 <= a /\ t - 500 < ta /\
    (if t <=? ta then max_attempts else 2 * max_attempts - 1) - a <= credit email max_attempts m - 1.
Proof.
  intros Hc Em Ht. destruct (fresh_counter now m v t Em Ht) as (ta & Hx & Hta & Hta').
  unfold counted in Hc. unfold INCR, lookup_key, credit. rewrite Em in Hc |- *.
  destruct Hc as (v' & t' & [= <-] & [= <-] & [->|(n & tb & -> & Hn & Htb)]); simpl.
  - exists 1, ta. eexists. repeat split; [exact Hx|lia..|]. destruct (t <=? ta); lia.
  - rewrite decimal_to_string. unfold live. simpl. destruct (now <? tb) eqn:Hl; simpl.
    + assert (Hb : (2 ^ 63 - 1 <=? n) = false) by (unfold is_int in Hint; bool_hyps; lia).
      rewrite decimal_to_string, Hb. exists (n + 1), tb. eexists. split; [reflexivity|].
      rewrite (proj2 (Z.eqb_neq (n + 1) 1)) by lia. repeat split; lia.
    + exists 1, ta. eexists. repeat split; [exact Hx|lia..|].
      apply Z.ltb_ge in Hl. rewrite (proj2 (Z.leb_gt t tb)) by lia.
      rewrite (proj2 (Z.leb_le t ta)) by lia. lia.
Qed.

Lemma submission_credit submitted now m : counted email max_attempts m ->
  let '(r, m') := script (code_key email) (attempts_key email) submitted max_attempts now m in
  counted email max_attempts m' /\
  credit email max_attempts m' <= credit email max_attempts m - Z.b2z (verdict r).
Proof.
  intros Hc. pose proof (keys_differ email) as Hk. unfold script, GET. unfold lookup_key at 1.
  destruct (m !! code_key email) as [[c te]|] eqn:Em; simpl; [|split; [done|lia]].
  destruct (live now _) eqn:Hl; simpl; [|split; [done|lia]].
  assert (exists v t, c = VString v /\ te = Some t) as (v & t & -> & ->).
  { unfold counted in Hc. rewrite Em in Hc. naive_solver. }
  apply Z.ltb_lt in Hl. simpl in Hl.
  destruct (attempt_counted now m v t Hc Em Hl) as (a & ta & m1 & -> & Ex & Ha & Hta & Hcr).
  assert (1 <= credit email max_attempts m) as Hpos.
  { pose proof (counted_nonneg m Hc) as Hp. revert Hcr Hp. clear -Hc Hmax Em.
    unfold credit, counted in *. rewrite Em in Hc |- *.
    destruct Hc as (? & ? & _ & [= <-] & [->|(n & tb & -> & ? & ?)]); [lia|].
    rewrite decimal_to_string. simpl. intros _ _; destruct (Z.leb _ _); lia. }
  destruct (String.eqb v submitted) eqn:Ev.
  { destruct (spent m now) as [H1 H2]. simpl in *. rewrite H2. split; [done|lia]. }
  cbn zeta in Ex. rewrite Ex. destruct (max_attempts <=? a) eqn:Hle.
  { destruct (spent (<[attempts_key email := mkEntry (VString (to_string a)) (Some ta)]> m) now) as [H1 H2].
    simpl in *. rewrite H2. split; [done|lia]. }
  unfold counted, credit at 1. rewrite !lookup_insert_eq, !lookup_insert_ne, Em by congruence.
  rewrite decimal_to_string. simpl. split; [|lia].
  exists v, t. split_and!; [done..|]. right. exists a, ta. split; [done|lia].
Qed.

End credit.

(** A code cannot be guessed by trying: over any sequence of submissions for
    an address whose code has been stored with an expiry and not yet tried,
    at most [2 * max_attempts - 1] of them are ever compared with the code,
    whatever the clock, the codes and the failures. (The second
    [max_attempts - 1] need a counter that expired up to half a second before
    the code.) *)
Theorem guesses_bounded email max_attempts codes s v t :
  1 <= max_attempts -> is_int max_attempts = true ->
  keys s !! code_key email = Some (mkEntry (VString v) (Some t)) ->
  keys s !! attempts_key email = None ->
  Z.of_nat (length (filter (fun r => compared r = true) (submit email max_attempts codes s).1))
    <= 2 * max_attempts - 1.
Proof.
  intros Hmax Hint Hcode Hatt.
  assert (forall codes s, counted email max_attempts (keys s) ->
    Z.of_nat (length (filter (fun r => compared r = true) (submit email max_attempts codes s).1))
      <= credit email max_attempts (keys s)) as H.
  { clear -Hmax Hint. induction codes as [|c codes IH]; intros s Hc; simpl.
    { by apply counted_nonneg. }
    unfold ConsumeVerificationCode, command.
    pose proof (submission_credit email max_attempts Hmax Hint c (rclock s (rcalls s)) _ Hc) as Hs.
    destruct (roracle s (rcalls s)); [| |].
    2: { set (s' := mkRedis (keys s) _ _ _). specialize (IH s' Hc).
         by destruct (submit email max_attempts codes s') as [rs s'']. }
    all: destruct (script _ _ _ _ _ _) as [r m']; destruct Hs as [Hc' Hcr];
      set (s' := mkRedis m' _ _ _); specialize (IH s' Hc');
      destruct (submit email max_attempts codes s') as [rs s'']; cbn [fst snd] in *;
      rewrite filter_cons.
    - rewrite compared_verdict. destruct (verdict r); simpl in *; lia.
    - destruct (verdict r); simpl in *; lia. }
  etrans; [apply H|].
  - unfold counted. rewrite Hcode. eauto 6.
  - unfold credit. by rewrite Hcode, Hatt.
Qed.

(** A code with ten minutes and 400 ms left, whose counter expires after ten
    minutes: four tries at once, the others 300 ms before the code expires. *)
Definition coded_redis : redis :=
  mkRedis {[code_key "a@b.c" := mkEntry (VString "123456") (Some 600400)]} 0 (fun _ => Fine)
          (fun n => if (n <? 4)%nat then 0 else 600100).

Lemma guesses_bounded_witness :
  Z.of_nat (length (filter (fun r => compared r = true)
    (submit "a@b.c" 5 (replicate 12 "000000") coded_redis).1)) <= 2 * 5 - 1.
Proof. by apply (guesses_bounded "a@b.c" 5 (replicate 12 "000000") coded_redis "123456" 600400). Defined.

(** The bound is reached: nine comparisons although [max_attempts] is five. *)
Lemma nine_guesses :
  (submit "a@b.c" 5 (replicate 12 "000000") coded_redis).1 =
  replicate 8 Mismatch ++ [TooManyAttempts] ++ replicate 3 Expired.
Proof. vm_compute. reflexivity. Qed.

End VerificationCode.
