(* ===== verification/Varify.v ===== *)
(** The mail service that issues verification codes: [security.js],
    [redis.js] ([IssueVerificationCode]) and [server.js] ([authorizeGate],
    [GetVarifyCode]) of [src/VarifyServer].

    The addresses of the model are ASCII text, on which a JavaScript string
    and a C++ byte string agree.  [crypto.randomInt] is an argument [drawn],
    what becomes of a mail an argument [smtp], the environment of the process
    a map. *)
From S2P Require Import Prelude Mysql Redis.
Import VerificationCode.

(** ** [security.js] *)

(** The class [[^\s@]] of the pattern. *)
Definition email_char (c : ascii) : bool := negb (is_space c) && negb (Ascii.eqb c "@").

(** A dot with a character after it. *)
Fixpoint dot_inside (s : string) : bool :=
  match s with
  | EmptyString => false
  | String c rest => Ascii.eqb c "." && negb (sempty rest) || dot_inside rest
  end.

(** [EMAIL_PATTERN.test]: one [@], text before it, and after it a dot with
    text on both sides. *)
Definition EMAIL_PATTERN (s : string) : bool :=
  match sfind "@" s with
  | None => false
  | Some (user, domain) =>
      negb (sempty user) && sall email_char user && sall email_char domain &&
      match domain with EmptyString => false | String _ rest => dot_inside rest end
  end.

Definition normalizeEmail (value : string) : option string :=
  let email := lower (trim value) in
  if sempty email || (254 <? ssize email) || negb (EMAIL_PATTERN email) then None else Some email.

(** [padStart(6, '0')] *)
Fixpoint zeros (n : nat) : string := match n with O => "" | S n => String "0" (zeros n) end.
Definition padStart (n : nat) (s : string) : string := zeros (n - String.length s) ++ s.

Definition generateVerificationCode (drawn : Z) : string := padStart 6 (to_string drawn).

Definition cooldown_key (email : string) : string := "code_cooldown_" ++ email.
Definition hourly_key (email : string) : string := "code_hourly_" ++ email.

(** ** [redis.js] *)

Definition global_key : string := "verification_global_hourly".

(** [ISSUE_CODE_SCRIPT]; a failing [redis.call] ends the script with its
    error and keeps what was written before. *)
Definition ISSUE_CODE_SCRIPT (email code : string) (cooldown window limit ttl global_limit : Z)
    (now : Z) (m : gmap string entry) : Reply * gmap string entry :=
  match EXISTS (cooldown_key email) now m with
  | (ReplyInteger 1, _) => (ReplyInteger 2, m)
  | _ =>
      match INCR (hourly_key email) now m with
      | (ReplyInteger hourly, m) =>
          let m := if hourly =? 1 then EXPIRE (hourly_key email) window now m else m in
          if limit <? hourly then (ReplyInteger 3, m)
          else
            match INCR global_key now m with
            | (ReplyInteger global_hourly, m) =>
                let m := if global_hourly =? 1 then EXPIRE global_key window now m else m in
                if global_limit <? global_hourly then (ReplyInteger 4, m)
                else
                  let m := (SET (cooldown_key email) "1" (Some cooldown) false now m).2 in
                  let m := (SET (code_key email) code (Some ttl) false now m).2 in
                  (ReplyInteger 1, (DEL (attempts_key email) now m).2)
            | r => r
            end
      | r => r
      end
  end.

(** With the default options; 0 when the evaluation throws. *)
Definition IssueVerificationCode (global_limit : Z) (email code : string) (s : redis) : Z * redis :=
  let '(r, s) := command (ISSUE_CODE_SCRIPT email code 60 3600 10 300 global_limit) s in
  (match r with Some (ReplyInteger n) => n | _ => 0 end, s).

(** ** [server.js] *)

Definition INTERNAL_TOKEN_HEADER : string := "x-chat-internal-token".
Definition DEVELOPMENT_TOKEN : string := "local-development-only-change-me".

(** [startsWith] *)
Fixpoint startsWith (s prefix : string) : bool :=
  match prefix, s with
  | EmptyString, _ => true
  | String c prefix, String d s => Ascii.eqb c d && startsWith s prefix
  | _, _ => false
  end.

Definition isLoopbackBind (bindAddress : string) : bool :=
  startsWith bindAddress "127.0.0.1:" || startsWith bindAddress "[::1]:".

(** [process.env.X || d]: an empty variable counts as unset. *)
Definition env_or (env : gmap string string) (k d : string) : string :=
  match env !! k with Some v => if sempty v then d else v | None => d end.

Definition configuredGateToken (env : gmap string string) : option string :=
  let token := env_or env "CHAT_GATE_VARIFY_TOKEN" "" in
  if negb (sempty token) then Some token
  else if isLoopbackBind (env_or env "VARIFY_BIND_ADDRESS" "127.0.0.1:5000")
       then Some DEVELOPMENT_TOKEN else None.

(** [metadata.get]: the values of a key, in order. *)
Definition metadata_get (k : string) (metadata : list (string * string)) : list string :=
  snd <$> filter (fun p => p.1 = k) metadata.

Definition authorizeGate (env : gmap string string) (metadata : list (string * string)) : bool :=
  match configuredGateToken env with
  | None => false
  | Some expected =>
      match metadata_get INTERNAL_TOKEN_HEADER metadata with
      | [supplied] => String.eqb supplied expected
      | _ => false
      end
  end.

(** [const_module.Errors] *)
Definition Errors_Success : Z := 0.
Definition Errors_RedisErr : Z := 1.
Definition Errors_Exception : Z := 2.
Definition Errors_InvalidEmail : Z := 3.
Definition Errors_RateLimited : Z := 4.

Inductive Response := Unauthenticated | Answer (email : string) (error : Z).

(** The store, and the mails the transport accepted: an address and the code
    written to it. *)
Record Mail := mkMail { m_redis : redis; sent : list (string * string) }.

(** [SendMail]: whether the mail leaves, and whether the promise resolves. *)
Definition SendMail (smtp : fault) (email code : string) (s : Mail) : bool * Mail :=
  match smtp with
  | Fine => (true, mkMail (m_redis s) (sent s ++ [(email, code)]))
  | FailsBefore => (false, s)
  | FailsAfter => (false, mkMail (m_redis s) (sent s ++ [(email, code)]))
  end.

Definition GetVarifyCode (env : gmap string string) (global_limit : Z) (metadata : list (string * string))
    (request_email : string) (drawn : Z) (smtp : fault) (s : Mail) : Response * Mail :=
  if negb (authorizeGate env metadata) then (Unauthenticated, s)
  else
    match normalizeEmail request_email with
    | None => (Answer "" Errors_InvalidEmail, s)
    | Some email =>
        let uniqueId := generateVerificationCode drawn in
        let '(issueResult, r) := IssueVerificationCode global_limit email uniqueId (m_redis s) in
        let s := mkMail r (sent s) in
        if (issueResult =? 2) || (issueResult =? 3) || (issueResult =? 4)
        then (Answer email Errors_RateLimited, s)
        else if negb (issueResult =? 1) then (Answer email Errors_RedisErr, s)
        else
          let '(ok, s) := SendMail smtp email uniqueId s in
          (Answer email (if ok : bool then Errors_Success else Errors_Exception), s)
    end.

(** [serverCredentials]: the mode when it can be built; [readable] says which
    files can be read. *)
Definition readRequiredFile (env : gmap string string) (readable : string -> bool) (envName : string) : bool :=
  let file := env_or env envName "" in negb (sempty file) && readable file.

Definition serverCredentials (env : gmap string string) (readable : string -> bool) : option string :=
  let mode := lower (env_or env "VARIFY_GRPC_TLS_MODE" "insecure") in
  if String.eqb mode "insecure" then Some mode
  else if negb (String.eqb mode "tls") && negb (String.eqb mode "mtls") then None
  else if (if String.eqb mode "mtls" then readRequiredFile env readable "VARIFY_GRPC_CA_CERT" else true)
          && readRequiredFile env readable "VARIFY_GRPC_KEY" && readRequiredFile env readable "VARIFY_GRPC_CERT"
       then Some mode else None.

(** [main] up to the listening: the address and the mode, [None] when it
    throws. *)
Definition main (env : gmap string string) (readable : string -> bool) : option (string * string) :=
  let bindAddress := env_or env "VARIFY_BIND_ADDRESS" "127.0.0.1:5000" in
  let tlsMode := lower (env_or env "VARIFY_GRPC_TLS_MODE" "insecure") in
  if negb (isLoopbackBind bindAddress) && negb (String.eqb tlsMode "tls") && negb (String.eqb tlsMode "mtls")
  then None
  else match configuredGateToken env with
       | None => None
       | Some _ => mode ← serverCredentials env readable; Some (bindAddress, mode)
       end.

(** ** Keys and frames *)

(** The addresses whose code key is another address's bookkeeping key. *)
Definition reserved (email : string) : bool :=
  startsWith email "attempts_" || startsWith email "cooldown_" || startsWith email "hourly_".

Lemma startsWith_app p s : startsWith (p ++ s) p = true.
Proof. induction p as [|c p IH]; [by destruct s|]. rewrite string_app_cons. cbn. by rewrite Ascii.eqb_refl. Qed.

Lemma code_key_inj e e' : code_key e = code_key e' -> e = e'.
Proof. unfold code_key. intros E. by injection E. Qed.

Lemma reserved_key (p : string) e e' : startsWith (p ++ e') p = true ->
  code_key e = ("code_" ++ p ++ e')%string -> startsWith e p = true.
Proof. intros Hp E. unfold code_key in E. assert (e = p ++ e')%string as -> by (by injection E). exact Hp. Qed.

Lemma code_key_apart e e' : reserved e = false ->
  code_key e <> attempts_key e' /\ code_key e <> cooldown_key e' /\ code_key e <> hourly_key e' /\
  code_key e <> global_key.
Proof.
  unfold reserved. intros Hr. bool_hyps. split_and!; [| | |done]; intros E.
  - apply (reserved_key "attempts_") in E; [congruence|apply startsWith_app].
  - apply (reserved_key "cooldown_") in E; [congruence|apply startsWith_app].
  - apply (reserved_key "hourly_") in E; [congruence|apply startsWith_app].
Qed.

Section Frame.
Context (k k' : string) (now : Z) (m : gmap string entry) (Hk : k' <> k).

Lemma INCR_frame r m' : INCR k now m = (r, m') -> m' !! k' = m !! k'.
Proof.
  unfold INCR. repeat case_code; intros; simplify_eq; rewrite ?lookup_insert_ne by done; done.
Qed.

Lemma EXPIRE_frame ttl : EXPIRE k ttl now m !! k' = m !! k'.
Proof. unfold EXPIRE. case_code; by rewrite ?lookup_insert_ne by done. Qed.

Lemma SET_frame v ttl nx : (SET k v ttl nx now m).2 !! k' = m !! k'.
Proof. unfold SET. repeat case_code; simpl; by rewrite ?lookup_insert_ne by done. Qed.

Lemma DEL_frame : (DEL k now m).2 !! k' = m !! k'.
Proof. simpl. by rewrite lookup_delete_ne by done. Qed.

End Frame.

(** A conditional [EXPIRE], as both scripts do after an [INCR]. *)
Lemma counted_frame k k' now m (b : bool) ttl r m' : k' <> k -> INCR k now m = (r, m') ->
  (if b then EXPIRE k ttl now m' else m') !! k' = m !! k'.
Proof.
  intros Hk E. destruct b; rewrite ?EXPIRE_frame by done; exact (INCR_frame _ _ _ _ Hk _ _ E).
Qed.

(** What the issuing script does to a key: nothing outside its five keys, and
    its code key is written only with the answer 1. *)
Lemma issue_frame e' code a b c d g now m k :
  k <> attempts_key e' -> k <> cooldown_key e' -> k <> hourly_key e' -> k <> global_key ->
  let '(r, m') := ISSUE_CODE_SCRIPT e' code a b c d g now m in
  m' !! k = m !! k \/
  r = ReplyInteger 1 /\ k = code_key e' /\ m' !! k = Some (mkEntry (VString code) (Some (now + 1000 * d))).
Proof.
  intros H1 H2 H3 H4. unfold ISSUE_CODE_SCRIPT, EXISTS.
  destruct (lookup_key now (cooldown_key e') m); simpl; [by left|].
  destruct (INCR (hourly_key e') now m) as [r1 m1] eqn:E1.
  destruct r1 as [| |n| |]; try (left; exact (INCR_frame _ _ _ _ H3 _ _ E1)).
  pose proof (counted_frame _ _ _ _ (n =? 1) b _ _ H3 E1) as F1.
  set (m2 := if n =? 1 then _ else _) in *. destruct (c <? n); [by left|].
  destruct (INCR global_key now m2) as [r2 m3] eqn:E2.
  destruct r2 as [| |n2| |]; try (left; rewrite <- F1; exact (INCR_frame _ _ _ _ H4 _ _ E2)).
  pose proof (counted_frame _ _ _ _ (n2 =? 1) b _ _ H4 E2) as F2.
  set (m4 := if n2 =? 1 then _ else _) in *. destruct (g <? n2); [left; congruence|].
  rewrite lookup_delete_ne by done. destruct (decide (k = code_key e')) as [->|Hk].
  - right. by rewrite lookup_insert_eq.
  - left. rewrite !lookup_insert_ne by done. congruence.
Qed.

(** What a submission does to a key outside its own two. *)
Lemma submit_frame e' submitted n now m k : k <> code_key e' -> k <> attempts_key e' ->
  (script (code_key e') (attempts_key e') submitted n now m).2 !! k = m !! k.
Proof.
  intros H1 H2. unfold script. destruct (GET (code_key e') now m) as [[|v| | |] ?]; try done.
  destruct (String.eqb v submitted); simpl; [by rewrite !lookup_delete_ne by done|].
  destruct (INCR (attempts_key e') now m) as [[| |a| |] m1] eqn:E; try exact (INCR_frame _ _ _ _ H2 _ _ E).
  cbn zeta. set (ttl := if TTL _ _ _ <? 1 then _ else _).
  pose proof (counted_frame _ _ _ _ (a =? 1) ttl _ _ H2 E) as F.
  set (m2 := if a =? 1 then _ else _) in *. destruct (n <=? a); simpl; [|done].
  by rewrite !lookup_delete_ne by done.
Qed.

(** ** The codes of an address *)

Inductive code_op :=
| Request (email code : string) (global_limit : Z)
| Submit (email submitted : string).

(** One operation, and whether a submission was accepted. *)
Definition run_code (op : code_op) (s : redis) : bool * redis :=
  match op with
  | Request email code global_limit => (false, (IssueVerificationCode global_limit email code s).2)
  | Submit email submitted =>
      let '(r, s) := ConsumeVerificationCode email submitted 5 s in (bool_decide (r = Success), s)
  end.

Definition drawn_for (email : string) (op : code_op) : list string :=
  match op with
  | Request e code _ => if String.eqb e email then [code] else []
  | Submit _ _ => []
  end.
Definition accepted_for (email : string) (r : code_op * bool) : list string :=
  match r with
  | (Submit e submitted, true) => if String.eqb e email then [submitted] else []
  | _ => []
  end.

(** The code stored for an address, expired or not. *)
Definition stored_code (email : string) (s : redis) : list string :=
  match keys s !! code_key email with
  | Some (mkEntry (VString v) _) => [v]
  | _ => []
  end.

Lemma request_budget email e code g s : reserved email = false ->
  submseteq (stored_code email (IssueVerificationCode g e code s).2)
            (drawn_for email (Request e code g) ++ stored_code email s).
Proof.
  intros Hr. destruct (code_key_apart email e Hr) as (H1 & H2 & H3 & H4).
  unfold IssueVerificationCode, command, stored_code.
  pose proof (issue_frame e code 60 3600 10 300 g (rclock s (rcalls s)) (keys s) (code_key email) H1 H2 H3 H4) as F.
  assert (forall l, submseteq l (drawn_for email (Request e code g) ++ l)) as Hl
    by (intros l; by apply submseteq_inserts_l).
  destruct (ISSUE_CODE_SCRIPT _ _ _ _ _ _ _ _ _) as [r m'].
  destruct (roracle s (rcalls s)); simpl; [|apply Hl|];
    (destruct F as [->|(_ & ->%code_key_inj & ->)]; [apply Hl|]);
    rewrite String.eqb_refl; apply submseteq_skip, submseteq_nil_l.
Qed.

(** A submission for an address: the code stays or is removed, and it is
    removed and equal to the submission when that is accepted. *)
Lemma submit_own e submitted n now m :
  let '(r, m') := script (code_key e) (attempts_key e) submitted n now m in
  (m' !! code_key e = m !! code_key e \/ m' !! code_key e = None) /\
  (r = ReplyInteger 1 ->
   m' !! code_key e = None /\
   exists t, m !! code_key e = Some (mkEntry (VString submitted) t) /\
             live now (mkEntry (VString submitted) t) = true).
Proof.
  pose proof (keys_differ e) as Hne. unfold script, GET, lookup_key.
  destruct (m !! code_key e) as [[v t]|] eqn:Em; simpl; [|split; [by left|done]].
  destruct (live now _) eqn:El; simpl; [|split; [by left|done]].
  destruct v as [v| |]; [|split; [by left|done]..].
  destruct (String.eqb_spec v submitted) as [->|Hv].
  { simpl. rewrite lookup_delete_ne, lookup_delete_eq by done. split; [by right|]. intros _. eauto. }
  destruct (INCR (attempts_key e) now m) as [r1 m1] eqn:E.
  pose proof (INCR_frame _ _ _ _ Hne _ _ E) as F0. rewrite Em in F0.
  destruct r1 as [| |a| |]; try (split; [by left|done]).
  cbn zeta. set (ttl := if TTL _ _ _ <? 1 then _ else _).
  pose proof (counted_frame _ _ _ _ (a =? 1) ttl _ _ Hne E) as F. rewrite Em in F.
  set (m2 := if a =? 1 then _ else _) in *. destruct (n <=? a); simpl; split; try done; [|by left].
  right. rewrite lookup_delete_ne, lookup_delete_eq by done. done.
Qed.

Lemma result_success r : result_of (Some r) = Success -> r = ReplyInteger 1.
Proof.
  destruct r as [| |k| |]; try done. unfold result_of.
  destruct (Z.eqb_spec k 1); [by subst|]. repeat case_code; done.
Qed.

(** A live code equal to the submission was stored for the address, and is
    gone. *)
Definition redeems (email submitted : string) (s s' : redis) : Prop :=
  (exists t, keys s !! code_key email = Some (mkEntry (VString submitted) t) /\
             live (rclock s (rcalls s)) (mkEntry (VString submitted) t) = true) /\
  keys s' !! code_key email = None.

Lemma consume_success email submitted n s s' :
  ConsumeVerificationCode email submitted n s = (Success, s') -> redeems email submitted s s'.
Proof.
  unfold ConsumeVerificationCode, command.
  pose proof (submit_own email submitted n (rclock s (rcalls s)) (keys s)) as F.
  destruct (roracle s (rcalls s)); [|done|by destruct (script _ _ _ _ _ _)].
  destruct (script _ _ _ _ _ _) as [r m']. intros E. injection E as E <-.
  apply result_success in E. destruct F as [_ F]. by destruct (F E).
Qed.

Lemma submit_budget email e submitted s : reserved email = false ->
  submseteq (accepted_for email (Submit e submitted, (run_code (Submit e submitted) s).1) ++
             stored_code email (run_code (Submit e submitted) s).2) (stored_code email s).
Proof.
  intros Hr. destruct (code_key_apart email e Hr) as (H1 & _).
  cbn [run_code]. unfold ConsumeVerificationCode, command, stored_code.
  set (now := rclock s (rcalls s)).
  destruct (String.eqb_spec e email) as [->|Hne].
  - pose proof (submit_own email submitted 5 now (keys s)) as F.
    destruct (script _ _ _ _ _ _) as [r m'].
    assert (submseteq (match m' !! code_key email with Some (mkEntry (VString v) _) => [v] | _ => [] end)
              (match keys s !! code_key email with Some (mkEntry (VString v) _) => [v] | _ => [] end)) as Hs
      by (destruct F as [[->| ->] _]; [done|apply submseteq_nil_l]).
    destruct (roracle s (rcalls s)); cbn; [|done|exact Hs].
    case_bool_decide as Hsu; cbn; [|exact Hs]. rewrite String.eqb_refl. cbn.
    pose proof (result_success _ Hsu) as Er.
    destruct F as [_ F]. destruct (F Er) as [-> (t & -> & _)]. done.
  - pose proof (submit_frame e submitted 5 now (keys s) (code_key email)
      ltac:(intros E%code_key_inj; congruence) H1) as F.
    destruct (script _ _ _ _ _ _) as [r m']. simpl in F.
    destruct (roracle s (rcalls s)); cbn; rewrite ?F; [case_bool_decide; cbn|done|done];
      rewrite ?(proj2 (String.eqb_neq _ _) Hne); done.
Qed.

(** C36. An accepted code is one the mail service drew for that address: over
    every sequence of requests and submissions for any addresses, with any
    failures and clock, the codes accepted for an address are, counted with
    repetition, among those drawn for it (and the one stored before).  The
    address must not begin with [attempts_], [cooldown_] or [hourly_]. *)
Theorem code_single_use email ops s : reserved email = false ->
  submseteq (concat (accepted_for email <$> (run_ops run_code ops s).1))
            (concat (drawn_for email <$> ops) ++ stored_code email s).
Proof.
  intros Hr. apply run_budget. intros [e code g|e submitted] s'.
  - by apply request_budget.
  - by apply submit_budget.
Qed.

Lemma code_single_use_witness :
  submseteq
    (concat (accepted_for "a@b.c" <$>
       (run_ops run_code [Request "a@b.c" "123456" 500; Submit "a@b.c" "1"; Submit "a@b.c" "123456";
                          Submit "a@b.c" "123456"] DistLock.idle_redis).1))
    ["123456"%string].
Proof.
  exact (code_single_use "a@b.c"
    [Request "a@b.c" "123456" 500; Submit "a@b.c" "1"; Submit "a@b.c" "123456"; Submit "a@b.c" "123456"]
    DistLock.idle_redis eq_refl).
Defined.

(** What an issued code leaves in the store. *)
Lemma issued_entries g email code s s' : IssueVerificationCode g email code s = (1, s') ->
  let now := rclock s (rcalls s) in
  keys s' !! cooldown_key email = Some (mkEntry (VString "1") (Some (now + 60000))) /\
  keys s' !! code_key email = Some (mkEntry (VString code) (Some (now + 300000))) /\
  keys s' !! attempts_key email = None /\ roracle s' = roracle s /\ rclock s' = rclock s.
Proof.
  assert (code_key email <> cooldown_key email) as H1.
  { unfold code_key, cooldown_key. intros E. apply (f_equal String.length) in E. simpl in E. lia. }
  pose proof (keys_differ email) as H2. assert (cooldown_key email <> attempts_key email) as H3 by done.
  unfold IssueVerificationCode, command. destruct (roracle s (rcalls s)) eqn:Eo; [|done|].
  2: by destruct (ISSUE_CODE_SCRIPT _ _ _ _ _ _ _ _ _).
  unfold ISSUE_CODE_SCRIPT, EXISTS. cbn zeta.
  destruct (lookup_key _ (cooldown_key email) _); simpl; [done|].
  destruct (INCR (hourly_key email) _ _) as [[| |n| |] m1]; try done.
  destruct (10 <? n); [done|]. destruct (INCR global_key _ _) as [[| |n2| |] m2]; try done.
  destruct (g <? n2); [done|]. intros [= <-]. simpl.
  rewrite lookup_delete_eq, !lookup_delete_ne, lookup_insert_eq, lookup_insert_ne, lookup_insert_eq by done.
  done.
Qed.

(** The condition on the address is needed: within a minute after a code has
    been issued for any address, its cooldown entry passes for a code, and [1]
    is accepted for the address with [cooldown_] in front of it, for which no
    code was drawn. *)
Theorem cooldown_passes_for_code g email code s s' :
  IssueVerificationCode g email code s = (1, s') ->
  roracle s (rcalls s') = Fine -> rclock s (rcalls s') < rclock s (rcalls s) + 60000 ->
  (ConsumeVerificationCode ("cooldown_" ++ email) "1" 5 s').1 = Success.
Proof.
  intros Hi Ho Hc. destruct (issued_entries _ _ _ _ _ Hi) as (E & _ & _ & Eo & Ec).
  unfold ConsumeVerificationCode, command. rewrite Eo, Ec, Ho.
  change (code_key ("cooldown_" ++ email)) with (cooldown_key email).
  unfold script, GET, lookup_key. rewrite E. cbn -[Z.add]. unfold live. cbn -[Z.add].
  by rewrite (proj2 (Z.ltb_lt _ _) Hc).
Qed.

Lemma cooldown_passes_for_code_witness :
  (ConsumeVerificationCode "cooldown_a@b.c" "1" 5
     (IssueVerificationCode 500 "a@b.c" "123456" DistLock.idle_redis).2).1 = Success.
Proof.
  apply (cooldown_passes_for_code 500 "a@b.c" "123456" DistLock.idle_redis); vm_compute; reflexivity.
Defined.

(** ** Mail rate *)

(** The times at which codes were issued for an address, by the clock of the
    store. *)
Definition issue_time (email : string) (op : code_op) (s : redis) : list Z :=
  match op with
  | Request e code g =>
      if String.eqb e email && ((IssueVerificationCode g e code s).1 =? 1)
      then [rclock s (rcalls s)] else []
  | Submit _ _ => []
  end.
Fixpoint issue_times (email : string) (ops : list code_op) (s : redis) : list Z :=
  match ops with
  | [] => []
  | op :: ops => issue_time email op s ++ issue_times email ops (run_code op s).2
  end.

Definition op_email (op : code_op) : string :=
  match op with Request e _ _ | Submit e _ => e end.

(** Times at least [gap] apart, in order, the first no earlier than [from]. *)
Fixpoint spaced (gap from : Z) (l : list Z) : Prop :=
  match l with [] => True | t :: l => from <= t /\ spaced gap (t + gap) l end.

Lemma command_clock f s : rclock (command f s).2 = rclock s /\ rcalls (command f s).2 = S (rcalls s).
Proof. unfold command. destruct (roracle s (rcalls s)); simpl; try done; by destruct (f _ _). Qed.

Lemma run_code_clock op s :
  rclock (run_code op s).2 = rclock s /\ rcalls (run_code op s).2 = S (rcalls s).
Proof.
  destruct op as [e code g|e submitted]; simpl;
    unfold IssueVerificationCode, ConsumeVerificationCode.
  - pose proof (command_clock (ISSUE_CODE_SCRIPT e code 60 3600 10 300 g) s) as H. by destruct (command _ s).
  - pose proof (command_clock (script (code_key e) (attempts_key e) submitted 5) s) as H.
    by destruct (command _ s).
Qed.

(** The entry of a cooldown that is running. *)
Definition cooling (email : string) (until : Z) (s : redis) : Prop :=
  exists v t, keys s !! cooldown_key email = Some (mkEntry v (Some t)) /\ until <= t.

(** A request during the cooldown changes nothing, and is not answered 1. *)
Lemma cooling_request email code g until s : cooling email until s -> rclock s (rcalls s) < until ->
  (IssueVerificationCode g email code s).1 <> 1 /\
  keys (IssueVerificationCode g email code s).2 = keys s.
Proof.
  intros (v & t & E & Ht) Hc. unfold IssueVerificationCode, command, ISSUE_CODE_SCRIPT, EXISTS, lookup_key.
  rewrite E. cbn. unfold live. cbn. rewrite (proj2 (Z.ltb_lt _ _)) by lia.
  destruct (roracle s (rcalls s)); cbn; (split; [done|done]).
Qed.

Lemma cooling_run email until op s : reserved (op_email op) = false ->
  cooling email until s -> rclock s (rcalls s) < until ->
  cooling email until (run_code op s).2 /\ issue_time email op s = [].
Proof.
  intros Hr Hco Hc. destruct (code_key_apart (op_email op) email Hr) as (_ & Hk & _).
  destruct op as [e code g|e submitted]; cbn [run_code issue_time op_email] in *.
  - destruct (String.eqb_spec e email) as [->|Hne]; cbn [andb].
    + destruct (cooling_request email code g until s Hco Hc) as [H1 H2].
      rewrite (proj2 (Z.eqb_neq _ _) H1). split; [|done]. destruct Hco as (v & t & E & Ht).
      exists v, t. cbn [snd]. by rewrite H2.
    + split; [|done]. destruct Hco as (v & t & E & Ht). exists v, t. split; [|done]. rewrite <- E.
      assert (cooldown_key email <> cooldown_key e) as Hcc by (intros Heq; apply Hne; by injection Heq).
      pose proof (issue_frame e code 60 3600 10 300 g (rclock s (rcalls s)) (keys s) (cooldown_key email)
        ltac:(done) Hcc ltac:(done) ltac:(done)) as F.
      unfold IssueVerificationCode, command. destruct (ISSUE_CODE_SCRIPT _ _ _ _ _ _ _ _ _) as [r m'].
      destruct (roracle s (rcalls s)); simpl; [|done|]; destruct F as [F|(_ & F & _)]; (exact F || by destruct Hk).
  - split; [|done]. destruct Hco as (v & t & E & Ht). exists v, t. split; [|done]. rewrite <- E.
    pose proof (submit_frame e submitted 5 (rclock s (rcalls s)) (keys s) (cooldown_key email)
      ltac:(congruence) ltac:(done)) as F.
    unfold ConsumeVerificationCode, command. destruct (script _ _ _ _ _ _) as [r m'].
    destruct (roracle s (rcalls s)); simpl; [exact F|done|exact F].
Qed.

(** An address is mailed at most once a minute: over every sequence of
    requests and submissions, with any failures, as long as no address of the
    sequence begins with a reserved word and the clock of the store does not
    go back, the codes reported as issued for an address, and so its mails,
    are at least sixty seconds apart. *)
Theorem mail_rate email ops s :
  (forall n n', (n <= n')%nat -> rclock s n <= rclock s n') ->
  Forall (fun op => reserved (op_email op) = false) ops ->
  spaced 60000 (rclock s (rcalls s)) (issue_times email ops s).
Proof.
  intros Hmono Hall.
  enough (forall from, from <= rclock s (rcalls s) \/ cooling email from s ->
            spaced 60000 from (issue_times email ops s)) as H by (apply H; left; lia).
  revert s Hmono. induction Hall as [|op ops Hr Hall IH]; intros s Hmono from Hfrom; [done|].
  cbn [issue_times]. destruct (run_code_clock op s) as [Ec En].
  assert (forall from, from <= rclock s (rcalls s) \/ cooling email from (run_code op s).2 ->
    spaced 60000 from (issue_times email ops (run_code op s).2)) as IH'.
  { intros f Hf. apply IH; [by rewrite Ec|]. rewrite Ec, En. destruct Hf as [Hf|Hf]; [left|by right].
    etrans; [exact Hf|]. apply Hmono. lia. }
  destruct (Z.le_gt_cases from (rclock s (rcalls s))) as [Hle|Hgt].
  - destruct op as [e code g|e submitted]; cbn [issue_time]; [|by apply IH'; left].
    destruct (String.eqb_spec e email) as [->|]; [|by apply IH'; left]. cbn [andb].
    destruct (IssueVerificationCode g email code s) as [i s'] eqn:Ei.
    cbn [fst]. destruct (Z.eqb_spec i 1) as [->|]; [|by apply IH'; left]. split; [done|].
    apply IH'. right. cbn [run_code]. rewrite Ei. destruct (issued_entries _ _ _ _ _ Ei) as (E & _).
    eexists _, _. split; [exact E|]. lia.
  - destruct Hfrom as [?|Hco]; [lia|].
    destruct (cooling_run email from op s Hr Hco Hgt) as [Hco' ->]. apply IH'. by right.
Qed.

Lemma mail_rate_witness :
  spaced 60000 0 (issue_times "a@b.c" (replicate 3 (Request "a@b.c" "123456" 500))
                    (mkRedis ∅ 0 (fun _ => Fine) (fun n => 30000 * Z.of_nat n))).
Proof.
  apply (mail_rate "a@b.c" (replicate 3 (Request "a@b.c" "123456" 500))
           (mkRedis ∅ 0 (fun _ => Fine) (fun n => 30000 * Z.of_nat n))).
  - simpl. lia.
  - repeat constructor.
Defined.
