(* ===== verification/Url.v ===== *)
(** URL text of the gate server: [src/servers/gate/network/HttpConnection.h]
    ([FromHex], [ToHex], [UrlEncode], [UrlDecode]) and [PreParseGetParam] of
    [HttpConnection.cpp]. *)
From S2P Require Import Prelude.

(** ** Percent encoding *)

Definition FromHex (x : Z) : option Z :=
  if (65 <=? x) && (x <=? 70) then Some (x - 65 + 10)
  else if (97 <=? x) && (x <=? 102) then Some (x - 97 + 10)
  else if (48 <=? x) && (x <=? 57) then Some (x - 48)
  else None.

Definition ToHex (x : Z) : Z := if 9 <? x then x + 55 else x + 48.

(** [isalnum] in the C locale, which the servers never change. *)
Definition isalnum (x : Z) : bool :=
  (48 <=? x) && (x <=? 57) || (65 <=? x) && (x <=? 90) || (97 <=? x) && (x <=? 122).

Definition plain (c : ascii) : bool :=
  isalnum (of_byte c) || Ascii.eqb c "-" || Ascii.eqb c "_" || Ascii.eqb c "." || Ascii.eqb c "~".

Fixpoint UrlEncode (str : string) : string :=
  match str with
  | EmptyString => EmptyString
  | String c str =>
      if plain c then String c (UrlEncode str)
      else if Ascii.eqb c " " then String "+" (UrlEncode str)
      else String "%" (String (byte_of (ToHex (Z.shiftr (of_byte c) 4)))
             (String (byte_of (ToHex (Z.land (of_byte c) 15))) (UrlEncode str)))
  end.

(** [None] is the answer [false]. *)
Fixpoint UrlDecode (str : string) : option string :=
  match str with
  | EmptyString => Some EmptyString
  | String c str =>
      if Ascii.eqb c "+" then String " " <$> UrlDecode str
      else if Ascii.eqb c "%" then
        match str with
        | String x (String y str) =>
            match FromHex (of_byte x), FromHex (of_byte y) with
            | Some high, Some low => String (byte_of (high * 16 + low)) <$> UrlDecode str
            | _, _ => None
            end
        | _ => None
        end
      else String c <$> UrlDecode str
  end.

(** ** Query strings *)

Abbreviation params := (gmap string string).

(** One [key=value]; a piece without [=] is passed over. *)
Definition parse_pair (piece : string) (get_params : params) : option params :=
  match sfind "=" piece with
  | None => Some get_params
  | Some (k, v) =>
      key ← UrlDecode k;
      value ← UrlDecode v;
      Some (<[key := value]> get_params)
  end.

(** The loop over [&], and the last piece.  Every turn erases a piece and its
    separator, so the length of the query bounds the turns. *)
Fixpoint parse_query (fuel : nat) (query_string : string) (get_params : params) : option params :=
  match sfind "&" query_string with
  | Some (piece, rest) =>
      match fuel with
      | O => None
      | S fuel => get_params ← parse_pair piece get_params; parse_query fuel rest get_params
      end
  | None =>
      if sempty query_string then Some get_params else parse_pair query_string get_params
  end.

(** The path and the parameters of a request target; [None] is the answer
    [false], on which the request gets status 400. *)
Definition PreParseGetParam (uri : string) : option (string * params) :=
  match sfind "?" uri with
  | None => Some (uri, ∅)
  | Some (url, query_string) =>
      get_params ← parse_query (String.length query_string) query_string ∅;
      Some (url, get_params)
  end.

(** ** Encoding and decoding *)

Definition hex_byte (x : Z) : bool :=
  bool_decide (FromHex (ToHex (Z.shiftr x 4)) = Some (x / 16) /\
               FromHex (ToHex (Z.land x 15)) = Some (x mod 16)).

Lemma hex_digits c :
  FromHex (ToHex (Z.shiftr (of_byte c) 4)) = Some (of_byte c / 16) /\
  FromHex (ToHex (Z.land (of_byte c) 15)) = Some (of_byte c mod 16).
Proof.
  assert (hex_byte (of_byte c) = true) as H by (apply all_bytes; vm_compute; reflexivity).
  unfold hex_byte in H. by apply bool_decide_eq_true in H.
Qed.

Lemma ToHex_byte x : 0 <= x < 16 -> of_byte (byte_of (ToHex x)) = ToHex x.
Proof. intros Hx. rewrite of_byte_byte_of. apply Z.mod_small. unfold ToHex. case_code; lia. Qed.

Lemma nibbles c : 0 <= Z.shiftr (of_byte c) 4 < 16 /\ 0 <= Z.land (of_byte c) 15 < 16.
Proof.
  pose proof (of_byte_bound c) as Hc. rewrite Z.shiftr_div_pow2 by lia. change 15 with (Z.ones 4).
  rewrite Z.land_ones by lia. change (2 ^ 4) with 16. split.
  - split; [apply Z.div_pos; lia|apply Z.div_lt_upper_bound; lia].
  - apply Z.mod_pos_bound. lia.
Qed.

(** The escape of a byte decodes to it. *)
Lemma escape_decodes c rest :
  UrlDecode (String "%" (String (byte_of (ToHex (Z.shiftr (of_byte c) 4)))
    (String (byte_of (ToHex (Z.land (of_byte c) 15))) rest))) = String c <$> UrlDecode rest.
Proof.
  destruct (nibbles c) as [H4 H15], (hex_digits c) as [Hh Hl]. cbn [UrlDecode Ascii.eqb Bool.eqb].
  rewrite !ToHex_byte, Hh, Hl by done. do 2 f_equal.
  rewrite Z.mul_comm, <- Z.div_mod by lia. apply byte_of_of_byte.
Qed.

Lemma plain_not_escape c : plain c = true -> Ascii.eqb c "+" = false /\ Ascii.eqb c "%" = false.
Proof.
  intros Hc. split; [destruct (Ascii.eqb_spec c "+") as [->|]|destruct (Ascii.eqb_spec c "%") as [->|]]; done.
Qed.

(** Any byte string survives [UrlEncode] followed by [UrlDecode]. *)
Theorem url_roundtrip (str : string) : UrlDecode (UrlEncode str) = Some str.
Proof.
  induction str as [|c str IH]; [done|]. cbn [UrlEncode]. destruct (plain c) eqn:Hp.
  - destruct (plain_not_escape c Hp) as [H1 H2]. cbn [UrlDecode]. by rewrite H1, H2, IH.
  - destruct (Ascii.eqb_spec c " ") as [->|_].
    + cbn [UrlDecode Ascii.eqb Bool.eqb]. by rewrite IH.
    + by rewrite escape_decodes, IH.
Qed.

(** ** The encoded text *)

(** A byte that the encoder may write: nothing that ends a path, a pair or a
    key. *)
Definition no_separator (c : ascii) : bool :=
  negb (Ascii.eqb c "&") && negb (Ascii.eqb c "=") && negb (Ascii.eqb c "?").

Lemma hex_no_separator x : 0 <= x < 16 -> no_separator (byte_of (ToHex x)) = true.
Proof.
  intros Hx. assert (forallb (fun x => no_separator (byte_of (ToHex x))) (seqZ 0 16) = true) as H
    by (vm_compute; reflexivity).
  rewrite forallb_forall in H. apply H, list_elem_of_In, elem_of_seqZ. lia.
Qed.

Lemma plain_no_separator c : plain c = true -> no_separator c = true.
Proof.
  intros Hc. unfold no_separator. bool_goal;
    match goal with |- Ascii.eqb c ?d = _ => by destruct (Ascii.eqb_spec c d) as [->|] end.
Qed.

Lemma encoded_no_separator str : sall no_separator (UrlEncode str) = true.
Proof.
  induction str as [|c str IH]; [done|]. cbn [UrlEncode]. destruct (plain c) eqn:Hp.
  - cbn [sall]. by rewrite plain_no_separator.
  - destruct (Ascii.eqb c " "); [exact IH|]. destruct (nibbles c) as [H4 H15].
    cbn [sall]. rewrite !hex_no_separator by done. exact IH.
Qed.

(** A query as a client writes it. *)
Definition print_pair (p : string * string) : string := UrlEncode p.1 ++ "=" ++ UrlEncode p.2.
Fixpoint print_query (l : list (string * string)) : string :=
  match l with
  | [] => ""
  | [p] => print_pair p
  | p :: l => print_pair p ++ "&" ++ print_query l
  end.

Definition set_param (m : params) (p : string * string) : params := <[p.1 := p.2]> m.

Lemma encoded_skip c s : no_separator c = false ->
  sall (fun d => negb (Ascii.eqb d c)) (UrlEncode s) = true.
Proof.
  intros Hc. eapply sall_mono, encoded_no_separator. intros d Hd. apply negb_true_iff.
  destruct (Ascii.eqb_spec d c) as [->|]; [congruence|done].
Qed.

Lemma parse_print_pair p m : parse_pair (print_pair p) m = Some (set_param m p).
Proof.
  unfold parse_pair, print_pair. change ("=" ++ UrlEncode p.2)%string with (String "=" (UrlEncode p.2)).
  rewrite sfind_skip by by apply encoded_skip. by rewrite !url_roundtrip.
Qed.

Lemma print_pair_skip p : sall (fun d => negb (Ascii.eqb d "&")) (print_pair p) = true.
Proof. unfold print_pair. rewrite !sall_app, !encoded_skip by done. done. Qed.

Lemma print_pair_nonempty p : sempty (print_pair p) = false.
Proof. unfold print_pair. by destruct (UrlEncode p.1). Qed.

Lemma parse_print_query l : forall fuel m, (length l <= S fuel)%nat ->
  parse_query fuel (print_query l) m = Some (foldl set_param m l).
Proof.
  induction l as [|p l IH]; intros fuel m Hf; [by destruct fuel|].
  destruct l as [|q l].
  - cbn [print_query foldl]. destruct fuel; cbn [parse_query];
      rewrite sfind_none, print_pair_nonempty by apply print_pair_skip; apply parse_print_pair.
  - change (print_query (p :: q :: l)) with (print_pair p ++ String "&" (print_query (q :: l)))%string.
    destruct fuel as [|fuel]; [simpl in Hf; lia|]. cbn [parse_query].
    rewrite sfind_skip, parse_print_pair by apply print_pair_skip. cbn [mbind option_bind].
    rewrite IH; [done|]. simpl in *. lia.
Qed.

Lemma print_query_length l : (length l <= S (String.length (print_query l)))%nat.
Proof.
  induction l as [|p [|q l] IH]; [simpl; lia|simpl; lia|].
  change (print_query (p :: q :: l)) with (print_pair p ++ String "&" (print_query (q :: l)))%string.
  pose proof (ssize_app (print_pair p) (String "&" (print_query (q :: l)))) as E.
  unfold ssize in E. cbn [String.length] in E. cbn [length] in *. lia.
Qed.

(** A request target printed from a path and any list of parameters, with
    keys and values percent encoded, is taken apart into the path and exactly
    those parameters, the later of two equal keys winning. *)
Theorem query_roundtrip (path : string) (l : list (string * string)) :
  sall (fun c => negb (Ascii.eqb c "?")) path = true ->
  PreParseGetParam (path ++ "?" ++ print_query l) = Some (path, foldl set_param ∅ l).
Proof.
  intros Hp. unfold PreParseGetParam. change ("?" ++ print_query l)%string with (String "?" (print_query l)).
  rewrite sfind_skip by done. cbn [mbind option_bind]. by rewrite parse_print_query by apply print_query_length.
Qed.

Lemma query_roundtrip_witness :
  PreParseGetParam "/get_test?name=a+b%26&x=1" = Some ("/get_test"%string, foldl set_param ∅ [("name", "a b&"); ("x", "1")]%string).
Proof. exact (query_roundtrip "/get_test" [("name", "a b&"); ("x", "1")]%string eq_refl). Defined.
