(* ===== verification/NewPassword.v ===== *)
(** The rule for new passwords: [validNewPassword] of
    [src/servers/gate/service/LogicSystem.cpp], which decodes UTF-8 byte by
    byte, and its equivalence with a definition of the rule that does not
    decode: the password is the UTF-8 form of 10 to 128 Unicode scalar values
    without white space. *)
From S2P Require Import Prelude.

(** ** The decoder *)

(** The value bits of a lead byte and the width it announces. *)
Definition lead_byte (lead : Z) : option (Z * nat) :=
  if lead <=? 0x7f then Some (lead, 1%nat)
  else if (0xc2 <=? lead) && (lead <=? 0xdf) then Some (Z.land lead 0x1f, 2%nat)
  else if (0xe0 <=? lead) && (lead <=? 0xef) then Some (Z.land lead 0x0f, 3%nat)
  else if (0xf0 <=? lead) && (lead <=? 0xf4) then Some (Z.land lead 0x07, 4%nat)
  else None.

(** The loop over the continuation bytes; [None] when one is missing or
    malformed. *)
Fixpoint continuation (n : nat) (value : Z) (rest : string) : option (Z * string) :=
  match n, rest with
  | O, _ => Some (value, rest)
  | S _, EmptyString => None
  | S n, String c rest =>
      let byte := of_byte c in
      if negb (Z.land byte 0xc0 =? 0x80) then None
      else continuation n (Z.lor (u32 (Z.shiftl value 6)) (Z.land byte 0x3f)) rest
  end.

Definition rejected (width : nat) (value : Z) : bool :=
  (width =? 2)%nat && (value <? 0x80) || (width =? 3)%nat && (value <? 0x800)
  || (width =? 4)%nat && (value <? 0x10000) || (0x10ffff <? value)
  || (0xd800 <=? value) && (value <=? 0xdfff).

Definition whitespace (value : Z) : bool :=
  (0x09 <=? value) && (value <=? 0x0d) || (value =? 0x20) || (value =? 0x85) || (value =? 0xa0)
  || (value =? 0x1680) || (0x2000 <=? value) && (value <=? 0x200a) || (value =? 0x2028)
  || (value =? 0x2029) || (value =? 0x202f) || (value =? 0x205f) || (value =? 0x3000).

(** One turn of the loop up to the white-space test: a value and the bytes
    after it. *)
Definition decode_one (s : string) : option (Z * string) :=
  match s with
  | EmptyString => None
  | String c rest =>
      '(value, width) ← lead_byte (of_byte c);
      '(value, rest) ← continuation (Nat.pred width) value rest;
      if rejected width value then None else Some (value, rest)
  end.

(** The loop; every turn consumes a byte, so the size bounds the turns. *)
Fixpoint valid_from (fuel : nat) (code_points : Z) (s : string) : bool :=
  if sempty s then 10 <=? code_points
  else match fuel with
       | O => false
       | S fuel =>
           match decode_one s with
           | None => false
           | Some (value, rest) =>
               if whitespace value || (128 <? code_points + 1) then false
               else valid_from fuel (code_points + 1) rest
           end
       end.

Definition validNewPassword (password : string) : bool :=
  if sempty password || (128 * 4 <? ssize password) then false
  else valid_from (String.length password) 0 password.

(** ** The rule *)

(** A Unicode scalar value and its UTF-8 form (RFC 3629). *)
Definition scalar (v : Z) : Prop := 0 <= v < 0xd800 \/ 0xdfff < v <= 0x10ffff.

Definition utf8 (v : Z) : string :=
  if v <? 0x80 then String (byte_of v) ""
  else if v <? 0x800 then
    String (byte_of (0xc0 + v / 64)) (String (byte_of (0x80 + v mod 64)) "")
  else if v <? 0x10000 then
    String (byte_of (0xe0 + v / 4096)) (String (byte_of (0x80 + v / 64 mod 64))
      (String (byte_of (0x80 + v mod 64)) ""))
  else
    String (byte_of (0xf0 + v / 262144)) (String (byte_of (0x80 + v / 4096 mod 64))
      (String (byte_of (0x80 + v / 64 mod 64)) (String (byte_of (0x80 + v mod 64)) ""))).

Fixpoint utf8_text (l : list Z) : string :=
  match l with [] => "" | v :: l => utf8 v ++ utf8_text l end.

(** The characters of Unicode with the property [White_Space]. *)
Definition White_Space : list Z :=
  [0x09; 0x0a; 0x0b; 0x0c; 0x0d; 0x20; 0x85; 0xa0; 0x1680; 0x2000; 0x2001; 0x2002; 0x2003; 0x2004;
   0x2005; 0x2006; 0x2007; 0x2008; 0x2009; 0x200a; 0x2028; 0x2029; 0x202f; 0x205f; 0x3000].

Definition password_character (v : Z) : Prop := scalar v /\ v ∉ White_Space.

(** ** Bits and arithmetic *)

Definition byte_shape (x : Z) : bool :=
  Bool.eqb (Z.land x 0xc0 =? 0x80) ((0x80 <=? x) && (x <? 0xc0)).

Lemma continuation_shape c :
  (Z.land (of_byte c) 0xc0 =? 0x80) = (0x80 <=? of_byte c) && (of_byte c <? 0xc0).
Proof.
  assert (byte_shape (of_byte c) = true) as H by (apply all_bytes; vm_compute; reflexivity).
  by apply Bool.eqb_prop in H.
Qed.

Lemma shift_in value x : 0 <= value < 2 ^ 26 ->
  Z.lor (u32 (Z.shiftl value 6)) (Z.land x 0x3f) = value * 64 + x mod 64.
Proof.
  intros Hv. change 0x3f with (2 ^ 6 - 1). rewrite land_low by lia.
  replace (u32 (Z.shiftl value 6)) with (Z.shiftl value 6).
  - apply lor_shiftl_add; [lia|]. apply Z.mod_pos_bound. lia.
  - rewrite Z.shiftl_mul_pow2 by lia. unfold u32. rewrite Z.mod_small by lia. done.
Qed.

Lemma continuation_S n value c rest : 0 <= value < 2 ^ 26 ->
  continuation (S n) value (String c rest) =
  if (0x80 <=? of_byte c) && (of_byte c <? 0xc0)
  then continuation n (value * 64 + (of_byte c - 0x80)) rest else None.
Proof.
  intros Hv. cbn [continuation]. rewrite continuation_shape, shift_in by done.
  destruct ((0x80 <=? of_byte c) && (of_byte c <? 0xc0)) eqn:E; [|done]. bool_hyps. cbn [negb].
  do 2 f_equal. Z.to_euclidean_division_equations; lia.
Qed.

Lemma byte_of_eq c z : z = of_byte c -> byte_of z = c.
Proof. intros ->. apply byte_of_of_byte. Qed.

(** The four shapes of a lead byte. *)
Lemma lead_byte_cases lead value width : 0 <= lead < 256 -> lead_byte lead = Some (value, width) ->
  lead <= 0x7f /\ value = lead /\ width = 1%nat \/
  0xc2 <= lead <= 0xdf /\ value = lead - 0xc0 /\ width = 2%nat \/
  0xe0 <= lead <= 0xef /\ value = lead - 0xe0 /\ width = 3%nat \/
  0xf0 <= lead <= 0xf4 /\ value = lead - 0xf0 /\ width = 4%nat.
Proof.
  intros Hl. unfold lead_byte.
  change 0x1f with (2 ^ 5 - 1). change 0x0f with (2 ^ 4 - 1). change 0x07 with (2 ^ 3 - 1).
  rewrite !land_low by lia. change (2 ^ 5) with 32. change (2 ^ 4) with 16. change (2 ^ 3) with 8.
  repeat case_code; intros [= <- <-]; bool_hyps; try tauto;
    Z.to_euclidean_division_equations; lia.
Qed.

Lemma rejected_spec width value : rejected width value = false <->
  ~ (width = 2%nat /\ value < 0x80) /\ ~ (width = 3%nat /\ value < 0x800) /\
  ~ (width = 4%nat /\ value < 0x10000) /\ value <= 0x10ffff /\ ~ (0xd800 <= value <= 0xdfff).
Proof.
  unfold rejected. rewrite !orb_false_iff, !andb_false_iff, !Nat.eqb_neq, !Z.ltb_ge, !Z.leb_gt. lia.
Qed.

Ltac utf8_range v :=
  unfold utf8;
  destruct (Z.ltb_spec v 0x80); [try lia|];
  [..|destruct (Z.ltb_spec v 0x800); [try lia|destruct (Z.ltb_spec v 0x10000); try lia]].

Lemma continuation_inv n value s r : 0 <= value < 2 ^ 26 -> continuation (S n) value s = Some r ->
  exists c rest, s = String c rest /\ 0x80 <= of_byte c < 0xc0 /\
    continuation n (value * 64 + (of_byte c - 0x80)) rest = Some r.
Proof.
  intros Hv. destruct s as [|c rest]; [done|]. rewrite continuation_S by done.
  destruct (_ && _) eqn:E; [|done]. bool_hyps. intros Hr. exists c, rest. split_and!; (done || lia).
Qed.

Ltac read_continuation :=
  match goal with
  | H : continuation (S _) _ _ = Some _ |- _ =>
      let E := fresh "E" in apply continuation_inv in H as (? & ? & -> & ? & E); [|lia]
  end.

Ltac same_byte :=
  match goal with |- String ?c _ = String ?d _ =>
    f_equal; [symmetry; apply byte_of_eq; Z.to_euclidean_division_equations; lia|..] end.

(** What the decoder accepts is the UTF-8 form of a scalar value. *)
Lemma decode_sound s v rest : decode_one s = Some (v, rest) -> scalar v /\ s = (utf8 v ++ rest)%string.
Proof.
  destruct s as [|c s]; [done|]. unfold decode_one.
  destruct (lead_byte (of_byte c)) as [[value width]|] eqn:El; [|done]. cbn [mbind option_bind].
  destruct (continuation _ _ _) as [[v' rest']|] eqn:Ec; [|done]. cbn [mbind option_bind].
  destruct (rejected width v') eqn:Er; [done|]. intros [= <- <-]. apply rejected_spec in Er.
  pose proof (of_byte_bound c) as Hc.
  apply lead_byte_cases in El as [(?&->&->)|[(?&->&->)|[(?&->&->)|(?&->&->)]]]; [..|done];
    cbn [Nat.pred] in Ec; repeat read_continuation;
    match goal with H : continuation O _ _ = Some _ |- _ => cbn [continuation] in H; injection H as ? <- end;
    (split; [unfold scalar; lia|]); utf8_range v'; rewrite ?string_app_cons; repeat same_byte; done.
Qed.

Lemma lead_byte_encode z value width :
  0 <= z < 0x80 /\ value = z /\ width = 1%nat \/ 0xc2 <= z <= 0xdf /\ value = z - 0xc0 /\ width = 2%nat \/
  0xe0 <= z <= 0xef /\ value = z - 0xe0 /\ width = 3%nat \/
  0xf0 <= z <= 0xf4 /\ value = z - 0xf0 /\ width = 4%nat ->
  lead_byte (of_byte (byte_of z)) = Some (value, width).
Proof.
  intros Hz. rewrite of_byte_small by lia.
  destruct (lead_byte z) as [[value' width']|] eqn:E.
  - apply lead_byte_cases in E; [|lia]. do 2 f_equal; lia.
  - exfalso. unfold lead_byte in E. repeat case_code; simplify_eq; bool_hyps; lia.
Qed.

Lemma continuation_encode n value z rest : 0 <= value < 2 ^ 26 -> 0 <= z < 64 ->
  continuation (S n) value (String (byte_of (0x80 + z)) rest) = continuation n (value * 64 + z) rest.
Proof.
  intros Hv Hz. rewrite continuation_S, of_byte_small by lia.
  replace ((0x80 <=? 0x80 + z) && (0x80 + z <? 0xc0)) with true by (symmetry; bool_goal; lia).
  do 2 f_equal. lia.
Qed.

Ltac divisions := Z.to_euclidean_division_equations; lia.

(** The UTF-8 form of a scalar value is decoded to it. *)
Lemma decode_complete v rest : scalar v -> decode_one (utf8 v ++ rest) = Some (v, rest).
Proof.
  intros Hv. unfold scalar in Hv. unfold utf8.
  destruct (Z.ltb_spec v 0x80); [|destruct (Z.ltb_spec v 0x800); [|destruct (Z.ltb_spec v 0x10000)]];
    rewrite ?string_app_cons; unfold decode_one.
  - rewrite (lead_byte_encode v v 1) by lia. cbn.
    by rewrite (proj2 (rejected_spec 1 v)) by lia.
  - rewrite (lead_byte_encode _ (v / 64) 2) by divisions. cbn [mbind option_bind Nat.pred].
    rewrite continuation_encode by divisions. cbn [continuation mbind option_bind].
    replace (v / 64 * 64 + v mod 64) with v by divisions.
    by rewrite (proj2 (rejected_spec 2 v)) by lia.
  - rewrite (lead_byte_encode _ (v / 4096) 3) by divisions. cbn [mbind option_bind Nat.pred].
    rewrite !continuation_encode by divisions. cbn [continuation mbind option_bind].
    replace ((v / 4096 * 64 + v / 64 mod 64) * 64 + v mod 64) with v by divisions.
    by rewrite (proj2 (rejected_spec 3 v)) by lia.
  - rewrite (lead_byte_encode _ (v / 262144) 4) by divisions. cbn [mbind option_bind Nat.pred].
    rewrite !continuation_encode by divisions. cbn [continuation mbind option_bind].
    replace (((v / 262144 * 64 + v / 4096 mod 64) * 64 + v / 64 mod 64) * 64 + v mod 64) with v by divisions.
    by rewrite (proj2 (rejected_spec 4 v)) by lia.
Qed.

Lemma whitespace_spec v : whitespace v = true <-> v ∈ White_Space.
Proof.
  unfold whitespace, White_Space.
  rewrite !orb_true_iff, !andb_true_iff, !Z.leb_le, !Z.eqb_eq, !elem_of_cons, elem_of_nil. lia.
Qed.

Lemma utf8_size v : 1 <= ssize (utf8 v) <= 4.
Proof. unfold utf8. repeat case_code; vm_compute; by split. Qed.

Lemma utf8_text_size l : Z.of_nat (length l) <= ssize (utf8_text l) <= 4 * Z.of_nat (length l).
Proof.
  induction l as [|v l IH]; [done|]. cbn [utf8_text length]. rewrite ssize_app.
  pose proof (utf8_size v). lia.
Qed.

(** What the loop decides of the bytes that remain, after [k] characters. *)
Definition acceptable (k : Z) (s : string) : Prop :=
  exists l, s = utf8_text l /\ 10 <= k + Z.of_nat (length l) <= 128 /\ Forall password_character l.

Lemma acceptable_nil k : 0 <= k <= 128 -> acceptable k "" <-> 10 <= k.
Proof.
  intros Hk. split.
  - intros (l & E & Hl & _). pose proof (utf8_text_size l) as Hz. apply (f_equal ssize) in E.
    change (ssize "") with 0 in E. lia.
  - intros H. exists []. simpl. split_and!; [done|lia..|constructor].
Qed.

Lemma acceptable_cons k v s :
  password_character v -> acceptable k (utf8 v ++ s) <-> acceptable (k + 1) s.
Proof.
  intros Hv. split.
  - intros ([|v' l] & E & Hl & Hf).
    + pose proof (utf8_size v) as H1. pose proof (ssize_nonneg s) as H2. apply (f_equal ssize) in E.
      rewrite ssize_app in E. cbn [utf8_text] in E. change (ssize "") with 0 in E. lia.
    + apply Forall_cons in Hf as [Hv' Hf]. cbn [utf8_text] in E. apply (f_equal decode_one) in E.
      rewrite !decode_complete in E by (by apply Hv || by apply Hv'). injection E as -> ->.
      exists l. simpl in Hl. split_and!; [done|lia..|done].
  - intros (l & -> & Hl & Hf). exists (v :: l). simpl. split_and!; [done|lia..|by constructor].
Qed.

Lemma acceptable_decodes k s : s <> ""%string -> acceptable k s ->
  exists v rest, decode_one s = Some (v, rest) /\ password_character v.
Proof.
  intros Hs ([|v l] & -> & Hl & Hf); [done|]. apply Forall_cons in Hf as [Hv Hf].
  exists v, (utf8_text l). cbn [utf8_text]. split; [|done]. apply decode_complete, Hv.
Qed.

Lemma valid_from_spec fuel : forall k s, 0 <= k <= 128 -> ssize s <= Z.of_nat fuel ->
  valid_from fuel k s = true <-> acceptable k s.
Proof.
  induction fuel as [|fuel IH]; intros k s Hk Hs; destruct s as [|c s].
  - cbn. by rewrite Z.leb_le, acceptable_nil.
  - rewrite ssize_cons in Hs. pose proof (ssize_nonneg s). lia.
  - cbn. by rewrite Z.leb_le, acceptable_nil.
  - cbn [valid_from sempty]. destruct (decode_one (String c s)) as [[v rest]|] eqn:Ed.
    + destruct (decode_sound _ _ _ Ed) as [Hv E]. rewrite E. pose proof (utf8_size v) as H1.
      pose proof (f_equal ssize E) as H2. rewrite ssize_app in H2.
      destruct (whitespace v) eqn:Ew; cbn [orb].
      * split; [done|]. intros Ha. rewrite <- E in Ha.
        apply acceptable_decodes in Ha as (v' & rest' & Ed' & _ & Hw); [|done].
        rewrite Ed in Ed'. injection Ed' as -> ->. by apply whitespace_spec in Ew.
      * assert (password_character v) as Hp by (split; [done|]; rewrite <- whitespace_spec; congruence).
        rewrite (acceptable_cons k v rest Hp). destruct (Z.ltb_spec 128 (k + 1)) as [Hgt|Hle].
        -- split; [done|]. intros (l & _ & Hl & _). lia.
        -- apply IH; lia.
    + split; [done|]. intros (v & rest & Ed' & _)%acceptable_decodes; congruence.
Qed.

(** The rule. *)
Definition new_password (password : string) : Prop :=
  exists l, password = utf8_text l /\ (10 <= length l <= 128)%nat /\ Forall password_character l.

Lemma validNewPassword_spec password : validNewPassword password = true <-> new_password password.
Proof.
  unfold validNewPassword. destruct (sempty password || (128 * 4 <? ssize password)) eqn:E.
  - split; [done|]. intros (l & -> & Hl & _). exfalso. pose proof (utf8_text_size l) as Hs.
    apply orb_true_iff in E as [E|E]; [rewrite sempty_ssize in E|]; bool_hyps; lia.
  - rewrite valid_from_spec by (unfold ssize; lia). unfold acceptable, new_password.
    split; intros (l & Hp & Hl & Hf); exists l; split_and!; (done || lia).
Qed.

(** C37. A new password is accepted exactly when it is the UTF-8 form of 10 to
    128 Unicode scalar values none of which is white space; every other byte
    string, malformed, overlong and surrogate encodings included, is
    refused. *)
Theorem password_rule (password : string) :
  validNewPassword password = true <->
  exists l, password = utf8_text l /\ (10 <= length l <= 128)%nat /\ Forall password_character l.
Proof. apply validNewPassword_spec. Qed.
