(* ===== verification/TokenBucket.v ===== *)
(** The request budgets of a connection: [src/common/TokenBucket.h].

    The class computes with [double]; the model computes with the binary64
    arithmetic of the Standard Library's [SpecFloat], so that every rounding
    is the one of the code. Time points are ticks of the steady clock,
    nanoseconds. *)
From Stdlib Require Import Floats.SpecFloat.
From S2P Require Import Prelude.

(** ** [double] *)

Abbreviation double := spec_float.

#[export] Instance double_eq_dec : EqDecision double.
Proof. solve_decision. Defined.

Definition double_of (z : Z) : double := binary_normalize 53 1024 z 0 false.
Definition dadd (x y : double) : double := SFadd 53 1024 x y.
Definition dsub (x y : double) : double := SFsub 53 1024 x y.
Definition dmul (x y : double) : double := SFmul 53 1024 x y.
Definition ddiv (x y : double) : double := SFdiv 53 1024 x y.

(** [std::min] *)
Definition dmin (x y : double) : double := if SFltb y x then y else x.

(** [std::chrono::duration<double>(d).count()] of a duration in nanoseconds. *)
Definition seconds_of (d : Z) : double := ddiv (double_of d) (double_of 1000000000).

Module TokenBucket.

Record TokenBucket := mkBucket {
  capacity_ : double;
  rate_ : double;
  tokens_ : double;
  last_ : Z;
}.

(** The constructor; [Throws] stands for [std::invalid_argument]. *)
Definition create (capacity per_second : double) (now : Z) : outcome TokenBucket :=
  if negb (SFltb (double_of 0) capacity) || negb (SFltb (double_of 0) per_second)
  then Throws
  else Returns (mkBucket capacity per_second capacity now).

Definition refill (now : Z) (b : TokenBucket) : TokenBucket :=
  if last_ b <? now
  then mkBucket (capacity_ b) (rate_ b)
         (dmin (capacity_ b) (dadd (tokens_ b) (dmul (seconds_of (now - last_ b)) (rate_ b)))) now
  else b.

Definition consume (amount : double) (now : Z) (b : TokenBucket) : bool * TokenBucket :=
  let b := refill now b in
  if negb (SFleb (double_of 0) amount) || SFltb (tokens_ b) amount
  then (false, b)
  else (true, mkBucket (capacity_ b) (rate_ b) (dsub (tokens_ b) amount) (last_ b)).

(** Requests at the given times, each taking one token. *)
Fixpoint consumes (times : list Z) (b : TokenBucket) : list bool * TokenBucket :=
  match times with
  | [] => ([], b)
  | now :: rest =>
      let '(r, b) := consume (double_of 1) now b in
      let '(rs, b) := consumes rest b in
      (r :: rs, b)
  end.

(** The budgets of [CSession]. *)
Definition chat_requests (now : Z) : outcome TokenBucket := create (double_of 200) (double_of 100) now.
Definition file_requests (now : Z) : outcome TokenBucket := create (double_of 256) (double_of 128) now.
Definition file_bytes (now : Z) : outcome TokenBucket :=
  create (double_of (8 * 1024 * 1024)) (double_of (4 * 1024 * 1024)) now.

(** ** Budgets *)

(** A bucket of [k] whole tokens. *)
Definition whole (b : TokenBucket) (k : nat) : TokenBucket :=
  mkBucket (capacity_ b) (rate_ b) (double_of (Z.of_nat k)) (last_ b).

(** Taking one token off [k + 1] is exact, for the budgets in use. *)
Definition one_off (k : nat) : bool :=
  negb (SFltb (double_of (Z.of_nat (S k))) (double_of 1)) &&
  bool_decide (dsub (double_of (Z.of_nat (S k))) (double_of 1) = double_of (Z.of_nat k)).

Lemma one_off_256 : forallb one_off (seq 0 256) = true.
Proof. vm_compute. reflexivity. Qed.

Lemma consume_whole b k now : now <= last_ b -> (k < 256)%nat ->
  consume (double_of 1) now (whole b (S k)) = (true, whole b k).
Proof.
  intros Hn Hk. unfold consume, refill. simpl. rewrite (proj2 (Z.ltb_ge _ _) Hn). simpl.
  pose proof one_off_256 as Ho. rewrite forallb_forall in Ho.
  specialize (Ho k ltac:(apply in_seq; lia)). unfold one_off in Ho. bool_hyps. simpl in *.
  rewrite H. by unfold whole; simpl; f_equal; f_equal.
Qed.

Lemma consume_none b now : now <= last_ b -> consume (double_of 1) now (whole b 0) = (false, whole b 0).
Proof. intros Hn. unfold consume, refill. simpl. by rewrite (proj2 (Z.ltb_ge _ _) Hn). Qed.

(** Requests while the clock stands admit exactly the tokens there are. *)
Lemma consumes_whole b times k : (k <= 256)%nat -> Forall (fun now => now <= last_ b) times ->
  consumes times (whole b k) =
    (replicate (min k (length times)) true ++ replicate (length times - k) false,
     whole b (k - length times)).
Proof.
  intros Hk Ht. revert k Hk. induction Ht as [|now times Hn Ht IH]; intros k Hk; simpl.
  { by rewrite Nat.min_0_r, Nat.sub_0_r. }
  destruct k as [|k].
  - rewrite consume_none by done. rewrite IH by lia. simpl. by rewrite Nat.sub_0_r.
  - rewrite consume_whole by (done || lia). rewrite IH by lia. done.
Qed.

(** The requests an exhausted budget admits after [d] idle seconds. *)
Definition regained (d : Z) : nat := Z.to_nat (Z.min 200 (100 * d)).

(** An exhausted budget regains whole requests, for up to an hour. *)
Definition refill_exact (d : Z) : bool :=
  bool_decide (dmin (double_of 200) (dadd (double_of 0) (dmul (seconds_of (d * 1000000000)) (double_of 100)))
               = double_of (Z.of_nat (regained d))).

Lemma refill_exact_hour : forallb (fun d => refill_exact (Z.of_nat d)) (seq 1 3600) = true.
Proof. vm_compute. reflexivity. Qed.

Lemma refill_whole d t0 : 1 <= d <= 3600 ->
  refill (t0 + d * 1000000000) (mkBucket (double_of 200) (double_of 100) (double_of 0) t0) =
  mkBucket (double_of 200) (double_of 100) (double_of (Z.of_nat (regained d))) (t0 + d * 1000000000).
Proof.
  intros Hd. pose proof refill_exact_hour as Hr. rewrite forallb_forall in Hr.
  specialize (Hr (Z.to_nat d) ltac:(apply in_seq; lia)). rewrite Z2Nat.id in Hr by lia.
  unfold refill_exact in Hr. apply bool_decide_eq_true in Hr. unfold refill. cbn [last_ capacity_ rate_ tokens_].
  rewrite (proj2 (Z.ltb_lt t0 _)) by lia.
  replace (t0 + d * 1000000000 - t0) with (d * 1000000000) by lia. by rewrite Hr.
Qed.

(** The request budget of a connection, computed with the [double]s of the
    code: of the requests that arrive before the clock moves on exactly the
    first 200 are admitted, and of those that arrive [d] seconds (up to an
    hour) after the budget was exhausted exactly the first [100 * d], and
    never more than 200; no rounding adds or takes a request. *)
Theorem chat_budget t0 d b first_ second_ :
  chat_requests t0 = Returns b ->
  Forall (fun now => now <= t0) first_ -> (200 <= length first_)%nat ->
  1 <= d <= 3600 -> Forall (fun now => now = t0 + d * 1000000000) second_ ->
  let k := Z.to_nat (Z.min 200 (100 * d)) in
  (consumes first_ b).1 = replicate 200 true ++ replicate (length first_ - 200) false /\
  (consumes second_ (consumes first_ b).2).1 =
    replicate (min k (length second_)) true ++ replicate (length second_ - k) false.
Proof.
  intros [= <-] H1 Hl Hd H2. fold (regained d). cbv zeta.
  change (mkBucket _ _ _ t0) with (whole (mkBucket (double_of 200) (double_of 100) (double_of 200) t0) 200).
  rewrite consumes_whole by (done || lia). cbn [fst snd].
  replace (min 200 (length first_)) with 200%nat by lia.
  replace (200 - length first_)%nat with 0%nat by lia. split; [done|].
  set (b1 := mkBucket (double_of 200) (double_of 100) (double_of 0) (t0 + d * 1000000000)).
  destruct second_ as [|now rest]; [by rewrite Nat.min_0_r|]. apply Forall_cons in H2 as [-> H2].
  transitivity (consumes (t0 + d * 1000000000 :: rest) (whole b1 (regained d))).1.
  - cbn [consumes]. replace (consume _ _ (whole _ 0)) with
      (consume (double_of 1) (t0 + d * 1000000000) (whole b1 (regained d))); [done|].
    unfold consume. change (whole _ 0) with (mkBucket (double_of 200) (double_of 100) (double_of 0) t0).
    rewrite refill_whole by done. unfold refill. cbn [last_ whole b1]. by rewrite Z.ltb_irrefl.
  - rewrite consumes_whole; [done|unfold regained; lia|].
    constructor; [simpl; lia|]. eapply Forall_impl; [done|]. simpl. lia.
Qed.

Lemma chat_budget_witness : exists b,
  (consumes (replicate 201 7) b).1 = replicate 200 true ++ [false] /\
  (consumes (replicate 101 1000000007) (consumes (replicate 201 7) b).2).1 = replicate 100 true ++ [false].
Proof.
  eexists. apply (chat_budget 7 1 _ (replicate 201 7) (replicate 101 1000000007)).
  - reflexivity.
  - by apply Forall_replicate.
  - rewrite length_replicate. lia.
  - lia.
  - by apply Forall_replicate.
Defined.

End TokenBucket.
