(* ===== verification/Session.v ===== *)
(** A client connection: the frames of [src/servers/chat/network/MsgNode.cpp]
    and the reading, writing and closing of
    [src/servers/chat/network/CSession.cpp], with the message identifiers and
    limits of [src/servers/chat/core/const.h]. *)
From S2P Require Import Prelude TokenBucket.

(** ** Limits and message identifiers *)

Definition MAX_LENGTH : Z := 1024 * 2.
Definition MAX_FILE_FRAME_LENGTH : Z := 60 * 1024.
Definition HEAD_TOTAL_LEN : Z := 4.
Definition MAX_SENDQUE : Z := 1000.
Definition SendByteLimit : Z := 4 * 1024 * 1024.
Definition CHAT_AUTH_TIMEOUT_SECONDS : Z := 10.
Definition CHAT_IDLE_TIMEOUT_SECONDS : Z := 120.

Definition MSG_CHAT_LOGIN : Z := 1005.
Definition MSG_CHAT_LOGIN_RSP : Z := 1006.
Definition ID_SEARCH_USER_REQ : Z := 1007.
Definition ID_SEARCH_USER_RSP : Z := 1008.
Definition ID_ADD_FRIEND_REQ : Z := 1009.
Definition ID_ADD_FRIEND_RSP : Z := 1010.
Definition ID_NOTIFY_ADD_FRIEND_REQ : Z := 1011.
Definition ID_AUTH_FRIEND_REQ : Z := 1013.
Definition ID_AUTH_FRIEND_RSP : Z := 1014.
Definition ID_NOTIFY_AUTH_FRIEND_REQ : Z := 1015.
Definition ID_TEXT_CHAT_MSG_REQ : Z := 1017.
Definition ID_TEXT_CHAT_MSG_RSP : Z := 1018.
Definition ID_NOTIFY_TEXT_CHAT_MSG_REQ : Z := 1019.
Definition ID_TEXT_CHAT_MSG_ACK : Z := 1020.
Definition ID_NOTIFY_OFF_LINE_REQ : Z := 1021.
Definition ID_HEART_BEAT_REQ : Z := 1023.
Definition ID_HEARTBEAT_RSP : Z := 1024.
Definition ID_UPLOAD_FILE_REQ : Z := 1025.
Definition ID_UPLOAD_FILE_CHUNK_REQ : Z := 1027.
Definition ID_UPLOAD_FILE_FINISH_REQ : Z := 1029.
Definition ID_DOWNLOAD_FILE_REQ : Z := 1032.
Definition ID_DOWNLOAD_FILE_DONE : Z := 1034.
Definition ID_FILE_TRANSFER_CANCEL : Z := 1035.
Definition ID_RESOURCE_TOKEN_REQ : Z := 1036.
Definition ID_RESOURCE_TOKEN_RSP : Z := 1037.
Definition ID_RESOURCE_REVOKE_REQ : Z := 1038.

Definition IsFileTransferMessage (id : Z) : bool :=
  (ID_UPLOAD_FILE_REQ <=? id) && (id <=? ID_FILE_TRANSFER_CANCEL).

Definition client_requests : list Z :=
  [MSG_CHAT_LOGIN; ID_SEARCH_USER_REQ; ID_ADD_FRIEND_REQ; ID_AUTH_FRIEND_REQ; ID_TEXT_CHAT_MSG_REQ;
   ID_TEXT_CHAT_MSG_ACK; ID_HEART_BEAT_REQ; ID_RESOURCE_TOKEN_REQ; ID_RESOURCE_REVOKE_REQ;
   ID_UPLOAD_FILE_REQ; ID_UPLOAD_FILE_CHUNK_REQ; ID_UPLOAD_FILE_FINISH_REQ; ID_DOWNLOAD_FILE_REQ;
   ID_DOWNLOAD_FILE_DONE; ID_FILE_TRANSFER_CANCEL].
Definition IsClientRequestMessage (id : Z) : bool := existsb (Z.eqb id) client_requests.

(** ** Frames *)

(** A 16-bit number in network byte order. *)
Definition be16 (z : Z) : string := String (byte_of (Z.shiftr (u16 z) 8)) (String (byte_of (u16 z)) "").
Definition of_be16 (hi lo : ascii) : Z := Z.lor (Z.shiftl (of_byte hi) 8) (of_byte lo).

(** The bytes of a [SendNode]: identifier, length, body. *)
Definition SendNode (msg : string) (msg_id : Z) : string :=
  be16 msg_id ++ be16 (ssize msg) ++ msg.

(** ** Sending *)

(** The head of a frame is read back. *)
Lemma of_be16_sum hi lo : of_be16 hi lo = 256 * of_byte hi + of_byte lo.
Proof.
  unfold of_be16. pose proof (of_byte_bound lo). rewrite lor_shiftl_add by lia. lia.
Qed.

Lemma be16_of_be16 hi lo : be16 (of_be16 hi lo) = String hi (String lo "").
Proof.
  pose proof (of_byte_bound hi). pose proof (of_byte_bound lo). rewrite of_be16_sum.
  assert (u16 (256 * of_byte hi + of_byte lo) = 256 * of_byte hi + of_byte lo) as Hu
    by (apply Z.mod_small; lia).
  unfold be16. rewrite Hu, Z.shiftr_div_pow2 by lia. change (2 ^ 8) with 256.
  rewrite (Z.mul_comm 256), Z.div_add_l, (Z.div_small (of_byte lo)), Z.add_0_r by lia.
  rewrite byte_of_of_byte. do 2 f_equal. unfold byte_of.
  rewrite Z.add_comm, Z.mod_add by lia. apply byte_of_of_byte.
Qed.

Lemma of_be16_bound hi lo : 0 <= of_be16 hi lo < 65536.
Proof. rewrite of_be16_sum. pose proof (of_byte_bound hi). pose proof (of_byte_bound lo). lia. Qed.

Lemma be16_inj x y : 0 <= x < 65536 -> 0 <= y < 65536 -> be16 x = be16 y -> x = y.
Proof.
  intros Hx Hy. unfold be16, u16. rewrite !(Z.mod_small _ (2 ^ 16)) by lia.
  rewrite !Z.shiftr_div_pow2 by lia. change (2 ^ 8) with 256. intros E.
  injection E as E1 E2. apply (f_equal of_byte) in E1, E2. rewrite !of_byte_byte_of in E1, E2.
  pose proof (Z.div_lt_upper_bound x 256 256). pose proof (Z.div_lt_upper_bound y 256 256).
  pose proof (Z.div_pos x 256). pose proof (Z.div_pos y 256).
  rewrite !(Z.mod_small (_ / _)) in E1 by lia.
  rewrite (Z.div_mod x 256), (Z.div_mod y 256) by lia. congruence.
Qed.

Lemma of_be16_be16 z : 0 <= z < 65536 -> of_be16 (byte_of (Z.shiftr (u16 z) 8)) (byte_of (u16 z)) = z.
Proof. intros Hz. apply be16_inj; [apply of_be16_bound|done|]. by rewrite be16_of_be16. Qed.

Module SendQueue.

(** The sending half of a [CSession]: [started] counts the posted runs of
    [StartWrite], [flight] the frames handed to [async_write] and not yet
    completed, [wire] what the socket has taken and [accepted] the frames for
    which [Send] returned true. *)
Record Queue := mkQueue {
  b_close : bool;
  send_que : list string;
  send_bytes : Z;
  started : nat;
  flight : list string;
  wire : list string;
  accepted : list string;
}.

Definition create : Queue := mkQueue false [] 0 0 [] [] [].

(** [Close] *)
Definition close (q : Queue) : Queue :=
  mkQueue true (send_que q) (send_bytes q) (started q) (flight q) (wire q) (accepted q).

(** [Send(std::string, short)]; the subtraction is on [std::size_t]. *)
Definition Send (msg : string) (msgid : Z) (q : Queue) : bool * Queue :=
  if 65535 <? ssize msg then (false, close q)
  else if b_close q then (false, q)
  else
    let send_que_size := Z.of_nat (length (send_que q)) in
    let frame_bytes := ssize msg + HEAD_TOTAL_LEN in
    if (MAX_SENDQUE <=? send_que_size) || (u64 (SendByteLimit - send_bytes q) <? frame_bytes)
    then (false, q)
    else
      let node := SendNode msg msgid in
      (true, mkQueue (b_close q) (send_que q ++ [node]) (send_bytes q + frame_bytes)
               (if 0 <? send_que_size then started q else S (started q))
               (flight q) (wire q) (accepted q ++ [node])).

(** [Send(char*, std::size_t, short)] *)
Definition Send_bytes (msg : string) (max_length : Z) (msgid : Z) (q : Queue) : bool * Queue :=
  if 65535 <? max_length then (false, close q)
  else Send (substring 0 (Z.to_nat max_length) msg) msgid q.

(** A posted [StartWrite] runs. *)
Definition StartWrite (q : Queue) : Queue :=
  let q := mkQueue (b_close q) (send_que q) (send_bytes q) (pred (started q)) (flight q) (wire q) (accepted q) in
  if b_close q then q
  else match send_que q with
       | [] => q
       | node :: _ => mkQueue (b_close q) (send_que q) (send_bytes q) (started q) (flight q ++ [node]) (wire q) (accepted q)
       end.

(** [HandleWrite], the completion of the oldest write. *)
Definition HandleWrite (error : bool) (q : Queue) : Queue :=
  match flight q with
  | [] => q
  | written :: rest =>
      if error then close (mkQueue (b_close q) (send_que q) (send_bytes q) (started q) rest (wire q) (accepted q))
      else
        let que := tail (send_que q) in
        let bytes := send_bytes q - match send_que q with node :: _ => ssize node | [] => 0 end in
        mkQueue (b_close q) que bytes (started q)
          (match que with
           | node :: _ => if b_close q then rest else rest ++ [node]
           | [] => rest
           end) (wire q ++ [written]) (accepted q)
  end.

(** Any thread sends or closes; the connection's executor runs the rest. *)
Inductive step : Queue -> Queue -> Prop :=
| step_send msg msgid q : step q (Send msg msgid q).2
| step_close q : step q (close q)
| step_start q : (0 < started q)%nat -> step q (StartWrite q)
| step_written error q : flight q <> [] -> step q (HandleWrite error q).

Definition reachable (q : Queue) : Prop := rtc step create q.

Definition frames_bytes (l : list string) : Z := foldr (fun f n => ssize f + n) 0 l.

Record inv (q : Queue) : Prop := {
  inv_bytes : send_bytes q = frames_bytes (send_que q);
  inv_limit : 0 <= send_bytes q <= SendByteLimit;
  inv_depth : Z.of_nat (length (send_que q)) <= MAX_SENDQUE;
  inv_flight : flight q = [] \/ flight q = take 1 (send_que q) /\ started q = 0%nat;
  inv_single : (length (flight q) + started q <= 1)%nat;
  inv_busy : b_close q = false -> send_que q <> [] -> (length (flight q) + started q = 1)%nat;
  inv_idle : send_que q = [] -> started q = 0%nat;
  inv_fifo : accepted q = wire q ++ send_que q;
}.

Lemma frames_bytes_app l k : frames_bytes (l ++ k) = frames_bytes l + frames_bytes k.
Proof. induction l as [|x l IH]; simpl; [done|]. rewrite IH. lia. Qed.

Lemma frames_bytes_nonneg l : 0 <= frames_bytes l.
Proof. induction l as [|x l IH]; simpl; [lia|]. pose proof (ssize_nonneg x). lia. Qed.

Lemma ssize_SendNode msg msgid : ssize (SendNode msg msgid) = ssize msg + HEAD_TOTAL_LEN.
Proof.
  unfold HEAD_TOTAL_LEN. change (Z.of_nat (S (S (S (S (String.length msg))))) = ssize msg + 4).
  unfold ssize. lia.
Qed.

Lemma queue_close q : inv q -> inv (close q).
Proof. intros []. by split. Qed.

Lemma queue_send msg msgid q : inv q -> inv (Send msg msgid q).2.
Proof.
  intros Hi. unfold Send. destruct (65535 <? ssize msg); [by apply queue_close|].
  destruct (b_close q) eqn:Ec; [done|].
  destruct ((MAX_SENDQUE <=? _) || _) eqn:E; [done|].
  destruct Hi as [Hb Hl Hd Hf Hs Hy Hi Hq]. bool_hyps. cbn [snd].
  assert (u64 (SendByteLimit - send_bytes q) = SendByteLimit - send_bytes q) as Hu.
  { apply Z.mod_small. unfold SendByteLimit in *. lia. }
  rewrite Hu in *. pose proof (ssize_nonneg msg). pose proof (ssize_SendNode msg msgid) as Hn.
  unfold HEAD_TOTAL_LEN in *.
  assert (send_que q = [] -> flight q = []) as Hf0 by (intros E; destruct Hf as [?|[-> _]]; by rewrite ?E).
  split; cbn [b_close send_que send_bytes started flight wire accepted].
  - rewrite frames_bytes_app. cbn [frames_bytes foldr]. lia.
  - lia.
  - rewrite length_app. cbn [length]. lia.
  - destruct Hf as [->|[Ef Es]]; [by left|]. destruct (send_que q) as [|x l]; [by left|]. by right.
  - destruct (send_que q) as [|x l]; [|done]. rewrite Hf0, Hi by done. simpl. lia.
  - intros _ _. destruct (send_que q) as [|x l]; [|by apply Hy]. by rewrite Hf0, Hi.
  - by destruct (send_que q).
  - by rewrite Hq, (assoc_L (++)).
Qed.

Lemma queue_start q : (0 < started q)%nat -> inv q -> inv (StartWrite q).
Proof.
  intros Hst [Hb Hl Hd Hf Hs Hy Hi Hq].
  assert (flight q = [] /\ started q = 1%nat) as [Ef Es].
  { destruct (flight q); simpl in *; [|lia]. split; [done|lia]. }
  unfold StartWrite. cbn. destruct (b_close q) eqn:Ec; [split; cbn; rewrite ?Ef, ?Es; auto; simpl; lia|].
  destruct (send_que q) as [|x l] eqn:Eq; [specialize (Hi eq_refl); lia|].
  split; cbn; rewrite ?Ef, ?Es; auto.
Qed.

Lemma queue_written error q : flight q <> [] -> inv q -> inv (HandleWrite error q).
Proof.
  intros Hne [Hb Hl Hd Hf Hs Hy Hi Hq]. unfold HandleWrite.
  destruct Hf as [?|[Ef Es]]; [done|]. rewrite Ef in Hne |- *.
  destruct (send_que q) as [|x l] eqn:Eq; [done|]. simpl. destruct error.
  { split; simpl; rewrite ?Eq, ?Es; auto; simpl; lia || done. }
  simpl in *. pose proof (frames_bytes_nonneg l). pose proof (ssize_nonneg x).
  split; simpl; rewrite ?Es; auto; try lia.
  - destruct l; [by left|]. destruct (b_close q); auto.
  - destruct l; [simpl; lia|]. destruct (b_close q); simpl; lia.
  - intros Hc Hl'. destruct l; [done|]. by rewrite Hc.
  - by rewrite Hq, <- (assoc_L (++)).
Qed.

Lemma queue_reachable q : reachable q -> inv q.
Proof.
  intros Hr. assert (inv create) as Hi by (split; simpl; auto; unfold SendByteLimit, MAX_SENDQUE; lia || done).
  induction Hr as [|q1 q2 q3 Hs _ IH]; [done|]. apply IH. clear IH.
  destruct Hs; auto using queue_send, queue_close, queue_start, queue_written.
Qed.

(** C30. The outgoing side of a connection, for every interleaving of senders,
    closing and completions: at most one write is under way or scheduled, an
    open connection with frames to send has exactly one, the frames on the
    wire are those [Send] accepted, in that order, each once, and at most
    1000 frames and 4 MiB wait, counted exactly. *)
Theorem send_in_order q : reachable q ->
  accepted q = wire q ++ send_que q /\
  (length (flight q) + started q <= 1)%nat /\
  (b_close q = false -> send_que q <> [] -> (length (flight q) + started q = 1)%nat) /\
  flight q `prefix_of` send_que q /\
  send_bytes q = frames_bytes (send_que q) /\ send_bytes q <= SendByteLimit /\
  Z.of_nat (length (send_que q)) <= MAX_SENDQUE.
Proof.
  intros [Hb Hl Hd Hf Hs Hy Hi Hq]%queue_reachable. split_and!; try done; [|lia].
  destruct Hf as [->|[-> _]]; [apply prefix_nil|apply prefix_take].
Qed.

Lemma send_in_order_witness : exists q, reachable q /\ accepted q = wire q ++ send_que q.
Proof.
  exists (HandleWrite false (StartWrite (Send "hello" 1018 create).2)).
  assert (reachable (HandleWrite false (StartWrite (Send "hello" 1018 create).2))) as Hr.
  { eapply rtc_l; [apply (step_send "hello" 1018)|]. eapply rtc_l; [apply step_start; vm_compute; lia|].
    eapply rtc_l; [apply (step_written false); by vm_compute|]. apply rtc_refl. }
  split; [exact Hr|]. exact (proj1 (send_in_order _ Hr)).
Defined.

End SendQueue.

(** ** Receiving *)

(** [LogicSystem::PostMsgToFileQue] over the file workers, each given by the
    answer of its [PostTask]; the server starts with none. *)
Definition PostMsgToFileQue (workers : list bool) (index : Z) : bool :=
  if (index <? 0) || (Z.of_nat (length workers) <=? index) then false
  else default false (workers !! Z.to_nat index).
Definition LogicSystem_workers : list bool := [].

Lemma no_file_workers i : PostMsgToFileQue LogicSystem_workers i = false.
Proof.
  unfold PostMsgToFileQue, LogicSystem_workers. cbn [length]. change (Z.of_nat 0) with 0.
  by destruct (Z.ltb_spec i 0), (Z.leb_spec 0 i); try lia.
Qed.

Module Reader.

(** The outstanding read: of a head, of the body announced by a head, or none
    (before the start and after the connection is given up). *)
Inductive Phase :=
| Quiet
| ReadHead (got : string)
| ReadBody (msg_id msg_len : Z) (got : string).

(** A frame handed to the logic layer, with the user the connection had. *)
Record Posted := mkPosted { p_id : Z; p_body : string; p_uid : Z }.

(** The receiving half of a [CSession]. The timers hold their expiry; [touches]
    and [logins] count the posted runs of [TouchActivity] and [SetUserId];
    [consumed] is what has been read from the socket. *)
Record Session := mkSession {
  b_close : bool;
  user_uid : Z;
  phase : Phase;
  chat_requests : TokenBucket.TokenBucket;
  file_requests : TokenBucket.TokenBucket;
  file_bytes : TokenBucket.TokenBucket;
  auth_timer : option Z;
  idle_timer : option Z;
  touches : nat;
  logins : nat;
  posted : list Posted;
  consumed : string;
}.

Definition second : Z := 1000000000.

Definition set_phase (p : Phase) (s : Session) : Session :=
  mkSession (b_close s) (user_uid s) p (chat_requests s) (file_requests s) (file_bytes s)
    (auth_timer s) (idle_timer s) (touches s) (logins s) (posted s) (consumed s).

(** [Close]; the outstanding read completes, with an error at the latest. *)
Definition Close (s : Session) : Session :=
  mkSession true (user_uid s) (phase s) (chat_requests s) (file_requests s) (file_bytes s)
    None None (touches s) (logins s) (posted s) (consumed s).

(** A handler that closes and does not read on. *)
Definition hang_up (s : Session) : Session := set_phase Quiet (Close s).

Definition set_auth (t : option Z) (s : Session) : Session :=
  mkSession (b_close s) (user_uid s) (phase s) (chat_requests s) (file_requests s) (file_bytes s)
    t (idle_timer s) (touches s) (logins s) (posted s) (consumed s).
Definition set_idle (t : option Z) (s : Session) : Session :=
  mkSession (b_close s) (user_uid s) (phase s) (chat_requests s) (file_requests s) (file_bytes s)
    (auth_timer s) t (touches s) (logins s) (posted s) (consumed s).
Definition set_touches (n : nat) (s : Session) : Session :=
  mkSession (b_close s) (user_uid s) (phase s) (chat_requests s) (file_requests s) (file_bytes s)
    (auth_timer s) (idle_timer s) n (logins s) (posted s) (consumed s).
Definition set_login (uid : Z) (n : nat) (s : Session) : Session :=
  mkSession (b_close s) uid (phase s) (chat_requests s) (file_requests s) (file_bytes s)
    (auth_timer s) (idle_timer s) (touches s) n (posted s) (consumed s).
Definition set_buckets (c f b : TokenBucket.TokenBucket) (s : Session) : Session :=
  mkSession (b_close s) (user_uid s) (phase s) c f b
    (auth_timer s) (idle_timer s) (touches s) (logins s) (posted s) (consumed s).
Definition add_posted (p : Posted) (s : Session) : Session :=
  mkSession (b_close s) (user_uid s) (phase s) (chat_requests s) (file_requests s) (file_bytes s)
    (auth_timer s) (idle_timer s) (touches s) (logins s) (posted s ++ [p]) (consumed s).
Definition add_consumed (bytes : string) (s : Session) : Session :=
  mkSession (b_close s) (user_uid s) (phase s) (chat_requests s) (file_requests s) (file_bytes s)
    (auth_timer s) (idle_timer s) (touches s) (logins s) (posted s) (consumed s ++ bytes).

(** The constructor. *)
Definition create (now : Z) : outcome Session :=
  match TokenBucket.chat_requests now, TokenBucket.file_requests now, TokenBucket.file_bytes now with
  | Returns c, Returns f, Returns b => Returns (mkSession false 0 Quiet c f b None None 0 0 [] "")
  | _, _, _ => Throws
  end.

Definition SetUserId (uid : Z) (s : Session) : Session :=
  set_login uid (if 0 <? uid then S (logins s) else logins s) s.

Definition TouchActivity (s : Session) : Session := set_touches (S (touches s)) s.

Definition ScheduleIdleTimeout (now : Z) (s : Session) : Session :=
  if b_close s || (user_uid s <=? 0) then s
  else set_idle (Some (now + CHAT_IDLE_TIMEOUT_SECONDS * second)) s.

(** [asyncReadFull]: a length outside the buffer is reported as an error, on
    which both handlers give up. *)
Definition asyncReadFull (total : Z) (p : Phase) (s : Session) : Session :=
  if (total =? 0) || (MAX_FILE_FRAME_LENGTH <? total) then hang_up s else set_phase p s.

Definition AsyncReadHead (s : Session) : Session := asyncReadFull HEAD_TOTAL_LEN (ReadHead "") s.
Definition AsyncReadBody (msg_id msg_len : Z) (s : Session) : Session :=
  asyncReadFull msg_len (ReadBody msg_id msg_len "") s.

Definition StartOnExecutor (now : Z) (s : Session) : Session :=
  if b_close s then s
  else AsyncReadHead (set_auth (Some (now + CHAT_AUTH_TIMEOUT_SECONDS * second)) s).

(** The request budgets: a file frame takes one request and its bytes. *)
Definition admit_frame (msg_id msg_len now : Z) (s : Session) : bool * Session :=
  if IsFileTransferMessage msg_id then
    let '(ok, f) := TokenBucket.consume (double_of 1) now (file_requests s) in
    if ok then
      let '(ok, b) := TokenBucket.consume (double_of (msg_len + HEAD_TOTAL_LEN)) now (file_bytes s) in
      (ok, set_buckets (chat_requests s) f b s)
    else (false, set_buckets (chat_requests s) f (file_bytes s) s)
  else
    let '(ok, c) := TokenBucket.consume (double_of 1) now (chat_requests s) in
    (ok, set_buckets c (file_requests s) (file_bytes s) s).

(** What the handlers ask the rest of the server. *)
Record Env := mkEnv {
  now : Z;
  valid : bool;        (** [CServer::CheckValid] of this session *)
  room : bool;         (** the answer of [PostMsgToQueue] *)
  index : Z;           (** the worker the session hashes to *)
}.

(** The handler of a complete head. *)
Definition handle_head (e : Env) (head : string) (s : Session) : Session :=
  if negb (valid e) then hang_up s
  else match head with
  | String i1 (String i0 (String l1 (String l0 _))) =>
      let msg_id := of_be16 i1 i0 in
      if negb (IsClientRequestMessage msg_id) then hang_up s
      else
        let msg_len := of_be16 l1 l0 in
        let allowed_length := if IsFileTransferMessage msg_id then MAX_FILE_FRAME_LENGTH else MAX_LENGTH in
        if (msg_len =? 0) || (allowed_length <? msg_len) then hang_up s
        else
          let '(allowed, s) := admit_frame msg_id msg_len (now e) s in
          if negb allowed then hang_up s else AsyncReadBody msg_id msg_len s
  | _ => hang_up s
  end.

(** The handler of a complete body. *)
Definition handle_body (e : Env) (msg_id : Z) (body : string) (s : Session) : Session :=
  if negb (valid e) then hang_up s
  else
    let s := TouchActivity s in
    if negb (msg_id =? MSG_CHAT_LOGIN) && (user_uid s <=? 0) then hang_up s
    else if IsFileTransferMessage msg_id then
      if negb (PostMsgToFileQue LogicSystem_workers (index e)) then hang_up s
      else AsyncReadHead (add_posted (mkPosted msg_id body (user_uid s)) s)
    else
      if negb (room e) then hang_up s
      else AsyncReadHead (add_posted (mkPosted msg_id body (user_uid s)) s).

(** The completion of the outstanding [async_read_some] ([asyncReadLen]). *)
Definition on_read (e : Env) (ec : bool) (bytes : string) (s : Session) : Session :=
  let s := match phase s with Quiet => s | _ => add_consumed bytes s end in
  match phase s with
  | Quiet => s
  | ReadHead got =>
      if ec then hang_up s
      else if HEAD_TOTAL_LEN <=? ssize (got ++ bytes) then handle_head e (got ++ bytes) s
      else set_phase (ReadHead (got ++ bytes)) s
  | ReadBody msg_id msg_len got =>
      if ec then hang_up s
      else if msg_len <=? ssize (got ++ bytes) then handle_body e msg_id (got ++ bytes) s
      else set_phase (ReadBody msg_id msg_len (got ++ bytes)) s
  end.

(** What the outstanding read asks for. *)
Definition wanted (s : Session) : Z :=
  match phase s with
  | Quiet => 0
  | ReadHead got => HEAD_TOTAL_LEN - ssize got
  | ReadBody _ msg_len got => msg_len - ssize got
  end.

(** The wait on the authentication timer ends without an error. *)
Definition auth_expired (s : Session) : Session :=
  let s := set_auth None s in if user_uid s <=? 0 then Close s else s.
Definition idle_expired (s : Session) : Session := Close (set_idle None s).

(** The runs that [SetUserId] and [TouchActivity] have posted. *)
Definition run_login (t : Z) (s : Session) : Session :=
  let s := set_login (user_uid s) (pred (logins s)) s in
  if b_close s then s else ScheduleIdleTimeout t (set_auth None s).
Definition run_touch (t : Z) (s : Session) : Session :=
  ScheduleIdleTimeout t (set_touches (pred (touches s)) s).

(** A socket never returns more than was asked for, and something unless it
    reports an error; a login sets a positive user. *)
Inductive step : Session -> Session -> Prop :=
| step_read e ec bytes s : phase s <> Quiet -> ssize bytes <= wanted s ->
    (ec = false -> 0 < ssize bytes) -> step s (on_read e ec bytes s)
| step_login uid s : 0 < uid -> step s (SetUserId uid s)
| step_run_login t s : (0 < logins s)%nat -> step s (run_login t s)
| step_run_touch t s : (0 < touches s)%nat -> step s (run_touch t s)
| step_auth_expired t s : auth_timer s = Some t -> step s (auth_expired s)
| step_idle_expired t s : idle_timer s = Some t -> step s (idle_expired s)
| step_close s : step s (Close s).

(** The states of a connection started at [t0]. *)
Definition reachable (t0 : Z) (s : Session) : Prop :=
  exists s0, create t0 = Returns s0 /\ rtc step (StartOnExecutor t0 s0) s.

(** The bytes of the frames handed on, and of the unfinished one. *)
Definition stream (l : list (Z * string)) : string :=
  foldr (fun f rest => String.append (SendNode f.2 f.1) rest) "" l.
Definition frames (s : Session) : list (Z * string) := (fun p => (p_id p, p_body p)) <$> posted s.
Definition partial (p : Phase) : string :=
  match p with
  | Quiet => ""
  | ReadHead got => got
  | ReadBody msg_id msg_len got => be16 msg_id ++ be16 msg_len ++ got
  end.

(** A head the server lets through. *)
Definition frame_ok (msg_id msg_len : Z) : Prop :=
  IsClientRequestMessage msg_id = true /\
  0 < msg_len <= (if IsFileTransferMessage msg_id then MAX_FILE_FRAME_LENGTH else MAX_LENGTH).

Definition posted_ok (p : Posted) : Prop :=
  frame_ok (p_id p) (ssize (p_body p)) /\ IsFileTransferMessage (p_id p) = false /\
  (p_id p <> MSG_CHAT_LOGIN -> 0 < p_uid p).

Definition phase_ok (p : Phase) : Prop :=
  match p with
  | Quiet => True
  | ReadHead got => ssize got < HEAD_TOTAL_LEN
  | ReadBody msg_id msg_len got => frame_ok msg_id msg_len /\ ssize got < msg_len
  end.

(** What does not depend on the outstanding read. *)
Record base (t0 : Z) (s : Session) : Prop := {
  base_posted : Forall posted_ok (posted s);
  base_auth : b_close s = false -> user_uid s <= 0 ->
              auth_timer s = Some (t0 + CHAT_AUTH_TIMEOUT_SECONDS * second);
  base_logins : (0 < logins s)%nat -> 0 < user_uid s;
  base_idle : b_close s = false -> 0 < user_uid s -> logins s = 0%nat -> is_Some (idle_timer s);
}.

Record inv (t0 : Z) (s : Session) : Prop := {
  inv_base : base t0 s;
  inv_phase : phase_ok (phase s);
  inv_reading : b_close s = false -> phase s <> Quiet;
  inv_consumed : exists rest,
    consumed s = (stream (frames s) ++ partial (phase s) ++ rest)%string /\
    (phase s <> Quiet -> rest = ""%string);
}.

Lemma stream_app l k : stream (l ++ k) = String.append (stream l) (stream k).
Proof.
  induction l as [|p l IH]; [done|]. cbn [app stream foldr]. fold (stream (l ++ k)). fold (stream l).
  by rewrite IH, (assoc_L String.append).
Qed.

Lemma inv_close t0 s : inv t0 s -> inv t0 (Close s).
Proof. intros [[] ? ? ?]. by repeat split. Qed.

Lemma inv_hang_up t0 s rest : base t0 s ->
  consumed s = (stream (frames s) ++ rest)%string -> inv t0 (hang_up s).
Proof. intros [] Hc. repeat split; try done. exists rest. by split. Qed.

Lemma inv_resume t0 s p : base t0 s -> phase_ok p -> p <> Quiet ->
  consumed s = (stream (frames s) ++ partial p)%string -> inv t0 (set_phase p s).
Proof.
  intros [] Hp Hq Hc. repeat split; try done. exists ""%string.
  split; [|done]. simpl. by rewrite (right_id_L "" String.append).
Qed.

Lemma inv_read_head t0 s : base t0 s -> consumed s = stream (frames s) -> inv t0 (AsyncReadHead s).
Proof.
  intros Hb Hc. apply (inv_resume t0 s (ReadHead "")); try done.
  by rewrite Hc; simpl; rewrite (right_id_L "" String.append).
Qed.

Lemma admit_frame_buckets msg_id msg_len t s : exists c f b,
  (admit_frame msg_id msg_len t s).2 = set_buckets c f b s.
Proof.
  unfold admit_frame. destruct (IsFileTransferMessage msg_id).
  - destruct (TokenBucket.consume _ _ _) as [[] f]; [|by eauto].
    destruct (TokenBucket.consume _ _ _) as [ok b]. by eauto.
  - destruct (TokenBucket.consume _ _ _) as [ok c]. by eauto.
Qed.

Lemma inv_head t0 e head s : base t0 s -> ssize head = HEAD_TOTAL_LEN ->
  consumed s = (stream (frames s) ++ head)%string -> inv t0 (handle_head e head s).
Proof.
  intros Hb Hl Hc. pose proof (inv_hang_up t0 s head Hb Hc) as Hg. unfold handle_head.
  destruct (valid e); simpl; [|done].
  destruct head as [|i1 [|i0 [|l1 [|l0 [|? rest]]]]]; try done;
    [|rewrite !ssize_cons in Hl; unfold HEAD_TOTAL_LEN in Hl; pose proof (ssize_nonneg rest); lia].
  destruct (IsClientRequestMessage (of_be16 i1 i0)) eqn:Hid; simpl; [|done].
  destruct ((of_be16 l1 l0 =? 0) || _) eqn:Hlen; [done|]. bool_hyps.
  assert (frame_ok (of_be16 i1 i0) (of_be16 l1 l0)) as Hok.
  { split; [done|]. pose proof (of_be16_bound l1 l0). lia. }
  destruct (admit_frame_buckets (of_be16 i1 i0) (of_be16 l1 l0) (now e) s) as (c & f & b & Ea).
  destruct (admit_frame _ _ _ _) as [ok s1]. simpl in Ea. subst s1.
  assert (base t0 (set_buckets c f b s)) as Hb' by (destruct Hb; by split).
  destruct ok; simpl; [|by apply (inv_hang_up t0 _ _ Hb' Hc)].
  unfold AsyncReadBody, asyncReadFull.
  assert ((of_be16 l1 l0 =? 0) || (MAX_FILE_FRAME_LENGTH <? of_be16 l1 l0) = false) as ->.
  { bool_goal; [done|]. revert H0. unfold MAX_FILE_FRAME_LENGTH, MAX_LENGTH. case_match; lia. }
  apply inv_resume; [done| |done|].
  - split; [done|]. change (ssize "") with 0. pose proof (of_be16_bound l1 l0). lia.
  - cbn [consumed set_buckets posted]. rewrite Hc. simpl. by rewrite !be16_of_be16.
Qed.

Lemma inv_body t0 e msg_id body s : base t0 s -> frame_ok msg_id (ssize body) ->
  consumed s = (stream (frames s) ++ SendNode body msg_id)%string ->
  inv t0 (handle_body e msg_id body s).
Proof.
  intros Hb Hok Hc. unfold handle_body.
  destruct (valid e); simpl; [|by apply (inv_hang_up t0 s _ Hb Hc)].
  assert (base t0 (TouchActivity s)) as Hb' by (destruct Hb; by split).
  pose proof (inv_hang_up t0 (TouchActivity s) _ Hb' Hc) as Hg.
  destruct (negb (msg_id =? MSG_CHAT_LOGIN) && _) eqn:Hlog; [done|].
  destruct (IsFileTransferMessage msg_id) eqn:Hfile.
  { by rewrite no_file_workers. }
  destruct (room e); simpl; [|done].
  apply inv_read_head.
  - destruct Hb'. split; try done. simpl. apply Forall_app. split; [done|]. apply Forall_singleton.
    split_and!; [done..|]. simpl. intros Hne. bool_hyps. destruct Hlog; bool_hyps; lia.
  - unfold frames. cbn [consumed posted add_posted TouchActivity set_touches].
    rewrite Hc, fmap_app, stream_app. f_equal.
    simpl. by rewrite (right_id_L "" String.append).
Qed.

Lemma read_inv t0 e ec bytes s : phase s <> Quiet -> ssize bytes <= wanted s ->
  inv t0 s -> inv t0 (on_read e ec bytes s).
Proof.
  intros Hq Hw [Hb Hp Hr (rest & Hc & Hrest)]. rewrite (Hrest Hq) in Hc.
  rewrite (right_id_L "" String.append) in Hc.
  assert (base t0 (add_consumed bytes s)) as Hb' by (destruct Hb; by split).
  unfold on_read, wanted in *. destruct (phase s) as [|got|msg_id msg_len got] eqn:Ep; [done|..];
    cbn [phase add_consumed]; rewrite Ep; simpl in Hp, Hc.
  - assert (consumed (add_consumed bytes s) = (stream (frames s) ++ (got ++ bytes))%string) as Hc'.
    { simpl. by rewrite Hc, (assoc_L String.append). }
    destruct ec; [by apply (inv_hang_up _ _ _ Hb' Hc')|].
    destruct (HEAD_TOTAL_LEN <=? _) eqn:Hle; bool_hyps; rewrite ssize_app in Hle.
    + apply inv_head; [done| |done]. rewrite ssize_app. lia.
    + apply inv_resume; try done. simpl. rewrite ssize_app. lia.
  - assert (consumed (add_consumed bytes s) =
            (stream (frames s) ++ (be16 msg_id ++ be16 msg_len ++ (got ++ bytes)))%string) as Hc'.
    { simpl. by rewrite Hc, !(assoc_L String.append). }
    destruct ec; [by apply (inv_hang_up _ _ _ Hb' Hc')|]. destruct Hp as [Hok Hlt].
    destruct (msg_len <=? _) eqn:Hle; bool_hyps; rewrite ssize_app in Hle.
    + assert (msg_len = ssize (got ++ bytes)) as -> by (rewrite ssize_app; lia).
      by apply inv_body.
    + apply inv_resume; try done. simpl. rewrite ssize_app. split; [done|lia].
Qed.

Lemma schedule_inv t0 t s : inv t0 s -> inv t0 (ScheduleIdleTimeout t s).
Proof.
  intros Hi. unfold ScheduleIdleTimeout. destruct (_ || _) eqn:E; [done|]. destruct Hi as [[] ? ? ?].
  by repeat split.
Qed.

Lemma step_inv t0 s s' : step s s' -> inv t0 s -> inv t0 s'.
Proof.
  intros Hs Hi. destruct Hs as [e ec bytes s Hq Hw _|uid s Hu|t s Hl|t s Ht|t s Ha|t s Ha|s].
  - by apply read_inv.
  - destruct Hi as [[] ? ? ?]. unfold SetUserId. rewrite (proj2 (Z.ltb_lt _ _) Hu).
    repeat split; simpl in *; try done; lia.
  - unfold run_login. cbn [b_close set_login]. destruct Hi as [[Hp Hau Hlo Hid] ? ? ?]. specialize (Hlo Hl).
    destruct (b_close s) eqn:Ec; [by repeat split; simpl; rewrite ?Ec|].
    unfold ScheduleIdleTimeout. simpl. rewrite Ec, (proj2 (Z.leb_gt _ _) Hlo). simpl.
    repeat split; simpl; rewrite ?Ec; done || lia.
  - apply schedule_inv. destruct Hi as [[] ? ? ?]. by repeat split.
  - unfold auth_expired. simpl. destruct (user_uid s <=? 0) eqn:Eu; bool_hyps.
    + destruct Hi as [[] ? ? ?]. by repeat split.
    + destruct Hi as [[] ? ? ?]. repeat split; simpl; try done. lia.
  - destruct Hi as [[] ? ? ?]. by repeat split.
  - by apply inv_close.
Qed.

Lemma session_inv t0 s : reachable t0 s -> inv t0 s.
Proof.
  intros (s0 & [= <-] & Hr). revert Hr.
  set (s0 := StartOnExecutor _ _). assert (inv t0 s0) as Hi.
  { subst s0. unfold StartOnExecutor. simpl. apply inv_read_head; [|done]. split; simpl; done || lia. }
  intros Hr. induction Hr as [|s1 s2 s3 Hs _ IH]; [done|]. by apply IH, (step_inv t0 s1).
Qed.

Lemma frame_ok_range msg_id msg_len : frame_ok msg_id msg_len -> 0 <= msg_id < 65536 /\ 0 <= msg_len < 65536.
Proof.
  intros [Hid Hlen]. split.
  - assert (Forall (fun x => 0 <= x < 65536) client_requests) as H.
    { repeat constructor; by vm_compute. }
    apply existsb_exists in Hid as (x & Hx & ->%Z.eqb_eq). rewrite Forall_forall in H.
    by apply H, list_elem_of_In.
  - revert Hlen. unfold MAX_FILE_FRAME_LENGTH, MAX_LENGTH. case_match; lia.
Qed.

(** Two frames that begin the same bytes are the same. *)
Lemma SendNode_inj body1 id1 rest1 body2 id2 rest2 :
  frame_ok id1 (ssize body1) -> frame_ok id2 (ssize body2) ->
  (SendNode body1 id1 ++ rest1 = SendNode body2 id2 ++ rest2)%string ->
  body1 = body2 /\ id1 = id2 /\ rest1 = rest2.
Proof.
  intros [Hi1 Hl1]%frame_ok_range [Hi2 Hl2]%frame_ok_range. unfold SendNode.
  rewrite <- !(assoc_L String.append). intros E.
  apply string_app_split in E as [E1 E]; [|done]. apply string_app_split in E as [E2 E]; [|done].
  apply be16_inj in E1, E2; try done. by apply string_app_split in E as [-> ->].
Qed.

Definition frames_ok (l : list (Z * string)) : Prop := Forall (fun f => frame_ok f.1 (ssize f.2)) l.

Lemma ssize_stream_cons f l : HEAD_TOTAL_LEN + ssize f.2 + ssize (stream l) = ssize (stream (f :: l)).
Proof. simpl. rewrite ssize_app, SendQueue.ssize_SendNode. unfold HEAD_TOTAL_LEN. lia. Qed.

Lemma stream_prefix l k rest : frames_ok l -> frames_ok k ->
  (stream l ++ rest = stream k)%string -> exists k', k = l ++ k' /\ rest = stream k'.
Proof.
  intros Hl. revert k. induction Hl as [|f l Hf Hl IH]; intros k Hk E; [by exists k|].
  destruct Hk as [|g k Hg Hk].
  - apply (f_equal ssize) in E. rewrite ssize_app, <- ssize_stream_cons in E.
    pose proof (ssize_nonneg f.2). pose proof (ssize_nonneg (stream l)). pose proof (ssize_nonneg rest).
    unfold HEAD_TOTAL_LEN in E. change (ssize (stream [])) with 0 in E. lia.
  - simpl in E. rewrite <- (assoc_L String.append) in E.
    apply SendNode_inj in E as (Eb & Ei & E); [|done..].
    destruct (IH k Hk E) as (k' & -> & ->). exists k'. destruct f, g. simpl in *. by subst.
Qed.

(** An unfinished frame is not a finished one. *)
Lemma partial_not_frame p f l : phase_ok p -> frame_ok f.1 (ssize f.2) -> partial p <> stream (f :: l).
Proof.
  intros Hp Hf E. pose proof (f_equal ssize E) as Es. rewrite <- ssize_stream_cons in Es.
  pose proof (ssize_nonneg f.2). pose proof (ssize_nonneg (stream l)). unfold HEAD_TOTAL_LEN in Es.
  destruct p as [|got|msg_id msg_len got]; simpl in Hp, E, Es.
  - change (ssize "") with 0 in Es. lia.
  - unfold HEAD_TOTAL_LEN in Hp. lia.
  - unfold SendNode in E. rewrite <- !(assoc_L String.append) in E.
    apply string_app_split in E as [_ E]; [|done]. apply string_app_split in E as [E1 E]; [|done].
    destruct Hp as [[_ Hr]%frame_ok_range Hlt]. apply frame_ok_range in Hf as [_ Hr'].
    apply be16_inj in E1; [|done..]. apply (f_equal ssize) in E. rewrite ssize_app in E. lia.
Qed.

(** C29. Framing, over every way the network cuts the byte stream: if the peer
    writes the frames [sent], all of them within the limits, and the server
    has read a beginning of their bytes, the messages handed to the logic
    layer are the first of those frames, in order and unchanged; and once all
    bytes are read and the server still reads, all of them. Messages other
    than the login are handed on only from a connection with a user. *)
Theorem frames_received t0 s sent rest :
  reachable t0 s -> frames_ok sent -> (consumed s ++ rest = stream sent)%string ->
  frames s `prefix_of` sent /\
  (rest = ""%string -> phase s <> Quiet -> frames s = sent) /\
  Forall (fun p => p_id p <> MSG_CHAT_LOGIN -> 0 < p_uid p) (posted s).
Proof.
  intros [[Hp _ _ _] Hph _ (tl & Hc & Htl)]%session_inv Hok E.
  assert (frames_ok (frames s)) as Hfr.
  { apply Forall_fmap. eapply Forall_impl; [done|]. by intros p []. }
  rewrite Hc, <- (assoc_L String.append) in E.
  destruct (stream_prefix _ _ _ Hfr Hok E) as (k' & -> & Ek). split_and!.
  - by exists k'.
  - intros -> Hq. rewrite (Htl Hq), !(right_id_L "" String.append) in Ek.
    destruct k' as [|f k']; [by rewrite (right_id_L [] (++))|].
    apply Forall_app in Hok as [_ [Hf _]%Forall_cons]. by destruct (partial_not_frame (phase s) f k').
  - eapply Forall_impl; [done|]. by intros p (_ & _ & ?).
Qed.

(** A connection that has read a login frame in two pieces. *)
Lemma reached : exists s, reachable 0 s /\ phase s = ReadHead "" /\
  frames s = [(MSG_CHAT_LOGIN, "{}"%string)] /\ consumed s = stream [(MSG_CHAT_LOGIN, "{}"%string)].
Proof.
  set (e := mkEnv 0 true true 0).
  destruct (create 0) as [s0|] eqn:E; [|by vm_compute in E].
  exists (on_read e false "{}" (on_read e false (be16 1005 ++ be16 2) (StartOnExecutor 0 s0))).
  split; [|injection E as <-; by vm_compute]. exists s0. split; [done|]. injection E as <-.
  eapply rtc_l; [apply (step_read e false (be16 1005 ++ be16 2)); [by vm_compute..|]; intros _; by vm_compute|].
  eapply rtc_l; [apply (step_read e false "{}"); [by vm_compute..|]; intros _; by vm_compute|].
  apply rtc_refl.
Defined.

Lemma frames_received_witness : exists s, phase s <> Quiet /\ frames s = [(MSG_CHAT_LOGIN, "{}"%string)].
Proof.
  destruct reached as (s & Hr & Hp & _ & Hc). exists s. split; [by rewrite Hp|].
  apply (proj1 (proj2 (frames_received 0 s [(MSG_CHAT_LOGIN, "{}"%string)] "" Hr
    ltac:(repeat constructor; by vm_compute) ltac:(by rewrite Hc, (right_id_L "" String.append)))));
    [done|by rewrite Hp].
Defined.

(** No open connection waits for ever: it always has a read outstanding;
    without a user its authentication timer is armed for ten seconds after the
    start, and with a user, once the posted login has run, its idle timer is
    armed; the expiry of either closes it. *)
Theorem connection_deadlines t0 s :
  reachable t0 s -> b_close s = false ->
  phase s <> Quiet /\
  (user_uid s <= 0 ->
     auth_timer s = Some (t0 + CHAT_AUTH_TIMEOUT_SECONDS * second) /\ b_close (auth_expired s) = true) /\
  (0 < user_uid s -> logins s = 0%nat -> is_Some (idle_timer s) /\ b_close (idle_expired s) = true).
Proof.
  intros [[_ Ha _ Hd] _ Hq _]%session_inv Ho. split_and!; [by apply Hq| |].
  - intros Hu. split; [by apply Ha|]. unfold auth_expired. simpl. by rewrite (proj2 (Z.leb_le _ _) Hu).
  - intros Hu Hl. split; [by apply Hd|done].
Qed.

Lemma connection_deadlines_witness : exists s, phase s <> Quiet /\
  auth_timer s = Some (0 + CHAT_AUTH_TIMEOUT_SECONDS * second).
Proof.
  destruct (create 0) as [s0|] eqn:E; [|by vm_compute in E]. exists (StartOnExecutor 0 s0).
  assert (reachable 0 (StartOnExecutor 0 s0)) as Hr by (exists s0; split; [done|apply rtc_refl]).
  injection E as <-. destruct (connection_deadlines 0 _ Hr eq_refl) as (H1 & H2 & _).
  split; [exact H1|]. apply H2. vm_compute. congruence.
Defined.

(** The network delivers [input] in pieces of the given sizes, each at least a
    byte and no more than is asked for. *)
Fixpoint feed (e : Env) (sizes : list Z) (input : string) (s : Session) : string * Session :=
  match sizes with
  | [] => (input, s)
  | n :: sizes =>
      if sempty input then (input, s)
      else let k := Z.to_nat (Z.min (wanted s) (Z.max 1 n)) in
           feed e sizes (sdrop k input) (on_read e false (stake k input) s)
  end.

(** The state of a reader that has still to hand on [todo], out of the unread
    [input], with [n] tokens left. *)
Definition expects (b : TokenBucket.TokenBucket) (n : nat) (s : Session) (input : string)
    (todo : list (Z * string)) : Prop :=
  chat_requests s = TokenBucket.whole b n /\ 0 < user_uid s /\
  match phase s with
  | Quiet => False
  | ReadHead got =>
      ssize got < HEAD_TOTAL_LEN /\ (length todo <= n)%nat /\ (got ++ input)%string = stream todo
  | ReadBody msg_id msg_len got => exists body rest, todo = (msg_id, body) :: rest /\
      msg_len = ssize body /\ ssize got < msg_len /\ (length rest <= n)%nat /\
      (got ++ input)%string = (body ++ stream rest)%string
  end.

Section Feed.
Context (e : Env) (b : TokenBucket.TokenBucket).
Context (Hvalid : valid e = true) (Hroom : room e = true) (Hnow : now e <= TokenBucket.last_ b).

Lemma head_expected n f rest s : (n <= 256)%nat ->
  chat_requests s = TokenBucket.whole b n -> 0 < user_uid s -> (length (f :: rest) <= n)%nat ->
  frame_ok f.1 (ssize f.2) -> IsFileTransferMessage f.1 = false ->
  let s' := handle_head e (be16 f.1 ++ be16 (ssize f.2)) s in
  expects b (pred n) s' (f.2 ++ stream rest) (f :: rest) /\ frames s' = frames s.
Proof.
  intros Hn Hc Hu Hl Hok Hfile. destruct (frame_ok_range _ _ Hok) as [Hr1 Hr2]. cbn zeta.
  unfold handle_head. rewrite Hvalid. simpl. rewrite !of_be16_be16, Hfile by done.
  destruct Hok as [-> Hlen]. rewrite Hfile in Hlen. simpl.
  rewrite (proj2 (Z.eqb_neq (ssize f.2) 0)), (proj2 (Z.ltb_ge MAX_LENGTH _)) by lia. simpl.
  unfold admit_frame. rewrite Hfile, Hc. destruct n as [|n]; [simpl in Hl; lia|].
  rewrite TokenBucket.consume_whole by (done || lia). simpl.
  unfold AsyncReadBody, asyncReadFull.
  rewrite (proj2 (Z.eqb_neq (ssize f.2) 0)), (proj2 (Z.ltb_ge MAX_FILE_FRAME_LENGTH _))
    by (unfold MAX_FILE_FRAME_LENGTH, MAX_LENGTH in *; lia). simpl.
  split; [|done]. split_and!; [done..|]. simpl. exists f.2, rest.
  change (ssize "") with 0. simpl in Hl. split_and!; [by destruct f|done|lia|lia|done].
Qed.

Lemma body_expected n f rest s : chat_requests s = TokenBucket.whole b n -> 0 < user_uid s ->
  (length rest <= n)%nat -> IsFileTransferMessage f.1 = false ->
  let s' := handle_body e f.1 f.2 s in
  expects b n s' (stream rest) rest /\ frames s' = frames s ++ [f].
Proof.
  intros Hc Hu Hl Hfile. cbn zeta. unfold handle_body. rewrite Hvalid, Hfile, Hroom. simpl.
  rewrite (proj2 (Z.leb_gt _ _) Hu), andb_false_r. split.
  - split_and!; [done..|]. simpl. done.
  - unfold frames. simpl. rewrite fmap_app. simpl. by destruct f.
Qed.

(** One piece of the input. *)
Lemma read_expected n s input todo k : (n <= 256)%nat -> expects b n s input todo ->
  frames_ok todo -> Forall (fun f => IsFileTransferMessage f.1 = false) todo ->
  Z.of_nat k <= wanted s ->
  exists n' todo', (n' <= 256)%nat /\
    expects b n' (on_read e false (stake k input) s) (sdrop k input) todo' /\
    frames (on_read e false (stake k input) s) ++ todo' = frames s ++ todo.
Proof.
  intros Hn (Hc & Hu & Hp) Hok Hfile Hk. pose proof (stake_sdrop k input) as Hcut.
  pose proof (ssize_stake k input) as Hsz. pose proof (ssize_nonneg input).
  set (bytes := stake k input) in *. set (input' := sdrop k input) in *.
  unfold on_read, wanted in *. destruct (phase s) as [|got|msg_id msg_len got] eqn:Ep; [done|..];
    cbn [phase add_consumed]; rewrite Ep.
  - destruct Hp as (Hg & Hl & E). rewrite <- Hcut, (assoc_L String.append) in E.
    destruct (HEAD_TOTAL_LEN <=? _) eqn:Hle; bool_hyps.
    + destruct todo as [|f rest].
      { apply (f_equal ssize) in E. rewrite ssize_app in E. pose proof (ssize_nonneg input').
        unfold HEAD_TOTAL_LEN in Hle. change (ssize (stream [])) with 0 in E. lia. }
      apply Forall_cons in Hok as [Hf Hok]. apply Forall_cons in Hfile as [Hff Hfile].
      assert ((got ++ bytes)%string = (be16 f.1 ++ be16 (ssize f.2))%string /\
              input' = (f.2 ++ stream rest)%string) as [-> ->].
      { apply string_app_split; [rewrite ssize_app in *; unfold HEAD_TOTAL_LEN in *; change (ssize _) with 4 at 3; lia|].
        rewrite E. simpl. unfold SendNode. by rewrite <- !(assoc_L String.append). }
      destruct (head_expected n f rest (add_consumed bytes s)) as [H1 H2]; try done.
      exists (pred n), (f :: rest). split_and!; [lia|done|]. by rewrite H2.
    + by exists n, todo.
  - destruct Hp as (body & rest & -> & -> & Hg & Hl & E). rewrite <- Hcut, (assoc_L String.append) in E.
    apply Forall_cons in Hfile as [Hff Hfile].
    destruct (ssize body <=? _) eqn:Hle; bool_hyps.
    + assert ((got ++ bytes)%string = body /\ input' = stream rest) as [-> ->].
      { apply string_app_split; [rewrite ssize_app in *; lia|done]. }
      destruct (body_expected n (msg_id, body) rest (add_consumed bytes s)) as [H1 H2]; try done.
      exists n, rest. split_and!; [done..|]. simpl in H2. rewrite H2, <- (assoc_L (++)). done.
    + exists n, ((msg_id, body) :: rest). split_and!; try done. simpl. split_and!; try done.
      by exists body, rest.
Qed.

Lemma expects_wanted n s input todo : expects b n s input todo -> 0 < wanted s.
Proof.
  unfold expects, wanted. destruct (phase s); [naive_solver|intros (_ & _ & ? & _); lia|].
  intros (_ & _ & body & rest & _ & -> & ? & _). lia.
Qed.

Lemma expects_done n s todo : expects b n s "" todo -> todo = [] /\ phase s = ReadHead "".
Proof.
  intros (_ & _ & Hp). destruct (phase s) as [|got|msg_id msg_len got]; [done|..].
  - destruct Hp as (Hg & _ & E). rewrite (right_id_L "" String.append) in E. subst got.
    destruct todo as [|f rest]; [done|]. exfalso. rewrite <- ssize_stream_cons in Hg.
    pose proof (ssize_nonneg f.2). pose proof (ssize_nonneg (stream rest)). lia.
  - destruct Hp as (body & rest & _ & -> & Hg & _ & E). exfalso.
    rewrite (right_id_L "" String.append) in E. apply (f_equal ssize) in E. rewrite ssize_app in E.
    pose proof (ssize_nonneg (stream rest)). lia.
Qed.

Lemma feed_expected sizes : forall n s input todo, (n <= 256)%nat -> expects b n s input todo ->
  frames_ok todo -> Forall (fun f => IsFileTransferMessage f.1 = false) todo ->
  frames_ok (frames s) -> Forall (fun f => IsFileTransferMessage f.1 = false) (frames s) ->
  ssize input <= Z.of_nat (length sizes) ->
  (feed e sizes input s).1 = ""%string /\ phase (feed e sizes input s).2 = ReadHead "" /\
  frames (feed e sizes input s).2 = frames s ++ todo.
Proof.
  induction sizes as [|k sizes IH]; intros n s input todo Hn He Hok Hfile Hok0 Hfile0 Hl; simpl.
  - destruct input as [|c input]; [|rewrite ssize_cons in Hl; pose proof (ssize_nonneg input); simpl in Hl; lia].
    apply expects_done in He as [-> ?]. by rewrite (right_id_L [] (++)).
  - destruct input as [|c input]; simpl.
    { apply expects_done in He as [-> ?]. by rewrite (right_id_L [] (++)). }
    pose proof (expects_wanted _ _ _ _ He) as Hw. set (m := Z.to_nat _).
    destruct (read_expected n s (String c input) todo m) as (n' & todo' & Hn' & He' & Ef); try done; [lia|].
    assert (frames_ok (frames s ++ todo) /\
            Forall (fun f => IsFileTransferMessage f.1 = false) (frames s ++ todo)) as [Ha Hb].
    { by split; apply Forall_app. }
    rewrite <- Ef in Ha, Hb |- *. apply Forall_app in Ha as [? ?], Hb as [? ?].
    apply (IH n'); try done. pose proof (f_equal ssize (stake_sdrop m (String c input))) as Hs.
    rewrite ssize_app, ssize_stake in Hs. rewrite ssize_cons in *. simpl in Hl.
    pose proof (ssize_nonneg input). lia.
Qed.

End Feed.

(** The receiving side makes progress: a logged-in connection whose server
    knows it and whose queue has room hands on every frame of up to 200 that
    arrive while the clock stands, however the network cuts them, within as
    many reads as there are bytes, and is then ready for the next frame. *)
Theorem frames_accepted e b s sent sizes :
  valid e = true -> room e = true -> now e <= TokenBucket.last_ b ->
  chat_requests s = TokenBucket.whole b 200 -> 0 < user_uid s -> phase s = ReadHead "" -> posted s = [] ->
  frames_ok sent -> Forall (fun f => IsFileTransferMessage f.1 = false) sent -> (length sent <= 200)%nat ->
  ssize (stream sent) <= Z.of_nat (length sizes) ->
  (feed e sizes (stream sent) s).1 = ""%string /\ phase (feed e sizes (stream sent) s).2 = ReadHead "" /\
  frames (feed e sizes (stream sent) s).2 = sent.
Proof.
  intros Hv Hr Hn Hc Hu Hp Hpo Hok Hfile Hl Hs.
  assert (frames s = []) as Hf by (unfold frames; by rewrite Hpo).
  pose proof (feed_expected e b Hv Hr Hn sizes 200 s (stream sent) sent) as H. rewrite Hf in H.
  apply H; try done; try lia; try by apply Forall_nil_2.
  unfold expects. rewrite Hp. by split_and!.
Qed.

(** A logged-in connection and three frames, a byte at a time. *)
Definition greeting : list (Z * string) :=
  [(ID_HEART_BEAT_REQ, "{}"%string); (ID_TEXT_CHAT_MSG_REQ, "hello"%string); (ID_SEARCH_USER_REQ, "?"%string)].
Definition calm : Env := mkEnv 0 true true 0.

Lemma frames_accepted_witness : exists s, frames (feed calm (replicate 40 1) (stream greeting) s).2 = greeting.
Proof.
  destruct (create 0) as [s0|] eqn:E; [|by vm_compute in E].
  exists (SetUserId 7 (StartOnExecutor 0 s0)). injection E as <-.
  refine (proj2 (proj2 (frames_accepted calm
    (TokenBucket.mkBucket (double_of 200) (double_of 100) (double_of 200) 0) _ greeting (replicate 40 1)
    _ _ _ _ _ _ _ _ _ _ _))); try done; try lia.
  all: repeat constructor; by vm_compute.
Defined.

End Reader.
