(* ===== verification/ClientModel.v ===== *)
(** The client's model of the account ([src/client/model/UserData.h],
    [UserData.cpp], [usermgr.cpp]): friends, applications and the messages
    shown.  [FriendInfo] objects are shared between the list and the map of
    [UserMgr], so they live in a store of objects and the two hold their
    locations. *)
From S2P Require Import Prelude.

(** ** [UserData.h] *)

Record TextChatData := mkTextChatData { _msg_id : string; _msg_content : string; _from_uid : Z; _to_uid : Z }.

Definition MAX_CHAT_HISTORY_MESSAGES : nat := 500.

Definition AppendBoundedChatMessage (messages : list TextChatData) (message : TextChatData) : list TextChatData :=
  (if (MAX_CHAT_HISTORY_MESSAGES <=? length messages)%nat then drop 1 messages else messages) ++ [message].

Record AddFriendApply := mkAddFriendApply {
  aa_from_uid : Z; aa_name : string; aa_desc : string; aa_icon : string; aa_nick : string; aa_sex : Z;
}.

Record ApplyInfo := mkApplyInfo {
  ap_uid : Z; ap_name : string; ap_desc : string; ap_icon : string; ap_nick : string; ap_sex : Z; ap_status : Z;
}.

Definition ApplyInfo_of (a : AddFriendApply) : ApplyInfo :=
  mkApplyInfo (aa_from_uid a) (aa_name a) (aa_desc a) (aa_icon a) (aa_nick a) (aa_sex a) 0.

(** [AuthInfo] and [AuthRsp], which have the same members. *)
Record AuthInfo := mkAuthInfo { au_uid : Z; au_name : string; au_nick : string; au_icon : string; au_sex : Z }.

Record FriendInfo := mkFriendInfo {
  fi_uid : Z; fi_name : string; fi_nick : string; fi_icon : string; fi_sex : Z; fi_desc : string; fi_back : string;
  fi_chat_msgs : list TextChatData;
}.

Definition FriendInfo_of (a : AuthInfo) : FriendInfo :=
  mkFriendInfo (au_uid a) (au_name a) (au_nick a) (au_icon a) (au_sex a) "" "" [].

Definition AppendChatMsgs (msgs : list TextChatData) (f : FriendInfo) : FriendInfo :=
  mkFriendInfo (fi_uid f) (fi_name f) (fi_nick f) (fi_icon f) (fi_sex f) (fi_desc f) (fi_back f)
    (foldl AppendBoundedChatMessage (fi_chat_msgs f) msgs).

Definition set_back (back : string) (f : FriendInfo) : FriendInfo :=
  mkFriendInfo (fi_uid f) (fi_name f) (fi_nick f) (fi_icon f) (fi_sex f) (fi_desc f) back (fi_chat_msgs f).

Record UserInfo := mkUserInfo {
  us_uid : Z; us_name : string; us_nick : string; us_icon : string; us_sex : Z; us_desc : string;
}.

(** ** [UserMgr] *)

Record UserMgr := mkUserMgr {
  objects : list FriendInfo;             (** every [FriendInfo] made, by location *)
  _apply_list : list ApplyInfo;
  _friend_list : list nat;
  _friend_map : gmap Z nat;
  _token : string;
  _chat_loaded : nat;
  _contact_loaded : nat;
  _user_info : option UserInfo;
}.

Definition CHAT_COUNT_PER_PAGE : nat := 10.

Definition new_UserMgr : UserMgr := mkUserMgr [] [] [] ∅ "" 0 0 None.

Definition ResetSession (u : UserMgr) : UserMgr := mkUserMgr (objects u) [] [] ∅ "" 0 0 None.
Definition SetToken (token : string) (u : UserMgr) : UserMgr :=
  mkUserMgr (objects u) (_apply_list u) (_friend_list u) (_friend_map u) token (_chat_loaded u) (_contact_loaded u) (_user_info u).
Definition SetUserInfo (i : UserInfo) (u : UserMgr) : UserMgr :=
  mkUserMgr (objects u) (_apply_list u) (_friend_list u) (_friend_map u) (_token u) (_chat_loaded u) (_contact_loaded u) (Some i).
Definition set_apply_list (l : list ApplyInfo) (u : UserMgr) : UserMgr :=
  mkUserMgr (objects u) l (_friend_list u) (_friend_map u) (_token u) (_chat_loaded u) (_contact_loaded u) (_user_info u).
Definition set_friends (o : list FriendInfo) (l : list nat) (m : gmap Z nat) (u : UserMgr) : UserMgr :=
  mkUserMgr o (_apply_list u) l m (_token u) (_chat_loaded u) (_contact_loaded u) (_user_info u).

Definition isAlreadyApply (uid : Z) (u : UserMgr) : bool := existsb (fun a => ap_uid a =? uid) (_apply_list u).

(** [*existing = *app] at the first application of the user. *)
Fixpoint replace_apply (app : ApplyInfo) (l : list ApplyInfo) : option (list ApplyInfo) :=
  match l with
  | [] => None
  | e :: l => if ap_uid e =? ap_uid app then Some (app :: l) else cons e <$> replace_apply app l
  end.
Definition AddApplyList (app : ApplyInfo) (u : UserMgr) : UserMgr :=
  set_apply_list (match replace_apply app (_apply_list u) with Some l => l | None => _apply_list u ++ [app] end) u.

(** The elements of the array, decoded. *)
Definition AppendApplyList (array : list ApplyInfo) (u : UserMgr) : UserMgr :=
  foldl (fun u a => AddApplyList a u) u array.

Definition CheckFriendById (uid : Z) (u : UserMgr) : bool := bool_decide (is_Some (_friend_map u !! uid)).
Definition GetFriendById (uid : Z) (u : UserMgr) : option FriendInfo := l ← _friend_map u !! uid; objects u !! l.

Definition change_object (l : nat) (g : FriendInfo -> FriendInfo) (u : UserMgr) : UserMgr :=
  set_friends (alter g l (objects u)) (_friend_list u) (_friend_map u) u.

Definition append_friend (u : UserMgr) (info : FriendInfo) : UserMgr :=
  match _friend_map u !! fi_uid info with
  | None =>
      let l := length (objects u) in
      set_friends (objects u ++ [info]) (_friend_list u ++ [l]) (<[fi_uid info := l]> (_friend_map u)) u
  | Some l => change_object l (set_back (fi_back info)) u
  end.
Definition AppendFriendList (array : list FriendInfo) (u : UserMgr) : UserMgr := foldl append_friend u array.

Definition AddFriend (auth : AuthInfo) (u : UserMgr) : UserMgr :=
  let info := FriendInfo_of auth in
  let l := length (objects u) in
  set_friends (objects u ++ [info])
    (if CheckFriendById (fi_uid info) u then _friend_list u else _friend_list u ++ [l])
    (<[fi_uid info := l]> (_friend_map u)) u.

Definition AppendFriendChatMsg (friend_id : Z) (msgs : list TextChatData) (u : UserMgr) : UserMgr :=
  match _friend_map u !! friend_id with
  | None => u
  | Some l => change_object l (AppendChatMsgs msgs) u
  end.

(** The page of the list from [begin], and the counter after it. *)
Definition page (begin : nat) (u : UserMgr) : list nat :=
  let n := length (_friend_list u) in
  let end_ := (begin + CHAT_COUNT_PER_PAGE)%nat in
  if (n <=? begin)%nat then []
  else if (n <? end_)%nat then drop begin (_friend_list u)
  else take (end_ - begin) (drop begin (_friend_list u)).
Definition next_page (begin : nat) (u : UserMgr) : nat :=
  let n := length (_friend_list u) in
  let end_ := (begin + CHAT_COUNT_PER_PAGE)%nat in
  if (n <=? begin)%nat then begin else if (n <? end_)%nat then n else end_.

Definition GetChatListPerPage (u : UserMgr) : list nat := page (_chat_loaded u) u.
Definition GetConListPerPage (u : UserMgr) : list nat := page (_contact_loaded u) u.
Definition UpdateChatLoadedCount (u : UserMgr) : UserMgr :=
  mkUserMgr (objects u) (_apply_list u) (_friend_list u) (_friend_map u) (_token u) (next_page (_chat_loaded u) u)
    (_contact_loaded u) (_user_info u).
Definition UpdateContactLoadedCount (u : UserMgr) : UserMgr :=
  mkUserMgr (objects u) (_apply_list u) (_friend_list u) (_friend_map u) (_token u) (_chat_loaded u)
    (next_page (_contact_loaded u) u) (_user_info u).
Definition IsLoadChatFin (u : UserMgr) : bool := (length (_friend_list u) <=? _chat_loaded u)%nat.
Definition IsLoadConFin (u : UserMgr) : bool := (length (_friend_list u) <=? _contact_loaded u)%nat.

(** ** Invariant *)

Definition listed_uids (u : UserMgr) : list Z := (fun l => from_option fi_uid 0 (objects u !! l)) <$> _friend_list u.

(** The list and the map have the same users, each once; an entry of the map
    is an object of that user; applications are one per user; no object has
    more messages than the bound. *)
Record model_ok (u : UserMgr) : Prop := {
  ok_list : NoDup (listed_uids u);
  ok_valid : Forall (fun l => (l < length (objects u))%nat) (_friend_list u);
  ok_dom : forall uid, is_Some (_friend_map u !! uid) <-> uid ∈ listed_uids u;
  ok_map : forall uid l, _friend_map u !! uid = Some l -> exists f, objects u !! l = Some f /\ fi_uid f = uid;
  ok_apply : NoDup (ap_uid <$> _apply_list u);
  ok_bound : Forall (fun f => (length (fi_chat_msgs f) <= MAX_CHAT_HISTORY_MESSAGES)%nat) (objects u);
}.

Lemma append_bounded msgs l : (length l <= MAX_CHAT_HISTORY_MESSAGES)%nat ->
  (length (foldl AppendBoundedChatMessage l msgs) <= MAX_CHAT_HISTORY_MESSAGES)%nat.
Proof.
  revert l. induction msgs as [|m msgs IH]; intros l Hl; [done|]. cbn [foldl]. apply IH.
  unfold AppendBoundedChatMessage. rewrite length_app. unfold MAX_CHAT_HISTORY_MESSAGES in *.
  destruct (Nat.leb_spec 500 (length l)); [rewrite length_drop|]; cbn [length]; lia.
Qed.

(** Only the last messages are kept, in order. *)
Lemma append_last msgs l : (length l <= MAX_CHAT_HISTORY_MESSAGES)%nat ->
  foldl AppendBoundedChatMessage l msgs = drop (length (l ++ msgs) - MAX_CHAT_HISTORY_MESSAGES) (l ++ msgs).
Proof.
  revert l. induction msgs as [|m msgs IH]; intros l Hl.
  { rewrite app_nil_r. by rewrite (proj2 (Nat.sub_0_le _ _)). }
  cbn [foldl]. rewrite IH by by apply (append_bounded [m]). unfold AppendBoundedChatMessage, MAX_CHAT_HISTORY_MESSAGES in *.
  destruct (Nat.leb_spec 500 (length l)).
  - destruct l as [|x l]; [simpl in *; lia|]. cbn [drop app]. rewrite drop_0, <- (assoc_L app). cbn [app length] in *.
    rewrite !length_app. cbn [length]. assert (length l = 499%nat) as -> by lia.
    replace (S (499 + S (length msgs)) - 500)%nat with (S (499 + S (length msgs) - 500)) by lia. done.
  - by rewrite <- (assoc_L app).
Qed.

Lemma change_ok l g u : (forall f, fi_uid (g f) = fi_uid f) ->
  (forall f, (length (fi_chat_msgs f) <= MAX_CHAT_HISTORY_MESSAGES)%nat -> (length (fi_chat_msgs (g f)) <= MAX_CHAT_HISTORY_MESSAGES)%nat) ->
  model_ok u -> model_ok (change_object l g u).
Proof.
  intros Hid Hlen [H1 H2 H3 H4 H5 H6].
  assert (forall k, from_option fi_uid 0 (alter g l (objects u) !! k) = from_option fi_uid 0 (objects u !! k)) as Hsame.
  { intros k. destruct (decide (l = k)) as [<-|]; [|by rewrite list_lookup_alter_ne].
    rewrite list_lookup_alter_eq. destruct (objects u !! l); [apply Hid|done]. }
  assert (listed_uids (change_object l g u) = listed_uids u) as E.
  { unfold listed_uids. cbn. apply list_fmap_ext. intros _ k _. apply Hsame. }
  split; rewrite ?E; try done; cbn.
  - rewrite length_alter. done.
  - intros uid k Hk. destruct (H4 uid k Hk) as (f & Hf & Hu). destruct (decide (l = k)) as [<-|].
    + exists (g f). rewrite list_lookup_alter_eq, Hf. split; [done|by rewrite Hid].
    + exists f. by rewrite list_lookup_alter_ne.
  - rewrite Forall_lookup in H6 |- *. intros k f Hk. destruct (decide (l = k)) as [<-|].
    + rewrite list_lookup_alter_eq in Hk. destruct (objects u !! l) as [f0|] eqn:Ef; [|done].
      injection Hk as <-. apply Hlen. by eapply H6.
    + rewrite list_lookup_alter_ne in Hk by done. by eapply H6.
Qed.

(** A new object for a user, listed when they are not. *)
Lemma new_object_ok info u (listed : bool) : model_ok u -> fi_chat_msgs info = [] ->
  listed = bool_decide (is_Some (_friend_map u !! fi_uid info)) ->
  model_ok (set_friends (objects u ++ [info])
    (if listed then _friend_list u else _friend_list u ++ [length (objects u)])
    (<[fi_uid info := length (objects u)]> (_friend_map u)) u).
Proof.
  intros [H1 H2 H3 H4 H5 H6] Hmsgs Hl. rewrite Forall_forall in H2.
  assert ((fun l => from_option fi_uid 0 ((objects u ++ [info]) !! l)) <$> _friend_list u = listed_uids u) as Hold.
  { apply list_fmap_ext. intros i l Hil. apply list_elem_of_lookup_2 in Hil. rewrite lookup_app_l by by apply H2. done. }
  assert (listed_uids (set_friends (objects u ++ [info])
    (if listed then _friend_list u else _friend_list u ++ [length (objects u)])
    (<[fi_uid info := length (objects u)]> (_friend_map u)) u) = listed_uids u ++ (if listed then [] else [fi_uid info])) as E.
  { unfold listed_uids at 1. cbn. destruct listed; [by rewrite Hold, app_nil_r|].
    rewrite fmap_app, Hold. f_equal. cbn. by rewrite list_lookup_middle. }
  split; rewrite ?E; cbn.
  - destruct listed; [by rewrite app_nil_r|]. apply NoDup_app. split_and!; [done| |apply NoDup_singleton].
    intros x Hx ->%list_elem_of_singleton. apply H3 in Hx. symmetry in Hl. by apply bool_decide_eq_false in Hl.
  - rewrite length_app. cbn. apply Forall_forall. intros l Hin.
    destruct listed; [|apply elem_of_app in Hin as [Hin| ->%list_elem_of_singleton]]; [..|lia];
      specialize (H2 l Hin); cbn in H2; lia.
  - intros uid. rewrite elem_of_app. destruct (decide (uid = fi_uid info)) as [->|Hne].
    + rewrite lookup_insert_eq. split; [|done]. intros _. destruct listed; [left|right; by apply list_elem_of_singleton].
      apply H3. symmetry in Hl. by apply bool_decide_eq_true in Hl.
    + rewrite lookup_insert_ne by done. rewrite H3. split; [by left|]. intros [?|Hin]; [done|].
      destruct listed; [by apply elem_of_nil in Hin|by apply list_elem_of_singleton in Hin].
  - intros uid l. destruct (decide (uid = fi_uid info)) as [->|Hne].
    + rewrite lookup_insert_eq. intros [= <-]. exists info. by rewrite list_lookup_middle.
    + rewrite lookup_insert_ne by done. intros Hl'. destruct (H4 uid l Hl') as (f & Hf & Hu). exists f.
      rewrite lookup_app_l by by eapply lookup_lt_Some. done.
  - done.
  - apply Forall_app. split; [done|]. constructor; [|done]. rewrite Hmsgs. cbn. lia.
Qed.

Lemma replace_apply_uids app l l' : replace_apply app l = Some l' -> ap_uid <$> l' = ap_uid <$> l.
Proof.
  revert l'. induction l as [|e l IH]; intros l'; [done|]. cbn [replace_apply].
  destruct (Z.eqb_spec (ap_uid e) (ap_uid app)) as [E|]; [intros [= <-]; csimpl; by rewrite E|].
  destruct (replace_apply app l) as [k|] eqn:Er; [|done]. intros [= <-]. csimpl. f_equal. by apply IH.
Qed.

Lemma replace_apply_none app l : replace_apply app l = None -> ap_uid app ∉ ap_uid <$> l.
Proof.
  induction l as [|e l IH]; [by intros _ ?%elem_of_nil|]. cbn [replace_apply].
  destruct (Z.eqb_spec (ap_uid e) (ap_uid app)) as [E|E]; [done|].
  destruct (replace_apply app l) eqn:Er; [done|]. intros _. csimpl. apply not_elem_of_cons. split; [congruence|by apply IH].
Qed.

Lemma apply_ok a u : model_ok u -> model_ok (AddApplyList a u).
Proof.
  intros [H1 H2 H3 H4 H5 H6]. split; try done. cbn. destruct (replace_apply a (_apply_list u)) as [l|] eqn:E.
  - by rewrite (replace_apply_uids _ _ _ E).
  - rewrite fmap_app. apply NoDup_app. split_and!; [done| |apply NoDup_singleton].
    intros x Hx ->%list_elem_of_singleton. by eapply replace_apply_none.
Qed.

Lemma append_friend_ok info u : model_ok u -> fi_chat_msgs info = [] -> model_ok (append_friend u info).
Proof.
  intros Hok Hm. unfold append_friend. destruct (_friend_map u !! fi_uid info) as [l|] eqn:E.
  - by apply change_ok.
  - apply (new_object_ok info u false Hok Hm). rewrite E. symmetry. apply bool_decide_eq_false. by intros [? ?].
Qed.

(** ** Traces *)

(** What the windows and the connection do with the model; [LoadChats] is a
    turn of scrolling: a page is shown, then the counter moves. *)
Inductive model_op :=
| Applied (a : ApplyInfo)
| Applications (l : list ApplyInfo)
| Friends (l : list FriendInfo)
| Befriended (a : AuthInfo)
| Chatted (uid : Z) (msgs : list TextChatData)
| LoadChats
| LoadContacts
| Named (i : UserInfo) (token : string).

Definition op_fine (op : model_op) : Prop :=
  match op with Friends l => Forall (fun f => fi_chat_msgs f = []) l | _ => True end.

Definition run_model (u : UserMgr) (op : model_op) : UserMgr :=
  match op with
  | Applied a => AddApplyList a u
  | Applications l => AppendApplyList l u
  | Friends l => AppendFriendList l u
  | Befriended a => AddFriend a u
  | Chatted uid msgs => AppendFriendChatMsg uid msgs u
  | LoadChats => UpdateChatLoadedCount u
  | LoadContacts => UpdateContactLoadedCount u
  | Named i token => SetToken token (SetUserInfo i u)
  end.

(** The entries the chat list was given, oldest first. *)
Definition shown_by (u : UserMgr) (op : model_op) : list nat :=
  match op with LoadChats => GetChatListPerPage u | _ => [] end.
Fixpoint shown (u : UserMgr) (ops : list model_op) : list nat :=
  match ops with [] => [] | op :: ops => shown_by u op ++ shown (run_model u op) ops end.

Lemma run_model_ok op u : op_fine op -> model_ok u -> model_ok (run_model u op).
Proof.
  intros Hf Hok. destruct op as [a|l|l|a|uid msgs| | |i token]; cbn [run_model].
  - by apply apply_ok.
  - unfold AppendApplyList. revert u Hok. induction l as [|a l IH]; intros u Hok; [done|]. by apply IH, apply_ok.
  - cbn in Hf. unfold AppendFriendList. revert u Hok. induction Hf as [|f l Hm _ IH]; intros u Hok; [done|].
    by apply IH, append_friend_ok.
  - apply new_object_ok; done.
  - unfold AppendFriendChatMsg. destruct (_friend_map u !! uid); [|done].
    apply change_ok; [done| |done]. intros f. apply append_bounded.
  - by destruct Hok.
  - by destruct Hok.
  - by destruct Hok.
Qed.

(** The list only grows at its end. *)
Definition counted (u u' : UserMgr) (op : model_op) : Prop :=
  exists more, _friend_list u' = _friend_list u ++ more /\
    match op with LoadChats => True | _ => _chat_loaded u' = _chat_loaded u end.

Lemma run_model_counted op u : counted u (run_model u op) op.
Proof.
  assert (forall u' : UserMgr, _friend_list u' = _friend_list u -> exists more, _friend_list u' = _friend_list u ++ more) as Hsame
    by (intros u' E; exists []; by rewrite app_nil_r).
  unfold counted. destruct op as [a|l|l|a|uid msgs| | |i token]; cbn [run_model].
  - exists []. by rewrite app_nil_r.
  - assert (_friend_list (AppendApplyList l u) = _friend_list u /\ _chat_loaded (AppendApplyList l u) = _chat_loaded u) as [-> ->];
      [|exists []; by rewrite app_nil_r].
    unfold AppendApplyList. revert u Hsame. induction l as [|a l IH]; intros u Hsame; [done|]. cbn [foldl].
    destruct (IH (AddApplyList a u)) as [-> ->]; [|done]. intros u' E. exists []. by rewrite app_nil_r.
  - unfold AppendFriendList. clear Hsame. revert u. induction l as [|f l IH]; intros u; [exists []; by rewrite app_nil_r|].
    cbn [foldl]. destruct (IH (append_friend u f)) as (more & -> & ->). unfold append_friend.
    destruct (_friend_map u !! fi_uid f); [by exists more|]. cbn. exists ([length (objects u)] ++ more).
    by rewrite (assoc_L app).
  - cbn. destruct (CheckFriendById _ u); [exists []; by rewrite app_nil_r|by eexists].
  - unfold AppendFriendChatMsg. destruct (_friend_map u !! uid); exists []; by rewrite app_nil_r.
  - destruct (Hsame (UpdateChatLoadedCount u) eq_refl) as [more E]. by exists more.
  - exists []. by rewrite app_nil_r.
  - exists []. by rewrite app_nil_r.
Qed.

Lemma shown_prefix ops : forall u before, before = take (_chat_loaded u) (_friend_list u) ->
  (_chat_loaded u <= length (_friend_list u))%nat ->
  let u' := foldl run_model u ops in
  before ++ shown u ops = take (_chat_loaded u') (_friend_list u') /\ (_chat_loaded u' <= length (_friend_list u'))%nat.
Proof.
  induction ops as [|op ops IH]; intros u before Hb Hle; [by rewrite app_nil_r|]. cbn [shown foldl].
  rewrite (assoc_L app). apply IH; clear IH.
  - destruct (run_model_counted op u) as (more & E & Hc). rewrite E.
    destruct op; cbn [shown_by]; rewrite ?app_nil_r; try (rewrite Hc, take_app_le by done; done).
    assert (more = []) as -> by (cbn in E; by apply (inj (app (_friend_list u))); rewrite app_nil_r). rewrite app_nil_r.
    unfold GetChatListPerPage, page. cbn [run_model _chat_loaded UpdateChatLoadedCount]. unfold next_page. cbv zeta. subst before.
    destruct (Nat.leb_spec (length (_friend_list u)) (_chat_loaded u)); [by rewrite app_nil_r|].
    destruct (Nat.ltb_spec (length (_friend_list u)) (_chat_loaded u + CHAT_COUNT_PER_PAGE)).
    + rewrite take_drop. symmetry. apply take_ge. lia.
    + rewrite take_take_drop. f_equal. lia.
  - destruct (run_model_counted op u) as (more & E & Hc). rewrite E, length_app.
    destruct op; try (rewrite Hc; lia). cbn [run_model _chat_loaded UpdateChatLoadedCount]. unfold next_page. cbv zeta.
    destruct (Nat.leb_spec (length (_friend_list u)) (_chat_loaded u)); [lia|].
    destruct (Nat.ltb_spec (length (_friend_list u)) (_chat_loaded u + CHAT_COUNT_PER_PAGE)); lia.
Qed.

(** C38. From an empty model, through any friends, applications, messages and
    scrolling: the list and the map of friends have the same users, each
    once, and every object of the map is that user's; there is one application
    per user and no object has more than 500 messages.  The pages shown so far
    are the list up to the counter, without gaps or repetitions, and the whole
    list when loading reports to be finished. *)
Theorem friend_model ops : Forall op_fine ops ->
  let u := foldl run_model new_UserMgr ops in
  model_ok u /\ shown new_UserMgr ops = take (_chat_loaded u) (_friend_list u) /\
  (IsLoadChatFin u = true -> shown new_UserMgr ops = _friend_list u).
Proof.
  intros Hf u. split.
  - assert (forall v, model_ok v -> model_ok (foldl run_model v ops)) as Hrun.
    { clear u. induction Hf as [|op ops Hop _ IH]; intros v Hv; [done|]. by apply IH, run_model_ok. }
    apply Hrun. split; cbn; try done; [apply NoDup_nil_2| |apply NoDup_nil_2].
    intros uid. rewrite lookup_empty. split; [by intros [? ?]|by intros ?%elem_of_nil].
  - destruct (shown_prefix ops new_UserMgr [] eq_refl (le_n _)) as [E Hle]. split; [exact E|].
    intros Hfin%Nat.leb_le. cbn [app] in E. rewrite E. by apply take_ge.
Qed.

Module Example.

Definition person (uid : Z) : FriendInfo := mkFriendInfo uid "" "" "" 0 "" "" [].
Definition example_ops : list model_op :=
  [Friends (person <$> seqZ 1 12); LoadChats; Befriended (mkAuthInfo 20 "" "" "" 0);
   Chatted 20 [mkTextChatData "m" "hi" 20 1]; LoadChats; LoadChats].

Lemma friend_model_witness :
  let u := foldl run_model new_UserMgr example_ops in
  model_ok u /\ shown new_UserMgr example_ops = take (_chat_loaded u) (_friend_list u) /\
  (IsLoadChatFin u = true -> shown new_UserMgr example_ops = _friend_list u).
Proof. apply (friend_model example_ops). by repeat constructor. Defined.

Example all_shown : shown new_UserMgr example_ops = seq 0 13.
Proof. vm_compute. reflexivity. Qed.

End Example.
