(* ===== verification/QtJson.v ===== *)
(** The part of Qt's JSON classes that the client uses, as an interface.  Qt is
    not part of the repository, so the client is written against [QJson];
    [QJsonLaws] states what Qt documents of it: members that are missing or
    of another type read as the default. *)
From S2P Require Import Prelude.

Class QJson := {
  qvalue : Type;
  fromJson : string -> option qvalue;           (** [QJsonDocument::fromJson]; [None] is [isNull()] *)
  toJson : qvalue -> string;                    (** [toJson(QJsonDocument::Compact)] *)
  qobject : list (string * qvalue) -> qvalue;   (** [QJsonObject{{k, v}, ...}] *)
  qarray : list qvalue -> qvalue;
  qint : Z -> qvalue;
  qstring : string -> qvalue;
  field : string -> qvalue -> qvalue;           (** [object()[k]], undefined when there is none *)
  set_field : string -> qvalue -> qvalue -> qvalue;   (** [object[k] = v] *)
  contains : string -> qvalue -> bool;
  isObject : qvalue -> bool;
  isString : qvalue -> bool;
  isDouble : qvalue -> bool;
  toInt : Z -> qvalue -> Z;                     (** [toInt(default)] *)
  toString : qvalue -> string;
  toBool : qvalue -> bool;
  toArray : qvalue -> list qvalue;
}.

Class QJsonLaws (J : QJson) : Prop := {
  field_object k x l1 l2 : k ∉ l2.*1 -> field k (qobject (l1 ++ (k, x) :: l2)) = x;
  toInt_int d z : is_int z = true -> toInt d (qint z) = z;
  toString_string s : toString (qstring s) = s;
  toArray_array l : toArray (qarray l) = l;
}.

Section Decoding.
Context `{QJson}.

(** [QJsonDocument::fromJson(data).object()] *)
Definition document (data : string) : qvalue := default (qobject []) (fromJson data).

Definition int_field (k : string) (v : qvalue) : Z := toInt 0 (field k v).
Definition string_field (k : string) (v : qvalue) : string := toString (field k v).
Definition array_field (k : string) (v : qvalue) : list qvalue := toArray (field k v).

End Decoding.

(** A small instance, with a notation of its own for documents. *)
Module ToyQJson.

Abbreviation tree := (gen_tree (Z + (bool + string))).

Definition entry (e : string * tree) : tree := GenNode 3 [GenLeaf (inr (inr e.1)); e.2].
Definition is_entry (k : string) (e : tree) : bool :=
  match e with GenNode 3 [GenLeaf (inr (inr k')); _] => String.eqb k' k | _ => false end.
Definition undefined : tree := GenNode 0 [].

(** The last member of that name. *)
Definition member_of (k : string) (l : list tree) : tree :=
  foldl (fun x e => if is_entry k e then match e with GenNode _ [_; y] => y | _ => x end else x) undefined l.

Instance toy_qjson : QJson := {|
  qvalue := tree;
  fromJson s := z ← decimal s; match z with Z.pos p => decode p | _ => None end;
  toJson v := to_string (Z.pos (encode v));
  qobject l := GenNode 2 (entry <$> l);
  qarray l := GenNode 1 l;
  qint z := GenLeaf (inl z);
  qstring s := GenLeaf (inr (inr s));
  field k v := match v with GenNode 2 l => member_of k l | _ => undefined end;
  set_field k x v := match v with GenNode 2 l => GenNode 2 (l ++ [entry (k, x)]) | _ => v end;
  contains k v := match v with GenNode 2 l => existsb (is_entry k) l | _ => false end;
  isObject v := match v with GenNode 2 _ => true | _ => false end;
  isString v := match v with GenLeaf (inr (inr _)) => true | _ => false end;
  isDouble v := match v with GenLeaf (inl _) => true | _ => false end;
  toInt d v := match v with GenLeaf (inl z) => if is_int z then z else d | _ => d end;
  toString v := match v with GenLeaf (inr (inr s)) => s | _ => ""%string end;
  toBool v := match v with GenLeaf (inr (inl b)) => b | _ => false end;
  toArray v := match v with GenNode 1 l => l | _ => [] end;
|}.

Lemma member_none k (l : list (string * tree)) x : k ∉ l.*1 ->
  foldl (fun x e => if is_entry k e then match e with GenNode _ [_; y] => y | _ => x end else x) x (entry <$> l) = x.
Proof.
  induction l as [|[k' y] l IH]; [done|]. cbn. intros [Hne Hin]%not_elem_of_cons.
  rewrite (proj2 (String.eqb_neq k' k)) by done. by apply IH.
Qed.

#[export] Instance toy_qjson_laws : QJsonLaws toy_qjson.
Proof.
  split; try done.
  - intros k x l1 l2 Hk. cbn. unfold member_of. rewrite fmap_app, fmap_cons, foldl_app. cbn [foldl].
    rewrite member_none by done. cbn. by rewrite String.eqb_refl.
  - intros d z Hz. cbn. by rewrite Hz.
Qed.

End ToyQJson.
