(* ===== verification/ResourceHttp.v ===== *)
(** The client's requests to the resource service
    ([src/client/network/ResourceHttp.cpp]): the credential of the account and
    its renewal, the requests that wait for one, bounded retries, and the
    isolation of an account from the requests of the one before. *)
From S2P Require Import Prelude.

(** ** State *)

(** [RequestControl] with the request it controls: waiting for a credential,
    given to the network, waiting for its retry, or over. *)
Inductive Stage := Waits | Sent | Backs | Over.

#[export] Instance Stage_eq_dec : EqDecision Stage.
Proof. solve_decision. Defined.

(** What is asked; [headers] are those that the caller adds. *)
Record Request := mkRequest { method : string; path : string; body : string; headers : list (string * string) }.

Record Entry := mkEntry { cancelled : bool; e_generation : Z; stage : Stage; retry : Z; asks : Request }.

Definition set_cancelled (e : Entry) : Entry :=
  mkEntry true (e_generation e) (stage e) (retry e) (asks e).
Definition set_stage (g : Stage) (e : Entry) : Entry :=
  mkEntry (cancelled e) (e_generation e) g (retry e) (asks e).
Definition set_retry (n : Z) (e : Entry) : Entry :=
  mkEntry (cancelled e) (e_generation e) (stage e) n (asks e).

(** The handles of requests are their numbers.  [network] is what was sent, with
    the endpoint and the credential; [asked] the requests for a credential;
    [answers] the calls of callbacks. *)
Record ResourceHttp := mkResourceHttp {
  base_ : string; uid_ : Z; token_ : string; renewing_ : bool; renewal_ : bool; generation_ : Z; renewalRequestId_ : string;
  waiting_ : list nat; entries : list Entry;
  network : list (nat * string * string); asked : list string; answers : list (nat * Z * string);
}.

Definition new_ResourceHttp : ResourceHttp := mkResourceHttp "" 0 "" false false 0 "" [] [] [] [] [].

Definition set_token x h := mkResourceHttp (base_ h) (uid_ h) x (renewing_ h) (renewal_ h) (generation_ h) (renewalRequestId_ h) (waiting_ h) (entries h) (network h) (asked h) (answers h).
Definition set_renewing x h := mkResourceHttp (base_ h) (uid_ h) (token_ h) x (renewal_ h) (generation_ h) (renewalRequestId_ h) (waiting_ h) (entries h) (network h) (asked h) (answers h).
Definition set_renewal x h := mkResourceHttp (base_ h) (uid_ h) (token_ h) (renewing_ h) x (generation_ h) (renewalRequestId_ h) (waiting_ h) (entries h) (network h) (asked h) (answers h).
Definition set_waiting x h := mkResourceHttp (base_ h) (uid_ h) (token_ h) (renewing_ h) (renewal_ h) (generation_ h) (renewalRequestId_ h) x (entries h) (network h) (asked h) (answers h).
Definition set_entries x h := mkResourceHttp (base_ h) (uid_ h) (token_ h) (renewing_ h) (renewal_ h) (generation_ h) (renewalRequestId_ h) (waiting_ h) x (network h) (asked h) (answers h).
Definition set_network x h := mkResourceHttp (base_ h) (uid_ h) (token_ h) (renewing_ h) (renewal_ h) (generation_ h) (renewalRequestId_ h) (waiting_ h) (entries h) x (asked h) (answers h).
Definition set_answers x h := mkResourceHttp (base_ h) (uid_ h) (token_ h) (renewing_ h) (renewal_ h) (generation_ h) (renewalRequestId_ h) (waiting_ h) (entries h) (network h) (asked h) x.

Definition put (k : nat) (f : Entry -> Entry) (h : ResourceHttp) : ResourceHttp := set_entries (alter f k (entries h)) h.

Section Http.
(** [QUrl]: the scheme is [https], there is a host, and no user information;
    and [QUuid::createUuid], the n-th identifier. *)
Context (https_url : string -> bool) (createUuid : nat -> string).

(** ** Operations *)

Definition renew (h : ResourceHttp) : ResourceHttp :=
  if renewing_ h || (uid_ h <=? 0) then h
  else
    let requestId := createUuid (length (asked h)) in
    mkResourceHttp (base_ h) (uid_ h) (token_ h) true (renewal_ h) (generation_ h) requestId (waiting_ h) (entries h)
      (network h) (asked h ++ [requestId]) (answers h).

(** [callback(code, data)] *)
Definition callback (k : nat) (code : Z) (data : string) (h : ResourceHttp) : ResourceHttp :=
  set_answers (answers h ++ [(k, code, data)]) (put k (set_stage Over) h).

Definition starts_slash (path : string) : bool := match path with String c _ => Ascii.eqb c "/" | _ => false end.

(** [request] with a control. *)
Definition request_with (k : nat) (h : ResourceHttp) : ResourceHttp :=
  match entries h !! k with
  | None => h
  | Some e =>
      if cancelled e || negb (e_generation e =? generation_ h) then put k (set_stage Over) h
      else if uid_ h <=? 0 then callback k 401 "Resource account is signed out" h
      else if negb (https_url (base_ h)) || negb (starts_slash (path (asks e))) then callback k 400 "Invalid HTTPS resource endpoint" h
      else if sempty (token_ h) then
        if 64 <=? Z.of_nat (length (waiting_ h)) then callback k 503 "Resource credential queue full" h
        else renew (set_waiting (waiting_ h ++ [k]) (put k (set_stage Waits) h))
      else set_network (network h ++ [(k, base_ h, token_ h)]) (put k (set_stage Sent) h)
  end.

(** [request] without one: a new handle. *)
Definition request (r : Request) (h : ResourceHttp) : nat * ResourceHttp :=
  let k := length (entries h) in
  (k, request_with k (set_entries (entries h ++ [mkEntry false (generation_ h) Waits 0 r]) h)).

(** [cancel]: the flag, and an abort whose end finds the flag. *)
Definition cancel (k : nat) (h : ResourceHttp) : ResourceHttp := put k set_cancelled h.

Definition reset (h : ResourceHttp) : ResourceHttp :=
  mkResourceHttp "" 0 "" false false (generation_ h + 1) "" [] (entries h) (network h) (asked h) (answers h).

(** The path put behind an address without one belongs to the URL of a request,
    which is not kept. *)
Definition configure (url : string) (uid : Z) (h : ResourceHttp) : ResourceHttp :=
  let h := reset h in
  mkResourceHttp url uid (token_ h) (renewing_ h) (renewal_ h) (generation_ h) (renewalRequestId_ h) (waiting_ h) (entries h)
    (network h) (asked h) (answers h).

(** [sig_resource_token] *)
Definition on_token (uid : Z) (request_id token : string) (h : ResourceHttp) : ResourceHttp :=
  if negb (renewing_ h) || (uid_ h <=? 0) || negb (uid =? uid_ h) || negb (String.eqb request_id (renewalRequestId_ h)) then h
  else
    let h := set_token token (set_renewing false h) in
    if sempty token then h
    else foldl (fun h k => request_with k h) (set_waiting [] (set_renewal true h)) (waiting_ h).

(** [reply->finished] of the request [k]: the retries wait for
    [qMin(1000 * (1 << retry), 16000)] milliseconds. *)
Definition retryable (code : Z) : bool := (code =? 401) || (code =? 429) || (code =? 503) || (code =? 0).
Definition on_finished (k : nat) (code : Z) (failed : bool) (data : string) (h : ResourceHttp) : ResourceHttp :=
  match entries h !! k with
  | Some e =>
      if negb (bool_decide (stage e = Sent)) then h
      else if negb (e_generation e =? generation_ h) || cancelled e then put k (set_stage Over) h
      else if (retry e <? 5) && retryable code
      then put k (set_stage Backs) (if code =? 401 then set_token "" h else h)
      else callback k (if (code =? 0) || (failed && (code <? 400)) then 503 else code) data h
  | None => h
  end.

(** The timer of a retry. *)
Definition on_retry (k : nat) (h : ResourceHttp) : ResourceHttp :=
  match entries h !! k with
  | Some e =>
      if negb (bool_decide (stage e = Backs)) then h
      else if (e_generation e =? generation_ h) && negb (cancelled e)
      then request_with k (put k (fun e => set_stage Waits (set_retry (retry e + 1) e)) h)
      else put k (set_stage Over) h
  | None => h
  end.

(** The timers of the credential: the renewal, the pause after an empty
    credential, and the wait for an answer. *)
Definition on_renewal (h : ResourceHttp) : ResourceHttp := if renewal_ h then renew h else h.
Definition on_pause (generation : Z) (h : ResourceHttp) : ResourceHttp :=
  if generation =? generation_ h then renew h else h.
Definition on_timeout (generation : Z) (requestId : string) (h : ResourceHttp) : ResourceHttp :=
  if (generation =? generation_ h) && renewing_ h && String.eqb (renewalRequestId_ h) requestId
  then renew (set_renewing false h) else h.

(** ** Traces *)

Inductive event :=
| Configures (url : string) (uid : Z)
| Resets
| Requests (r : Request)
| Cancels (k : nat)
| Connects
| GetsToken (uid : Z) (request_id token : string)
| Finishes (k : nat) (code : Z) (failed : bool) (data : string)
| Retries (k : nat)
| Renews
| Pauses (generation : Z)
| TimesOut (generation : Z) (requestId : string).

Definition run_event (h : ResourceHttp) (e : event) : ResourceHttp :=
  match e with
  | Configures url uid => configure url uid h
  | Resets => reset h
  | Requests r => (request r h).2
  | Cancels k => cancel k h
  | Connects => renew h
  | GetsToken uid request_id token => on_token uid request_id token h
  | Finishes k code failed data => on_finished k code failed data h
  | Retries k => on_retry k h
  | Renews => on_renewal h
  | Pauses generation => on_pause generation h
  | TimesOut generation requestId => on_timeout generation requestId h
  end.

(** ** Invariant *)

Definition sends (k : nat) (h : ResourceHttp) : nat := length (filter (fun x => x.1.1 = k) (network h)).
Definition answered (h : ResourceHttp) : list nat := (fun x => x.1.1) <$> answers h.

(** A request was given to the network once, and once more with each retry. *)
Definition entry_ok (h : ResourceHttp) (k : nat) (e : Entry) : Prop :=
  0 <= retry e <= 5 /\ e_generation e <= generation_ h /\
  Z.of_nat (sends k h) <= retry e + (if bool_decide (stage e = Waits) then 0 else 1) /\
  (k ∈ answered h -> stage e = Over) /\ (stage e = Backs -> retry e <= 4).

Record http_ok (h : ResourceHttp) : Prop := {
  ho_entries : forall k e, entries h !! k = Some e -> entry_ok h k e;
  ho_known : forall k, (length (entries h) <= k)%nat -> sends k h = O /\ k ∉ answered h;
  ho_waiting : NoDup (waiting_ h) /\ (length (waiting_ h) <= 64)%nat /\
               forall k, k ∈ waiting_ h -> exists e, entries h !! k = Some e /\ stage e = Waits;
  ho_answers : NoDup (answered h);
  ho_network : Forall (fun x => https_url x.1.2 = true /\ x.2 <> ""%string) (network h);
}.

(** Changes of one entry and of what the invariant does not speak of. *)
Lemma sends_put k j f h : sends k (put j f h) = sends k h.
Proof. done. Qed.

Lemma entries_put k f h j : entries (put k f h) !! j = if decide (k = j) then f <$> entries h !! j else entries h !! j.
Proof. unfold put. cbn. rewrite list_lookup_alter. case_decide; by subst. Qed.

Lemma http_ok_put k f h e : http_ok h -> entries h !! k = Some e -> k ∉ waiting_ h \/ stage (f e) = Waits ->
  entry_ok h k (f e) -> http_ok (put k f h).
Proof.
  intros [H1 H2 H3 H4 H5] He Hw Hf. split; [|..].
  - intros j x. rewrite entries_put. case_decide as Hd; [subst j; rewrite He; intros [= <-]; exact Hf|]. apply H1.
  - intros j. unfold put. cbn. rewrite length_alter. apply H2.
  - destruct H3 as (N & L & W). split_and!; [done|done|]. intros j Hj. rewrite entries_put. destruct (W j Hj) as (x & Hx & Hs).
    case_decide as Hd; [|by exists x]. subst j. rewrite He. exists (f e). split; [done|]. by destruct Hw.
  - done.
  - done.
Qed.

Lemma http_ok_same h h' : entries h' = entries h -> network h' = network h -> answers h' = answers h -> waiting_ h' = waiting_ h ->
  generation_ h <= generation_ h' -> http_ok h -> http_ok h'.
Proof.
  intros E1 E2 E3 E4 E5 [H1 H2 H3 H4 H5]. assert (answered h' = answered h) as Ea by (unfold answered; by rewrite E3).
  assert (forall k, sends k h' = sends k h) as Es by (intros k; unfold sends; by rewrite E2). split.
  - rewrite E1. intros k e He. destruct (H1 k e He) as (? & ? & ? & ? & ?). unfold entry_ok. rewrite Es, Ea. split_and!; auto; lia.
  - rewrite E1, Ea. intros k Hk. rewrite Es. auto.
  - by rewrite E1, E4.
  - by rewrite Ea.
  - by rewrite E2.
Qed.

Lemma http_ok_renew h : http_ok h -> http_ok (renew h).
Proof. intros Hh. unfold renew. destruct (_ || _); [done|]. by apply (http_ok_same h). Qed.

Ltac entry_arith :=
  split_and!; cbn [retry stage set_stage set_retry set_cancelled e_generation]; repeat case_bool_decide; try done; try lia.

Lemma answered_callback k code data h : answered (callback k code data h) = answered h ++ [k].
Proof. unfold answered, callback. cbn [answers set_answers]. by rewrite fmap_app. Qed.

(** A callback of a request that is not over yet. *)
Lemma http_ok_callback k code data h e : http_ok h -> entries h !! k = Some e -> stage e <> Over -> k ∉ waiting_ h ->
  http_ok (callback k code data h).
Proof.
  intros Hh He Hs Hw. pose proof (ho_entries h Hh k e He) as (R1 & R2 & R3 & R4 & R5).
  assert (http_ok (put k (set_stage Over) h)) as Hp.
  { apply (http_ok_put k (set_stage Over) h e); [done|done|by left|]. entry_arith. }
  assert (k ∉ answered h) as Hn by (intros Hin; by apply Hs, R4).
  destruct Hp as [H1 H2 H3 H4 H5]. split.
  - intros j x Hx. destruct (H1 j x Hx) as (? & ? & ? & Ha & ?). do 3 (split; [done|]). split; [|done]. rewrite answered_callback.
    intros [Hj| ->%list_elem_of_singleton]%elem_of_app; [by apply Ha|]. unfold callback in Hx. cbn [entries set_answers] in Hx.
    rewrite entries_put, decide_True, He in Hx by done. by injection Hx as <-.
  - intros j Hj. destruct (H2 j Hj) as [? Ha]. split; [done|]. rewrite answered_callback. intros [Hin| ->%list_elem_of_singleton]%elem_of_app; [done|].
    apply lookup_lt_Some in He. unfold callback in Hj. cbn in Hj. rewrite length_alter in Hj. lia.
  - exact H3.
  - rewrite answered_callback. apply NoDup_app. split_and!; [done| |apply NoDup_singleton]. by intros j Hj ->%list_elem_of_singleton.
  - exact H5.
Qed.

Lemma sends_app k x h : sends k (set_network (network h ++ [x]) h) = (sends k h + if decide (x.1.1 = k) then 1 else 0)%nat.
Proof.
  unfold sends. cbn. rewrite filter_app, length_app, filter_cons. by case_decide.
Qed.

(** [request] of a request that waits or has waited for its retry. *)
Lemma http_ok_request k h e : http_ok h -> entries h !! k = Some e -> k ∉ waiting_ h -> stage e <> Over ->
  Z.of_nat (sends k h) <= retry e -> http_ok (request_with k h).
Proof.
  intros Hh He Hw Hs Hn. pose proof (ho_entries h Hh k e He) as (R1 & R2 & R3 & R4 & R5).
  assert (k ∉ answered h) as Ha by (intros Hin; by apply Hs, R4).
  unfold request_with. rewrite He. destruct (_ || _).
  { apply (http_ok_put k _ h e); [done|done|by left|]. entry_arith. }
  destruct (uid_ h <=? 0); [by eapply http_ok_callback|]. destruct (_ || _) eqn:Eb; [by eapply http_ok_callback|].
  destruct (sempty (token_ h)) eqn:Et.
  - destruct (64 <=? _) eqn:El; [by eapply http_ok_callback|]. apply http_ok_renew.
    assert (http_ok (put k (set_stage Waits) h)) as [H1 H2 H3 H4 H5].
    { apply (http_ok_put k _ h e); [done|done|by right|]. entry_arith. }
    split; try done. destruct H3 as (N & L & W). cbn in N, L, W. cbn. split_and!.
    + apply NoDup_app. split_and!; [done| |apply NoDup_singleton]. by intros j Hj ->%list_elem_of_singleton.
    + rewrite length_app. cbn. apply Z.leb_gt in El. lia.
    + intros j [Hj| ->%list_elem_of_singleton]%elem_of_app; [by apply W|]. pose proof (entries_put k (set_stage Waits) h k) as Ep.
      rewrite decide_True, He in Ep by done. cbn in Ep. by exists (set_stage Waits e).
  - apply orb_false_iff in Eb as [Eb%negb_false_iff _].
    assert (http_ok (put k (set_stage Waits) h)) as Hp.
    { apply (http_ok_put k _ h e); [done|done|by right|]. entry_arith. }
    destruct Hp as [_ H2 _ H4 H5]. pose proof (ho_entries h Hh) as H1. pose proof (ho_waiting h Hh) as H3.
    assert (forall j, sends j (set_network (network h ++ [(k, base_ h, token_ h)]) (put k (set_stage Sent) h)) =
      (sends j h + if decide (k = j) then 1 else 0)%nat) as Es by (intros j; apply (sends_app j (k, base_ h, token_ h) h)).
    split; cbn [entries network waiting_ set_network answers].
    + intros j x. rewrite entries_put. unfold entry_ok. rewrite Es. destruct (decide (k = j)) as [<-|Hd].
      * rewrite He. intros [= <-]. entry_arith.
      * intros Hx. destruct (H1 j x Hx) as (? & ? & ? & ? & ?). split_and!; auto; lia.
    + intros j Hj. cbn in Hj. rewrite length_alter in Hj. destruct (ho_known h Hh j Hj) as [E1 E2]. rewrite Es, E1. split; [|done].
      rewrite decide_False; [done|]. apply lookup_lt_Some in He. lia.
    + destruct H3 as (N & L & W). split_and!; [done|done|]. intros j Hj. rewrite entries_put. rewrite decide_False; [auto|]. by intros ->.
    + done.
    + apply Forall_app. split; [done|]. apply Forall_singleton. split; [done|]. cbn. intros E. by rewrite E in Et.
Qed.

(** *** Every event *)

Lemma http_ok_new r h : http_ok h ->
  http_ok (set_entries (entries h ++ [mkEntry false (generation_ h) Waits 0 r]) h).
Proof.
  intros [H1 H2 H3 H4 H5]. split; cbn [entries set_entries]; [| | |done|done].
  - intros k e. rewrite lookup_app. destruct (entries h !! k) as [x|] eqn:E; [intros [= <-]; exact (H1 k x E)|].
    apply lookup_ge_None in E. destruct (H2 k E) as [E1 E2]. intros Hk. apply list_lookup_singleton_Some in Hk as [_ <-].
    unfold entry_ok. change (sends k (set_entries _ h)) with (sends k h). rewrite E1. entry_arith.
  - intros k. rewrite length_app. intros Hk. apply H2. lia.
  - destruct H3 as (N & L & W). split_and!; [done|done|]. intros k Hk. destruct (W k Hk) as (e & He & Hs). exists e.
    split; [|done]. by rewrite lookup_app, He.
Qed.

Lemma renew_entries h : entries (renew h) = entries h /\ waiting_ (renew h) = waiting_ h.
Proof. unfold renew. by destruct (_ || _). Qed.

(** A request leaves the others alone. *)
Lemma request_other k j h : k <> j -> entries (request_with k h) !! j = entries h !! j /\
  (j ∈ waiting_ (request_with k h) -> j ∈ waiting_ h).
Proof.
  intros Hne. assert (forall f, entries (put k f h) !! j = entries h !! j) as Hp by (intros f; by rewrite entries_put, decide_False).
  unfold request_with, callback. destruct (entries h !! k) as [e|]; [|done].
  assert (forall f h', entries h' = entries (put k f h) -> waiting_ h' = waiting_ h ->
    entries h' !! j = entries h !! j /\ (j ∈ waiting_ h' -> j ∈ waiting_ h)) as Hd by (by intros f h' -> ->).
  destruct (_ || _); [by eapply Hd|]. destruct (uid_ h <=? 0); [by eapply Hd|]. destruct (_ || _); [by eapply Hd|].
  destruct (sempty (token_ h)); [|by eapply Hd]. destruct (64 <=? _); [by eapply Hd|]. clear Hd.
  set (h1 := set_waiting _ _). destruct (renew_entries h1) as [-> ->]. unfold h1. split; [by apply Hp|].
  cbn [waiting_ set_waiting]. intros [Hj| ->%list_elem_of_singleton]%elem_of_app; done.
Qed.

Lemma http_ok_requests ks : forall h, http_ok h -> NoDup ks ->
  (forall k, k ∈ ks -> (k ∉ waiting_ h) /\ exists e, entries h !! k = Some e /\ stage e = Waits) ->
  http_ok (foldl (fun h' j => request_with j h') h ks).
Proof.
  induction ks as [|k ks IH]; intros h Hh Hnd Hks; [done|]. apply NoDup_cons in Hnd as [Hk Hnd]. cbn [foldl].
  destruct (Hks k) as (Hw & e & He & Hs); [by left|]. apply IH; [|done|].
  - pose proof (ho_entries h Hh k e He) as (_ & _ & R & _). rewrite Hs in R. cbn in R.
    apply (http_ok_request k h e); [done|done|done|by rewrite Hs|]. rewrite bool_decide_eq_true_2 in R by done. lia.
  - intros j Hj. assert (k <> j) as Hne by (by intros ->). destruct (request_other k j h Hne) as [E1 E2].
    destruct (Hks j) as (Hwj & Hej); [by right|]. rewrite E1. split; [auto|done].
Qed.

Lemma not_waiting h k e : http_ok h -> entries h !! k = Some e -> stage e <> Waits -> k ∉ waiting_ h.
Proof. intros Hh He Hs Hk. destruct (ho_waiting h Hh) as (_ & _ & W). destruct (W k Hk) as (x & Hx & ?). congruence. Qed.

Lemma http_ok_token uid rid token h : http_ok h -> http_ok (on_token uid rid token h).
Proof.
  intros Hh.
  unfold on_token. destruct (_ || _ || _ || _); [done|]. cbv zeta. set (h1 := set_token _ _).
  assert (http_ok h1) as Hh1 by by apply (http_ok_same h). destruct (sempty token); [done|].
  pose proof Hh1 as [H1 H2 (N & L & W) H4 H5]. apply http_ok_requests; [|done|].
  + split; try done. cbn. split_and!; [apply NoDup_nil_2|lia|by intros k ?%elem_of_nil].
  + intros k Hk. split; [apply not_elem_of_nil|]. by apply W.
Qed.

Lemma http_ok_finished k code failed data h : http_ok h -> http_ok (on_finished k code failed data h).
Proof.
  intros Hh.
  unfold on_finished. destruct (entries h !! k) as [e|] eqn:He; [|done]. case_bool_decide as Hs; cbn [negb]; [|done].
  assert (k ∉ waiting_ h) as Hw by (eapply not_waiting; [done|done|by rewrite Hs]).
  pose proof (ho_entries h Hh k e He) as (R1 & R2 & R3 & R4 & R5). rewrite Hs in R3, R4. cbn in R3.
  destruct (_ || _); [apply (http_ok_put k _ h e); [done|done|by left|entry_arith]|].
  destruct (_ && _) eqn:Er; [|apply (http_ok_callback k _ _ h e); [done|done|by rewrite Hs|done]].
  apply andb_true_iff in Er as [Er _]. apply Z.ltb_lt in Er.
  apply (http_ok_put k _ _ e); [|by destruct (code =? 401)|left; by destruct (code =? 401)|].
  + destruct (code =? 401); [by apply (http_ok_same h)|done].
  + assert (sends k (if code =? 401 then set_token "" h else h) = sends k h) as Es by by destruct (code =? 401).
    assert (answered (if code =? 401 then set_token "" h else h) = answered h) as Ea by by destruct (code =? 401).
    assert (generation_ (if code =? 401 then set_token "" h else h) = generation_ h) as Eg by by destruct (code =? 401).
    unfold entry_ok. rewrite Es, Ea, Eg. entry_arith. by intros ?%R4.
Qed.

Lemma http_ok_retry k h : http_ok h -> http_ok (on_retry k h).
Proof.
  intros Hh.
  unfold on_retry. destruct (entries h !! k) as [e|] eqn:He; [|done]. case_bool_decide as Hs; cbn [negb]; [|done].
  assert (k ∉ waiting_ h) as Hw by (eapply not_waiting; [done|done|by rewrite Hs]).
  pose proof (ho_entries h Hh k e He) as (R1 & R2 & R3 & R4 & R5). specialize (R5 Hs).
  assert (k ∉ answered h) as Ha by (intros Hin; apply R4 in Hin; congruence).
  rewrite bool_decide_eq_false_2 in R3 by (by rewrite Hs). destruct (_ && _).
  + set (f := fun e => set_stage Waits (set_retry (retry e + 1) e)).
    assert (http_ok (put k f h)) as Hp by (apply (http_ok_put k f h e); [done|done|by right|unfold f; entry_arith]).
    apply (http_ok_request k _ (f e) Hp); [by rewrite entries_put, decide_True, He|done|done|].
    rewrite sends_put. unfold f. cbn [retry set_stage set_retry]. lia.
  + apply (http_ok_put k _ h e); [done|done|by left|entry_arith].
Qed.

Lemma http_ok_event h e : http_ok h -> http_ok (run_event h e).
Proof.
  intros Hh. assert (forall g, generation_ h <= g -> http_ok (mkResourceHttp "" 0 "" false false g "" [] (entries h) (network h) (asked h) (answers h))) as Hclear.
  { intros g Hg. apply (http_ok_same (set_waiting [] h)); try done. destruct Hh as [H1 H2 _ H4 H5]. split; try done.
    cbn. split_and!; [apply NoDup_nil_2|lia|by intros k ?%elem_of_nil]. }
  destruct e as [url uid| |r|k| |uid rid token|k code failed data|k| |g|g rid]; cbn [run_event].
  - apply (http_ok_same (reset h)); try done. apply Hclear. lia.
  - apply Hclear. lia.
  - unfold request. cbn [snd]. set (h1 := set_entries _ h). assert (http_ok h1) as Hh1 by by apply http_ok_new.
    assert (entries h1 !! length (entries h) = Some (mkEntry false (generation_ h) Waits 0 r)) as He by (apply list_lookup_middle; done).
    apply (http_ok_request _ h1 _ Hh1 He); [|done|].
    + intros Hin. destruct (ho_waiting h Hh) as (_ & _ & W). destruct (W _ Hin) as (x & Hx & _). apply lookup_lt_Some in Hx. lia.
    + cbn [retry]. change (sends (length (entries h)) h1) with (sends (length (entries h)) h). destruct (ho_known h Hh (length (entries h))) as [-> _]; lia.
  - unfold cancel. destruct (entries h !! k) as [e|] eqn:He.
    + apply (http_ok_put k _ h e); [done|done| |exact (ho_entries h Hh k e He)].
      destruct (decide (stage e = Waits)); [by right|left]. by eapply not_waiting.
    + apply (http_ok_same h); try done. apply list_eq. intros j. rewrite entries_put. case_decide; [subst; by rewrite He|done].
  - by apply http_ok_renew.
  - by apply http_ok_token.
  - by apply http_ok_finished.
  - by apply http_ok_retry.
  - unfold on_renewal. destruct (renewal_ h); [by apply http_ok_renew|done].
  - unfold on_pause. destruct (_ =? _); [by apply http_ok_renew|done].
  - unfold on_timeout. destruct (_ && _); [|done]. apply http_ok_renew. by apply (http_ok_same h).
Qed.

(** *** Requests that may no longer be answered *)

Definition silenced (k : nat) (h : ResourceHttp) : Prop :=
  exists e, entries h !! k = Some e /\ (cancelled e = true \/ e_generation e < generation_ h).

(** What the network and the callers saw of a request. *)
Definition seen (k : nat) (h : ResourceHttp) : list (nat * string * string) * list (nat * Z * string) :=
  (filter (fun x => x.1.1 = k) (network h), filter (fun x => x.1.1 = k) (answers h)).

Definition still (k : nat) (h h' : ResourceHttp) : Prop := silenced k h' /\ seen k h' = seen k h.

Lemma still_trans k h h1 h2 : still k h h1 -> still k h1 h2 -> still k h h2.
Proof. intros [_ E1] [S2 E2]. split; [done|congruence]. Qed.

Lemma still_same k h h' : silenced k h -> entries h' = entries h -> network h' = network h -> answers h' = answers h ->
  generation_ h <= generation_ h' -> still k h h'.
Proof.
  intros (e & He & Hs) E1 E2 E3 Hg. unfold still, seen. rewrite E2, E3. split; [|done]. exists e. rewrite E1. split; [done|].
  destruct Hs; [by left|right; lia].
Qed.

(** An update that keeps the flag and the generation of the entries. *)
Lemma still_put k j f h : silenced k h -> (forall e, (cancelled e = true -> cancelled (f e) = true) /\ e_generation (f e) = e_generation e) ->
  still k h (put j f h).
Proof.
  intros (e & He & Hs) Hf. split; [|done]. unfold silenced. rewrite entries_put. case_decide; [subst j; exists (f e)|by exists e].
  rewrite He. split; [done|]. destruct (Hf e) as [H1 ->]. destruct Hs; [left; auto|by right].
Qed.

Lemma still_callback k j code data h : silenced k h -> k <> j -> still k h (callback j code data h).
Proof.
  intros Hs Hne. destruct (still_put k j (set_stage Over) h Hs) as [S E]; [done|]. split; [exact S|].
  unfold seen, callback. cbn [network answers set_answers]. rewrite filter_app, filter_cons, decide_False, filter_nil, app_nil_r by (cbn; congruence).
  done.
Qed.

Lemma still_renew k h : silenced k h -> still k h (renew h).
Proof. intros Hs. unfold renew. destruct (_ || _); by apply still_same. Qed.

Lemma still_request k j h : silenced k h -> still k h (request_with j h).
Proof.
  intros Hs. unfold request_with. destruct (entries h !! j) as [e|] eqn:He; [|by apply still_same].
  destruct (_ || _) eqn:Eg; [by apply still_put|].
  assert (k <> j) as Hne.
  { intros ->. destruct Hs as (x & Hx & Hs). apply orb_false_iff in Eg as [Ec Eg%negb_false_iff%Z.eqb_eq].
    assert (x = e) as -> by congruence. destruct Hs; [congruence|lia]. }
  clear Eg. destruct (uid_ h <=? 0); [by apply still_callback|]. destruct (_ || _); [by apply still_callback|].
  destruct (sempty (token_ h)).
  - destruct (64 <=? _); [by apply still_callback|]. set (h1 := put j _ h). assert (still k h h1) as H1 by by apply still_put.
    eapply still_trans; [exact H1|]. assert (still k h1 (set_waiting (waiting_ h ++ [j]) h1)) as H2 by (apply still_same; [apply H1|done..]).
    eapply still_trans; [exact H2|]. apply still_renew, H2.
  - destruct (still_put k j (set_stage Sent) h Hs) as [S E]; [done|]. split; [exact S|].
    unfold seen. cbn [network answers set_network]. rewrite filter_app, filter_cons, decide_False, filter_nil, app_nil_r by (cbn; congruence). done.
Qed.

Lemma still_requests k ks : forall h, silenced k h -> still k h (foldl (fun h' j => request_with j h') h ks).
Proof.
  induction ks as [|j ks IH]; intros h Hs; [by apply still_same|]. cbn [foldl]. pose proof (still_request k j h Hs) as H1.
  eapply still_trans; [exact H1|]. apply IH, H1.
Qed.

Lemma still_event k h e : silenced k h -> still k h (run_event h e).
Proof.
  intros Hs. destruct e as [url uid| |r|j| |uid rid token|j code failed data|j| |g|g rid]; cbn [run_event].
  - apply still_same; try done. cbn. lia.
  - apply still_same; try done. cbn. lia.
  - unfold request. cbn [snd]. set (h1 := set_entries _ h). assert (still k h h1) as H1.
    { destruct Hs as (e & He & Hs). split; [|done]. exists e. split; [|done]. unfold h1. cbn. by rewrite lookup_app, He. }
    eapply still_trans; [exact H1|]. apply still_request, H1.
  - by apply still_put.
  - by apply still_renew.
  - unfold on_token. destruct (_ || _ || _ || _); [by apply still_same|]. cbv zeta. set (h1 := set_token _ _).
    destruct (sempty token); [by apply still_same|]. set (h2 := set_waiting _ _).
    assert (still k h h2) as H2 by by apply still_same. eapply still_trans; [exact H2|]. apply still_requests, H2.
  - unfold on_finished. destruct (entries h !! j) as [e|] eqn:He; [|by apply still_same]. destruct (negb _); [by apply still_same|].
    destruct (_ || _) eqn:Eg; [by apply still_put|]. destruct (_ && _).
    + set (h1 := if code =? 401 then _ else _). assert (still k h h1) as H1 by (unfold h1; destruct (code =? 401); by apply still_same).
      eapply still_trans; [exact H1|]. by apply still_put; [apply H1|].
    + apply still_callback; [done|]. intros ->. destruct Hs as (x & Hx & Hs). assert (x = e) as -> by congruence.
      apply orb_false_iff in Eg as [Eg%negb_false_iff%Z.eqb_eq Ec]. destruct Hs; [congruence|lia].
  - unfold on_retry. destruct (entries h !! j) as [e|] eqn:He; [|by apply still_same]. destruct (negb _); [by apply still_same|].
    destruct (_ && _); [|by apply still_put]. set (h1 := put j _ h). assert (still k h h1) as H1 by by apply still_put.
    eapply still_trans; [exact H1|]. apply still_request, H1.
  - unfold on_renewal. destruct (renewal_ h); [by apply still_renew|by apply still_same].
  - unfold on_pause. destruct (_ =? _); [by apply still_renew|by apply still_same].
  - unfold on_timeout. destruct (_ && _); [|by apply still_same]. assert (still k h (set_renewing false h)) as H1 by by apply still_same.
    eapply still_trans; [exact H1|]. apply still_renew, H1.
Qed.

Lemma still_events k es : forall h, silenced k h -> still k h (foldl run_event h es).
Proof.
  induction es as [|e es IH]; intros h Hs; [by apply still_same|]. cbn [foldl]. pose proof (still_event k h e Hs) as H1.
  eapply still_trans; [exact H1|]. apply IH, H1.
Qed.

Lemma http_ok_events es : http_ok (foldl run_event new_ResourceHttp es).
Proof.
  assert (http_ok new_ResourceHttp) as H0.
  { split; cbn; try done; [|split_and!; [apply NoDup_nil_2|lia|by intros k ?%elem_of_nil]|apply NoDup_nil_2].
    intros k _. split; [done|apply not_elem_of_nil]. }
  revert H0. generalize new_ResourceHttp. induction es as [|e es IH]; intros h Hh; [done|]. by apply IH, http_ok_event.
Qed.

(** Requests to the resource service, over any sequence of log-ins,
    requests, answers, failures and timers: the credential goes to an [https]
    endpoint only, and no request is sent without one; a request is sent at
    most six times and its caller called back at most once; and at most 64
    requests wait for a credential. *)
Theorem requests_bounded es : let h := foldl run_event new_ResourceHttp es in
  Forall (fun x => https_url x.1.2 = true /\ x.2 <> ""%string) (network h) /\
  (forall k, (sends k h <= 6)%nat) /\ NoDup (answered h) /\ (length (waiting_ h) <= 64)%nat.
Proof.
  intros h. destruct (http_ok_events es) as [H1 H2 (_ & H3 & _) H4 H5]. fold h in H1, H2, H3, H4, H5. split_and!; [done| |done|done].
  intros k. destruct (entries h !! k) as [e|] eqn:He.
  - destruct (H1 k e He) as (? & _ & Hs & _). destruct (bool_decide _); lia.
  - apply lookup_ge_None in He. destruct (H2 k He) as [-> _]. lia.
Qed.

(** A request of an earlier account is dead: once it was cancelled, or the
    account was reset or replaced, neither is it sent again, nor is its caller
    called, whatever answers and timers of it are still to come. *)
Theorem stale_request_silent before k e after : let h := foldl run_event new_ResourceHttp before in
  (k < length (entries h))%nat ->
  e = Cancels k \/ e = Resets \/ (exists url uid, e = Configures url uid) ->
  seen k (foldl run_event h (e :: after)) = seen k h.
Proof.
  intros h Hk He. apply lookup_lt_is_Some_2 in Hk as [x Hx]. pose proof (ho_entries h (http_ok_events before) k x Hx) as (_ & Hg & _).
  assert (silenced k (run_event h e) /\ seen k (run_event h e) = seen k h) as [Hs E].
  { destruct He as [->|[->|(url & uid & ->)]]; (split; [|done]).
    - exists (set_cancelled x). cbn [run_event]. unfold cancel. rewrite entries_put, decide_True, Hx by done. split; [done|by left].
    - exists x. split; [done|]. right. cbn. lia.
    - exists x. split; [done|]. right. cbn. lia. }
  cbn [foldl]. rewrite <- E. apply still_events, Hs.
Qed.

End Http.

Module Example.

Definition https (url : string) : bool := String.prefix "https://" url.
Definition uuid (n : nat) : string := "u" ++ to_string (Z.of_nat n).
Definition sign_in : list event :=
  [Configures "https://files.example" 7; Requests (mkRequest "GET" "/files/a/content" "" []); GetsToken 7 "u0" "secret"].

(** The account is left while a request is on its way; its answer comes late. *)
Lemma stale_request_silent_witness :
  seen 0 (foldl (run_event https uuid) (foldl (run_event https uuid) new_ResourceHttp sign_in)
    [Resets; Finishes 0 206 false "data"; Retries 0]) = ([(0%nat, "https://files.example", "secret")], [])%string.
Proof.
  etransitivity; [apply (stale_request_silent https uuid sign_in 0 Resets [Finishes 0 206 false "data"; Retries 0]);
    [vm_compute; lia|right; left; reflexivity]|vm_compute; reflexivity].
Defined.

End Example.
