(* ===== verification/AvatarLoader.v ===== *)
(** The client's avatars ([src/client/network/AvatarLoader.cpp]): the labels that
    show them, the cache in memory and on disk, the versions heard of, and the
    upload of a new one, over the requests of [ResourceHttp]. *)
From S2P Require Import Prelude QtJson ResourceHttp.

(** [QPixmap]: [loadFromData(data, "PNG")], and the constructor from a file with
    these contents; [None] is a null pixmap. *)
Class Pixmaps := {
  pixmap : Type;
  loadFromData : string -> option pixmap;
  fromFile : string -> option pixmap;
}.

(** ** State *)

Section Loader.
Context `{QJson} `{Pixmaps}.

(** [rounded(QPixmap(fallback), size)] or [rounded(pixmap, size)] *)
Inductive Shown :=
| Fallback (name : string) (size : Z)
| Rounded (source : pixmap) (size : Z).

(** A [QLabel] with its properties. *)
Record Label := mkLabel {
  resourceAvatarUid : Z; resourceAvatarBound : bool; resourceAvatarFallback : string; resourceAvatarSize : Z;
  shown : option Shown;
}.

Definition set_shown (x : Shown) (b : Label) : Label :=
  mkLabel (resourceAvatarUid b) (resourceAvatarBound b) (resourceAvatarFallback b) (resourceAvatarSize b) (Some x).

(** The functions that are given to [request], with what they captured. *)
Inductive Callback :=
| ProfileCallback (label : nat) (uid size : Z) (account : string)
| PictureCallback (label : nat) (uid size : Z) (account id : string) (version : N) (key path : string)
| VersionCallback (page : nat) (uid : Z) (bytes : string)
| UploadCallback (page : nat) (uid : Z).

Inductive Warning := UnfitFile | NoVersion | UploadFailed (status : Z).

(** Labels are numbered and a destroyed one leaves [None]; [connected] are the
    labels connected to [changed], in order; [cache_] has the most recently used
    first; [closed] are the pages that are gone.  [named], [loaded] and
    [notified] keep what the service answered and the last notifications. *)
Record Loader := mkLoader {
  cache_ : list (string * pixmap); versions_ : gmap Z N; labels : list (option Label); connected : list nat;
  http : ResourceHttp; callbacks : gmap nat Callback; disk : gmap string string; operations : nat;
  closed : list nat; warnings : list Warning;
  named : list (Z * string * string * N); loaded : list (string * string); notified : gmap Z N;
}.

Definition new_Loader : Loader := mkLoader [] ∅ [] [] new_ResourceHttp ∅ ∅ 0 [] [] [] [] ∅.

Definition set_cache x s := mkLoader x (versions_ s) (labels s) (connected s) (http s) (callbacks s) (disk s) (operations s) (closed s) (warnings s) (named s) (loaded s) (notified s).
Definition set_versions x s := mkLoader (cache_ s) x (labels s) (connected s) (http s) (callbacks s) (disk s) (operations s) (closed s) (warnings s) (named s) (loaded s) (notified s).
Definition set_labels x s := mkLoader (cache_ s) (versions_ s) x (connected s) (http s) (callbacks s) (disk s) (operations s) (closed s) (warnings s) (named s) (loaded s) (notified s).
Definition set_connected x s := mkLoader (cache_ s) (versions_ s) (labels s) x (http s) (callbacks s) (disk s) (operations s) (closed s) (warnings s) (named s) (loaded s) (notified s).
Definition set_http x s := mkLoader (cache_ s) (versions_ s) (labels s) (connected s) x (callbacks s) (disk s) (operations s) (closed s) (warnings s) (named s) (loaded s) (notified s).
Definition set_callback k x s := mkLoader (cache_ s) (versions_ s) (labels s) (connected s) (http s) (<[k := x]> (callbacks s)) (disk s) (operations s) (closed s) (warnings s) (named s) (loaded s) (notified s).
Definition set_disk x s := mkLoader (cache_ s) (versions_ s) (labels s) (connected s) (http s) (callbacks s) x (S (operations s)) (closed s) (warnings s) (named s) (loaded s) (notified s).
Definition set_closed x s := mkLoader (cache_ s) (versions_ s) (labels s) (connected s) (http s) (callbacks s) (disk s) (operations s) x (warnings s) (named s) (loaded s) (notified s).
Definition warn x s := mkLoader (cache_ s) (versions_ s) (labels s) (connected s) (http s) (callbacks s) (disk s) (operations s) (closed s) (warnings s ++ [x]) (named s) (loaded s) (notified s).
Definition add_named x s := mkLoader (cache_ s) (versions_ s) (labels s) (connected s) (http s) (callbacks s) (disk s) (operations s) (closed s) (warnings s) (named s ++ [x]) (loaded s) (notified s).
Definition add_loaded x s := mkLoader (cache_ s) (versions_ s) (labels s) (connected s) (http s) (callbacks s) (disk s) (operations s) (closed s) (warnings s) (named s) (loaded s ++ [x]) (notified s).
Definition set_notified x s := mkLoader (cache_ s) (versions_ s) (labels s) (connected s) (http s) (callbacks s) (disk s) (operations s) (closed s) (warnings s) (named s) (loaded s) x.

(** The URL test and identifiers of [ResourceHttp]; [QVariant::toULongLong];
    [QUrl::toEncoded]; the SHA-256 in hexadecimal; the cache directory; whether the
    n-th access to the disk succeeds. *)
Context (https_url : string -> bool) (createUuid : nat -> string) (toULongLong : qvalue -> N)
  (toEncoded sha256_hex : string -> string) (CacheLocation : string) (io : nat -> bool).

(** ** Operations *)

Definition accountKey (h : ResourceHttp) : string := sha256_hex (toEncoded (base_ h) ++ ":" ++ to_string (uid_ h)).

Definition find_label (l : nat) (s : Loader) : option Label := mjoin (labels s !! l).
Definition put_label (l : nat) (b : Label) (s : Loader) : Loader := set_labels (<[l := Some b]> (labels s)) s.

(** [label->setPixmap] *)
Definition setPixmap (l : nat) (x : Shown) (s : Loader) : Loader :=
  match find_label l s with Some b => put_label l (set_shown x b) s | None => s end.

(** [QCache] of 128 entries of cost 1: an access makes an entry the most recent,
    an insertion drops the least recent beyond the limit. *)
Definition cache_object (key : string) (s : Loader) : option pixmap * Loader :=
  match list_find (fun e => e.1 = key) (cache_ s) with
  | Some (i, e) => (Some e.2, set_cache (e :: delete i (cache_ s)) s)
  | None => (None, s)
  end.
Definition cache_insert (key : string) (p : pixmap) (s : Loader) : Loader :=
  set_cache (take 128 ((key, p) :: filter (fun e => e.1 <> key) (cache_ s))) s.

(** A request with its callback, and the status when it is refused at once. *)
Definition ask (cb : Callback) (r : Request) (s : Loader) : option Z * Loader :=
  let '(k, h) := request https_url createUuid r (http s) in
  (if (length (answers h) =? length (answers (http s)))%nat then None else (fun a => a.1.2) <$> last (answers h),
   set_callback k cb (set_http h s)).

Definition profile_path (uid : Z) : string := "/users/" ++ to_string uid ++ "/avatar".

(** A refused request calls back with 400, 401 or 503, which does nothing here. *)
Definition load (l : nat) (uid : Z) (fallback : string) (size : Z) (s : Loader) : Loader :=
  let s := setPixmap l (Fallback fallback size) s in
  if uid <=? 0 then s
  else (ask (ProfileCallback l uid size (accountKey (http s))) (mkRequest "GET" (profile_path uid) "" []) s).2.

(** [emit changed(uid)]: the slot of every label that is connected. *)
Definition on_changed (changedUid : Z) (s : Loader) (l : nat) : Loader :=
  match find_label l s with
  | Some b =>
      let uid := resourceAvatarUid b in
      if uid =? changedUid then load l uid (resourceAvatarFallback b) (resourceAvatarSize b) s else s
  | None => s
  end.
Definition changed (uid : Z) (s : Loader) : Loader := foldl (on_changed uid) s (connected s).

Definition bind (l : nat) (uid : Z) (fallback : string) (size : Z) (s : Loader) : Loader :=
  match find_label l s with
  | Some b =>
      let s := if resourceAvatarBound b then s else set_connected (connected s ++ [l]) s in
      load l uid fallback size (put_label l (mkLabel uid true fallback size (shown b)) s)
  | None => s
  end.

(** [resetAccount] and [sig_avatar_changed] *)
Definition on_resetAccount (s : Loader) : Loader := set_notified ∅ (set_versions ∅ (set_cache [] s)).
Definition on_avatar_changed (v : qvalue) (s : Loader) : Loader :=
  let uid := int_field "uid" v in
  let version := toULongLong (field "version" v) in
  changed uid (set_notified (<[uid := version]> (notified s)) (set_versions (<[uid := version]> (versions_ s)) s)).

(** The regular expression of an identifier; [$] also stands before a newline at
    the end. *)
Definition hex_digit (c : ascii) : bool :=
  let x := of_byte c in (48 <=? x) && (x <=? 57) || (97 <=? x) && (x <=? 102).
Fixpoint repeats (n : nat) (p : ascii -> bool) (s : string) : option string :=
  match n, s with
  | O, _ => Some s
  | S n, String c s => if p c then repeats n p s else None
  | S _, EmptyString => None
  end.
Definition uuid (s : string) : bool :=
  let hex n := repeats n hex_digit in
  let dash := repeats 1 (Ascii.eqb "-") in
  match foldl (fun r f => r ≫= f) (Some s) [hex 8; dash; hex 4; dash; hex 4; dash; hex 4; dash; hex 12]%nat with
  | Some EmptyString => true
  | Some (String c EmptyString) => of_byte c =? 10
  | _ => false
  end.

Definition variant (size : Z) : Z := if size <=? 64 then 64 else if size <=? 128 then 128 else 256.
Definition key_of (account id : string) (v : Z) : string := account ++ "/" ++ id ++ "-" ++ to_string v.
Definition path_of (account id : string) (v : Z) : string :=
  let directory := (CacheLocation ++ "/avatars/" ++ account)%string in directory ++ "/" ++ id ++ "-" ++ to_string v ++ ".png".

(** The label is there, still that user's, and the account the same. *)
Definition current (l : nat) (uid : Z) (account : string) (s : Loader) : bool :=
  match find_label l s with
  | Some b => (resourceAvatarUid b =? uid) && String.eqb account (accountKey (http s))
  | None => false
  end.

Definition known_version (uid : Z) (s : Loader) : N := default 0%N (versions_ s !! uid).

(** [QPixmap cached(path)] *)
Definition read_pixmap (path : string) (s : Loader) : option pixmap * Loader :=
  (if io (operations s) then disk s !! path ≫= fromFile else None, set_disk (disk s) s).

Definition profile_callback (l : nat) (uid size : Z) (account : string) (code : Z) (bytes : string) (s : Loader) : Loader :=
  if negb (current l uid account s) || negb (code =? 200) then s
  else
    let v := document bytes in
    let version := toULongLong (field "version" v) in
    let id := string_field "avatar_id" v in
    let s := add_named (uid, account, id, version) s in
    if (version <? known_version uid s)%N then s
    else
      let s := set_versions (<[uid := version]> (versions_ s)) s in
      if negb (uuid id) then s
      else
        let key := key_of account id (variant size) in
        match cache_object key s with
        | (Some cached, s) => setPixmap l (Rounded cached size) s
        | (None, s) =>
            let path := path_of account id (variant size) in
            match read_pixmap path s with
            | (Some cached, s) => setPixmap l (Rounded cached size) (cache_insert key cached s)
            | (None, s) =>
                (ask (PictureCallback l uid size account id version key path)
                   (mkRequest "GET" ("/avatars/" ++ id ++ "/" ++ to_string (variant size)) "" []) s).2
            end
        end.

(** [QSaveFile]: the file has all the data or stays as it was. *)
Definition save (path data : string) (s : Loader) : Loader :=
  set_disk (if io (operations s) then <[path := data]> (disk s) else disk s) s.

Definition picture_callback (l : nat) (uid size : Z) (account id : string) (version : N) (key path : string)
    (status : Z) (data : string) (s : Loader) : Loader :=
  if negb (current l uid account s) || negb (status =? 200) || (version <? known_version uid s)%N then s
  else
    let s := add_loaded (key, data) s in
    match loadFromData data with
    | None => s
    | Some p => setPixmap l (Rounded p size) (cache_insert key p (save path data s))
    end.

(** *** Upload *)

Definition is_closed (page : nat) (s : Loader) : bool := bool_decide (page ∈ closed s).

Definition upload_callback (page : nat) (uid status : Z) (s : Loader) : Loader :=
  if is_closed page s then s
  else if status =? 200 then changed uid s else warn (UploadFailed status) s.

(** What a refused request calls back at once is seen here. *)
Definition version_callback (page : nat) (uid : Z) (bytes : string) (code : Z) (metadata : string) (s : Loader) : Loader :=
  if is_closed page s then s
  else if negb (code =? 200) then warn NoVersion s
  else
    let version := toULongLong (field "version" (document metadata)) in
    match ask (UploadCallback page uid)
            (mkRequest "PUT" "/users/me/avatar" bytes [("If-Match"%string, to_string (Z.of_N version))]) s with
    | (Some status, s) => upload_callback page uid status s
    | (None, s) => s
    end.

(** [chosen] is the file of the dialog, [Some None] when it cannot be opened. *)
Definition chooseAndUpload (page : nat) (uid : Z) (chosen : option (option string)) (s : Loader) : Loader :=
  match chosen with
  | None => s
  | Some None => warn UnfitFile s
  | Some (Some bytes) =>
      if 5 * 1024 * 1024 <? ssize bytes then warn UnfitFile s
      else match ask (VersionCallback page uid bytes) (mkRequest "GET" (profile_path uid) "" []) s with
           | (Some code, s) => version_callback page uid bytes code "" s
           | (None, s) => s
           end
  end.

(** ** Traces *)

Definition answer (s : Loader) (a : nat * Z * string) : Loader :=
  let '(k, code, data) := a in
  match callbacks s !! k with
  | Some (ProfileCallback l uid size account) => profile_callback l uid size account code data s
  | Some (PictureCallback l uid size account id version key path) => picture_callback l uid size account id version key path code data s
  | Some (VersionCallback page uid bytes) => version_callback page uid bytes code data s
  | Some (UploadCallback page uid) => upload_callback page uid code s
  | None => s
  end.

(** An event of the network or of the credential, and the callbacks it makes. *)
Definition network_event (e : ResourceHttp.event) (s : Loader) : Loader :=
  let h := ResourceHttp.run_event https_url createUuid (http s) e in
  let fresh := drop (length (answers (http s))) (answers h) in
  let s := foldl answer (set_http h s) fresh in
  match e with
  | Resets | Configures _ _ => on_resetAccount s
  | _ => s
  end.

Inductive event :=
| CreatesLabel
| Binds (l : nat) (uid : Z) (fallback : string) (size : Z)
| DestroysLabel (l : nat)
| ClosesPage (page : nat)
| Uploads (page : nat) (uid : Z) (chosen : option (option string))
| AvatarChanged (v : qvalue)
| Network (e : ResourceHttp.event).

Definition run_event (s : Loader) (e : event) : Loader :=
  match e with
  | CreatesLabel => set_labels (labels s ++ [Some (mkLabel 0 false "" 0 None)]) s
  | Binds l uid fallback size => bind l uid fallback size s
  | DestroysLabel l => set_connected (filter (fun j => j <> l) (connected s)) (set_labels (alter (fun _ => None) l (labels s)) s)
  | ClosesPage page => set_closed (page :: closed s) s
  | Uploads page uid chosen => chooseAndUpload page uid chosen s
  | AvatarChanged v => on_avatar_changed v s
  | Network e => network_event e s
  end.

(** ** Invariant *)

(** The service answered a picture under this key, and it is this one. *)
Definition held (s : Loader) (key : string) (p : pixmap) : Prop :=
  exists data, (key, data) ∈ loaded s /\ (loadFromData data = Some p \/ fromFile data = Some p).

(** The picture of an avatar that the service named as that of the user, not
    older than the last notification. *)
Definition picture_of (s : Loader) (uid size : Z) (p : pixmap) : Prop :=
  exists account id version, (uid, account, id, version) ∈ named s /\
    (default 0 (notified s !! uid) <= version)%N /\ held s (key_of account id (variant size)) p.

(** A label that [bind] has been given. *)
Definition bound (b : Label) : bool := resourceAvatarBound b || (0 <? resourceAvatarUid b).

(** What a callback has captured; [simple] does not speak of the service. *)
Definition simple (cb : Callback) : Prop :=
  match cb with ProfileCallback _ uid _ _ => 0 < uid | PictureCallback _ _ _ _ _ _ _ _ => False | _ => True end.
Definition captured (s : Loader) (cb : Callback) : Prop :=
  match cb with
  | PictureCallback l uid size account id version key path =>
      0 < uid /\ (uid, account, id, version) ∈ named s /\ key = key_of account id (variant size) /\ path = path_of account id (variant size)
  | _ => simple cb
  end.

Record loader_ok (s : Loader) : Prop := {
  lo_labels : forall l b p size, find_label l s = Some b -> shown b = Some (Rounded p size) ->
    l ∈ connected s /\ picture_of s (resourceAvatarUid b) size p;
  lo_bound : forall l b, find_label l s = Some b -> bound b = true -> l ∈ connected s;
  lo_cache : Forall (fun e => held s e.1 e.2) (cache_ s);
  lo_disk : map_Forall (fun path data => exists account id v, path = path_of account id v /\ (key_of account id v, data) ∈ loaded s) (disk s);
  lo_callbacks : map_Forall (fun _ => captured s) (callbacks s);
  lo_versions : forall uid, (default 0 (notified s !! uid) <= known_version uid s)%N;
}.

Lemma new_ok : loader_ok new_Loader.
Proof. by split. Qed.

(** A step that shows no new picture, learns nothing of avatars, and asks for no
    picture. *)
Record calm (s s' : Loader) : Prop := {
  qu_labels : forall l b p size, find_label l s' = Some b -> shown b = Some (Rounded p size) -> find_label l s = Some b;
  qu_bound : forall l b, find_label l s' = Some b -> bound b = true ->
    (exists b', find_label l s = Some b' /\ bound b' = true) \/ l ∈ connected s';
  qu_connected : connected s ⊆ connected s';
  qu_callbacks : forall k cb, callbacks s' !! k = Some cb -> simple cb \/ exists j, callbacks s !! j = Some cb;
  qu_same : cache_ s' = cache_ s /\ disk s' = disk s /\ named s' = named s /\ loaded s' = loaded s /\ notified s' = notified s /\
    versions_ s' = versions_ s;
}.

Lemma calm_refl s : calm s s.
Proof. split; eauto. done. Qed.

Lemma calm_trans s1 s2 s3 : calm s1 s2 -> calm s2 s3 -> calm s1 s3.
Proof.
  intros [A1 A2 A3 A4 (A5 & A6 & A7 & A8 & A9 & A10)] [B1 B2 B3 B4 (B5 & B6 & B7 & B8 & B9 & B10)]. split.
  - intros l b p size Hl Hs. eauto.
  - intros l b Hl Hb. destruct (B2 l b Hl Hb) as [(b' & Hl' & Hb')|?]; [|by right]. destruct (A2 l b' Hl' Hb') as [?|?]; [by left|].
    right. by apply B3.
  - set_solver.
  - intros k cb Hk. apply B4 in Hk as [?|[j Hj]]; eauto.
  - split_and!; congruence.
Qed.

Lemma calm_ok s s' : calm s s' -> loader_ok s -> loader_ok s'.
Proof.
  intros [Q1 Q2 Q3 Q4 (E1 & E2 & E3 & E4 & E5 & E6)] [O1 O2 O3 O4 O5 O6].
  split; unfold picture_of, held, known_version in *; rewrite ?E1, ?E2, ?E3, ?E4, ?E5, ?E6; auto.
  - intros l b p size Hl Hs. destruct (O1 l b p size) as [? ?]; eauto.
  - intros l b Hl Hb. destruct (Q2 l b Hl Hb) as [(b' & ? & ?)|?]; eauto.
  - intros k cb Hk. apply Q4 in Hk as [Hc|[j Hj]]; [by destruct cb|]. apply O5 in Hj. destruct cb; cbn in *; by rewrite ?E3.
Qed.

Lemma find_put l b s j : find_label j (put_label l b s) =
  if decide (l = j /\ (l < length (labels s))%nat) then Some b else find_label j s.
Proof.
  unfold find_label, put_label. cbn. rewrite list_lookup_insert. repeat case_decide; naive_solver.
Qed.

Lemma calm_fallback l x size s : calm s (setPixmap l (Fallback x size) s).
Proof.
  unfold setPixmap. destruct (find_label l s) as [b|] eqn:El; [|apply calm_refl]. split; try done.
  - intros j b' p z. rewrite find_put. case_decide; [|done]. by intros [= <-].
  - intros j b'. rewrite find_put. case_decide as Hd; [|by eauto]. destruct Hd as [<- _]. intros [= <-] Hb. left. eauto.
  - intros k cb Hk. right. by exists k.
Qed.

Lemma calm_ask cb r s : simple cb -> calm s (ask cb r s).2.
Proof.
  intros Hcb. unfold ask. destruct (request https_url createUuid r (http s)) as [k h]. cbn [snd]. split; try done; [by eauto|].
  intros j cb' Hk. cbn in Hk. apply lookup_insert_Some in Hk as [[_ <-]|[_ E]]; eauto.
Qed.

Lemma calm_load l uid x size s : calm s (load l uid x size s).
Proof.
  unfold load. eapply calm_trans; [apply calm_fallback|]. destruct (uid <=? 0) eqn:E; [apply calm_refl|].
  apply calm_ask. cbn. lia.
Qed.

Lemma calm_on_changed uid s l : calm s (on_changed uid s l).
Proof.
  unfold on_changed. destruct (find_label l s) as [b|]; [|apply calm_refl]. destruct (_ =? _); [apply calm_load|apply calm_refl].
Qed.

Lemma calm_changed_at uid ls : forall s, calm s (foldl (on_changed uid) s ls).
Proof.
  induction ls as [|l ls IH]; intros s; [apply calm_refl|]. cbn [foldl]. eapply calm_trans; [apply calm_on_changed|apply IH].
Qed.

Lemma labels_ask cb r s : labels (ask cb r s).2 = labels s.
Proof. unfold ask. by destruct (request https_url createUuid r (http s)). Qed.

Lemma find_lt l s b : find_label l s = Some b -> (l < length (labels s))%nat.
Proof. unfold find_label. destruct (labels s !! l) eqn:E; [|done]. intros _. by apply lookup_lt_Some in E. Qed.

Lemma find_setPixmap l x s b : find_label l s = Some b -> find_label l (setPixmap l x s) = Some (set_shown x b).
Proof. intros Hl. unfold setPixmap. rewrite Hl, find_put, decide_True; [done|]. split; [done|by eapply find_lt]. Qed.

Lemma find_load l uid x size s b : find_label l s = Some b ->
  find_label l (load l uid x size s) = Some (set_shown (Fallback x size) b).
Proof.
  intros Hl. unfold load. destruct (uid <=? 0); [by apply find_setPixmap|]. unfold find_label at 1. rewrite labels_ask.
  by apply find_setPixmap.
Qed.

(** After [changed] no label that is connected shows a picture of the user. *)
Lemma changed_clears uid ls : forall s l b p size, l ∈ ls -> find_label l (foldl (on_changed uid) s ls) = Some b ->
  shown b = Some (Rounded p size) -> resourceAvatarUid b <> uid.
Proof.
  induction ls as [|j ls IH]; intros s l b p size Hl Hb Hs; [by apply elem_of_nil in Hl|]. cbn [foldl] in Hb.
  apply elem_of_cons in Hl as [->|Hl]; [|by eapply IH]. eapply (qu_labels _ _ (calm_changed_at uid ls _)) in Hb; [|done].
  pose proof (qu_labels _ _ (calm_on_changed uid s j) _ _ _ _ Hb Hs) as Hb0. intros Hu.
  unfold on_changed in Hb. rewrite Hb0 in Hb. rewrite Hu, Z.eqb_refl in Hb. rewrite (find_load _ _ _ _ _ b) in Hb by done.
  injection Hb as E. apply (f_equal shown) in E. cbn in E. congruence.
Qed.

Lemma avatar_changed_ok v s : loader_ok s -> loader_ok (on_avatar_changed v s).
Proof.
  intros [O1 O2 O3 O4 O5 O6]. unfold on_avatar_changed. cbv zeta. set (uid := int_field "uid" v). set (n := toULongLong _).
  set (s1 := set_notified _ _). unfold changed. change (connected s1) with (connected s).
  pose proof (changed_clears uid (connected s) s1) as Hc.
  destruct (calm_changed_at uid (connected s) s1) as [Q1 Q2 Q3 Q4 (E1 & E2 & E3 & E4 & E5 & E6)].
  split; unfold picture_of, held, known_version in *; rewrite ?E1, ?E2, ?E3, ?E4, ?E5, ?E6; auto.
  - intros l b p size Hl Hs. destruct (O1 l b p size (Q1 _ _ _ _ Hl Hs) Hs) as [Hin Hp]. split; [by apply Q3|].
    cbn [s1 notified set_notified]. rewrite lookup_insert_ne; [exact Hp|]. intros E. by apply (Hc l b p size Hin Hl Hs).
  - intros l b Hl Hb. destruct (Q2 l b Hl Hb) as [(b' & ? & ?)|?]; [|done]. apply Q3. by eapply O2.
  - intros k cb Hk. apply Q4 in Hk as [Hk|[j Hj]]; [by destruct cb|]. apply O5 in Hj. destruct cb; cbn in *; by rewrite ?E3.
  - intros u. cbn [s1 notified set_notified versions_ set_versions]. destruct (decide (uid = u)) as [<-|Hn].
    + by rewrite !lookup_insert_eq.
    + rewrite !lookup_insert_ne by done. apply O6.
Qed.

Lemma bind_ok l uid x size s : loader_ok s -> loader_ok (bind l uid x size s).
Proof.
  intros Hs. unfold bind. destruct (find_label l s) as [b|] eqn:El; [|done]. apply (calm_ok s); [|done].
  set (s1 := if resourceAvatarBound b then s else set_connected (connected s ++ [l]) s).
  assert (labels s1 = labels s /\ (bound b = true \/ l ∈ connected s1) /\ calm s s1) as (E & Hb & Hq).
  { unfold s1, bound. destruct (resourceAvatarBound b); [split_and!; [done|by left|apply calm_refl]|]. cbn. split_and!; [done|right; set_solver|].
    split; try done; [by eauto|set_solver|by eauto]. }
  eapply calm_trans; [exact Hq|]. assert (find_label l s1 = Some b) as El1 by (unfold find_label; by rewrite E).
  set (b2 := mkLabel uid true x size (shown b)). set (s2 := put_label l b2 s1).
  assert (find_label l s2 = Some b2) as El2.
  { unfold s2. rewrite find_put, decide_True; [done|]. split; [done|by eapply find_lt]. }
  pose proof (calm_load l uid x size s2) as [Q1 Q2 Q3 Q4 Q5]. split; [| |exact Q3|exact Q4|exact Q5].
  - intros j c p z Hj Hc. destruct (decide (j = l)) as [->|Hne].
    + rewrite (find_load _ _ _ _ _ b2) in Hj by done. by injection Hj as <-.
    + apply (Q1 j c p z) in Hj; [|done]. unfold s2 in Hj. rewrite find_put, decide_False in Hj; [done|]. by intros [-> _].
  - intros j c Hj Hc. destruct (Q2 j c Hj Hc) as [(c' & Hj' & Hc')|?]; [|by right]. destruct (decide (j = l)) as [->|Hne].
    + destruct Hb as [Hb|Hb]; [left; eauto|right]. by apply Q3.
    + left. exists c'. split; [|done]. unfold s2 in Hj'. rewrite find_put, decide_False in Hj'; [done|]. by intros [-> _].
Qed.

(** *** Pictures *)

(** A step that only learns. *)
Lemma grow_ok s s' : labels s' = labels s -> connected s' = connected s -> cache_ s' = cache_ s -> disk s' = disk s ->
  callbacks s' = callbacks s -> notified s' = notified s -> named s ⊆ named s' -> loaded s ⊆ loaded s' ->
  (forall uid, (known_version uid s <= known_version uid s')%N) -> loader_ok s -> loader_ok s'.
Proof.
  intros E1 E2 E3 E4 E5 E6 Hn Hl Hv [O1 O2 O3 O4 O5 O6].
  assert (forall key p, held s key p -> held s' key p) as Hh by (intros key p (d & ? & ?); exists d; eauto).
  split; unfold find_label in *; rewrite ?E1, ?E2, ?E3, ?E4, ?E5; auto.
  - intros l b p size Hb Hs. destruct (O1 l b p size Hb Hs) as (? & a & i & n & ? & ? & ?). split; [done|].
    exists a, i, n. rewrite E6. auto.
  - eapply Forall_impl; [exact O3|]. eauto.
  - eapply map_Forall_impl; [exact O4|]. intros path d (a & i & v & ? & ?). eauto 6.
  - eapply map_Forall_impl; [exact O5|]. intros k [] Hc; cbn in *; naive_solver.
  - intros uid. rewrite E6. etransitivity; [apply O6|apply Hv].
Qed.

Lemma cache_ok c s : Forall (fun e => held s e.1 e.2) c -> loader_ok s -> loader_ok (set_cache c s).
Proof. intros Hc [O1 O2 O3 O4 O5 O6]. by split. Qed.

Lemma insert_ok key p s : held s key p -> loader_ok s -> loader_ok (cache_insert key p s).
Proof.
  intros Hp Hs. apply cache_ok; [|done]. apply Forall_take. constructor; [done|].
  pose proof (lo_cache s Hs) as Hc. rewrite Forall_forall in *. intros e [_ He]%list_elem_of_filter. by apply Hc.
Qed.

Lemma object_ok key s r s' : cache_object key s = (r, s') -> loader_ok s ->
  loader_ok s' /\ (exists c, s' = set_cache c s) /\ (forall p, r = Some p -> held s key p).
Proof.
  unfold cache_object. intros E Hs. destruct (list_find _ (cache_ s)) as [[i e]|] eqn:El; injection E as <- <-.
  - apply list_find_Some in El as (Hi & Hk & _). pose proof (lo_cache s Hs) as Hc. rewrite Forall_lookup in Hc.
    pose proof (Hc i e Hi) as He. split_and!; [|eauto|intros p [= <-]; by rewrite <- Hk].
    apply cache_ok; [|done]. constructor; [done|]. apply Forall_delete, Hs.
  - split_and!; [done| |done]. exists (cache_ s). by destruct s.
Qed.

Lemma show_ok l p size s b : loader_ok s -> find_label l s = Some b -> 0 < resourceAvatarUid b ->
  picture_of s (resourceAvatarUid b) size p -> loader_ok (setPixmap l (Rounded p size) s).
Proof.
  intros Hs Hl Hu Hp. assert (l ∈ connected s) as Hc.
  { apply (lo_bound s Hs l b); [done|]. unfold bound. apply orb_true_iff. right. lia. }
  unfold setPixmap. rewrite Hl. destruct Hs as [O1 O2 O3 O4 O5 O6]. split; try done.
  - intros j b' q z. rewrite find_put. case_decide as Hd; [|by apply O1]. destruct Hd as [<- _]. intros [= <-]. cbn.
    by intros [= <- <-].
  - intros j b'. rewrite find_put. case_decide as Hd; [|by apply O2]. by destruct Hd as [<- _].
Qed.

Lemma ask_ok cb r s : captured s cb -> loader_ok s -> loader_ok (ask cb r s).2.
Proof.
  intros Hc [O1 O2 O3 O4 O5 O6]. unfold ask. destruct (request https_url createUuid r (http s)) as [k h]. split; try done.
  cbn [snd callbacks set_callback]. apply map_Forall_insert_2; done.
Qed.

(** The files are named after the keys. *)
Lemma path_key a i v : path_of a i v = ((CacheLocation ++ "/avatars/") ++ (key_of a i v ++ ".png"))%string.
Proof. unfold path_of, key_of. by rewrite <- !string_app_assoc. Qed.

Lemma suffix_cancel (a b c : string) : (a ++ c)%string = (b ++ c)%string -> a = b.
Proof.
  assert (forall x : string, ssize (x ++ c) = ssize x + ssize c) as Hsz by (intros x; apply ssize_app).
  revert b. induction a as [|x a IH]; intros [|y b] E; [done| | |].
  - pose proof (f_equal ssize E) as L. rewrite !Hsz in L. rewrite ssize_cons in L. pose proof (ssize_nonneg b). change (ssize EmptyString) with 0 in L. lia.
  - pose proof (f_equal ssize E) as L. rewrite !Hsz in L. rewrite ssize_cons in L. pose proof (ssize_nonneg a). change (ssize EmptyString) with 0 in L. lia.
  - cbn in E. injection E as -> E. by rewrite (IH _ E).
Qed.

Lemma path_inj a i v a' i' v' : path_of a i v = path_of a' i' v' -> key_of a i v = key_of a' i' v'.
Proof. rewrite !path_key. intros E%(inj _). by eapply suffix_cancel. Qed.

Lemma current_label l uid account s : current l uid account s = true ->
  exists b, find_label l s = Some b /\ resourceAvatarUid b = uid.
Proof. unfold current. destruct (find_label l s) as [b|]; [|done]. intros [? _]%andb_true_iff. exists b. split; [done|lia]. Qed.

Lemma read_ok account id v s r s' : read_pixmap (path_of account id v) s = (r, s') -> loader_ok s ->
  loader_ok s' /\ s' = set_disk (disk s) s /\ (forall p, r = Some p -> held s (key_of account id v) p).
Proof.
  unfold read_pixmap. intros E Hs. injection E as <- <-. split_and!; [by apply (grow_ok s)|done|].
  intros p. destruct (io (operations s)); [|done]. intros (d & Hd & Hp)%bind_Some.
  destruct (lo_disk s Hs _ _ Hd) as (a & i & w & E & Hin). apply path_inj in E. exists d. rewrite E. auto.
Qed.

Lemma profile_ok l uid size account code bytes s : 0 < uid -> loader_ok s ->
  loader_ok (profile_callback l uid size account code bytes s).
Proof.
  intros Hu Hs. unfold profile_callback. destruct (negb (current l uid account s) || negb (code =? 200)) eqn:Eg; [done|].
  apply orb_false_iff in Eg as [Eg%negb_false_iff _]. apply current_label in Eg as (b & Hb & Hbu). cbv zeta.
  set (version := toULongLong _). set (id := string_field "avatar_id" _). set (s1 := add_named _ s).
  assert (loader_ok s1) as H1 by (apply (grow_ok s); try done; cbn; set_solver).
  destruct (version <? known_version uid s1)%N eqn:Ev; [done|]. apply N.ltb_ge in Ev. set (s2 := set_versions _ s1).
  assert (loader_ok s2) as H2.
  { apply (grow_ok s1); try done. intros u. unfold s2, known_version at 2. cbn [versions_ set_versions].
    destruct (decide (uid = u)) as [<-|]; [by rewrite lookup_insert_eq|by rewrite lookup_insert_ne]. }
  assert ((uid, account, id, version) ∈ named s2) as En by (cbn; set_solver).
  assert (default 0 (notified s2 !! uid) <= version)%N as Hv by (etransitivity; [apply (lo_versions s1 H1 uid)|done]).
  assert (find_label l s2 = Some b) as Hb2 by exact Hb.
  destruct (negb (uuid id)); [done|]. clearbody s1 s2 version id. subst uid.
  assert (forall p, held s2 (key_of account id (variant size)) p -> picture_of s2 (resourceAvatarUid b) size p) as Hp.
  { intros p Hh. by exists account, id, version. }
  destruct (cache_object _ s2) as [[cached|] s3] eqn:Ec; apply object_ok in Ec as (H3 & (c & ->) & Hc); try done.
  - apply (show_ok _ _ _ _ b); [done|exact Hb2|done|]. by apply Hp, Hc.
  - destruct (read_pixmap _ _) as [[cached|] s4] eqn:Er; apply read_ok in Er as (H4 & -> & Hr); try done.
    + apply (show_ok _ _ _ _ b); [|exact Hb2|done|by apply Hp, Hr]. apply insert_ok; [by apply Hr|done].
    + by apply ask_ok.
Qed.

Lemma picture_ok l uid size account id version status data s : 0 < uid -> (uid, account, id, version) ∈ named s -> loader_ok s ->
  loader_ok (picture_callback l uid size account id version (key_of account id (variant size)) (path_of account id (variant size)) status data s).
Proof.
  intros Hu Hn Hs. unfold picture_callback. destruct (_ || _) eqn:Eg; [done|].
  apply orb_false_iff in Eg as [[Eg%negb_false_iff _]%orb_false_iff Ev%N.ltb_ge]. apply current_label in Eg as (b & Hb & <-).
  cbv zeta. set (key := key_of _ _ _). set (s1 := add_loaded _ s).
  assert (loader_ok s1) as H1 by (apply (grow_ok s); try done; cbn; set_solver).
  assert ((key, data) ∈ loaded s1) as Hl by (cbn; set_solver).
  assert (default 0 (notified s1 !! resourceAvatarUid b) <= version)%N as Hv by (etransitivity; [apply (lo_versions s Hs)|done]).
  destruct (loadFromData data) as [p|] eqn:Ep; [|done].
  assert (held s1 key p) as Hh by (exists data; auto).
  assert (loader_ok (save (path_of account id (variant size)) data s1)) as H2.
  { assert (loader_ok (set_disk (disk s1) s1)) as Hd by (by apply (grow_ok s1)). unfold save. destruct (io _); [|done].
    destruct Hd as [O1 O2 O3 O4 O5 O6]. split; try done. cbn [disk set_disk]. apply map_Forall_insert_2; [|done]. by exists account, id, (variant size). }
  apply (show_ok _ _ _ _ b); [by apply insert_ok|exact Hb|done|]. by exists account, id, version.
Qed.

(** *** Every event *)

Lemma upload_ok page uid status s : loader_ok s -> loader_ok (upload_callback page uid status s).
Proof.
  intros Hs. unfold upload_callback, changed. destruct (is_closed page s); [done|].
  destruct (status =? 200); [by eapply calm_ok; [apply calm_changed_at|]|by apply (grow_ok s)].
Qed.

Lemma version_ok page uid bytes code metadata s : loader_ok s -> loader_ok (version_callback page uid bytes code metadata s).
Proof.
  intros Hs. unfold version_callback. destruct (is_closed page s); [done|].
  destruct (negb (code =? 200)); [by apply (grow_ok s)|]. cbv zeta. destruct (ask _ _ s) as [[status|] s'] eqn:E;
    (assert (loader_ok s') as Hs' by (change s' with ((Some 0, s').2); apply (f_equal snd) in E; cbn in E; subst s'; by apply ask_ok)).
  - by apply upload_ok.
  - done.
Qed.

Lemma choose_ok page uid chosen s : loader_ok s -> loader_ok (chooseAndUpload page uid chosen s).
Proof.
  intros Hs. unfold chooseAndUpload. destruct chosen as [[bytes|]|]; [|by apply (grow_ok s)|done].
  destruct (_ <? _); [by apply (grow_ok s)|]. destruct (ask _ _ s) as [[code|] s'] eqn:E;
    (assert (loader_ok s') as Hs' by (apply (f_equal snd) in E; cbn in E; subst s'; by apply ask_ok)).
  - by apply version_ok.
  - done.
Qed.

Lemma answer_ok s a : loader_ok s -> loader_ok (answer s a).
Proof.
  intros Hs. destruct a as [[k code] data]. cbn. destruct (callbacks s !! k) as [cb|] eqn:Ek; [|done].
  pose proof (lo_callbacks s Hs k cb Ek) as Hc. destruct cb as [l uid size account|l uid size account id n key path|page uid bytes|page uid]; cbn in Hc.
  - by apply profile_ok.
  - destruct Hc as (Hu & Hn & -> & ->). by apply picture_ok.
  - by apply version_ok.
  - by apply upload_ok.
Qed.

Lemma answers_ok l : forall s, loader_ok s -> loader_ok (foldl answer s l).
Proof. induction l as [|a l IH]; intros s Hs; [done|]. by apply IH, answer_ok. Qed.

Lemma reset_ok s : loader_ok s -> loader_ok (on_resetAccount s).
Proof.
  intros [O1 O2 O3 O4 O5 O6]. split; try done.
  intros l b p size Hl Hs. destruct (O1 l b p size Hl Hs) as (? & a & i & n & ? & ? & ?). split; [done|].
  exists a, i, n. split_and!; [done|apply N.le_0_l|done].
Qed.

Lemma destroy_ok l s : loader_ok s -> loader_ok (run_event s (DestroysLabel l)).
Proof.
  intros [O1 O2 O3 O4 O5 O6]. assert (forall j b, find_label j (run_event s (DestroysLabel l)) = Some b -> j <> l /\ find_label j s = Some b) as Hf.
  { intros j b. unfold find_label. cbn. rewrite list_lookup_alter. case_decide as Hd; [subst; by destruct (labels s !! j)|by auto]. }
  split; try done.
  - intros j b p size [Hne Hj]%Hf Hs. destruct (O1 j b p size Hj Hs) as [? ?]. split; [|done]. cbn. by apply list_elem_of_filter.
  - intros j b [Hne Hj]%Hf Hb. cbn. apply list_elem_of_filter. eauto.
Qed.

Lemma event_ok s e : loader_ok s -> loader_ok (run_event s e).
Proof.
  intros Hs. destruct e as [|l uid x size|l|page|page uid chosen|v|e]; [|by apply bind_ok|by apply destroy_ok|by apply (grow_ok s)|by apply choose_ok|by apply avatar_changed_ok|].
  - apply (calm_ok s); [|done]. assert (forall l b, find_label l (run_event s CreatesLabel) = Some b ->
      find_label l s = Some b \/ b = mkLabel 0 false "" 0 None) as Hf.
    { intros l b. unfold find_label. cbn. rewrite lookup_app. destruct (labels s !! l) as [x|]; [by left|]. cbn.
      destruct (_ !! _) as [y|] eqn:E; [|done]. apply list_lookup_singleton_Some in E as [_ <-]. intros [= <-]. by right. }
    split; try done; [| |by eauto].
    + intros l b p size [?| ->]%Hf; done.
    + intros l b [?| ->]%Hf Hb; [by eauto|done].
  - cbn [run_event]. unfold network_event. assert (forall h, loader_ok (set_http h s)) as Hh by (intros h; by apply (grow_ok s)).
    destruct e; try (apply reset_ok); by apply answers_ok.
Qed.


End Loader.

Module Example.
Import ToyQJson.
Import ResourceHttp.Example.
#[local] Existing Instance toy_qjson.

#[local] Instance toy_pixmaps : Pixmaps :=
  {| pixmap := string; loadFromData data := if sempty data then None else Some data; fromFile data := Some data |}.

Definition toULongLong (v : qvalue) : N := match (v : tree) with GenLeaf (inl z) => Z.to_N z | _ => 0%N end.
Definition same (s : string) : string := s.
Definition disk_works (n : nat) : bool := true.

Abbreviation run := (run_event https uuid toULongLong same same "/cache"%string disk_works).

Definition avatar_id : string := "01234567-89ab-cdef-0123-456789abcdef".
Definition profile (version : Z) : string := toJson (qobject [("version", qint version); ("avatar_id", qstring avatar_id)]%string).

(** The label is bound to user 8 and then to user 9, and the picture of 9 comes
    after a notification of its version. *)
Definition trace : list event :=
  [CreatesLabel; Network (Configures "https://files.example" 7); Binds 0 8 "head" 40; Binds 0 9 "head" 40;
   Network (GetsToken 7 "u0" "secret"); Network (Finishes 0 200 false (profile 5)); Network (Finishes 1 200 false (profile 3));
   AvatarChanged (qobject [("uid", qint 9); ("version", qint 3)]%string);
   Network (Finishes 2 200 false "png")].


End Example.
