(* ===== verification/FileTransfer.v ===== *)
(** The client's transfers of files
    ([src/client/network/FileTransferManager.cpp]) over the requests of
    [ResourceHttp] and the files of the computer. *)
From S2P Require Import Prelude QtJson ResourceHttp.

Definition MaxFileBytes : Z := 100 * 1024 * 1024.
Definition ChunkBytes : Z := 256 * 1024.

(** ** Files *)

(** The files by their paths, and a [QFile]: name, whether it is open, and the
    position.  A file that is opened to be read and written is created. *)
Abbreviation Disk := (gmap string string).
Record QFile := mkQFile { fileName : string; isOpen : bool; pos : Z }.
Definition closed_file : QFile := mkQFile "" false 0.

(** The bytes from a position on. *)
Definition from (p n : Z) (s : string) : string := String.substring (Z.to_nat p) (Z.to_nat n) s.

Definition close (f : QFile) : QFile := mkQFile (fileName f) false (pos f).
Definition contents (f : QFile) (d : Disk) : string := default EmptyString (d !! fileName f).
Definition read (n : Z) (f : QFile) (d : Disk) : string * QFile :=
  let data := from (pos f) n (contents f d) in (data, mkQFile (fileName f) (isOpen f) (pos f + ssize data)).
Definition seek (p : Z) (f : QFile) : bool * QFile :=
  if p <? 0 then (false, f) else (true, mkQFile (fileName f) (isOpen f) p).

(** Bytes written at a position; a gap before it would be filled with zeros. *)
Definition overwrite (p : Z) (data s : string) : string :=
  (from 0 p s ++ String.concat "" (repeat (String "000" "") (Z.to_nat (p - ssize s))) ++ data
   ++ from (p + ssize data) (ssize s) s)%string.

Lemma substring_split n k s : (String.substring 0 n s ++ String.substring n k s)%string = String.substring 0 (n + k) s.
Proof.
  revert s k. induction n as [|n IH]; intros s k; [by destruct s|]. destruct s as [|c s]; [by destruct k|].
  exact (f_equal (String c) (IH s k)).
Qed.

Lemma substring_long n s : (String.length s <= n)%nat -> String.substring 0 n s = s.
Proof.
  revert n. induction s as [|c s IH]; intros [|n] Hn; cbn in *; try done; [lia|]. by rewrite IH by lia.
Qed.

Lemma length_substring n k s : String.length (String.substring n k s) = (k `min` (String.length s - n))%nat.
Proof.
  revert n k. induction s as [|c s IH]; intros n k; [destruct n, k; cbn; lia|].
  destruct n as [|n]; cbn; [destruct k; cbn; [lia|]; rewrite IH; lia|by rewrite IH].
Qed.

Lemma from_split a n s : 0 <= a -> 0 <= n -> (from 0 a s ++ from a n s)%string = from 0 (a + n) s.
Proof. intros Ha Hn. unfold from. rewrite Z2Nat.inj_add by lia. apply substring_split. Qed.

Lemma from_all n s : n = ssize s -> from 0 n s = s.
Proof. intros ->. unfold from, ssize. rewrite Nat2Z.id. by apply substring_long. Qed.

Lemma ssize_from a n s : 0 <= a <= ssize s -> 0 <= n -> ssize (from a n s) = Z.min n (ssize s - a).
Proof. intros Ha Hn. unfold from, ssize in *. rewrite length_substring. lia. Qed.

Lemma from_app a b : from 0 (ssize a) (a ++ b) = a.
Proof.
  unfold from, ssize. rewrite Nat2Z.id. induction a as [|c a IH]; [by destruct b|]. exact (f_equal (String c) IH).
Qed.

(** The next bytes of a file whose first ones are there. *)
Lemma overwrite_next a n s : 0 <= a <= ssize s -> 0 <= n -> overwrite a (from a n s) (from 0 a s) = from 0 (a + n) s.
Proof.
  intros Ha Hn. unfold overwrite. pose proof (ssize_from 0 a s ltac:(lia) ltac:(lia)) as E0.
  rewrite (from_all a) by lia. replace (Z.to_nat (a - ssize (from 0 a s))) with 0%nat by lia. cbn [repeat String.concat].
  assert (forall x y, ssize y <= x -> from x (ssize y) y = EmptyString) as Hend.
  { intros x y Hx. assert (ssize (from x (ssize y) y) = 0) as E by (unfold from, ssize in *; rewrite length_substring; lia).
    apply Z.eqb_eq in E. rewrite <- sempty_ssize in E. revert E. by destruct (from x (ssize y) y). }
  rewrite Hend by (pose proof (ssize_nonneg (from a n s)); lia). rewrite <- from_split by lia.
  by rewrite (right_id_L EmptyString String.append).
Qed.

Section Transfers.
Context `{QJson}.
(** [toVariant().toLongLong()], [QJsonObject::isEmpty()], [QJsonValue(bool)]. *)
Context (toLongLong : qvalue -> Z) (isEmpty : qvalue -> bool) (qbool : bool -> qvalue).
(** SHA-256 in hexadecimal; [QFileInfo::fileName]; [QMimeDatabase]; [QUuid]; [QUrl]. *)
Context (sha256_hex : string -> string) (baseName mimeType : string -> string) (createUuid : nat -> string) (https_url : string -> bool).
(** The outcome of the n-th operation on a file that can fail: it works, or it
    fails, a write after so many bytes. *)
Context (io : nat -> option nat).

(** ** State *)

Record UploadState := mkUpload {
  u_file : QFile; localToken : string; u_id : string; u_name : string; u_mime : string; u_sha256 : string;
  receiverUid : Z; u_total : Z; u_offset : Z; u_hash : option string;
}.
(** [metadata] is [None] for the empty object. *)
Record DownloadState := mkDownload {
  d_file : QFile; metadata : option qvalue; targetPath : string; partPath : string; d_offset : Z;
}.

Definition no_upload : UploadState := mkUpload closed_file "" "" "" "" "" 0 0 0 None.
Definition no_download : DownloadState := mkDownload closed_file None "" "" 0.

Inductive Response := UPLOAD_FILE_RSP | UPLOAD_FILE_CHUNK_RSP | UPLOAD_FILE_FINISH_RSP.

(** What the callback of a request does and has captured. *)
Inductive Callback :=
| UploadCallback (response : Response) (generation : Z)
| DownloadCallback (generation offset : Z) (id : string) (total : Z)
| NoCallback.

Inductive Signal :=
| transferAvailable (v : qvalue)
| transferRegistered (token id : string)
| progressChanged (id : string) (current total : Z)
| transferFinished (id path : string)
| transferFailed (id : string).

(** [signals] has with each signal the files as they were; [started_] the
    transfers that were started, downloads with their metadata. *)
Record Manager := mkManager {
  uploadAckTimer_ : bool; hashTimer_ : bool; uploadGeneration_ : Z; downloadGeneration_ : Z;
  uploadRequest_ : option nat; downloadRequest_ : option nat; upload_ : UploadState; download_ : DownloadState;
  available_ : list qvalue; localPaths_ : gmap string string; user : option Z;
  http : ResourceHttp; callbacks : gmap nat Callback; disk : Disk; operations : nat;
  signals : list (Signal * Disk); started_ : list (option qvalue * string);
}.

Definition new_Manager (d : Disk) : Manager :=
  mkManager false false 0 0 None None no_upload no_download [] ∅ None new_ResourceHttp ∅ d 0 [] [].

Definition set_ack x m := mkManager x (hashTimer_ m) (uploadGeneration_ m) (downloadGeneration_ m) (uploadRequest_ m) (downloadRequest_ m) (upload_ m) (download_ m) (available_ m) (localPaths_ m) (user m) (http m) (callbacks m) (disk m) (operations m) (signals m) (started_ m).
Definition set_hashing x m := mkManager (uploadAckTimer_ m) x (uploadGeneration_ m) (downloadGeneration_ m) (uploadRequest_ m) (downloadRequest_ m) (upload_ m) (download_ m) (available_ m) (localPaths_ m) (user m) (http m) (callbacks m) (disk m) (operations m) (signals m) (started_ m).
Definition next_upload m := mkManager (uploadAckTimer_ m) (hashTimer_ m) (uploadGeneration_ m + 1) (downloadGeneration_ m) (uploadRequest_ m) (downloadRequest_ m) (upload_ m) (download_ m) (available_ m) (localPaths_ m) (user m) (http m) (callbacks m) (disk m) (operations m) (signals m) (started_ m).
Definition next_download m := mkManager (uploadAckTimer_ m) (hashTimer_ m) (uploadGeneration_ m) (downloadGeneration_ m + 1) (uploadRequest_ m) (downloadRequest_ m) (upload_ m) (download_ m) (available_ m) (localPaths_ m) (user m) (http m) (callbacks m) (disk m) (operations m) (signals m) (started_ m).
Definition set_uploadRequest x m := mkManager (uploadAckTimer_ m) (hashTimer_ m) (uploadGeneration_ m) (downloadGeneration_ m) x (downloadRequest_ m) (upload_ m) (download_ m) (available_ m) (localPaths_ m) (user m) (http m) (callbacks m) (disk m) (operations m) (signals m) (started_ m).
Definition set_downloadRequest x m := mkManager (uploadAckTimer_ m) (hashTimer_ m) (uploadGeneration_ m) (downloadGeneration_ m) (uploadRequest_ m) x (upload_ m) (download_ m) (available_ m) (localPaths_ m) (user m) (http m) (callbacks m) (disk m) (operations m) (signals m) (started_ m).
Definition set_upload x m := mkManager (uploadAckTimer_ m) (hashTimer_ m) (uploadGeneration_ m) (downloadGeneration_ m) (uploadRequest_ m) (downloadRequest_ m) x (download_ m) (available_ m) (localPaths_ m) (user m) (http m) (callbacks m) (disk m) (operations m) (signals m) (started_ m).
Definition set_download x m := mkManager (uploadAckTimer_ m) (hashTimer_ m) (uploadGeneration_ m) (downloadGeneration_ m) (uploadRequest_ m) (downloadRequest_ m) (upload_ m) x (available_ m) (localPaths_ m) (user m) (http m) (callbacks m) (disk m) (operations m) (signals m) (started_ m).
Definition set_available x m := mkManager (uploadAckTimer_ m) (hashTimer_ m) (uploadGeneration_ m) (downloadGeneration_ m) (uploadRequest_ m) (downloadRequest_ m) (upload_ m) (download_ m) x (localPaths_ m) (user m) (http m) (callbacks m) (disk m) (operations m) (signals m) (started_ m).
Definition set_localPaths x m := mkManager (uploadAckTimer_ m) (hashTimer_ m) (uploadGeneration_ m) (downloadGeneration_ m) (uploadRequest_ m) (downloadRequest_ m) (upload_ m) (download_ m) (available_ m) x (user m) (http m) (callbacks m) (disk m) (operations m) (signals m) (started_ m).
Definition set_user x m := mkManager (uploadAckTimer_ m) (hashTimer_ m) (uploadGeneration_ m) (downloadGeneration_ m) (uploadRequest_ m) (downloadRequest_ m) (upload_ m) (download_ m) (available_ m) (localPaths_ m) x (http m) (callbacks m) (disk m) (operations m) (signals m) (started_ m).
Definition set_http x m := mkManager (uploadAckTimer_ m) (hashTimer_ m) (uploadGeneration_ m) (downloadGeneration_ m) (uploadRequest_ m) (downloadRequest_ m) (upload_ m) (download_ m) (available_ m) (localPaths_ m) (user m) x (callbacks m) (disk m) (operations m) (signals m) (started_ m).
Definition set_callback k x m := mkManager (uploadAckTimer_ m) (hashTimer_ m) (uploadGeneration_ m) (downloadGeneration_ m) (uploadRequest_ m) (downloadRequest_ m) (upload_ m) (download_ m) (available_ m) (localPaths_ m) (user m) (http m) (<[k := x]> (callbacks m)) (disk m) (operations m) (signals m) (started_ m).
Definition set_disk x m := mkManager (uploadAckTimer_ m) (hashTimer_ m) (uploadGeneration_ m) (downloadGeneration_ m) (uploadRequest_ m) (downloadRequest_ m) (upload_ m) (download_ m) (available_ m) (localPaths_ m) (user m) (http m) (callbacks m) x (S (operations m)) (signals m) (started_ m).
Definition add_started md p m := mkManager (uploadAckTimer_ m) (hashTimer_ m) (uploadGeneration_ m) (downloadGeneration_ m) (uploadRequest_ m) (downloadRequest_ m) (upload_ m) (download_ m) (available_ m) (localPaths_ m) (user m) (http m) (callbacks m) (disk m) (operations m) (signals m) (started_ m ++ [(md, p)]).
Definition emit (s : Signal) m := mkManager (uploadAckTimer_ m) (hashTimer_ m) (uploadGeneration_ m) (downloadGeneration_ m) (uploadRequest_ m) (downloadRequest_ m) (upload_ m) (download_ m) (available_ m) (localPaths_ m) (user m) (http m) (callbacks m) (disk m) (operations m) (signals m ++ [(s, disk m)]) (started_ m).

(** ** Requests *)

Definition cancel_request (r : option nat) (m : Manager) : Manager :=
  match r with Some k => set_http (ResourceHttp.cancel k (http m)) m | None => m end.

(** A request with its callback, and the answer when it is refused at once. *)
Definition ask (cb : Callback) (r : Request) (m : Manager) : nat * option (Z * string) * Manager :=
  let '(k, h) := request https_url createUuid r (http m) in
  (k, if (length (answers h) =? length (answers (http m)))%nat then None
      else (fun a => (a.1.2, a.2)) <$> last (answers h),
   set_callback k cb (set_http h m)).

(** ** Uploads *)

Definition failUpload (m : Manager) : Manager :=
  let m := next_upload m in
  let m := set_uploadRequest None (cancel_request (uploadRequest_ m) m) in
  let u := upload_ m in
  let token := if sempty (u_id u) then localToken u else u_id u in
  let m := set_hashing false (set_ack false m) in
  let m := set_upload (mkUpload (close (u_file u)) "" "" (u_name u) (u_mime u) "" (receiverUid u) (u_total u) 0 None) m in
  emit (transferFailed token) m.

(** A request that is refused at once is refused with 400, 401 or 503. *)
Definition httpJson (response : Response) (method path body : string) (m : Manager) : Manager :=
  let m := cancel_request (uploadRequest_ m) m in
  let generation := uploadGeneration_ m in
  let content_type := if String.eqb method "PUT" then "application/octet-stream"%string else "application/json"%string in
  let '(k, refused, m) := ask (UploadCallback response generation)
                            (mkRequest method path body [("Content-Type"%string, content_type)]) m in
  let m := match refused with Some _ => failUpload m | None => m end in
  set_uploadRequest (Some k) m.

Definition sendUploadInit (m : Manager) : Manager :=
  let m := set_ack true m in
  let u := upload_ m in
  let body := set_field "idempotency_key" (qstring (localToken u))
    (qobject [("touid", qint (receiverUid u)); ("name", qstring (u_name u)); ("mime", qstring (u_mime u));
              ("total_size", qint (u_total u)); ("sha256", qstring (u_sha256 u))]%string) in
  if negb (sempty (u_id u)) then httpJson UPLOAD_FILE_RSP "GET" ("/uploads/" ++ u_id u) "" m
  else httpJson UPLOAD_FILE_RSP "POST" "/uploads" (toJson body) m.

Definition set_u_file (f : QFile) (u : UploadState) : UploadState :=
  mkUpload f (localToken u) (u_id u) (u_name u) (u_mime u) (u_sha256 u) (receiverUid u) (u_total u) (u_offset u) (u_hash u).
Definition set_u_hash (x : option string) (u : UploadState) : UploadState :=
  mkUpload (u_file u) (localToken u) (u_id u) (u_name u) (u_mime u) (u_sha256 u) (receiverUid u) (u_total u) (u_offset u) x.
Definition set_u_sha256 (x : string) (u : UploadState) : UploadState :=
  mkUpload (u_file u) (localToken u) (u_id u) (u_name u) (u_mime u) x (receiverUid u) (u_total u) (u_offset u) (u_hash u).
Definition set_u_id (x : string) (u : UploadState) : UploadState :=
  mkUpload (u_file u) (localToken u) x (u_name u) (u_mime u) (u_sha256 u) (receiverUid u) (u_total u) (u_offset u) (u_hash u).
Definition set_u_offset (x : Z) (u : UploadState) : UploadState :=
  mkUpload (u_file u) (localToken u) (u_id u) (u_name u) (u_mime u) (u_sha256 u) (receiverUid u) (u_total u) x (u_hash u).

Definition startUpload (p : string) (receiver : Z) (m : Manager) : string * Manager :=
  match disk m !! p with
  | Some content =>
      if isOpen (u_file (upload_ m)) || (MaxFileBytes <? ssize content) || (receiver <=? 0)
      then (EmptyString, emit (transferFailed "") m)
      else
        let m := add_started None p (next_upload m) in
        match io (operations m) with
        | Some _ =>
            ("", emit (transferFailed "") (set_disk (disk m) (set_upload (set_u_file (mkQFile p false 0) (upload_ m)) m)))%string
        | None =>
            let m := set_disk (disk m) m in
            let token := createUuid (operations m) in
            (token, set_hashing true
               (set_upload (mkUpload (mkQFile p true 0) token "" (baseName p) (mimeType p) "" receiver (ssize content) 0 (Some EmptyString)) m))
        end
  | None => (EmptyString, emit (transferFailed "") m)
  end.

Definition hashUploadStep (m : Manager) : Manager :=
  let u := upload_ m in
  let '(data, f) := read (1024 * 1024) (u_file u) (disk m) in
  let u := set_u_file f u in
  if negb (sempty data) then set_upload (set_u_hash ((fun h => h ++ data)%string <$> u_hash u) u) m
  else
    let m := set_hashing false m in
    let u := set_u_file (seek 0 f).2 u in
    sendUploadInit (set_upload (set_u_sha256 (sha256_hex (default EmptyString (u_hash u))) u) m).

Definition sendNextUploadChunk (m : Manager) : Manager :=
  let u := upload_ m in
  let '(ok, f) := seek (u_offset u) (u_file u) in
  if negb ok then failUpload m
  else
    let m := set_ack true m in
    let '(data, f) := read ChunkBytes f (disk m) in
    let m := set_upload (set_u_file f u) m in
    if sempty data then httpJson UPLOAD_FILE_FINISH_RSP "POST" ("/uploads/" ++ u_id u ++ "/complete") "" m
    else httpJson UPLOAD_FILE_CHUNK_RSP "PUT" ("/uploads/" ++ u_id u ++ "/chunks?offset=" ++ to_string (u_offset u)) data m.

(** The end of an upload: the file is known under its identifier. *)
Definition finish_upload (value : qvalue) (m : Manager) : Manager :=
  let u := upload_ m in
  let idValue := u_id u in
  let localPath := fileName (u_file u) in
  let m := set_localPaths (<[idValue := localPath]> (localPaths_ m)) m in
  let known := existsb (fun item => String.eqb (string_field "id" item) idValue) (available_ m) in
  let m := if known then m else set_available (available_ m ++ [set_field "completed" (qbool true) value]) m in
  let m := set_upload (mkUpload (close (u_file u)) "" "" "" "" "" 0 0 0 None) m in
  emit (transferFinished idValue localPath) m.

(** [handleFrame] on the answer to an upload. *)
Definition handle_upload (response : Response) (value : qvalue) (m : Manager) : Manager :=
  let u := upload_ m in
  if negb (isOpen (u_file u)) then m
  else if negb (sempty (u_id u)) && contains "id" value && negb (String.eqb (string_field "id" value) (u_id u)) then m
  else
    let m := set_ack false m in
    if negb (int_field "error" value =? 0) then failUpload m
    else match response with
         | UPLOAD_FILE_RSP =>
             let m := set_upload (set_u_id (string_field "id" value) (upload_ m)) m in
             let m := emit (transferRegistered (localToken (upload_ m)) (u_id (upload_ m))) m in
             sendNextUploadChunk (set_upload (set_u_offset (toLongLong (field "offset" value)) (upload_ m)) m)
         | UPLOAD_FILE_CHUNK_RSP =>
             let m := set_upload (set_u_offset (toLongLong (field "offset" value)) (upload_ m)) m in
             sendNextUploadChunk (emit (progressChanged (u_id (upload_ m)) (u_offset (upload_ m)) (u_total (upload_ m))) m)
         | UPLOAD_FILE_FINISH_RSP => finish_upload value m
         end.

Definition upload_callback (response : Response) (generation code : Z) (data : string) (m : Manager) : Manager :=
  if negb (generation =? uploadGeneration_ m) then m
  else if (code =? 409) && match response with UPLOAD_FILE_CHUNK_RSP => contains "offset" (document data) | _ => false end
  then sendUploadInit m
  else
    let value := document data in
    if (400 <=? code) || isEmpty value then failUpload m else handle_upload response value m.

(** ** Downloads *)

Definition set_d_file (f : QFile) (d : DownloadState) : DownloadState :=
  mkDownload f (metadata d) (targetPath d) (partPath d) (d_offset d).
Definition set_metadata (x : option qvalue) (d : DownloadState) : DownloadState :=
  mkDownload (d_file d) x (targetPath d) (partPath d) (d_offset d).
Definition set_d_offset (x : Z) (d : DownloadState) : DownloadState :=
  mkDownload (d_file d) (metadata d) (targetPath d) (partPath d) x.

Definition meta (m : Manager) : qvalue := default (qobject []) (metadata (download_ m)).
Definition total_of (md : qvalue) : Z := toLongLong (field "total_size" md).

(** The file is closed and the metadata forgotten. *)
Definition drop_download (m : Manager) : Manager :=
  set_download (set_metadata None (set_d_file (close (d_file (download_ m))) (download_ m))) m.

(** [QFile::remove] and [QFile::rename], which does not replace a file. *)
Definition remove_file (p : string) (m : Manager) : Manager :=
  set_disk (match io (operations m) with None => delete p (disk m) | Some _ => disk m end) m.
Definition rename_file (p q : string) (m : Manager) : bool * Manager :=
  match io (operations m), disk m !! p, disk m !! q with
  | None, Some content, None => (true, set_disk (<[q := content]> (delete p (disk m))) m)
  | _, _, _ => (false, set_disk (disk m) m)
  end.

(** [handleFrame] when all bytes are there. *)
Definition complete_download (m : Manager) : Manager :=
  let md := meta m in
  let d := download_ m in
  let idValue := string_field "id" md in
  if negb (int_field "error" md =? 0) then emit (transferFailed idValue) (drop_download m)
  else if negb (String.eqb (sha256_hex (contents (d_file d) (disk m))) (string_field "sha256" md))
  then drop_download (emit (transferFailed idValue) (set_download (set_d_file (close (d_file d)) d) m))
  else
    let m := set_download (set_d_file (close (d_file d)) d) m in
    let '(ok, m) := rename_file (partPath d) (targetPath d) (remove_file (targetPath d) m) in
    if negb ok then drop_download (emit (transferFailed idValue) m)
    else
      let '(_, _, m) := ask NoCallback (mkRequest "POST" ("/files/" ++ idValue ++ "/downloaded") "" []) m in
      let m := set_localPaths (<[idValue := targetPath d]> (localPaths_ m)) m in
      let m := set_download (mkDownload (d_file (download_ m)) None "" "" 0) m in
      emit (transferFinished idValue (targetPath d)) m.

Definition range (offset total : Z) : string :=
  "bytes=" ++ to_string offset ++ "-" ++ to_string (Z.min (total - 1) (offset + ChunkBytes - 1)).

Definition requestDownloadChunk (m : Manager) : Manager :=
  let m := cancel_request (downloadRequest_ m) m in
  let id := string_field "id" (meta m) in
  let total := total_of (meta m) in
  let offset := d_offset (download_ m) in
  if offset =? total then complete_download m
  else
    let '(k, refused, m) := ask (DownloadCallback (downloadGeneration_ m) offset id total)
                              (mkRequest "GET" ("/files/" ++ id ++ "/content") "" [("Range"%string, range offset total)]) m in
    let m := match refused with Some _ => emit (transferFailed id) (drop_download m) | None => m end in
    set_downloadRequest (Some k) m.

(** [file.write(data)] at the position, whether all of it was written. *)
Definition write (data : string) (m : Manager) : bool * Manager :=
  let f := d_file (download_ m) in
  if negb (isOpen f) then (false, m)
  else
    let data := match io (operations m) with None => data | Some n => from 0 (Z.min (Z.of_nat n) (ssize data - 1)) data end in
    let ok := match io (operations m) with None => true | Some _ => false end in
    (ok, set_disk (<[fileName f := overwrite (pos f) data (contents f (disk m))]> (disk m))
           (set_download (set_d_file (mkQFile (fileName f) (isOpen f) (pos f + ssize data)) (download_ m)) m)).

(** [handleFrame] on the bytes of a range. *)
Definition download_chunk (offset : Z) (data : string) (m : Manager) : Manager :=
  let md := meta m in
  let idValue := string_field "id" md in
  if negb (int_field "error" md =? 0) then emit (transferFailed idValue) (drop_download m)
  else if toBool (field "complete" md) then complete_download m
  else if negb (offset =? d_offset (download_ m)) then emit (transferFailed idValue) m
  else
    let '(ok, m) := write data m in
    if negb ok then emit (transferFailed idValue) m
    else
      let m := set_download (set_d_offset (offset + ssize data) (download_ m)) m in
      requestDownloadChunk (emit (progressChanged idValue (d_offset (download_ m)) (total_of md)) m).

Definition download_callback (generation offset : Z) (id : string) (total code : Z) (data : string) (m : Manager) : Manager :=
  if negb (generation =? downloadGeneration_ m) || negb (String.eqb (string_field "id" (meta m)) id) then m
  else if negb (code =? 206) || sempty data || (Z.min ChunkBytes (total - offset) <? ssize data)
  then emit (transferFailed id) (drop_download m)
  else download_chunk offset data m.

Definition startDownload (md : qvalue) (savePath : string) (m : Manager) : Manager :=
  if isOpen (d_file (download_ m)) || sempty savePath then emit (transferFailed (string_field "id" md)) m
  else
    let m := add_started (Some md) savePath (next_download m) in
    let part := (savePath ++ ".part")%string in
    let offset := d_offset (download_ m) in
    match io (operations m) with
    | Some _ =>
        emit (transferFailed (string_field "id" md))
          (set_disk (disk m) (set_download (mkDownload (mkQFile part false 0) (Some md) savePath part offset) m))
    | None =>
        let content := default EmptyString (disk m !! part) in
        let size := ssize content in
        let stale := (total_of md <? size) || negb (size mod (32 * 1024) =? 0) in
        let content := if stale then EmptyString else content in
        let size := if stale then 0 else size in
        let m := set_disk (<[part := content]> (disk m)) m in
        requestDownloadChunk (set_download (mkDownload (mkQFile part true size) (Some md) savePath part size) m)
    end.

(** ** Both *)

Definition cancel (transferId : string) (m : Manager) : Manager :=
  let u := upload_ m in
  let remoteId := if String.eqb (localToken u) transferId then u_id u else transferId in
  let m := if negb (sempty remoteId) && String.eqb (u_id u) remoteId
           then (ask NoCallback (mkRequest "DELETE" ("/uploads/" ++ remoteId) "" []) m).2 else m in
  let m := if String.eqb (u_id u) transferId || String.eqb (localToken u) transferId
           then
             let m := next_upload m in
             let m := set_uploadRequest None (cancel_request (uploadRequest_ m) m) in
             set_hashing false (set_upload (mkUpload (close (u_file u)) "" "" "" "" "" 0 0 0 None) (set_ack false m))
           else m in
  let m := if String.eqb (string_field "id" (meta m)) transferId
           then
             let m := next_download m in
             let m := set_downloadRequest None (cancel_request (downloadRequest_ m) m) in
             set_download (mkDownload (close (d_file (download_ m))) None "" "" 0) m
           else m in
  emit (transferFailed transferId) m.

(** [resetAccount] *)
Definition account_reset (m : Manager) : Manager :=
  let m := set_hashing false (set_ack false (next_download (next_upload m))) in
  let m := cancel_request (downloadRequest_ m) (cancel_request (uploadRequest_ m) m) in
  let m := set_downloadRequest None (set_uploadRequest None m) in
  let m := set_upload (mkUpload (close (u_file (upload_ m))) "" "" "" "" "" 0 0 0 None) m in
  let m := set_download (mkDownload (close (d_file (download_ m))) None "" "" 0) m in
  set_localPaths ∅ (set_available [] m).

(** [sig_file_available] *)
Definition file_available (md : qvalue) (m : Manager) : Manager :=
  match user m with
  | None => m
  | Some uid =>
      if negb (int_field "fromuid" md =? uid) && negb (int_field "touid" md =? uid) then m
      else
        let id := string_field "id" md in
        if sempty id then m
        else if existsb (fun old => String.eqb (string_field "id" old) id) (available_ m) then m
        else
          let complete := set_field "completed" (qbool true) md in
          emit (transferAvailable complete) (set_available (available_ m ++ [complete]) m)
  end.

Definition resumeActiveTransfers (m : Manager) : Manager :=
  let m := if isOpen (u_file (upload_ m)) && negb (sempty (u_sha256 (upload_ m))) then sendUploadInit m else m in
  match isOpen (d_file (download_ m)), metadata (download_ m) with
  | true, Some _ => requestDownloadChunk m
  | _, _ => m
  end.

Definition availableForPeer (peerUid : Z) (m : Manager) : list qvalue :=
  match user m with
  | None => []
  | Some uid =>
      filter (fun item => (int_field "fromuid" item = peerUid /\ int_field "touid" item = uid) \/
                          (int_field "touid" item = peerUid /\ int_field "fromuid" item = uid)) (available_ m)
  end.

(** ** Traces *)

Definition answer (m : Manager) (a : nat * Z * string) : Manager :=
  let '(k, code, data) := a in
  match callbacks m !! k with
  | Some (UploadCallback response generation) => upload_callback response generation code data m
  | Some (DownloadCallback generation offset id total) => download_callback generation offset id total code data m
  | _ => m
  end.

(** An event of the network or of the credential, and the callbacks it makes. *)
Definition network_event (e : ResourceHttp.event) (m : Manager) : Manager :=
  let h := ResourceHttp.run_event https_url createUuid (http m) e in
  let fresh := drop (length (answers (http m))) (answers h) in
  let m := foldl answer (set_http h m) fresh in
  match e with
  | Resets | Configures _ _ => account_reset m
  | _ => m
  end.

Inductive event :=
| StartsUpload (path : string) (receiver : Z)
| HashTimer
| AckTimer
| StartsDownload (md : qvalue) (path : string)
| CancelsTransfer (id : string)
| BecomesAvailable (md : qvalue)
| Reconnects
| LogsIn (uid : Z)
| Network (e : ResourceHttp.event)
| OtherProgram (path content : string).

Definition run_event (m : Manager) (e : event) : Manager :=
  match e with
  | StartsUpload p receiver => (startUpload p receiver m).2
  | HashTimer => if hashTimer_ m then hashUploadStep m else m
  | AckTimer => if uploadAckTimer_ m then failUpload m else m
  | StartsDownload md p => startDownload md p m
  | CancelsTransfer id => cancel id m
  | BecomesAvailable md => file_available md m
  | Reconnects => resumeActiveTransfers (set_http (renew createUuid (http m)) m)
  | LogsIn uid => set_user (Some uid) m
  | Network e => network_event e m
  | OtherProgram p content => set_disk (<[p := content]> (disk m)) m
  end.

(** ** Finished transfers *)

Lemma append_nonempty (a b : string) : (a ++ b)%string = a -> b = EmptyString.
Proof. induction a as [|c a IH]; cbn; [done|]. intros [= E]. auto. Qed.

(** A transfer that is reported as finished: an upload of the file, or a
    download whose bytes are at the path and have the digest of its metadata. *)
Definition finished_ok (l : list (option qvalue * string)) (s : Signal * Disk) : Prop :=
  forall id p, s.1 = transferFinished id p -> (None, p) ∈ l \/
    exists md content, (Some md, p) ∈ l /\ string_field "id" md = id /\ s.2 !! p = Some content /\
      sha256_hex content = string_field "sha256" md.

Record sound (m : Manager) : Prop := {
  so_signals : Forall (finished_ok (started_ m)) (signals m);
  so_download : forall md, metadata (download_ m) = Some md -> (Some md, targetPath (download_ m)) ∈ started_ m /\
    partPath (download_ m) = (targetPath (download_ m) ++ ".part")%string /\ fileName (d_file (download_ m)) = partPath (download_ m);
  so_open : isOpen (d_file (download_ m)) = true -> metadata (download_ m) <> None;
  so_upload : isOpen (u_file (upload_ m)) = true -> (None, fileName (u_file (upload_ m))) ∈ started_ m;
}.

(** A step that starts nothing, and says nothing of a finished transfer. *)
Lemma sound_step m m' : sound m -> started_ m' = started_ m ->
  (signals m' = signals m \/ exists x d, signals m' = signals m ++ [(x, d)] /\ forall id p, x <> transferFinished id p) ->
  (download_ m' = download_ m \/ metadata (download_ m') = None /\ isOpen (d_file (download_ m')) = false) ->
  (isOpen (u_file (upload_ m')) = true -> isOpen (u_file (upload_ m)) = true /\ fileName (u_file (upload_ m')) = fileName (u_file (upload_ m))) ->
  sound m'.
Proof.
  intros [H1 H2 H3 H4] Es Hsig Hd Hu. split; rewrite ?Es.
  - destruct Hsig as [->|(x & d & -> & Hx)]; [done|]. apply Forall_app. split; [done|]. apply Forall_singleton. intros id p E.
    cbn in E. by apply Hx in E.
  - destruct Hd as [->|[E _]]; [done|]. intros md. by rewrite E.
  - destruct Hd as [->|[_ E]]; [done|]. by rewrite E.
  - intros Ho. destruct (Hu Ho) as [Ho' ->]. auto.
Qed.

Lemma sound_same m m' : started_ m' = started_ m -> signals m' = signals m -> download_ m' = download_ m -> upload_ m' = upload_ m ->
  sound m -> sound m'.
Proof. intros E1 E2 E3 E4 Hm. apply (sound_step m); auto. by rewrite E4. Qed.

Lemma sound_emit x m : (forall id p, x <> transferFinished id p) -> sound m -> sound (emit x m).
Proof. intros Hx Hm. apply (sound_step m); auto. right. by exists x, (disk m). Qed.

Lemma cancel_request_same r m : started_ (cancel_request r m) = started_ m /\ signals (cancel_request r m) = signals m /\
  download_ (cancel_request r m) = download_ m /\ upload_ (cancel_request r m) = upload_ m.
Proof. by destruct r. Qed.

Lemma sound_cancel_request r m : sound m -> sound (cancel_request r m).
Proof. destruct (cancel_request_same r m) as (? & ? & ? & ?). by apply sound_same. Qed.

Lemma ask_same cb r m : let m' := (ask cb r m).2 in started_ m' = started_ m /\ signals m' = signals m /\
  download_ m' = download_ m /\ upload_ m' = upload_ m /\ disk m' = disk m.
Proof. unfold ask. by destruct (request _ _ r (http m)). Qed.

Lemma sound_upload u m : (isOpen (u_file u) = true -> isOpen (u_file (upload_ m)) = true /\ fileName (u_file u) = fileName (u_file (upload_ m))) ->
  sound m -> sound (set_upload u m).
Proof. intros Hu Hm. apply (sound_step m); auto. Qed.

Lemma sound_failUpload m : sound m -> sound (failUpload m).
Proof.
  intros Hm. unfold failUpload. cbv zeta. apply sound_emit; [done|]. apply sound_upload; [done|].
  apply (sound_same (set_uploadRequest None (cancel_request (uploadRequest_ m) (next_upload m)))); try done.
  apply (sound_same (cancel_request (uploadRequest_ m) (next_upload m))); try done. apply sound_cancel_request. by apply (sound_same m).
Qed.

Lemma sound_httpJson response meth p b m : sound m -> sound (httpJson response meth p b m).
Proof.
  intros Hm. unfold httpJson. cbv zeta. apply (sound_cancel_request (uploadRequest_ m)) in Hm. set (m1 := cancel_request _ m) in *.
  set (cb := UploadCallback _ _). set (r := mkRequest _ _ _ _). destruct (ask_same cb r m1) as (E1 & E2 & E3 & E4 & _).
  destruct (ask cb r m1) as [[k refused] m2]. cbn [snd] in *. assert (sound m2) as Hm2 by by apply (sound_same m1).
  destruct refused; [apply sound_failUpload in Hm2|]; by eapply sound_same, Hm2.
Qed.

Lemma sound_init m : sound m -> sound (sendUploadInit m).
Proof.
  intros Hm. unfold sendUploadInit. cbv zeta. assert (sound (set_ack true m)) by by apply (sound_same m).
  destruct (negb _); by apply sound_httpJson.
Qed.

Lemma seek_name p f : fileName (seek p f).2 = fileName f /\ isOpen (seek p f).2 = isOpen f.
Proof. unfold seek. by destruct (p <? 0). Qed.

Lemma sound_next_chunk m : sound m -> sound (sendNextUploadChunk m).
Proof.
  intros Hm. unfold sendNextUploadChunk. cbv zeta. destruct (seek_name (u_offset (upload_ m)) (u_file (upload_ m))) as [En Eo].
  destruct (seek _ _) as [ok f]. cbn [snd] in *. destruct (negb ok); [by apply sound_failUpload|]. unfold read.
  set (m1 := set_upload _ _). assert (sound m1) as Hm1.
  { apply sound_upload; [cbn; by rewrite Eo, En|]. by apply (sound_same m). }
  destruct (sempty _); by apply sound_httpJson.
Qed.

Lemma sound_hash m : sound m -> sound (hashUploadStep m).
Proof.
  intros Hm. unfold hashUploadStep, read. cbv zeta. destruct (negb _).
  - by apply sound_upload.
  - apply sound_init, sound_upload; [done|]. by apply (sound_same m).
Qed.

Lemma sound_finish_upload v m : sound m -> isOpen (u_file (upload_ m)) = true -> sound (finish_upload v m).
Proof.
  intros [H1 H2 H3 H4] Ho. unfold finish_upload. cbv zeta. set (m1 := if existsb _ _ then _ else _).
  assert (started_ m1 = started_ m /\ signals m1 = signals m /\ download_ m1 = download_ m) as (E1 & E2 & E3) by (unfold m1; by destruct (existsb _ _)).
  split; cbn; rewrite ?E1, ?E2, ?E3; try done. apply Forall_app. split; [done|]. apply Forall_singleton. intros id p [= _ <-]. left. auto.
Qed.

Lemma sound_handle_upload response v m : sound m -> sound (handle_upload response v m).
Proof.
  intros Hm. unfold handle_upload. cbv zeta. destruct (isOpen (u_file (upload_ m))) eqn:Ho; [|done]. cbn [negb].
  destruct (_ && _ && _); [done|]. assert (sound (set_ack false m)) as Hm1 by by apply (sound_same m).
  destruct (negb _); [by apply sound_failUpload|]. destruct response.
  - apply sound_next_chunk, sound_upload; [done|]. apply sound_emit; [done|]. by apply sound_upload.
  - apply sound_next_chunk, sound_emit; [done|]. by apply sound_upload.
  - by apply sound_finish_upload.
Qed.

Lemma sound_upload_callback response g code data m : sound m -> sound (upload_callback response g code data m).
Proof.
  intros Hm. unfold upload_callback. cbv zeta. destruct (negb _); [done|]. destruct (_ && _); [by apply sound_init|].
  destruct (_ || _); [by apply sound_failUpload|by apply sound_handle_upload].
Qed.

(** *** Downloads *)

Lemma sound_drop m : sound m -> sound (drop_download m).
Proof. intros Hm. apply (sound_step m); auto. Qed.

(** The download goes on with the same metadata and paths. *)
Lemma sound_download d m : metadata d = metadata (download_ m) -> targetPath d = targetPath (download_ m) ->
  partPath d = partPath (download_ m) -> fileName (d_file d) = fileName (d_file (download_ m)) ->
  (isOpen (d_file d) = true -> isOpen (d_file (download_ m)) = true) -> sound m -> sound (set_download d m).
Proof.
  intros E1 E2 E3 E4 Ho [H1 H2 H3 H4]. split; cbn; rewrite ?E1, ?E2, ?E3, ?E4; auto.
Qed.

(** The name of a file that was renamed, and its bytes. *)
Lemma rename_spec p q m : let '(ok, m') := rename_file p q m in
  started_ m' = started_ m /\ signals m' = signals m /\ download_ m' = download_ m /\ upload_ m' = upload_ m /\
  (ok = true -> disk m' !! q = disk m !! p /\ is_Some (disk m !! p)).
Proof.
  unfold rename_file. destruct (io (operations m)); [done|]. destruct (disk m !! p) as [c|] eqn:E; [|done].
  destruct (disk m !! q); [done|]. split_and!; try done. intros _. cbn. rewrite lookup_insert_eq. eauto.
Qed.

Lemma sound_complete m : metadata (download_ m) <> None -> sound m -> sound (complete_download m).
Proof.
  intros Hmd Hm. unfold complete_download. cbv zeta. set (md := meta m). set (d := download_ m).
  assert (metadata d = Some md) as Emd by (unfold md, meta, d; by destruct (metadata (download_ m))).
  destruct (negb _); [apply sound_emit; [done|]; by apply sound_drop|].
  set (m1 := set_download _ m). assert (sound m1) as Hm1 by by apply sound_download.
  destruct (negb (String.eqb _ _)) eqn:Eh; [apply sound_drop; by apply sound_emit|]. apply negb_false_iff, String.eqb_eq in Eh.
  destruct (so_download m Hm md Emd) as (Hst & Hpart & Hname). fold d in Hst, Hpart, Hname.
  set (m2 := remove_file (targetPath d) m1). assert (disk m2 !! partPath d = disk m !! partPath d) as Edisk.
  { unfold m2, remove_file. cbn. destruct (io (operations m)); [done|]. apply lookup_delete_ne. rewrite Hpart. intros E.
    symmetry in E. by apply append_nonempty in E. }
  pose proof (rename_spec (partPath d) (targetPath d) m2) as Hr. destruct (rename_file _ _ m2) as [ok m3].
  destruct Hr as (R1 & R2 & R3 & R4 & R5). destruct ok; cbn [negb].
  2: { apply sound_drop. apply sound_emit; [done|]. by apply (sound_same m1). }
  destruct (R5 eq_refl) as [Et [c Ec]]. rewrite Edisk in Et, Ec. set (r := mkRequest _ _ _ _).
  destruct (ask_same NoCallback r m3) as (E1 & E2 & E3 & E4 & E5). destruct (ask NoCallback r m3) as [[k refused] m4]. cbn [snd] in *.
  destruct Hm1 as [H1 H2 H3 H4]. split; cbn; rewrite ?E1, ?E2, ?E3, ?E4, ?R1, ?R2, ?R3, ?R4; try done.
  apply Forall_app. split; [done|]. apply Forall_singleton. intros id p [= <- <-]. right. exists md, c.
  split_and!; [done|done|cbn; by rewrite E5, Et|]. rewrite <- Eh. f_equal. unfold contents. rewrite Hname. fold d. by rewrite Ec.
Qed.

Lemma sound_request_chunk m : metadata (download_ m) <> None -> sound m -> sound (requestDownloadChunk m).
Proof.
  intros Hmd Hm. unfold requestDownloadChunk. cbv zeta. apply (sound_cancel_request (downloadRequest_ m)) in Hm.
  destruct (cancel_request_same (downloadRequest_ m) m) as (_ & _ & Ed & _). set (m1 := cancel_request _ m) in *. rewrite <- Ed in Hmd.
  destruct (_ =? _); [by apply sound_complete|]. set (cb := DownloadCallback _ _ _ _). set (r := mkRequest _ _ _ _).
  destruct (ask_same cb r m1) as (E1 & E2 & E3 & E4 & _). destruct (ask cb r m1) as [[k refused] m2]. cbn [snd] in *.
  assert (sound m2) as Hm2 by by apply (sound_same m1).
  destruct refused; [|by apply (sound_same m2)]. apply (sound_same (emit (transferFailed (string_field "id" (meta m1))) (drop_download m2))); try done.
  apply sound_emit; [done|]. by apply sound_drop.
Qed.

Lemma sound_disk x m : sound m -> sound (set_disk x m).
Proof. by apply sound_same. Qed.

Lemma sound_write data m : sound m -> let '(ok, m') := write data m in
  sound m' /\ (ok = true -> metadata (download_ m') <> None).
Proof.
  intros Hm. unfold write. destruct (isOpen (d_file (download_ m))) eqn:Ho; cbn [negb]; [|done]. split.
  - apply sound_disk. by apply sound_download.
  - intros _. by apply (so_open m Hm).
Qed.

(** An empty object has no member [complete]. *)
Hypothesis empty_incomplete : toBool (field "complete" (qobject [])) = false.

Lemma sound_download_chunk offset data m : sound m -> sound (download_chunk offset data m).
Proof.
  intros Hm. unfold download_chunk. cbv zeta.
  destruct (negb _); [apply sound_emit; [done|]; by apply sound_drop|]. destruct (toBool (field _ (meta m))) eqn:Eb.
  { apply sound_complete; [|done]. intros E. unfold meta in Eb. rewrite E in Eb. cbn in Eb. congruence. }
  destruct (negb _); [by apply sound_emit|]. pose proof (sound_write data m Hm) as Hw. destruct (write data m) as [ok m1].
  destruct Hw as [Hm1 Hmd1]. destruct ok; cbn [negb]; [|by apply sound_emit].
  apply sound_request_chunk; [cbn; auto|]. apply sound_emit; [done|]. by apply sound_download.
Qed.

Lemma sound_download_callback g offset id total code data m : sound m -> sound (download_callback g offset id total code data m).
Proof.
  intros Hm. unfold download_callback. destruct (negb _ || negb _); [done|].
  destruct (_ || _ || _); [apply sound_emit; [done|]; by apply sound_drop|]. by apply sound_download_chunk.
Qed.

(** *** Starts *)

Lemma sound_started x p m : sound m -> sound (add_started x p m).
Proof.
  intros [H1 H2 H3 H4]. split; cbn; [|set_solver..]. eapply Forall_impl; [exact H1|]. intros s Hs id q E.
  destruct (Hs id q E) as [Hin|(md & c & Hin & Hr)]; [left; set_solver|right; exists md, c; set_solver].
Qed.

Lemma sound_startUpload p receiver m : sound m -> sound (startUpload p receiver m).2.
Proof.
  intros Hm. unfold startUpload. destruct (disk m !! p) as [content|]; [|by apply sound_emit].
  destruct (_ || _ || _); [by apply sound_emit|]. cbv zeta.
  assert (sound (add_started None p (next_upload m))) as Hm1 by (apply sound_started; by apply (sound_same m)).
  destruct (io _); cbn [snd].
  - apply sound_emit; [done|]. by apply sound_disk, sound_upload.
  - destruct Hm1 as [H1 H2 H3 H4]. split; cbn; try done. set_solver.
Qed.

Lemma sound_startDownload md p m : sound m -> sound (startDownload md p m).
Proof.
  intros Hm. unfold startDownload. destruct (_ || _) eqn:Eo; [by apply sound_emit|]. apply orb_false_iff in Eo as [Eo _]. cbv zeta.
  assert (sound (add_started (Some md) p (next_download m))) as [H1 H2 H3 H4] by (apply sound_started; by apply (sound_same m)).
  destruct (io _); [apply sound_emit; [done|]|apply sound_request_chunk; [done|]]; split; cbn; try done;
    intros md' [= <-]; split_and!; try done; set_solver.
Qed.

(** *** Events *)

Lemma sound_cancel id m : sound m -> sound (cancel id m).
Proof.
  intros Hm. unfold cancel. cbv zeta. set (r := mkRequest "DELETE" _ _ _). set (m1 := if _ && _ then _ else _).
  assert (sound m1 /\ u_file (upload_ m1) = u_file (upload_ m)) as [Hm1 Eu].
  { unfold m1. destruct (_ && _); [|done]. destruct (ask_same NoCallback r m) as (E1 & E2 & E3 & E4 & _). rewrite E4. split; [|done].
    by apply (sound_same m). }
  apply sound_emit; [done|]. set (m2 := if _ || _ then _ else m1). assert (sound m2) as Hm2.
  { unfold m2. destruct (_ || _); [|done]. eapply (sound_same (set_upload _ _)); [done..|]. apply sound_upload; [done|].
    apply (sound_same (cancel_request (uploadRequest_ m1) (next_upload m1))); try done. apply sound_cancel_request. by apply (sound_same m1). }
  clearbody m2. destruct (String.eqb (string_field _ _) id); [|done].
  destruct (cancel_request_same (downloadRequest_ m2) (next_download m2)) as (E1 & E2 & _ & E4).
  apply (sound_step m2); cbn; rewrite ?E1, ?E2, ?E4; auto.
Qed.

Lemma sound_reset m : sound m -> sound (account_reset m).
Proof.
  intros Hm. unfold account_reset. cbv zeta. set (m1 := set_hashing _ _). assert (sound m1) as Hm1 by by apply (sound_same m).
  apply (sound_cancel_request (uploadRequest_ m1)) in Hm1. set (m2 := cancel_request _ m1) in *.
  apply (sound_cancel_request (downloadRequest_ m1)) in Hm1. set (m3 := cancel_request _ m2) in *.
  apply (sound_step m3); auto; done.
Qed.

Lemma sound_available md m : sound m -> sound (file_available md m).
Proof.
  intros Hm. unfold file_available. destruct (user m); [|done]. destruct (_ && _); [done|]. cbv zeta. destruct (sempty _); [done|].
  destruct (existsb _ _); [done|]. apply sound_emit; [done|]. by apply (sound_same m).
Qed.

Lemma sound_resume m : sound m -> sound (resumeActiveTransfers m).
Proof.
  intros Hm. unfold resumeActiveTransfers. cbv zeta. set (m1 := if _ && _ then _ else m).
  assert (sound m1) as Hm1 by (unfold m1; destruct (_ && _); [by apply sound_init|done]).
  destruct (isOpen (d_file (download_ m1))); [|done]. destruct (metadata (download_ m1)) eqn:E; [|done].
  apply sound_request_chunk; [by rewrite E|done].
Qed.

Lemma sound_answer m a : sound m -> sound (answer m a).
Proof.
  intros Hm. destruct a as [[k code] data]. unfold answer. destruct (callbacks m !! k) as [[]|]; try done.
  - by apply sound_upload_callback.
  - by apply sound_download_callback.
Qed.

Lemma sound_network e m : sound m -> sound (network_event e m).
Proof.
  intros Hm. unfold network_event. cbv zeta. set (l := drop _ _). set (m1 := set_http _ m).
  assert (sound m1) as Hm1 by by apply (sound_same m). assert (sound (foldl answer m1 l)) as Hl.
  { clearbody l m1. clear m Hm. revert m1 Hm1. induction l as [|a l IH]; intros m Hm; [done|]. apply IH. by apply sound_answer. }
  destruct e; try done; by apply sound_reset.
Qed.

Lemma sound_event m e : sound m -> sound (run_event m e).
Proof.
  intros Hm. destruct e; cbn [run_event].
  - by apply sound_startUpload.
  - destruct (hashTimer_ m); [by apply sound_hash|done].
  - destruct (uploadAckTimer_ m); [by apply sound_failUpload|done].
  - by apply sound_startDownload.
  - by apply sound_cancel.
  - by apply sound_available.
  - apply sound_resume. by apply (sound_same m).
  - by apply (sound_same m).
  - by apply sound_network.
  - by apply sound_disk.
Qed.

Lemma sound_run l d : sound (foldl run_event (new_Manager d) l).
Proof.
  assert (sound (new_Manager d)) as Hs by by split. revert Hs. generalize (new_Manager d).
  induction l as [|e l IH]; intros m Hm; [done|]. apply IH. by apply sound_event.
Qed.

(** C24. A download that the client reports as finished is intact: at the moment
    of the report the file the user chose holds bytes whose SHA-256 is the one
    of the metadata the download was started with; every other report is of an
    upload of that path.  Whatever the user starts and cancels, the server
    answers, the files do and other programs write. *)
Theorem download_verified (l : list event) (d : Disk) (id p : string) (files : Disk) :
  (transferFinished id p, files) ∈ signals (foldl run_event (new_Manager d) l) ->
  (None, p) ∈ started_ (foldl run_event (new_Manager d) l) \/
  exists md content, (Some md, p) ∈ started_ (foldl run_event (new_Manager d) l) /\ string_field "id" md = id /\
    files !! p = Some content /\ sha256_hex content = string_field "sha256" md.
Proof.
  intros Hin. destruct (sound_run l d) as [Hs _ _ _]. rewrite Forall_forall in Hs. exact (Hs _ Hin id p eq_refl).
Qed.

(** ** A partial file that is wrong *)

Lemma poisoned_start md p c m : p <> ""%string -> isOpen (d_file (download_ m)) = false ->
  disk m !! (p ++ ".part")%string = Some c -> ssize c = total_of md -> ssize c mod (32 * 1024) = 0 ->
  sha256_hex c <> string_field "sha256" md -> int_field "error" md = 0 -> io (operations m) = None ->
  let m' := startDownload md p m in
  disk m' = disk m /\ isOpen (d_file (download_ m')) = false /\ signals m' = signals m ++ [(transferFailed (string_field "id" md), disk m)] /\
  network (http m') = network (http m) /\ length (entries (http m')) = length (entries (http m)).
Proof.
  intros Hp Ho Hd Hs Hmod Hsha He Hio. cbv zeta. unfold startDownload. rewrite Ho. destruct p as [|x p]; [done|]. cbn [sempty orb].
  cbv zeta. cbn [operations add_started next_download]. rewrite Hio. set (part := (String x p ++ ".part")%string) in *.
  cbn [disk add_started next_download]. rewrite Hd. cbn [default from_option]. unfold id. rewrite <- Hs, Z.ltb_irrefl, Hmod. cbn [Z.eqb negb orb].
  rewrite (insert_id (disk m)) by done. unfold requestDownloadChunk. cbv zeta. set (m1 := set_download _ _).
  destruct (cancel_request_same (downloadRequest_ m1) m1) as (E1 & E2 & E3 & E4). set (m2 := cancel_request _ m1) in *.
  assert (disk m2 = disk m) as Edisk by (unfold m2; by destruct (downloadRequest_ m1)).
  assert (network (http m2) = network (http m) /\ length (entries (http m2)) = length (entries (http m))) as [En El].
  { unfold m2. destruct (downloadRequest_ m1); [|done]. split; [done|]. cbn. apply length_alter. }
  assert (meta m2 = md) as -> by (unfold meta; by rewrite E3). rewrite E3. change (d_offset (download_ m1)) with (ssize c).
  rewrite Hs, Z.eqb_refl. unfold complete_download. cbv zeta. assert (meta m2 = md) as -> by (unfold meta; by rewrite E3).
  rewrite He. cbn [Z.eqb negb]. rewrite E3. unfold contents. change (fileName (d_file (download_ m1))) with part. rewrite Edisk, Hd. cbn [default from_option].
  unfold id.   rewrite (proj2 (String.eqb_neq _ _) Hsha). cbn [negb]. split_and!; try done. cbn. by rewrite E2, Edisk.
Qed.

(** C39. A partial file that fails the check is kept, and when its size is a
    multiple of 32 KiB it blocks the file for good: however often the user
    starts the download again, it fails at once, nothing is asked of the
    server, and the same wrong bytes stay where the next attempt finds them. *)
Theorem poisoned_part (md : qvalue) (p c : string) (m : Manager) (n : nat) : p <> ""%string -> isOpen (d_file (download_ m)) = false ->
  disk m !! (p ++ ".part")%string = Some c -> ssize c = total_of md -> ssize c mod (32 * 1024) = 0 ->
  sha256_hex c <> string_field "sha256" md -> int_field "error" md = 0 -> (forall k, io k = None) ->
  let m' := foldl run_event m (repeat (StartsDownload md p) n) in
  disk m' = disk m /\ signals m' = signals m ++ repeat (transferFailed (string_field "id" md), disk m) n /\
  network (http m') = network (http m) /\ length (entries (http m')) = length (entries (http m)).
Proof.
  intros Hp Ho Hd Hs Hmod Hsha He Hio. revert m Ho Hd. induction n as [|n IH]; intros m Ho Hd; cbn [repeat foldl run_event].
  - by rewrite app_nil_r.
  - destruct (poisoned_start md p c m) as (E1 & E2 & E3 & E4 & E5); try done.
    destruct (IH (startDownload md p m)) as (F1 & F2 & F3 & F4); [done|by rewrite E1|]. cbv zeta.
    rewrite F1, F2, F3, F4, E1, E3, E4, E5, <- app_assoc. done.
Qed.

(** ** A server that answers *)

Definition signed_in (h : ResourceHttp) : Prop := 0 < uid_ h /\ https_url (base_ h) = true /\ token_ h <> ""%string.

(** A request of a client with a credential is on its way. *)
Lemma ask_sent cb r m : signed_in (http m) -> starts_slash (path r) = true -> exists h,
  let k := length (entries (http m)) in
  ask cb r m = (k, None, set_callback k cb (set_http h m)) /\ signed_in h /\
  entries h !! k = Some (mkEntry false (generation_ h) Sent 0 r).
Proof.
  intros (Hu & Hb & Ht) Hp. unfold ask, request, request_with. cbn [entries set_entries]. rewrite list_lookup_middle by done.
  cbn [cancelled e_generation generation_ set_entries uid_ base_ token_ asks]. rewrite Z.eqb_refl. cbn [negb orb].
  rewrite (proj2 (Z.leb_gt _ _)) by done. rewrite Hb, Hp. cbn [negb orb].
  assert (sempty (token_ (http m)) = false) as -> by by destruct (token_ (http m)). cbn [fst snd answers set_network put set_entries].
  rewrite Nat.eqb_refl. eexists. split_and!; [reflexivity|done|]. cbn. rewrite list_lookup_alter_eq, list_lookup_middle by done. done.
Qed.

Section Fetch.
Context (md : qvalue) (p content : string).
Abbreviation part := (p ++ ".part")%string.
Abbreviation total := (ssize content).
Hypothesis md_size : total_of md = total.
Hypothesis md_digest : string_field "sha256" md = sha256_hex content.
Hypothesis md_fine : int_field "error" md = 0.
Hypothesis md_incomplete : toBool (field "complete" md) = false.
Hypothesis p_named : p <> ""%string.
Hypothesis io_fine : forall k, io k = None.

(** The first [o] bytes are in the partial file. *)
Record ready (o : Z) (m : Manager) : Prop := {
  re_state : download_ m = mkDownload (mkQFile part true o) (Some md) p part o;
  re_disk : disk m !! part = Some (from 0 o content);
  re_offset : 0 <= o <= total;
  re_http : signed_in (http m);
}.

(** And the next ones were asked for. *)
Definition fetching (o : Z) (m : Manager) : Prop :=
  ready o m /\ o < total /\ exists k r, downloadRequest_ m = Some k /\
    entries (http m) !! k = Some (mkEntry false (generation_ (http m)) Sent 0 r) /\
    callbacks m !! k = Some (DownloadCallback (downloadGeneration_ m) o (string_field "id" md) total).

Definition fetched (m : Manager) : Prop :=
  last (signals m) = Some (transferFinished (string_field "id" md) p, disk m) /\ disk m !! p = Some content /\ disk m !! part = None.

(** The server answers the request with the range that it asked for. *)
Definition serves (m : Manager) : event :=
  Network (Finishes (default 0%nat (downloadRequest_ m)) 206 false (from (d_offset (download_ m)) ChunkBytes content)).

Lemma part_fresh : part <> p.
Proof. intros E. by apply append_nonempty in E. Qed.

Lemma ready_meta o m : ready o m -> meta m = md.
Proof. intros [E _ _ _]. unfold meta. by rewrite E. Qed.

Lemma ready_contents o m : ready o m -> contents (d_file (download_ m)) (disk m) = from 0 o content.
Proof. intros [E Hd _ _]. unfold contents. rewrite E. cbn [fileName d_file]. by rewrite Hd. Qed.

Lemma complete_fetched m : ready total m -> fetched (complete_download m).
Proof.
  intros Hm. unfold complete_download. rewrite (ready_meta total m Hm), (ready_contents total m Hm). cbv zeta.
  destruct Hm as [E Hd _ Hh]. rewrite E, md_fine, from_all, md_digest, String.eqb_refl by done. cbn [Z.eqb negb d_file targetPath partPath].
  unfold remove_file. cbn [operations set_download disk]. rewrite io_fine. unfold rename_file. cbn [operations set_disk disk]. rewrite io_fine.
  pose proof part_fresh. rewrite lookup_delete_ne, Hd, lookup_delete_eq by congruence. cbn [negb].
  match goal with |- context [ask NoCallback ?r ?m1] => destruct (ask_sent NoCallback r m1) as (h & Eh & _ & _); [done|done|] end.
  cbn zeta in Eh. rewrite Eh. unfold fetched. cbn. rewrite last_snoc, lookup_insert_eq, lookup_insert_ne, lookup_delete_eq, from_all by congruence.
  done.
Qed.

Lemma request_fetching o m : ready o m ->
  if o =? total then fetched (requestDownloadChunk m) else fetching o (requestDownloadChunk m).
Proof.
  intros Hm. unfold requestDownloadChunk. cbv zeta. set (m1 := cancel_request (downloadRequest_ m) m).
  assert (ready o m1) as Hm1.
  { destruct Hm as [E Hd Ho Hh]. unfold m1. by destruct (downloadRequest_ m); split. }
  rewrite (ready_meta o m1 Hm1), md_size. replace (d_offset (download_ m1)) with o by (destruct Hm1 as [E _ _ _]; by rewrite E).
  clearbody m1. destruct (Z.eqb_spec o total) as [->|Hne]; [by apply complete_fetched|].
  match goal with |- context [ask ?cb ?r m1] => destruct (ask_sent cb r m1) as (h & Eh & Hh & He); [apply Hm1|done|] end.
  cbn zeta in Eh. rewrite Eh. destruct Hm1 as [E Hd Ho _]. split_and!; [by split|lia|]. eexists _, _. split_and!; [done|exact He|].
  cbn. by rewrite lookup_insert_eq.
Qed.

(** What the answer of the server calls. *)
Lemma served_answer o m : fetching o m -> exists h, signed_in h /\
  run_event m (serves m) = download_chunk o (from o ChunkBytes content) (set_http h m).
Proof.
  intros (Hm & Hlt & k & r & Ek & He & Hcb). pose proof (ready_meta o m Hm) as Emd. destruct Hm as [E Hd Ho Hh].
  unfold serves. rewrite Ek, E. cbn [default run_event d_offset]. unfold id. set (data := from o ChunkBytes content).
  assert (ssize data = Z.min ChunkBytes (total - o)) as Es by (apply ssize_from; unfold ChunkBytes; lia).
  assert (on_finished k 206 false data (http m) = callback k 206 data (http m)) as Ef.
  { unfold on_finished. rewrite He. cbn. by rewrite Z.eqb_refl. }
  exists (callback k 206 data (http m)). split; [done|]. unfold network_event. cbv zeta. cbn [ResourceHttp.run_event]. rewrite Ef.
  unfold callback at 2. cbn [answers set_answers put set_entries]. rewrite drop_app_length. cbn [foldl answer callbacks set_http].
  rewrite Hcb. unfold download_callback. change (meta (set_http _ m)) with (meta m). rewrite Emd.
  change (downloadGeneration_ (set_http _ m)) with (downloadGeneration_ m). rewrite Z.eqb_refl, String.eqb_refl. cbn [negb orb Z.eqb Pos.eqb].
  rewrite sempty_ssize, Es, (proj2 (Z.eqb_neq _ _)), Z.ltb_irrefl by (unfold ChunkBytes; lia). done.
Qed.

(** The answer is written behind the bytes that are there. *)
Lemma chunk_written o m : fetching o m -> exists m', ready (Z.min (o + ChunkBytes) total) m' /\
  run_event m (serves m) = requestDownloadChunk m'.
Proof.
  intros Hf. destruct (served_answer o m Hf) as (h & Hh & ->). destruct Hf as ([E Hd Ho _] & Hlt & _).
  assert (ready o (set_http h m)) as Hm by by split. set (data := from o ChunkBytes content).
  assert (ssize data = Z.min ChunkBytes (total - o)) as Es by (apply ssize_from; unfold ChunkBytes; lia).
  unfold download_chunk. rewrite (ready_meta o _ Hm), md_fine, md_incomplete. cbn [Z.eqb negb]. cbv zeta.
  unfold write. cbv zeta. rewrite (ready_contents o _ Hm). cbn [download_ set_http operations]. rewrite io_fine, E.
  cbn [d_offset d_file isOpen negb fileName pos]. rewrite Z.eqb_refl. cbn [negb]. eexists. split; [|reflexivity]. split; cbn; try done.
  - rewrite Es. replace (o + Z.min ChunkBytes (total - o)) with (Z.min (o + ChunkBytes) total) by lia. done.
  - rewrite lookup_insert_eq. unfold data. rewrite overwrite_next by (unfold ChunkBytes; lia). f_equal.
    destruct (Z.min_spec (o + ChunkBytes) total) as [[_ ->]|[Hge ->]]; [done|].
    unfold from, ssize in *. cbn. by rewrite !substring_long by lia.
  - unfold ChunkBytes. lia.
Qed.

(** The requests that are left. *)
Definition chunks_left (o : Z) : nat := Z.to_nat ((total - o + ChunkBytes - 1) / ChunkBytes).

Lemma rounds_fetched n o m : fetching o m -> chunks_left o = S n ->
  fetched (Nat.iter (S n) (fun m => run_event m (serves m)) m).
Proof.
  revert o m. induction n as [|n IH]; intros o m Hf Hn; rewrite Nat.iter_succ_r; destruct (chunk_written o m Hf) as (m' & Hm' & ->);
    pose proof (request_fetching _ m' Hm') as Hr; destruct Hf as ([_ _ Ho _] & Hlt & _); unfold chunks_left in Hn;
    assert (0 < ChunkBytes) as HC by done.
  - rewrite (Z.min_r (o + ChunkBytes) total), Z.eqb_refl in Hr; [done|].
    pose proof (Z.mul_succ_div_gt (total - o + ChunkBytes - 1) ChunkBytes HC). nia.
  - pose proof (Z.mul_div_le (total - o + ChunkBytes - 1) ChunkBytes HC).
    rewrite (Z.min_l (o + ChunkBytes) total), (proj2 (Z.eqb_neq _ _)) in Hr by nia. apply (IH _ _ Hr). unfold chunks_left.
    replace (total - o + ChunkBytes - 1) with (total - (o + ChunkBytes) + ChunkBytes - 1 + 1 * ChunkBytes) in Hn by lia.
    rewrite Z.div_add in Hn by lia. lia.
Qed.


End Fetch.

End Transfers.

Module Example.
Import ToyQJson.
Import ResourceHttp.Example.
#[local] Existing Instance toy_qjson.

Definition toLongLong (v : qvalue) : Z := match (v : tree) with GenLeaf (inl z) => z | _ => 0 end.
Definition isEmpty (v : qvalue) : bool := match (v : tree) with GenNode 2 (_ :: _) => false | _ => true end.
Definition qbool (b : bool) : qvalue := GenLeaf (inr (inl b)).
Definition digest (s : string) : string := to_string (ssize s).
Definition name (s : string) : string := s.
Definition io (n : nat) : option nat := None.

Definition metadata_of (id sha : string) (size : Z) : qvalue :=
  qobject [("id", qstring id); ("sha256", qstring sha); ("total_size", qint size)]%string.

Abbreviation run := (run_event toLongLong isEmpty qbool digest name name uuid https io).

Definition ready_to_load : list event :=
  [Network (Configures "https://files.example" 7); Network (Requests (mkRequest "GET" "/files" "" []));
   Network (GetsToken 7 "u0" "secret")].
Definition loads : list event :=
  [StartsDownload (metadata_of "a" "5" 5) "/home/a.txt"; Network (Finishes 1 206 false "bytes")].

(** A file of five bytes is loaded. *)
Lemma download_verified_witness :
  (None, "/home/a.txt"%string) ∈ started_ (foldl run (new_Manager ∅) (ready_to_load ++ loads)) \/
  exists md content, (Some md, "/home/a.txt"%string) ∈ started_ (foldl run (new_Manager ∅) (ready_to_load ++ loads)) /\
    string_field "id" md = "a"%string /\
    ({["/home/a.txt" := "bytes"]} : Disk) !! "/home/a.txt"%string = Some content /\ digest content = string_field "sha256" md.
Proof.
  refine (download_verified toLongLong isEmpty qbool digest name name uuid https io eq_refl (ready_to_load ++ loads) ∅ "a" "/home/a.txt"
    {["/home/a.txt" := "bytes"]}%string _).
  refine (list_elem_of_lookup_2 _ 1 _ _). reflexivity.
Defined.

Definition signed_on : Manager := foldl run (new_Manager ∅) ready_to_load.

Definition block : string := Nat.iter 15 (fun s => s ++ s)%string "x"%string.
Lemma block_size : ssize block = 32 * 1024.
Proof.
  assert (forall n s, ssize (Nat.iter n (fun s => s ++ s)%string s) = 2 ^ Z.of_nat n * ssize s) as Hs.
  { induction n as [|n IH]; intros s; [cbn [Nat.iter nat_rect]; lia|].
    rewrite Nat.iter_succ, ssize_app, IH, Nat2Z.inj_succ, Z.pow_succ_r by lia. lia. }
  unfold block. by rewrite Hs.
Qed.

(** A file of which the first 32 KiB are there. *)
Definition long : string := block ++ "the rest".
Lemma long_size : ssize long = 32776.
Proof. unfold long. by rewrite ssize_app, block_size. Qed.

Definition long_metadata : qvalue := metadata_of "b" "32776" 32776.
Definition half_loaded : Manager := run signed_on (OtherProgram "/home/b.bin.part" block).

Abbreviation loaded :=
  (Nat.iter (chunks_left long (32 * 1024)) (fun m => run m (serves long m)) (run half_loaded (StartsDownload long_metadata "/home/b.bin"))).


(** A file of 32 KiB whose partial file has the wrong bytes. *)
Definition wrong_metadata : qvalue := metadata_of "c" "31" 32768.
Definition spoilt : Manager := run signed_on (OtherProgram "/home/c.bin.part" block).

Abbreviation stuck := (foldl run spoilt (repeat (StartsDownload wrong_metadata "/home/c.bin") 5)).

Lemma poisoned_part_witness :
  disk stuck = disk spoilt /\ signals stuck = signals spoilt ++ repeat (transferFailed (string_field "id" wrong_metadata), disk spoilt) 5 /\
  network (http stuck) = network (http spoilt) /\ length (entries (http stuck)) = length (entries (http spoilt)).
Proof.
  refine (poisoned_part toLongLong isEmpty qbool digest name name uuid https io wrong_metadata "/home/c.bin" block spoilt 5 _ _ _ _ _ _ _ _).
  - discriminate.
  - reflexivity.
  - reflexivity.
  - rewrite block_size. reflexivity.
  - rewrite block_size. reflexivity.
  - unfold digest. rewrite block_size. discriminate.
  - reflexivity.
  - reflexivity.
Defined.

End Example.
