(* ===== verification/TcpMgr.v ===== *)
(** The client's connection to the chat server
    ([src/client/network/TcpMgr.cpp]): the frames, the handlers of the
    responses, reconnecting, and the outbox over [MessageStore].

    A socket, a timer and a signal are the state they leave: [sent] has the
    blocks written, with whether the connection was encrypted; [emitted] the
    signals.  Aborting a connected socket emits [disconnected()].  The slots
    of the chat window that change the account's model run when a signal is
    emitted ([src/client/ui/chat/ChatDialog.cpp]).  Texts shown to the user
    are left out. *)
From S2P Require Import Prelude Mysql MessageStore ClientModel QtJson Session.

(** ** State *)

Inductive SocketState := Unconnected | Connecting | Connected.

#[export] Instance SocketState_eq_dec : EqDecision SocketState.
Proof. solve_decision. Defined.

Record Socket := mkSocket {
  state : SocketState; isEncrypted : bool; bytesToWrite : Z;
  sent : list (bool * string);
}.

Record Parser := mkParser { _buffer : string; _b_recv_pending : bool; _message_id : Z; _message_len : Z }.

Record Flags := mkFlags {
  _use_tls : bool; _connect_result_emitted : bool; _authenticated : bool; _reconnecting : bool;
  _manual_disconnect : bool; _retry_attempt : Z; _missed_heartbeats : Z; _login_payload : string;
}.

(** [retry_timer] has the delay while it is active. *)
Record Timers := mkTimers { retry_timer : option Z; heartbeat_timer : bool; outbox_timer : bool; friend_timer : bool }.

Record Endpoint := mkEndpoint { _host : string; _port : Z; _transport : string; _tls_server_name : string }.

Record FriendOp := mkFriendOp { _friend_peer : Z; _friend_request : Z; _friend_request_id : string }.

(** [SearchInfo] *)
Record SearchInfo := mkSearchInfo { si_uid : Z; si_name : string; si_nick : string; si_desc : string; si_sex : Z; si_icon : string }.

Section Client.
Context `{QJson}.

Inductive Signal :=
| sig_con_success (b : bool)
| sig_login_failed (err : Z)
| sig_swich_chatdlg
| sig_user_search (si : option SearchInfo)
| sig_friend_apply (a : AddFriendApply)
| sig_friend_snapshot
| sig_friend_operation (request peer : Z) (success : bool)
| sig_add_auth_friend (a : AuthInfo)
| sig_auth_rsp (a : AuthInfo)
| sig_text_chat_msg (from to : Z) (msgs : list item)
| sig_connection_state (connected : bool)
| sig_file_frame (id : Z) (v : qvalue)
| sig_file_available (v : qvalue)
| sig_resource_token (v : qvalue)
| sig_avatar_changed (v : qvalue).

Record TcpMgr := mkTcpMgr {
  _socket : Socket; parser : Parser; flags : Flags; timers : Timers; endpoint : Endpoint; friend_op : FriendOp;
  _messages : MessageStore; model : UserMgr; dialog : bool; emitted : list Signal;
  path : Z; files : gmap Z File;      (** the account whose file is open, and the other files *)
  handled : list (Z * string);        (** the frames given to the handlers *)
}.

Definition set_socket (s : Socket) (c : TcpMgr) : TcpMgr :=
  mkTcpMgr s (parser c) (flags c) (timers c) (endpoint c) (friend_op c) (_messages c) (model c) (dialog c) (emitted c) (path c) (files c) (handled c).
Definition set_parser (p : Parser) (c : TcpMgr) : TcpMgr :=
  mkTcpMgr (_socket c) p (flags c) (timers c) (endpoint c) (friend_op c) (_messages c) (model c) (dialog c) (emitted c) (path c) (files c) (handled c).
Definition set_flags (f : Flags) (c : TcpMgr) : TcpMgr :=
  mkTcpMgr (_socket c) (parser c) f (timers c) (endpoint c) (friend_op c) (_messages c) (model c) (dialog c) (emitted c) (path c) (files c) (handled c).
Definition set_timers (t : Timers) (c : TcpMgr) : TcpMgr :=
  mkTcpMgr (_socket c) (parser c) (flags c) t (endpoint c) (friend_op c) (_messages c) (model c) (dialog c) (emitted c) (path c) (files c) (handled c).
Definition set_endpoint (e : Endpoint) (c : TcpMgr) : TcpMgr :=
  mkTcpMgr (_socket c) (parser c) (flags c) (timers c) e (friend_op c) (_messages c) (model c) (dialog c) (emitted c) (path c) (files c) (handled c).
Definition set_friend_op (o : FriendOp) (c : TcpMgr) : TcpMgr :=
  mkTcpMgr (_socket c) (parser c) (flags c) (timers c) (endpoint c) o (_messages c) (model c) (dialog c) (emitted c) (path c) (files c) (handled c).
Definition set_messages (m : MessageStore) (c : TcpMgr) : TcpMgr :=
  mkTcpMgr (_socket c) (parser c) (flags c) (timers c) (endpoint c) (friend_op c) m (model c) (dialog c) (emitted c) (path c) (files c) (handled c).
Definition set_model (u : UserMgr) (c : TcpMgr) : TcpMgr :=
  mkTcpMgr (_socket c) (parser c) (flags c) (timers c) (endpoint c) (friend_op c) (_messages c) u (dialog c) (emitted c) (path c) (files c) (handled c).

Definition set_connect_result_emitted (b : bool) (f : Flags) : Flags :=
  mkFlags (_use_tls f) b (_authenticated f) (_reconnecting f) (_manual_disconnect f) (_retry_attempt f) (_missed_heartbeats f) (_login_payload f).
Definition set_authenticated (b : bool) (f : Flags) : Flags :=
  mkFlags (_use_tls f) (_connect_result_emitted f) b (_reconnecting f) (_manual_disconnect f) (_retry_attempt f) (_missed_heartbeats f) (_login_payload f).
Definition set_reconnecting (b : bool) (f : Flags) : Flags :=
  mkFlags (_use_tls f) (_connect_result_emitted f) (_authenticated f) b (_manual_disconnect f) (_retry_attempt f) (_missed_heartbeats f) (_login_payload f).
Definition set_manual_disconnect (b : bool) (f : Flags) : Flags :=
  mkFlags (_use_tls f) (_connect_result_emitted f) (_authenticated f) (_reconnecting f) b (_retry_attempt f) (_missed_heartbeats f) (_login_payload f).
Definition set_retry_attempt (n : Z) (f : Flags) : Flags :=
  mkFlags (_use_tls f) (_connect_result_emitted f) (_authenticated f) (_reconnecting f) (_manual_disconnect f) n (_missed_heartbeats f) (_login_payload f).
Definition set_missed_heartbeats (n : Z) (f : Flags) : Flags :=
  mkFlags (_use_tls f) (_connect_result_emitted f) (_authenticated f) (_reconnecting f) (_manual_disconnect f) (_retry_attempt f) n (_login_payload f).
Definition set_login_payload (s : string) (f : Flags) : Flags :=
  mkFlags (_use_tls f) (_connect_result_emitted f) (_authenticated f) (_reconnecting f) (_manual_disconnect f) (_retry_attempt f) (_missed_heartbeats f) s.
Definition set_use_tls (b : bool) (f : Flags) : Flags :=
  mkFlags b (_connect_result_emitted f) (_authenticated f) (_reconnecting f) (_manual_disconnect f) (_retry_attempt f) (_missed_heartbeats f) (_login_payload f).
Definition flag (g : Flags -> Flags) (c : TcpMgr) : TcpMgr := set_flags (g (flags c)) c.

Definition set_retry_timer (d : option Z) (t : Timers) : Timers := mkTimers d (heartbeat_timer t) (outbox_timer t) (friend_timer t).
Definition set_heartbeat_timer (b : bool) (t : Timers) : Timers := mkTimers (retry_timer t) b (outbox_timer t) (friend_timer t).
Definition set_outbox_timer (b : bool) (t : Timers) : Timers := mkTimers (retry_timer t) (heartbeat_timer t) b (friend_timer t).
Definition set_friend_timer (b : bool) (t : Timers) : Timers := mkTimers (retry_timer t) (heartbeat_timer t) (outbox_timer t) b.
Definition timer (g : Timers -> Timers) (c : TcpMgr) : TcpMgr := set_timers (g (timers c)) c.

(** *** Signals *)

Definition text_data (from to : Z) (i : item) : TextChatData := mkTextChatData i.1 i.2 from to.

(** The slots of [ChatDialog] that change the model: [slot_apply_friend],
    [slot_add_auth_friend], [slot_auth_rsp], [slot_chat_msg_changed]. *)
Definition dialog_slot (s : Signal) (u : UserMgr) : UserMgr :=
  match s with
  | sig_friend_apply a => if isAlreadyApply (aa_from_uid a) u then u else AddApplyList (ApplyInfo_of a) u
  | sig_add_auth_friend a | sig_auth_rsp a => if CheckFriendById (au_uid a) u then u else AddFriend a u
  | sig_text_chat_msg from to msgs => AppendFriendChatMsg from (text_data from to <$> msgs) u
  | _ => u
  end.

Definition emit (s : Signal) (c : TcpMgr) : TcpMgr :=
  mkTcpMgr (_socket c) (parser c) (flags c) (timers c) (endpoint c) (friend_op c) (_messages c)
    (if dialog c then dialog_slot s (model c) else model c)
    (match s with sig_swich_chatdlg => true | _ => dialog c end) (emitted c ++ [s]) (path c) (files c) (handled c).

(** *** The connection *)

(** [delays] *)
Definition delays : list Z := [1000; 2000; 4000; 8000; 15000; 30000].

Definition scheduleReconnect (c : TcpMgr) : TcpMgr :=
  if _manual_disconnect (flags c) || negb (_reconnecting (flags c))
     || bool_decide (is_Some (retry_timer (timers c)))
  then c
  else
    let index := Z.min (_retry_attempt (flags c)) (Z.of_nat (length delays) - 1) in
    flag (set_retry_attempt (_retry_attempt (flags c) + 1))
      (timer (set_retry_timer (delays !! Z.to_nat index)) c).

(** The two slots of [disconnected()]. *)
Definition on_disconnected (c : TcpMgr) : TcpMgr :=
  let peer := _friend_peer (friend_op c) in
  let c := if peer =? 0 then c
           else emit (sig_friend_operation (_friend_request (friend_op c)) peer false)
                  (timer (set_friend_timer false)
                     (set_friend_op (mkFriendOp 0 (_friend_request (friend_op c)) (_friend_request_id (friend_op c))) c)) in
  let c := flag (set_authenticated false) (timer (set_heartbeat_timer false) c) in
  if negb (_manual_disconnect (flags c)) && negb (sempty (_login_payload (flags c)))
  then scheduleReconnect (emit (sig_connection_state false) (flag (set_reconnecting true) c))
  else c.

Definition closed (s : Socket) : Socket := mkSocket Unconnected false 0 (sent s).

Definition abort (c : TcpMgr) : TcpMgr :=
  let was := state (_socket c) in
  let c := set_socket (closed (_socket c)) c in
  if bool_decide (was = Connected) then on_disconnected c else c.

Definition resetParser (c : TcpMgr) : TcpMgr := set_parser (mkParser "" false 0 0) c.

(** [QSslSocket::supportsSsl()] is [supportsSsl]. *)
Context (supportsSsl : bool).

Definition connecting (s : Socket) : Socket :=
  match state s with Unconnected => mkSocket Connecting false 0 (sent s) | _ => s end.

Definition beginConnection (c : TcpMgr) : TcpMgr :=
  let c := resetParser (timer (set_retry_timer None) c) in
  let c := flag (set_connect_result_emitted false) c in
  if _use_tls (flags c) && negb supportsSsl
  then emit (sig_con_success false) (flag (set_connect_result_emitted true) c)
  else set_socket (connecting (_socket c)) c.

(** The block of a frame: identifier and length, high byte first. *)
Definition block (id : Z) (data : string) : string :=
  (be16 id ++ be16 (ssize data) ++ data)%string.

Definition ID_CHAT_LOGIN : Z := 1005.
Definition ID_CHAT_LOGIN_RSP : Z := 1006.
Definition ID_SEARCH_USER_RSP : Z := 1008.
Definition ID_ADD_FRIEND_REQ : Z := 1009.
Definition ID_ADD_FRIEND_RSP : Z := 1010.
Definition ID_NOTIFY_ADD_FRIEND_REQ : Z := 1011.
Definition ID_AUTH_FRIEND_REQ : Z := 1013.
Definition ID_AUTH_FRIEND_RSP : Z := 1014.
Definition ID_NOTIFY_AUTH_FRIEND_REQ : Z := 1015.
Definition ID_TEXT_CHAT_MSG_REQ : Z := 1017.
Definition ID_TEXT_CHAT_MSG_RSP : Z := 1018.
Definition ID_NOTIFY_TEXT_CHAT_MSG_REQ : Z := 1019.
Definition ID_TEXT_CHAT_MSG_ACK : Z := 1020.
Definition ID_HEART_BEAT_REQ : Z := 1023.
Definition ID_HEARTBEAT_RSP : Z := 1024.
Definition ID_UPLOAD_FILE_REQ : Z := 1025.
Definition ID_UPLOAD_FILE_RSP : Z := 1026.
Definition ID_UPLOAD_FILE_CHUNK_RSP : Z := 1028.
Definition ID_UPLOAD_FILE_FINISH_RSP : Z := 1030.
Definition ID_NOTIFY_FILE_REQ : Z := 1031.
Definition ID_DOWNLOAD_FILE_CHUNK : Z := 1033.
Definition ID_FILE_TRANSFER_CANCEL : Z := 1035.
Definition ID_RESOURCE_TOKEN_RSP : Z := 1037.
Definition ID_RESOURCE_REVOKE_REQ : Z := 1038.
Definition ID_AVATAR_CHANGED : Z := 1039.

(** A connection that may carry data. *)
Definition secured (c : TcpMgr) : bool :=
  bool_decide (state (_socket c) = Connected) && (negb (_use_tls (flags c)) || isEncrypted (_socket c)).

Definition writeFrame (reqId : Z) (data : string) (c : TcpMgr) : TcpMgr :=
  let c := if (reqId =? ID_CHAT_LOGIN) && negb (_reconnecting (flags c)) then flag (set_login_payload data) c else c in
  if negb (bool_decide (state (_socket c) = Connected)) then c
  else if _use_tls (flags c) && negb (isEncrypted (_socket c)) then c
  else
    let maxMessageLength := if (ID_UPLOAD_FILE_REQ <=? reqId) && (reqId <=? ID_FILE_TRANSFER_CANCEL) then 60 * 1024 else 2048 in
    if sempty data || (maxMessageLength <? ssize data) then c
    else if 4 * 1024 * 1024 <? bytesToWrite (_socket c) + ssize data + 4 then emit (sig_connection_state false) c
    else
      let s := _socket c in
      set_socket (mkSocket (state s) (isEncrypted s) (bytesToWrite s + ssize (block reqId data))
                    (sent s ++ [(isEncrypted s, block reqId data)])) c.

(** *** The outbox *)

Definition on_messages {A} (p : prog MessageStore A) (a : A) (c : TcpMgr) : A * TcpMgr :=
  let '(r, m) := p (_messages c) in (match r with Returns x => x | Throws => a end, set_messages m c).

Definition text_message (uid to : Z) (i : item) : qvalue :=
  qobject [("fromuid", qint uid); ("touid", qint to);
           ("text_array", qarray [qobject [("msgid", qstring i.1); ("content", qstring i.2)]])]%string.

Fixpoint flush_loop (now : Z) (pendings : list (Z * item)) (c : TcpMgr) : TcpMgr :=
  match pendings with
  | [] => c
  | (to, i) :: pendings =>
      if 256 * 1024 <? bytesToWrite (_socket c) then c
      else
        let '(ok, c) := on_messages (attempted i.1 now) false c in
        if negb ok then c
        else flush_loop now pendings (writeFrame ID_TEXT_CHAT_MSG_REQ (toJson (text_message (uid_ (_messages c)) to i)) c)
  end.

Definition flushOutbox (now : Z) (c : TcpMgr) : TcpMgr :=
  if negb (_authenticated (flags c)) || negb (secured c) then c
  else let '(pendings, c) := on_messages (pending now 16) [] c in flush_loop now pendings c.

(** The messages of a [text_array]. *)
Definition items_of (l : list qvalue) : list item := (fun v => (string_field "msgid" v, string_field "content" v)) <$> l.

Definition enqueueText (now : Z) (message : qvalue) (c : TcpMgr) : bool * TcpMgr :=
  let texts := array_field "text_array" message in
  if existsb (fun value => 2048 <? ssize (toJson (set_field "text_array" (qarray [value]) message))) texts
  then (false, emit (sig_connection_state false) c)
  else
    let own := match _user_info (model c) with Some u => int_field "fromuid" message =? us_uid u | None => false end in
    if negb own then (false, emit (sig_connection_state false) c)
    else
      let '(fresh, c) := on_messages (save (int_field "fromuid" message) (int_field "touid" message) (items_of texts)) None c in
      match fresh with
      | None => (false, emit (sig_connection_state false) c)
      | Some _ => (true, flushOutbox now c)
      end.

Definition slot_send_data (now reqId : Z) (data : string) (c : TcpMgr) : TcpMgr :=
  if reqId =? ID_TEXT_CHAT_MSG_REQ then (enqueueText now (document data) c).2 else writeFrame reqId data c.

(** *** Handlers of the responses *)

(** [QJsonDocument], the member [error], and the rest: a document that is
    none is ignored. *)
Definition checked (data : string) (missing : TcpMgr -> TcpMgr) (failed : Z -> TcpMgr -> TcpMgr)
    (body : qvalue -> TcpMgr -> TcpMgr) (c : TcpMgr) : TcpMgr :=
  match fromJson data with
  | None => c
  | Some obj =>
      if negb (contains "error" obj) then missing c
      else let err := int_field "error" obj in
           if negb (err =? 0) then failed err c else body obj c
  end.
Definition ignored (body : qvalue -> TcpMgr -> TcpMgr) (data : string) : TcpMgr -> TcpMgr :=
  checked data (fun c => c) (fun _ c => c) body.

Definition apply_of (v : qvalue) : ApplyInfo :=
  mkApplyInfo (int_field "uid" v) (string_field "name" v) (string_field "desc" v) (string_field "icon" v)
    (string_field "nick" v) (int_field "sex" v) (int_field "status" v).
Definition friend_of (v : qvalue) : FriendInfo :=
  mkFriendInfo (int_field "uid" v) (string_field "name" v) (string_field "nick" v) (string_field "icon" v)
    (int_field "sex" v) (string_field "desc" v) (string_field "back" v) [].
Definition auth_of (uid : string) (v : qvalue) : AuthInfo :=
  mkAuthInfo (int_field uid v) (string_field "name" v) (string_field "nick" v) (string_field "icon" v) (int_field "sex" v).
Definition application_of (uid : string) (v : qvalue) : AddFriendApply :=
  mkAddFriendApply (int_field uid v) (string_field "name" v) (string_field "desc" v) (string_field "icon" v)
    (string_field "nick" v) (int_field "sex" v).

Definition mergeFriendSnapshot (response : qvalue) (c : TcpMgr) : TcpMgr :=
  let c := foldl (fun c v =>
    if int_field "uid" v <=? 0 then c
    else if negb (isAlreadyApply (int_field "uid" v) (model c)) && (int_field "status" v =? 0)
    then emit (sig_friend_apply (application_of "uid" v)) c else c) c (array_field "apply_list" response) in
  let c := set_model (AppendApplyList (apply_of <$> array_field "apply_list" response) (model c)) c in
  let c := foldl (fun c v =>
    if (0 <? int_field "uid" v) && negb (CheckFriendById (int_field "uid" v) (model c))
    then emit (sig_add_auth_friend (auth_of "uid" v)) c else c) c (array_field "friend_list" response) in
  let c := set_model (AppendFriendList (friend_of <$> array_field "friend_list" response) (model c)) c in
  if contains "apply_list" response || contains "friend_list" response then emit sig_friend_snapshot c else c.

(** [_messages.open] at the path of the account. *)
Definition open_account (uid : Z) (c : TcpMgr) : bool * TcpMgr :=
  let d := db_ (_messages c) in
  let files' := <[path c := committed d]> (files c) in
  let d' := mkDb (default (mkFile [] []) (files' !! uid)) None true (borrowed d) (calls d) (oracle d) (clock d) in
  let '(r, m) := open uid (mkMessageStore d' false 0) in
  (match r with Returns b => b | Throws => false end,
   mkTcpMgr (_socket c) (parser c) (flags c) (timers c) (endpoint c) (friend_op c) m (model c) (dialog c) (emitted c)
     uid files' (handled c)).

Definition load_history (c : TcpMgr) (value : qvalue) : TcpMgr :=
  let peer := int_field "uid" value in
  let '(rows, c) := on_messages (history peer 200) [] c in
  set_model (AppendFriendChatMsg peer
    ((fun r => mkTextChatData (s_msgid r) (s_content r) (s_sender r) (s_receiver r)) <$> rows) (model c)) c.

Definition login_refused (err : Z) (c : TcpMgr) : TcpMgr :=
  let c := if _reconnecting (flags c)
           then emit (sig_connection_state false) (flag (set_manual_disconnect true) (flag (set_reconnecting false) c)) else c in
  emit (sig_login_failed err) c.

(** A login that was answered, with the store open. *)
Definition login_friends (obj : qvalue) (c : TcpMgr) : TcpMgr :=
  let c := if _reconnecting (flags c) then mergeFriendSnapshot obj c
           else if contains "apply_list" obj
           then set_model (AppendApplyList (apply_of <$> array_field "apply_list" obj) (model c)) c else c in
  if contains "friend_list" obj
  then set_model (AppendFriendList (friend_of <$> array_field "friend_list" obj) (model c)) c else c.

Definition logged_in (f : Flags) : Flags :=
  set_missed_heartbeats 0 (set_retry_attempt 0 (set_reconnecting false (set_authenticated true f))).

(** The account of the answer. *)
Definition entered (obj : qvalue) (u : UserMgr) : UserMgr :=
  let info := mkUserInfo (int_field "uid" obj) (string_field "name" obj) (string_field "nick" obj)
                (string_field "icon" obj) (int_field "sex" obj) (string_field "desc" obj) in
  SetToken (string_field "token" obj) (SetUserInfo info u).

Definition login_done (obj : qvalue) (c : TcpMgr) : TcpMgr :=
  let c := foldl load_history (login_friends obj c) (array_field "friend_list" obj) in
  let restored := _reconnecting (flags c) in
  let c := flag logged_in c in
  let c := timer (set_outbox_timer true) (timer (set_heartbeat_timer true) c) in
  let c := emit (if restored then sig_connection_state true else sig_swich_chatdlg) c in
  foldl (fun c v => emit (sig_file_available v) c) c (array_field "pending_files" obj).

(** [mkpath] is the answer of [QDir::mkpath]. *)
Definition login_rsp (mkpath : bool) (data : string) (c : TcpMgr) : TcpMgr :=
  checked data (emit (sig_login_failed 3)) login_refused (fun obj c =>
    let '(opened, c) := if mkpath then open_account (int_field "uid" obj) c else (false, c) in
    if negb opened then
      emit (sig_login_failed 4) (abort (flag (set_manual_disconnect true) (emit (sig_connection_state false) c)))
    else login_done obj (set_model (entered obj (model c)) c)) c.

Definition search_rsp (data : string) (c : TcpMgr) : TcpMgr :=
  checked data (emit (sig_user_search None)) (fun _ => emit (sig_user_search None)) (fun obj =>
    emit (sig_user_search (Some (mkSearchInfo (int_field "uid" obj) (string_field "name" obj) (string_field "nick" obj)
                                   (string_field "desc" obj) (int_field "sex" obj) (string_field "icon" obj))))) c.

Definition finishFriendOperation (request : Z) (response : qvalue) (c : TcpMgr) : TcpMgr :=
  let op := friend_op c in
  if (_friend_peer op =? 0) || negb (request =? _friend_request op) then c
  else if contains "request_id" response && negb (String.eqb (string_field "request_id" response) (_friend_request_id op)) then c
  else
    let ok := isDouble (field "error" response) && (toInt (-1) (field "error" response) =? 0) in
    emit (sig_friend_operation request (_friend_peer op) ok)
      (timer (set_friend_timer false) (set_friend_op (mkFriendOp 0 (_friend_request op) (_friend_request_id op)) c)).

Definition notify_add_friend (data : string) (c : TcpMgr) : TcpMgr :=
  ignored (fun obj => emit (sig_friend_apply (application_of "applyuid" obj))) data c.
Definition notify_auth_friend (data : string) (c : TcpMgr) : TcpMgr :=
  ignored (fun obj => emit (sig_add_auth_friend (auth_of "fromuid" obj))) data c.
Definition add_friend_rsp (data : string) (c : TcpMgr) : TcpMgr :=
  finishFriendOperation ID_ADD_FRIEND_REQ (document data) c.
Definition auth_friend_rsp (data : string) (c : TcpMgr) : TcpMgr :=
  ignored (fun obj => emit (sig_auth_rsp (auth_of "uid" obj))) data
    (finishFriendOperation ID_AUTH_FRIEND_REQ (document data) c).

Definition response_of (obj : qvalue) : Response :=
  mkResponse (int_field "fromuid" obj) (toInt (-1) (field "error" obj)) (string_field "delivery" obj)
    (int_field "touid" obj) (items_of (array_field "text_array" obj)).

Definition text_rsp (data : string) (c : TcpMgr) : TcpMgr :=
  ignored (fun obj c =>
    let '(ok, c) := on_messages (accept (response_of obj)) false c in
    if ok : bool then c else emit (sig_connection_state false) c) data c.

(** The acknowledgements of a notice, in frames of at most 1800 bytes. *)
Definition ack (from : Z) (ids : list string) : qvalue :=
  qobject [("fromuid", qint from); ("msgids", qarray (qstring <$> ids))]%string.
Definition flushAcks (from : Z) (batch : list string) (c : TcpMgr) : TcpMgr :=
  if bool_decide (batch = []) then c else writeFrame ID_TEXT_CHAT_MSG_ACK (toJson (ack from batch)) c.
Fixpoint ack_loop (from : Z) (values : list qvalue) (batch : list string) (c : TcpMgr) : option (list string) * TcpMgr :=
  match values with
  | [] => (Some batch, c)
  | v :: values =>
      let id := string_field "msgid" v in
      if sempty id || negb (isString (field "content" v)) then (None, abort c)
      else if 1800 <? ssize (toJson (ack from (batch ++ [id])))
      then ack_loop from values [id] (flushAcks from batch c)
      else ack_loop from values (batch ++ [id]) c
  end.

(** [GetUid]; there is a user once the login was answered. *)
Definition GetUid (u : UserMgr) : Z := match _user_info u with Some i => us_uid i | None => 0 end.

Definition notify_text (data : string) (c : TcpMgr) : TcpMgr :=
  ignored (fun obj c =>
    let from := int_field "fromuid" obj in
    let to := int_field "touid" obj in
    let messages := array_field "text_array" obj in
    if (from <=? 0) || negb (to =? GetUid (model c)) || bool_decide (length messages = 0%nat) || (50 <? Z.of_nat (length messages))
    then abort c
    else
      let '(fresh, c) := on_messages (save from to (items_of messages)) None c in
      match fresh with
      | None => abort (flag (set_manual_disconnect true) (emit (sig_connection_state false) c))
      | Some fresh =>
          match ack_loop from messages [] c with
          | (None, c) => c
          | (Some batch, c) =>
              let c := if bool_decide (fresh = []) then c else emit (sig_text_chat_msg from to fresh) c in
              flushAcks from batch c
          end
      end) data c.

Definition heartbeat_rsp (data : string) (c : TcpMgr) : TcpMgr :=
  let c := mergeFriendSnapshot (document data) (flag (set_missed_heartbeats 0) c) in
  foldl (fun c v => emit (sig_file_available v) c) c (array_field "pending_files" (document data)).

Definition file_rsp (id : Z) (data : string) (c : TcpMgr) : TcpMgr :=
  match fromJson data with
  | Some v => if isObject v then emit (sig_file_frame id v) c else c
  | None => c
  end.
Definition notify_file (data : string) (c : TcpMgr) : TcpMgr :=
  match fromJson data with
  | Some v => if isObject v && (int_field "error" v =? 0) then emit (sig_file_available v) c else c
  | None => c
  end.

(** [_handlers] *)
Definition handler (mkpath : bool) (id : Z) : option (string -> TcpMgr -> TcpMgr) :=
  if id =? ID_RESOURCE_TOKEN_RSP then Some (fun data => emit (sig_resource_token (document data)))
  else if id =? ID_AVATAR_CHANGED then Some (fun data => emit (sig_avatar_changed (document data)))
  else if id =? ID_CHAT_LOGIN_RSP then Some (login_rsp mkpath)
  else if id =? ID_SEARCH_USER_RSP then Some search_rsp
  else if id =? ID_ADD_FRIEND_RSP then Some add_friend_rsp
  else if id =? ID_NOTIFY_ADD_FRIEND_REQ then Some notify_add_friend
  else if id =? ID_NOTIFY_AUTH_FRIEND_REQ then Some notify_auth_friend
  else if id =? ID_AUTH_FRIEND_RSP then Some auth_friend_rsp
  else if id =? ID_TEXT_CHAT_MSG_RSP then Some text_rsp
  else if id =? ID_NOTIFY_TEXT_CHAT_MSG_REQ then Some notify_text
  else if id =? ID_HEARTBEAT_RSP then Some heartbeat_rsp
  else if (id =? ID_UPLOAD_FILE_RSP) || (id =? ID_UPLOAD_FILE_CHUNK_RSP) || (id =? ID_UPLOAD_FILE_FINISH_RSP)
          || (id =? ID_DOWNLOAD_FILE_CHUNK) then Some (file_rsp id)
  else if id =? ID_NOTIFY_FILE_REQ then Some notify_file
  else None.

Definition log_frame (id : Z) (data : string) (c : TcpMgr) : TcpMgr :=
  mkTcpMgr (_socket c) (parser c) (flags c) (timers c) (endpoint c) (friend_op c) (_messages c) (model c) (dialog c) (emitted c)
    (path c) (files c) (handled c ++ [(id, data)]).

Definition handleMsg (mkpath : bool) (id : Z) (data : string) (c : TcpMgr) : TcpMgr :=
  let c := log_frame id data c in
  match handler mkpath id with Some h => h data c | None => c end.

(** *** Frames *)

Definition allowedLength (id : Z) : Z :=
  if id =? ID_DOWNLOAD_FILE_CHUNK then 60 * 1024 else if id =? ID_CHAT_LOGIN_RSP then 65535 else 16 * 1024.

(** One turn of the loop of [readyRead]: [None] waits for more bytes or gave
    up the connection. *)
Inductive turn := Waits (p : Parser) | Rejects (p : Parser) | Frame (id : Z) (data : string) (p : Parser).

Definition known (id : Z) : bool := bool_decide (is_Some (handler true id)).

Definition read_head (p : Parser) : option (bool * Parser) :=
  if _b_recv_pending p then Some (true, p)
  else
    match _buffer p with
    | String a (String b (String d (String e rest))) =>
        let id := of_be16 a b in
        let len := of_be16 d e in
        let p := mkParser rest false id len in
        if negb (known id) || (len =? 0) then Some (false, p)
        else if allowedLength id <? len then Some (false, p)
        else Some (true, mkParser rest true id len)
    | _ => None
    end.

Definition parse_turn (p : Parser) : turn :=
  match read_head p with
  | None => Waits p
  | Some (false, p) => Rejects p
  | Some (true, p) =>
      if ssize (_buffer p) <? _message_len p then Waits p
      else Frame (_message_id p) (stake (Z.to_nat (_message_len p)) (_buffer p))
             (mkParser (sdrop (Z.to_nat (_message_len p)) (_buffer p)) false (_message_id p) (_message_len p))
  end.

(** Every frame takes a byte from the buffer, so its size bounds the turns. *)
Fixpoint read_loop (fuel : nat) (mkpath : bool) (c : TcpMgr) : TcpMgr :=
  match parse_turn (parser c) with
  | Waits p => set_parser p c
  | Rejects p => abort (set_parser p c)
  | Frame id data p =>
      match fuel with
      | O => c
      | S fuel => read_loop fuel mkpath (handleMsg mkpath id data (set_parser p c))
      end
  end.

Definition readyRead (mkpath : bool) (bytes : string) (c : TcpMgr) : TcpMgr :=
  let p := parser c in
  let buffer := (_buffer p ++ bytes)%string in
  let c := set_parser (mkParser buffer (_b_recv_pending p) (_message_id p) (_message_len p)) c in
  if 256 * 1024 <? ssize buffer then abort c
  else read_loop (String.length buffer) mkpath c.

(** *** The other slots *)

Record ServerInfo := mkServerInfo { Host : string; Port : Z; Transport : string; TlsServerName : string; AllowInsecure : bool }.

Definition slot_tcp_connect (info : ServerInfo) (c : TcpMgr) : TcpMgr :=
  let c := (on_messages close tt c).2 in
  let c := timer (set_outbox_timer false) c in
  let c := flag (fun f => set_login_payload "" (set_retry_attempt 0 (set_authenticated false
                            (set_reconnecting false (set_manual_disconnect false f))))) c in
  let c := resetParser (abort c) in
  let name := trim (TlsServerName info) in
  let c := set_endpoint (mkEndpoint (Host info) (u16 (Port info)) (lower (trim (Transport info)))
                           (if sempty name then Host info else name)) c in
  let refuse c := emit (sig_con_success false) (flag (set_connect_result_emitted true) c) in
  if sempty (_host (endpoint c)) || (_port (endpoint c) =? 0) then refuse c
  else
    let c := flag (set_use_tls (String.eqb (_transport (endpoint c)) "tls")) c in
    if negb (_use_tls (flags c)) && (negb (String.eqb (_transport (endpoint c)) "insecure") || negb (AllowInsecure info))
    then refuse c else beginConnection c.

(** The slot of the login dialog sends [login] when told of the success
    ([src/client/ui/auth/LoginDialog.cpp], [slot_tcp_con_finish]). *)
Definition handleTransportReady (login : string) (c : TcpMgr) : TcpMgr :=
  if _reconnecting (flags c) && negb (sempty (_login_payload (flags c)))
  then writeFrame ID_CHAT_LOGIN (_login_payload (flags c)) (emit (sig_connection_state false) c)
  else writeFrame ID_CHAT_LOGIN login (emit (sig_con_success true) c).

Definition on_connected (login : string) (c : TcpMgr) : TcpMgr :=
  if negb (_use_tls (flags c)) && negb (_connect_result_emitted (flags c))
  then handleTransportReady login (flag (set_connect_result_emitted true) c) else c.
Definition on_encrypted (login : string) (c : TcpMgr) : TcpMgr :=
  if _use_tls (flags c) && negb (_connect_result_emitted (flags c))
  then handleTransportReady login (flag (set_connect_result_emitted true) c) else c.

(** The connection did not come about. *)
Definition give_result (c : TcpMgr) : TcpMgr :=
  if _reconnecting (flags c) then scheduleReconnect c
  else if negb (_connect_result_emitted (flags c))
  then emit (sig_con_success false) (flag (set_connect_result_emitted true) c) else c.
Definition on_sslErrors (c : TcpMgr) : TcpMgr := give_result (abort c).
Definition on_errorOccurred (c : TcpMgr) : TcpMgr := give_result c.

Definition on_retry (c : TcpMgr) : TcpMgr :=
  if negb (_manual_disconnect (flags c)) && _reconnecting (flags c) then beginConnection c else c.

(** The text with the one member [sync_friends], [true]. *)
Definition quote : string := String "034" "".
Definition sync_request : string := ("{" ++ quote ++ "sync_friends" ++ quote ++ ":true}")%string.

Definition refreshFriends (c : TcpMgr) : TcpMgr :=
  if _authenticated (flags c) then writeFrame ID_HEART_BEAT_REQ sync_request c else c.

Definition on_heartbeat (c : TcpMgr) : TcpMgr :=
  if negb (_authenticated (flags c)) then c
  else
    let missed := _missed_heartbeats (flags c) + 1 in
    let c := flag (set_missed_heartbeats missed) c in
    if 3 <=? missed then abort (emit (sig_connection_state false) c) else refreshFriends c.

Definition on_friend_timer (c : TcpMgr) : TcpMgr :=
  let op := friend_op c in
  emit (sig_friend_operation (_friend_request op) (_friend_peer op) false)
    (set_friend_op (mkFriendOp 0 (_friend_request op) (_friend_request_id op)) c).

(** [uuid] is drawn by [QUuid::createUuid]. *)
Definition submitFriendOperation (uuid : string) (request peer : Z) (remark : string) (c : TcpMgr) : TcpMgr :=
  if negb (request =? ID_ADD_FRIEND_REQ) && negb (request =? ID_AUTH_FRIEND_REQ) then c
  else if negb (_authenticated (flags c)) || negb (secured c) then emit (sig_friend_operation request peer false) c
  else if negb (_friend_peer (friend_op c) =? 0) then emit (sig_friend_operation request peer false) c
  else if (peer <=? 0) || (peer =? GetUid (model c)) || (192 <? ssize remark)
  then emit (sig_friend_operation request peer false) c
  else
    let uid := qint (GetUid (model c)) in
    let name := qstring (from_option us_name "" (_user_info (model c))) in
    let payload := qobject (("touid"%string, qint peer) :: ("request_id"%string, qstring uuid) ::
      if request =? ID_ADD_FRIEND_REQ
      then [("uid", uid); ("applyname", name); ("bakname", qstring remark)]%string
      else [("fromuid", uid); ("back", qstring remark)]%string) in
    let c := timer (set_friend_timer true) (set_friend_op (mkFriendOp peer request uuid) c) in
    writeFrame request (toJson payload) c.

Definition slot_disconnect (c : TcpMgr) : TcpMgr :=
  let c := if _authenticated (flags c) then writeFrame ID_RESOURCE_REVOKE_REQ "{}" c else c in
  let c := (on_messages close tt (timer (set_outbox_timer false) c)).2 in
  let c := flag (set_manual_disconnect true) c in
  let c := timer (set_heartbeat_timer false) (timer (set_retry_timer None) c) in
  let c := resetParser (abort c) in
  let c := set_endpoint (mkEndpoint "" 0 (_transport (endpoint c)) "") c in
  flag (fun f => set_connect_result_emitted false (set_login_payload "" (set_missed_heartbeats 0
                   (set_retry_attempt 0 (set_reconnecting false (set_authenticated false f)))))) c.

Definition slot_reconnect_for_proxy (c : TcpMgr) : TcpMgr :=
  if sempty (_login_payload (flags c)) || sempty (_host (endpoint c)) || (_port (endpoint c) =? 0) then c
  else
    let c := flag (fun f => set_retry_attempt 0 (set_authenticated false (set_reconnecting true (set_manual_disconnect false f)))) c in
    scheduleReconnect (abort (emit (sig_connection_state false) (timer (set_heartbeat_timer false) c))).

(** ** Events *)

Inductive event :=
| Connect (info : ServerInfo)
| Submits (now reqId : Z) (data : string)
| Befriends (uuid : string) (request peer : Z) (remark : string)
| Disconnects
| ProxyChanged
| TcpUp (login : string)
| TlsUp (login : string)
| TlsFails
| SocketFails
| Receives (mkpath : bool) (bytes : string)
| Drains (n : Z)
| RetryFires
| HeartbeatFires
| OutboxFires (now : Z)
| FriendFires.

Definition connected (s : Socket) : Socket := mkSocket Connected false (bytesToWrite s) (sent s).
Definition encrypted (s : Socket) : Socket := mkSocket (state s) true (bytesToWrite s) (sent s).
Definition drained (n : Z) (s : Socket) : Socket := mkSocket (state s) (isEncrypted s) (Z.max 0 (bytesToWrite s - n)) (sent s).

(** What the socket, the timers and the windows do; an event that cannot
    happen in a state changes nothing. *)
Definition run_event (c : TcpMgr) (e : event) : TcpMgr :=
  match e with
  | Connect info => slot_tcp_connect info c
  | Submits now reqId data => if reqId =? ID_CHAT_LOGIN then c else slot_send_data now reqId data c
  | Befriends uuid request peer remark => submitFriendOperation uuid request peer remark c
  | Disconnects => slot_disconnect c
  | ProxyChanged => slot_reconnect_for_proxy c
  | TcpUp login =>
      if bool_decide (state (_socket c) = Connecting) then on_connected login (set_socket (connected (_socket c)) c) else c
  | TlsUp login =>
      if bool_decide (state (_socket c) = Connected) && _use_tls (flags c) && negb (isEncrypted (_socket c))
      then on_encrypted login (set_socket (encrypted (_socket c)) c) else c
  | TlsFails => if bool_decide (state (_socket c) = Connected) && _use_tls (flags c) then on_sslErrors c else c
  | SocketFails =>
      match state (_socket c) with
      | Unconnected => c
      | Connecting => on_errorOccurred (set_socket (closed (_socket c)) c)
      | Connected => let c := on_errorOccurred c in on_disconnected (set_socket (closed (_socket c)) c)
      end
  | Receives mkpath bytes => if secured c then readyRead mkpath bytes c else c
  | Drains n => set_socket (drained n (_socket c)) c
  | RetryFires =>
      if bool_decide (is_Some (retry_timer (timers c))) then on_retry (timer (set_retry_timer None) c) else c
  | HeartbeatFires => if heartbeat_timer (timers c) then on_heartbeat c else c
  | OutboxFires now => if outbox_timer (timers c) then flushOutbox now c else c
  | FriendFires => if friend_timer (timers c) then on_friend_timer (timer (set_friend_timer false) c) else c
  end.

(** [TcpMgr()] *)
Definition new_TcpMgr (m : MessageStore) : TcpMgr :=
  mkTcpMgr (mkSocket Unconnected false 0 []) (mkParser "" false 0 0)
    (mkFlags true false false false false 0 0 "") (mkTimers None false false false) (mkEndpoint "" 0 "tls" "")
    (mkFriendOp 0 ID_ADD_FRIEND_REQ "") m new_UserMgr false [] 0 ∅ [].

(** ** What the handlers keep *)

(** A request other than the login and the acknowledgements. *)
Definition plain_request (reqId : Z) : Prop := 0 <= reqId < 2 ^ 16 /\ reqId <> ID_CHAT_LOGIN /\ reqId <> ID_TEXT_CHAT_MSG_ACK.

(** A property that the steps the slots are made of keep. *)
Class Steps (P : TcpMgr -> Prop) : Prop := {
  st_emit s c : P c -> P (emit s c);
  st_model u c : _user_info u = _user_info (model c) -> P c -> P (set_model u c);
  st_store op c : (forall uid, op <> Open uid) -> P c -> P (set_messages (run_store (_messages c) op) c);
  st_friend_op o c : P c -> P (set_friend_op o c);
  st_friend_timer b c : P c -> P (timer (set_friend_timer b) c);
  st_missed n c : P c -> P (flag (set_missed_heartbeats n) c);
  st_write reqId data c : plain_request reqId -> P c -> P (writeFrame reqId data c);
}.

(** Also those of the handlers of the responses. *)
Class Flows (P : TcpMgr -> Prop) : Prop := {
  st_steps :: Steps P;
  st_heartbeat_timer b c : P c -> P (timer (set_heartbeat_timer b) c);
  st_outbox_timer b c : P c -> P (timer (set_outbox_timer b) c);
  st_login c : P c -> P (flag logged_in c);
  st_settled c : P c -> P (flag (set_reconnecting false) c);
  st_manual c : P c -> P (flag (set_manual_disconnect true) c);
  st_abort c : P c -> P (abort c);
}.

(** Also the entry into an account, and the notices of messages with their
    acknowledgements. *)
Class Handled (P : TcpMgr -> Prop) : Prop := {
  st_flows :: Flows P;
  st_enter v c : P c -> let '(opened, c1) := open_account (int_field "uid" v) c in
    P (if opened : bool then set_model (entered v (model c1)) c1 else c1);
  st_notify data c : P c -> P (notify_text data c);
}.

(** Also those of the reader. *)
Class Stable (P : TcpMgr -> Prop) : Prop := {
  st_handled :: Handled P;
  st_parser p c : P c -> P (set_parser p c);
  st_log id data c : P c -> P (log_frame id data c);
}.

End Client.

(** The lists of the model are changed without the account. *)
Lemma apply_list_user l : forall u, _user_info (AppendApplyList l u) = _user_info u.
Proof. induction l as [|a l IH]; intros u; [done|]. unfold AppendApplyList in *. cbn [foldl]. by rewrite IH. Qed.
Lemma friend_list_user l : forall u, _user_info (AppendFriendList l u) = _user_info u.
Proof.
  induction l as [|a l IH]; intros u; [done|]. unfold AppendFriendList in *. cbn [foldl]. rewrite IH.
  unfold append_friend. by destruct (_friend_map u !! fi_uid a).
Qed.
Lemma chat_msg_user uid l u : _user_info (AppendFriendChatMsg uid l u) = _user_info u.
Proof. unfold AppendFriendChatMsg. by destruct (_friend_map u !! uid). Qed.

Create HintDb same_user discriminated.
#[export] Hint Resolve apply_list_user friend_list_user chat_msg_user : same_user.

(** The steps of a slot, one by one. *)
Ltac stable :=
  repeat first
    [ done | progress intros | apply st_emit | apply st_model; [solve [auto with same_user]|] | apply st_parser
    | apply st_friend_op | apply st_friend_timer | apply st_heartbeat_timer | apply st_outbox_timer
    | apply st_missed | apply st_log | apply st_login | apply st_settled | apply st_manual | apply st_abort ].

Section Slots.
Context `{QJson} (P : TcpMgr -> Prop) `{!Steps P}.

Lemma stable_on_messages {A} op (p : prog MessageStore A) a c : (forall uid, op <> Open uid) ->
  (forall m, (p m).2 = run_store m op) -> P c -> P (on_messages p a c).2.
Proof.
  intros Hop Hp Hc. unfold on_messages. specialize (Hp (_messages c)). destruct (p (_messages c)) as [r m]. cbn in *. subst.
  by apply st_store.
Qed.

Lemma stable_flush now c : P c -> P (flushOutbox now c).
Proof.
  intros Hc. unfold flushOutbox. destruct (_ || _); [done|].
  pose proof (stable_on_messages (Pending now 16) (pending now 16) [] c ltac:(done) ltac:(done) Hc) as Hp.
  destruct (on_messages _ _ c) as [l c1]. cbn [snd] in Hp.
  clear Hc. revert c1 Hp. induction l as [|[to i] l IH]; intros c1 Hp; [done|]. cbn [flush_loop].
  destruct (_ <? _); [done|].
  pose proof (stable_on_messages (Attempted i.1 now) (attempted i.1 now) false c1 ltac:(done) ltac:(done) Hp) as Ha.
  destruct (on_messages _ _ c1) as [[] c2]; cbn [negb snd] in *; [|done]. by apply IH, st_write.
Qed.

Lemma stable_enqueue now message c : P c -> P (enqueueText now message c).2.
Proof.
  intros Hc. unfold enqueueText. cbn zeta. destruct (existsb _ _); [stable|]. destruct (negb _); [stable|].
  match goal with |- context [on_messages (save ?a ?b ?l) ?x c] =>
    pose proof (stable_on_messages (Save a b l) (save a b l) x c ltac:(done) ltac:(done) Hc) as Hs;
    destruct (on_messages (save a b l) x c) as [[fresh|] c1] end; cbn [snd] in *; [by apply stable_flush|stable].
Qed.

Lemma stable_send now reqId data c : (P c -> P (writeFrame reqId data c)) -> P c -> P (slot_send_data now reqId data c).
Proof. intros Hw Hc. unfold slot_send_data. destruct (_ =? _); [by apply stable_enqueue|by apply Hw]. Qed.

Lemma stable_befriend uuid request peer remark c : P c -> P (submitFriendOperation uuid request peer remark c).
Proof.
  intros Hc. unfold submitFriendOperation. cbn zeta. destruct (negb _ && negb _) eqn:E; [done|].
  assert (plain_request request) as Hne.
  { apply andb_false_iff in E as [E|E]; apply negb_false_iff, Z.eqb_eq in E; subst; done. }
  clear E. destruct (_ || _); [stable|]. destruct (negb _); [stable|]. destruct (_ || _ || _); [stable|].
  apply st_write; stable.
Qed.

End Slots.

Section Handlers.
Context `{QJson} (P : TcpMgr -> Prop) `{!Flows P}.

Lemma stable_fold {A} (f : TcpMgr -> A -> TcpMgr) l : (forall c x, P c -> P (f c x)) -> forall c, P c -> P (foldl f c l).
Proof. intros Hf. induction l as [|x l IH]; intros c Hc; [done|]. by apply IH, Hf. Qed.

Lemma stable_checked data missing failed body c : (forall c, P c -> P (missing c)) ->
  (forall e c, P c -> P (failed e c)) -> (forall v c, P c -> P (body v c)) -> P c -> P (checked data missing failed body c).
Proof. intros Hm Hf Hb Hc. unfold checked. repeat case_match; auto. Qed.

Lemma stable_merge v c : P c -> P (mergeFriendSnapshot v c).
Proof.
  intros Hc. unfold mergeFriendSnapshot. cbn zeta.
  assert (forall c, P c -> P (if contains "apply_list" v || contains "friend_list" v then emit sig_friend_snapshot c else c))
    as Hlast by (intros c' Hc'; destruct (_ || _); stable).
  apply Hlast, st_model; [auto with same_user|]. apply stable_fold; [intros c' x Hc'; repeat case_match; stable|].
  apply st_model; [auto with same_user|]. apply stable_fold; [intros c' x Hc'; repeat case_match; stable|done].
Qed.

Lemma stable_finish request v c : P c -> P (finishFriendOperation request v c).
Proof. intros Hc. unfold finishFriendOperation. repeat case_match; stable. Qed.

Lemma stable_login_done v c : P c -> P (login_done v c).
Proof.
  assert (forall c, P c -> P (login_friends v c)) as Hfriends.
  { intros c' Hc. unfold login_friends. cbn zeta. set (c1 := if _reconnecting (flags c') then _ else _).
    assert (P c1) as Hc1 by (unfold c1; repeat case_match; [by apply stable_merge|stable..]).
    destruct (contains "friend_list" v); stable. }
  intros Hc. unfold login_done. cbn zeta. apply stable_fold; [stable|]. apply st_emit. stable.
  apply stable_fold; [|by apply Hfriends].
  intros c2 x Hc2. unfold load_history.
  pose proof (stable_on_messages P (History (int_field "uid" x) 200) (history (int_field "uid" x) 200) [] c2 ltac:(done) ltac:(done) Hc2) as Hh.
  destruct (on_messages _ _ c2). stable.
Qed.

(** The notices, where also an acknowledgement may be written. *)
Section Acks.
Context (Hack : forall data c, P c -> P (writeFrame ID_TEXT_CHAT_MSG_ACK data c)).

Lemma stable_acks from batch c : P c -> P (flushAcks from batch c).
Proof. intros Hc. unfold flushAcks. case_bool_decide; [done|]. by apply Hack. Qed.

Lemma stable_ack_loop from values : forall batch c, P c -> P (ack_loop from values batch c).2.
Proof.
  induction values as [|v values IH]; intros batch c Hc; [done|]. cbn [ack_loop].
  destruct (_ || _); [stable|]. destruct (_ <? _); [by apply IH, stable_acks|by apply IH].
Qed.

Lemma stable_notify_text data c : P c -> P (notify_text data c).
Proof.
  apply stable_checked; [stable..|]. intros v c' Hc. cbn zeta. destruct (_ || _); [stable|].
  pose proof (stable_on_messages P (Save (int_field "fromuid" v) (int_field "touid" v) (items_of (array_field "text_array" v)))
    (save (int_field "fromuid" v) (int_field "touid" v) (items_of (array_field "text_array" v))) None c' ltac:(done) ltac:(done) Hc) as Hs.
  destruct (on_messages _ _ c') as [[fresh|] c1]; cbn [snd] in Hs; [|stable].
  pose proof (stable_ack_loop (int_field "fromuid" v) (array_field "text_array" v) [] c1 Hs) as Ha.
  destruct (ack_loop _ _ _ c1) as [[batch|] c2]; cbn [snd] in Ha; [|done]. apply stable_acks.
  case_bool_decide; stable.
Qed.

End Acks.

End Handlers.

Section Dispatch.
Context `{QJson} (P : TcpMgr -> Prop) `{!Handled P}.

Lemma stable_login mkpath data c : P c -> P (login_rsp mkpath data c).
Proof.
  apply (stable_checked P); [stable|intros e c'; unfold login_refused; destruct (_reconnecting _); stable|].
  intros v c' Hc. destruct mkpath; [|stable]. pose proof (st_enter (P := P) v c' Hc) as Ho.
  destruct (open_account (int_field "uid" v) c') as [[] c1]; cbn [negb] in *; [|stable].
  by apply (stable_login_done P).
Qed.

Lemma stable_handler mkpath id h data c : handler mkpath id = Some h -> P c -> P (h data c).
Proof.
  intros E Hc. revert E. unfold handler.
  repeat (destruct (id =? _); cbn [orb]; [intros [= <-]|]); [..|done].
  all: try (by (unfold file_rsp, notify_file; repeat case_match; stable)).
  - by apply stable_login.
  - apply (stable_checked P); stable.
  - by apply (stable_finish P).
  - apply (stable_checked P); stable.
  - apply (stable_checked P); stable.
  - apply (stable_checked P); [stable..|]. by apply (stable_finish P).
  - apply (stable_checked P); [stable..| |done]. intros v c' Hc'.
    pose proof (stable_on_messages P (Accept (response_of v)) (accept (response_of v)) false c' ltac:(done) ltac:(done) Hc') as Ha.
    destruct (on_messages _ _ c') as [[] c1]; [done|stable].
  - by apply st_notify.
  - unfold heartbeat_rsp. cbn zeta. apply (stable_fold P); [stable|]. apply (stable_merge P). stable.
Qed.

End Dispatch.

Section Stability.
Context `{QJson} (P : TcpMgr -> Prop) `{!Stable P}.

Lemma stable_handleMsg mkpath id data c : P c -> P (handleMsg mkpath id data c).
Proof.
  intros Hc. unfold handleMsg. cbn zeta. assert (P (log_frame id data c)) as Hl by stable.
  destruct (handler mkpath id) eqn:E; [|done]. by eapply stable_handler; [apply _| |].
Qed.

Lemma stable_read_loop mkpath fuel : forall c, P c -> P (read_loop fuel mkpath c).
Proof.
  induction fuel as [|fuel IH]; intros c Hc; cbn [read_loop]; destruct (parse_turn (parser c)); try stable.
  apply IH, stable_handleMsg. stable.
Qed.

Lemma stable_readyRead mkpath bytes c : P c -> P (readyRead mkpath bytes c).
Proof. intros Hc. unfold readyRead. cbn zeta. destruct (_ <? _); [stable|]. apply stable_read_loop. stable. Qed.

Lemma stable_heartbeat c : P c -> P (on_heartbeat c).
Proof.
  intros Hc. unfold on_heartbeat, refreshFriends. cbn zeta. destruct (negb _); [done|]. destruct (_ <=? _); [stable|].
  destruct (_authenticated _); [apply st_write; [done|]|]; stable.
Qed.

End Stability.
