(* ===== verification/ClientLink.v ===== *)
(** What the client's connection to the chat server guarantees, whatever
    happens to it: nothing leaves it in plain text, and a session that is lost
    is resumed.  Over the model of [TcpMgr]. *)
From S2P Require Import Prelude Mysql MessageStore ClientModel QtJson Session TcpMgr.

(** ** Encryption *)

Section Encryption.
Context `{QJson} (supportsSsl : bool).

Definition all_encrypted (c : TcpMgr) : Prop := Forall (fun b => b.1 = true) (sent (_socket c)).

Definition tls_link (c : TcpMgr) : Prop := _use_tls (flags c) = true /\ all_encrypted c.

(** No connection, and none that will be made by itself. *)
Definition idle (c : TcpMgr) : Prop :=
  state (_socket c) = Unconnected /\ _login_payload (flags c) = ""%string /\ _reconnecting (flags c) = false /\ all_encrypted c.

Lemma disconnected_link c : let c' := on_disconnected c in
  _socket c' = _socket c /\ _use_tls (flags c') = _use_tls (flags c) /\ _login_payload (flags c') = _login_payload (flags c) /\
  _manual_disconnect (flags c') = _manual_disconnect (flags c) /\
  (_login_payload (flags c) = ""%string -> _reconnecting (flags c') = _reconnecting (flags c)).
Proof.
  unfold on_disconnected, scheduleReconnect. cbn zeta. destruct (_ =? 0); cbn [flags flag timer set_flags set_timers emit];
    (destruct (negb _ && negb _) eqn:E; [|done]); (destruct (_ || _ || _); (split_and!; try done));
    intros Hp; cbn in E, Hp; rewrite Hp, andb_false_r in E; done.
Qed.

Lemma account_rest uid c : let c' := (open_account uid c).2 in
  _socket c' = _socket c /\ flags c' = flags c /\ timers c' = timers c.
Proof. unfold open_account. cbn zeta. by destruct (open uid _). Qed.

Lemma write_link reqId data c : tls_link c -> tls_link (writeFrame reqId data c).
Proof.
  intros [Ht Hs]. unfold writeFrame. cbn zeta.
  set (c1 := if (reqId =? ID_CHAT_LOGIN) && _ then _ else c). assert (tls_link c1) as [Ht1 Hs1] by (unfold c1; by destruct (_ && _)).
  clearbody c1. case_bool_decide; cbn [negb]; [|done]. rewrite Ht1. destruct (isEncrypted (_socket c1)) eqn:Ee; [|done].
  cbn [negb andb]. destruct (sempty data || _); [done|]. destruct (_ <? _); [done|]. split; [done|].
  apply Forall_app. split; [done|]. by repeat constructor.
Qed.

#[local] Instance steps_tls : Steps tls_link.
Proof. split; try done. intros. by apply write_link. Qed.

#[local] Instance flows_tls : Flows tls_link.
Proof.
  split; try done; [apply _|]. intros c [Ht Hs]. unfold abort. cbn zeta. case_bool_decide; [|done].
  destruct (disconnected_link (set_socket (closed (_socket c)) c)) as (E1 & E2 & _). unfold tls_link, all_encrypted.
  rewrite E1, E2. done.
Qed.

#[local] Instance handled_tls : Handled tls_link.
Proof.
  split; [apply _| |].
  - intros v c Hc. pose proof (account_rest (int_field "uid" v) c) as Ha. destruct (open_account _ c) as [opened c1].
    cbn [snd] in Ha. unfold tls_link, all_encrypted in *. destruct Ha as (E1 & E2 & _). destruct opened; cbn; by rewrite E1, E2.
  - intros data c. apply (stable_notify_text tls_link). intros. by apply write_link.
Qed.

#[local] Instance stable_tls : Stable tls_link.
Proof. split; try done. apply _. Qed.

Lemma write_idle reqId data c : reqId <> ID_CHAT_LOGIN -> idle c -> idle (writeFrame reqId data c).
Proof.
  intros Hne (Hs & Hp & Hr & Ha). unfold writeFrame. cbn zeta.
  rewrite (proj2 (Z.eqb_neq reqId ID_CHAT_LOGIN)) by done. cbn [andb]. rewrite Hs. by rewrite bool_decide_eq_false_2.
Qed.

#[local] Instance steps_idle : Steps idle.
Proof. split; try done. intros reqId data c (_ & Hne & _). by apply write_idle. Qed.

#[local] Instance flows_idle : Flows idle.
Proof.
  split; try done; try apply _; try by intros c (Hs & Hp & Hr & Ha).
  intros c (Hs & Hp & Hr & Ha). unfold abort. cbn zeta. rewrite Hs. by rewrite bool_decide_eq_false_2.
Qed.

#[local] Instance handled_idle : Handled idle.
Proof.
  split; [apply _| |].
  - intros v c Hc. pose proof (account_rest (int_field "uid" v) c) as Ha. destruct (open_account _ c) as [opened c1].
    cbn [snd] in Ha. unfold idle, all_encrypted in *. destruct Ha as (E1 & E2 & _). destruct opened; cbn; by rewrite E1, E2.
  - intros data c. apply (stable_notify_text idle). intros. by apply write_idle.
Qed.

#[local] Instance stable_idle : Stable idle.
Proof. split; try done. apply _. Qed.

(** An endpoint that may not be spoken to in plain text. *)
Definition plain_refused (e : event) : Prop :=
  match e with Connect info => AllowInsecure info = false | _ => True end.

Lemma reset_idle c : all_encrypted c -> idle (resetParser (abort (flag (fun f => set_login_payload "" (set_retry_attempt 0
  (set_authenticated false (set_reconnecting false (set_manual_disconnect false f))))) c))).
Proof.
  intros Ha. unfold abort, resetParser. cbn zeta. case_bool_decide; [|done].
  match goal with |- idle (set_parser _ (on_disconnected ?c1)) => destruct (disconnected_link c1) as (E1 & E2 & E3 & _ & E4) end.
  unfold idle, all_encrypted. cbn [set_parser _socket flags]. rewrite E1, E3, E4 by done. done.
Qed.

Lemma begin_link c : tls_link c -> tls_link (beginConnection supportsSsl c).
Proof.
  intros [Ht Ha]. unfold beginConnection. cbn zeta. destruct (_ && negb supportsSsl); [done|].
  unfold tls_link, all_encrypted, connecting. cbn. by destruct (state (_socket c)).
Qed.

Lemma connect_link info c : AllowInsecure info = false -> all_encrypted c ->
  tls_link (slot_tcp_connect supportsSsl info c) \/ idle (slot_tcp_connect supportsSsl info c).
Proof.
  intros Hinfo Ha. unfold slot_tcp_connect. cbn zeta.
  match goal with |- context [resetParser ?x] => set (c1 := resetParser x) end.
  assert (idle c1) as Hidle by (unfold c1; by apply reset_idle). clearbody c1. destruct Hidle as (Hs & Hp & Hr & Hall).
  destruct (_ || _); [by right|]. cbn [flag set_flags flags set_use_tls _use_tls].
  destruct (String.eqb _ "tls") eqn:Etls; cbn [negb andb]; [left|right; rewrite Hinfo, orb_true_r; done].
  by apply begin_link.
Qed.

Lemma schedule_link c : _socket (scheduleReconnect c) = _socket c /\ _use_tls (flags (scheduleReconnect c)) = _use_tls (flags c).
Proof. unfold scheduleReconnect. by destruct (_ || _ || _). Qed.

Lemma result_link c : tls_link c -> tls_link (give_result c).
Proof.
  intros Hc. unfold give_result, tls_link, all_encrypted. destruct (_reconnecting _); [|by destruct (negb _)].
  by destruct (schedule_link c) as [-> ->].
Qed.

Lemma closing_link c : tls_link c -> tls_link (on_disconnected (set_socket (closed (_socket c)) c)).
Proof.
  intros Hc. unfold tls_link, all_encrypted.
  by destruct (disconnected_link (set_socket (closed (_socket c)) c)) as (-> & -> & _).
Qed.

Lemma disconnect_idle c : tls_link c \/ idle c -> idle (slot_disconnect c).
Proof.
  intros Hc. unfold slot_disconnect. cbn zeta. set (c1 := if _authenticated (flags c) then _ else c).
  assert (all_encrypted c1) as Ha.
  { unfold c1. destruct (_authenticated _); [|by destruct Hc as [[_ ?]|(_ & _ & _ & ?)]].
    destruct Hc as [Hc|Hc].
    - by apply (write_link ID_RESOURCE_REVOKE_REQ "{}") in Hc as [_ ?].
    - by apply (write_idle ID_RESOURCE_REVOKE_REQ "{}") in Hc as (_ & _ & _ & ?). }
  clearbody c1. unfold on_messages. destruct (close _) as [r m]. cbn [snd].
  match goal with |- context [abort ?x] => set (c2 := x) end.
  assert (_socket (abort c2) = closed (_socket c1)) as E.
  { unfold abort. cbn zeta. case_bool_decide; [|done]. by destruct (disconnected_link (set_socket (closed (_socket c2)) c2)) as (-> & _). }
  clearbody c2. unfold idle, all_encrypted. cbn. rewrite E. done.
Qed.

Lemma event_link e c : plain_refused e -> tls_link c \/ idle c ->
  tls_link (run_event supportsSsl c e) \/ idle (run_event supportsSsl c e).
Proof.
  intros He Hc. assert (all_encrypted c) as Ha by (destruct Hc as [[_ ?]|(_ & _ & _ & ?)]; done).
  assert (forall f : TcpMgr -> TcpMgr, (forall P, Stable P -> P c -> P (f c)) -> tls_link (f c) \/ idle (f c)) as Hboth.
  { intros f Hf. destruct Hc as [Hc|Hc]; [left|right]; by apply Hf; [apply _|]. }
  assert (state (_socket c) <> Unconnected -> tls_link c) as Hup by (destruct Hc as [Hc|(Hs & _)]; done).
  destruct e as [info|now reqId data|uuid request peer remark| | |login|login| | |mkpath bytes|n| | |now| ]; cbn [run_event].
  - by apply connect_link.
  - destruct (Z.eqb_spec reqId ID_CHAT_LOGIN); [done|].
    destruct Hc as [Hc|Hc]; [left; apply (stable_send tls_link)|right; apply (stable_send idle)]; try done.
    + by apply write_link.
    + by apply write_idle.
  - apply (Hboth (submitFriendOperation uuid request peer remark)). intros P HP. apply stable_befriend, _.
  - right. by apply disconnect_idle.
  - unfold slot_reconnect_for_proxy. cbn zeta. destruct Hc as [Hc|Hc].
    + left. destruct (_ || _ || _); [done|]. match goal with |- context [abort ?x] => set (c1 := x) end.
      assert (tls_link (abort c1)) as Hab by by apply st_abort. unfold tls_link, all_encrypted.
      by destruct (schedule_link (abort c1)) as [-> ->].
    + right. destruct Hc as (Hs & Hp & Hc). by rewrite Hp.
  - case_bool_decide as Hs; [|done]. assert (tls_link c) as [Ht _] by (apply Hup; congruence).
    left. unfold on_connected. cbn [flags set_socket]. by rewrite Ht.
  - destruct (_ && _ && _) eqn:E; [|done]. bool_hyps. left. assert (tls_link c) as Hl by (apply Hup; congruence).
    unfold on_encrypted, handleTransportReady. destruct (_ && _); [|done]. destruct (_ && _); by apply write_link.
  - destruct (_ && _) eqn:E; [|done]. bool_hyps. left. apply result_link, st_abort, Hup. congruence.
  - destruct (state (_socket c)) eqn:Es; [done|left..].
    + apply (result_link (set_socket (closed (_socket c)) c)), Hup. done.
    + apply closing_link, result_link, Hup. done.
  - destruct (secured c); [|done]. apply (Hboth (readyRead mkpath bytes)). intros P HP. by apply stable_readyRead.
  - by destruct Hc as [Hc|Hc]; [left|right].
  - case_bool_decide; [|done]. unfold on_retry. destruct Hc as [Hc|Hc].
    + left. destruct (_ && _); [by apply begin_link|done].
    + right. destruct Hc as (Hs & Hp & Hr & Hc). cbn [flags timer set_timers]. by rewrite Hr, andb_false_r.
  - destruct (heartbeat_timer _); [|done]. apply (Hboth on_heartbeat). intros P HP. by apply stable_heartbeat.
  - destruct (outbox_timer _); [|done]. apply (Hboth (flushOutbox now)). intros P HP. apply stable_flush, _.
  - destruct (friend_timer _); [|done]. by destruct Hc as [Hc|Hc]; [left|right].
Qed.

(** C26. Unless the user was told of an endpoint without encryption and allowed
    it, the client never writes a byte on a connection that is not encrypted:
    whatever the endpoint is asked to be, and through all reconnections,
    failures, proxy changes and answers of the server. *)
Theorem never_plain m events : Forall plain_refused events ->
  Forall (fun b => b.1 = true) (sent (_socket (foldl (run_event supportsSsl) (new_TcpMgr m) events))).
Proof.
  intros He. assert (forall c, tls_link c \/ idle c -> tls_link (foldl (run_event supportsSsl) c events) \/
    idle (foldl (run_event supportsSsl) c events)) as Hrun.
  { induction He as [|e events Hp _ IH]; intros c Hc; [done|]. by apply IH, event_link. }
  assert (idle (new_TcpMgr m)) as Hnew by (split_and!; [done..|apply Forall_nil_2]).
  by destruct (Hrun (new_TcpMgr m) (or_intror Hnew)) as [[_ ?]|(_ & _ & _ & ?)].
Qed.

End Encryption.

(** ** Reconnecting *)

Section Reconnecting.
Context `{QJson}.

(** [reconnecting] implies a login to repeat, and that the session is not in
    use; without a connection a retry is due. *)
Record pre_alive (c : TcpMgr) : Prop := {
  al_payload : _reconnecting (flags c) = true -> _login_payload (flags c) <> ""%string;
  al_auth : _reconnecting (flags c) = true \/ state (_socket c) = Connecting -> _authenticated (flags c) = false;
  al_delay : forall d, retry_timer (timers c) = Some d -> d ∈ delays;
  al_attempt : 0 <= _retry_attempt (flags c);
}.
Definition due (c : TcpMgr) : Prop :=
  _reconnecting (flags c) = true -> _manual_disconnect (flags c) = false -> state (_socket c) = Unconnected ->
  is_Some (retry_timer (timers c)).
Definition alive (c : TcpMgr) : Prop := pre_alive c /\ due c.

Lemma schedule_alive c : pre_alive c -> alive (scheduleReconnect c).
Proof.
  intros Hc. pose proof Hc as [H1 H2 H3 H4]. unfold scheduleReconnect.
  destruct (_manual_disconnect (flags c)) eqn:Em; cbn [orb]; [split; [done|unfold due; congruence]|].
  destruct (_reconnecting (flags c)) eqn:Er; cbn [orb negb]; [|split; [done|unfold due; congruence]].
  case_bool_decide as Ha; [split; [done|by unfold due]|].
  set (index := Z.min _ _). assert (exists d, delays !! Z.to_nat index = Some d) as [d Hd].
  { apply lookup_lt_is_Some. unfold index. cbn [delays length]. lia. }
  split; [split|intros _ _ _; cbn; rewrite Hd; by exists d]; cbn; rewrite ?Hd.
  - intros _. by apply H1.
  - intros _. apply H2. by left.
  - intros d' [= <-]. by eapply list_elem_of_lookup_2.
  - lia.
Qed.

Lemma closed_alive c : pre_alive c -> state (_socket c) = Unconnected -> alive (on_disconnected c).
Proof.
  intros Hc Hs. unfold on_disconnected. cbn zeta. set (c1 := if _ =? 0 then c else _).
  assert (pre_alive c1 /\ state (_socket c1) = Unconnected) as [Hc1 Hs1]
    by (unfold c1; destruct (_ =? 0); [done|]; by destruct Hc).
  clearbody c1. destruct Hc1 as [H1 H2 H3 H4]. cbn [flag set_flags flags timer set_timers].
  destruct (negb _ && negb _) eqn:E; cbn in E.
  - apply schedule_alive. split; cbn; try done. intros _ Hp. by rewrite Hp, andb_false_r in E.
  - split; [by split|]. intros Hr Hm _. cbn in Hr, Hm. rewrite Hm in E. specialize (H1 Hr). by destruct (_login_payload (flags c1)).
Qed.

(** What the handlers keep: they run on a connection that is up or lost. *)
Definition served (c : TcpMgr) : Prop := alive c /\ state (_socket c) <> Connecting.

Lemma write_alive reqId data c : reqId <> ID_CHAT_LOGIN -> alive c -> alive (writeFrame reqId data c).
Proof.
  intros Hne Hc. unfold writeFrame. cbn zeta. rewrite (proj2 (Z.eqb_neq _ _) Hne). cbn [andb].
  destruct Hc as [[H1 H2 H3 H4] Hd]. repeat case_match; (split; [by split|done]).
Qed.

(** Steps that do not touch what [alive] is about. *)
Ltac realive :=
  intros; repeat match goal with Hc : served _ |- _ => destruct Hc | Hc : alive _ |- _ => destruct Hc as [[] ?] end;
  repeat first [done | split].

#[local] Instance steps_alive : Steps alive.
Proof. split; try (intros reqId data c (_ & Hne & _); by apply write_alive); realive. Qed.

Lemma write_state reqId data c : state (_socket (writeFrame reqId data c)) = state (_socket c).
Proof. unfold writeFrame. cbn zeta. repeat case_match; done. Qed.

#[local] Instance steps_served : Steps served.
Proof.
  split; try (realive; fail).
  intros reqId data c (_ & Hne & _) [Hc Hs]. split; [by apply write_alive|by rewrite write_state].
Qed.

#[local] Instance flows_served : Flows served.
Proof.
  split; try apply _; try (realive; fail).
  - intros c [[[H1 H2 H3 H4] Hd] Hs]. split; [|done]. split; [split; cbn; try done|done]. by intros [|].
  - intros c [[[H1 H2 H3 H4] Hd] Hs]. split; [|done]. split; [split; cbn; try done|done]. by intros [|].
  - intros c [[[H1 H2 H3 H4] Hd] Hs]. unfold abort. cbn zeta. case_bool_decide as Hst.
    + split; [apply closed_alive; [split; cbn; try done|done]|].
      * intros [Hr|?]; [|done]. apply H2. by left.
      * match goal with |- context [on_disconnected ?x] => destruct (disconnected_link x) as (-> & _) end. done.
    + split; [|done]. assert (state (_socket c) = Unconnected) as Es by by destruct (state (_socket c)).
      assert (due (set_socket (closed (_socket c)) c)) as Hd' by (intros ? ? _; by apply Hd).
      split; [split; cbn; try done|exact Hd']. intros [Hr|?]; [|done]. apply H2. by left.
Qed.

#[local] Instance handled_served : Handled served.
Proof.
  split; [apply _| |].
  - intros v c Hc. pose proof (account_rest (int_field "uid" v) c) as Ha. destruct (open_account _ c) as [opened c1].
    cbn [snd] in Ha. destruct Ha as (E1 & E2 & E3). assert (served c1) as Hc1; [|destruct opened; realive].
    destruct Hc as [[[H1 H2 H3 H4] Hd] Hs]. unfold served, alive, due in *. rewrite E1, E2, E3.
    split; [split; [split; by rewrite ?E1, ?E2, ?E3|done]|done].
  - intros data c. apply (stable_notify_text served). intros data' c' [Hc Hs]. split; [by apply write_alive|by rewrite write_state].
Qed.

#[local] Instance stable_served : Stable served.
Proof. split; try apply _; realive. Qed.

Lemma begin_alive c : pre_alive c -> _authenticated (flags c) = false -> alive (beginConnection true c).
Proof.
  intros [H1 H2 H3 H4] Ha. unfold beginConnection. cbn zeta. rewrite andb_false_r.
  assert (state (connecting (_socket c)) <> Unconnected) as Hs by (unfold connecting; by destruct (state (_socket c)) eqn:E; rewrite ?E).
  split; [split; cbn; try done|]. by intros _ _ ?.
Qed.

Lemma result_alive c : pre_alive c -> (_reconnecting (flags c) = false -> due c) -> alive (give_result c).
Proof.
  intros Hc Hd. unfold give_result. destruct (_reconnecting (flags c)) eqn:Er; [by apply schedule_alive|].
  specialize (Hd eq_refl). destruct (negb _); [|done]. by destruct Hc as [? ? ? ?]; split; [split|].
Qed.

Lemma login_alive login c : alive c -> alive (handleTransportReady login c).
Proof.
  intros Hc. pose proof Hc as [[H1 H2 H3 H4] Hd]. unfold handleTransportReady.
  destruct (_ && _) eqn:E.
  - apply andb_true_iff in E as [Hr _]. unfold writeFrame. cbn zeta. cbn [emit flags]. rewrite Hr. cbn [negb andb].
    rewrite andb_false_r. repeat case_match; realive.
  - unfold writeFrame. cbn zeta. cbn [emit flags]. destruct (_reconnecting (flags c)) eqn:Er; cbn [negb andb] in *.
    + rewrite Z.eqb_refl. cbn [andb]. repeat case_match; realive.
    + rewrite Z.eqb_refl. cbn [andb]. destruct (negb _); [|destruct (_ && _); [|destruct (_ || _); [|destruct (_ <? _)]]];
        (split; [split; cbn; try done|done]); by rewrite Er.
Qed.

Lemma disconnected_quiet c : _login_payload (flags c) = ""%string -> let c' := on_disconnected c in
  flags c' = set_authenticated false (flags c) /\ retry_timer (timers c') = retry_timer (timers c) /\ _socket c' = _socket c.
Proof.
  intros Hp. unfold on_disconnected. cbn zeta. destruct (_ =? 0); cbn; rewrite Hp; cbn; by rewrite andb_false_r.
Qed.

Lemma abort_quiet c : _login_payload (flags c) = ""%string -> let c' := abort c in
  _reconnecting (flags c') = _reconnecting (flags c) /\ _retry_attempt (flags c') = _retry_attempt (flags c) /\
  (_authenticated (flags c) = false -> _authenticated (flags c') = false) /\
  retry_timer (timers c') = retry_timer (timers c) /\ state (_socket c') = Unconnected.
Proof.
  intros Hp. unfold abort. cbn zeta. case_bool_decide; [|by split_and!].
  destruct (disconnected_quiet (set_socket (closed (_socket c)) c) Hp) as (-> & -> & ->). by split_and!.
Qed.

Lemma connect_alive info c : alive c -> alive (slot_tcp_connect true info c).
Proof.
  intros [[H1 H2 H3 H4] Hd]. unfold slot_tcp_connect. cbn zeta.
  set (c0 := timer (set_outbox_timer false) _).
  assert (retry_timer (timers c0) = retry_timer (timers c)) as E0 by (unfold c0, on_messages; by destruct (close _)).
  clearbody c0. match goal with |- context [abort ?x] => set (c1 := x); destruct (abort_quiet c1 eq_refl) as (E1 & E2 & E3 & E4 & E5) end.
  specialize (E3 eq_refl). change (_reconnecting (flags c1)) with false in E1. change (_retry_attempt (flags c1)) with 0 in E2.
  change (retry_timer (timers c1)) with (retry_timer (timers c0)) in E4. clearbody c1.
  set (c2 := resetParser (abort c1)). assert (pre_alive c2) as Hc2.
  { split; unfold c2; cbn [resetParser set_parser flags timers _socket]; rewrite ?E1, ?E2, ?E4, ?E5, ?E0; try done. }
  assert (_authenticated (flags c2) = false /\ _reconnecting (flags c2) = false) as [Ha2 Hr2] by done.
  clearbody c2. destruct Hc2 as [G1 G2 G3 G4].
  assert (forall x, flags x = set_connect_result_emitted true (flags c2) \/ 
    (exists b, flags x = set_connect_result_emitted true (set_use_tls b (flags c2))) -> due x) as Hdue.
  { intros x Hx Hr. destruct Hx as [Hx|[b Hx]]; rewrite Hx in Hr; cbn in Hr; congruence. }
  destruct (_ || _); [split; [by split|apply Hdue; by left]|].
  destruct (_ && _); [split; [by split|apply Hdue; right; by eexists]|]. apply begin_alive; [by split|done].
Qed.

Lemma disconnect_alive c : alive c -> alive (slot_disconnect c).
Proof.
  intros Hc. unfold slot_disconnect. cbn zeta. set (c1 := if _authenticated (flags c) then _ else c).
  unfold on_messages. destruct (close _) as [r m]. cbn [snd].
  match goal with |- context [abort ?x] => set (c2 := x) end.
  assert (retry_timer (timers (abort c2)) = None /\ state (_socket (abort c2)) = Unconnected) as [E1 E2].
  { unfold abort. cbn zeta. case_bool_decide; [|done].
    match goal with |- context [on_disconnected ?x] => set (c3 := x) end. unfold on_disconnected. cbn zeta.
    by destruct (_ =? 0). }
  clearbody c2. split; [split; cbn; try done|done]. by rewrite E1.
Qed.

Lemma proxy_alive c : alive c -> alive (slot_reconnect_for_proxy c).
Proof.
  intros [[H1 H2 H3 H4] Hd]. unfold slot_reconnect_for_proxy. cbn zeta.
  destruct (_ || _ || _) eqn:E; [by split; [split|]|]. apply schedule_alive.
  apply orb_false_iff in E as [E _]. apply orb_false_iff in E as [E _].
  match goal with |- pre_alive (abort ?x) => set (c1 := x) end.
  assert (_login_payload (flags c) <> ""%string) as Hp by by destruct (_login_payload (flags c)).
  unfold abort. cbn zeta. case_bool_decide.
  - apply closed_alive; [split; cbn; done|done].
  - split; cbn; try done.
Qed.

Lemma event_alive e c : alive c -> alive (run_event true c e).
Proof.
  intros Hc. assert (state (_socket c) <> Connecting -> served c) as Hserved by by split.
  assert (secured c = true -> served c) as Hsec.
  { unfold secured. intros E. apply andb_true_iff in E as [E _]. apply bool_decide_eq_true in E. apply Hserved. congruence. }
  destruct e as [info|now reqId data|uuid request peer remark| | |login|login| | |mkpath bytes|n| | |now| ]; cbn [run_event].
  - by apply connect_alive.
  - destruct (Z.eqb_spec reqId ID_CHAT_LOGIN); [done|]. apply (stable_send alive); [|done]. by apply write_alive.
  - apply stable_befriend; [apply _|done].
  - by apply disconnect_alive.
  - by apply proxy_alive.
  - case_bool_decide; [|done]. unfold on_connected. destruct (_ && _); [apply login_alive|]; realive.
    all: intros [?|?]; [|done]; eauto.
  - destruct (_ && _ && _); [|done]. unfold on_encrypted. destruct (_ && _); [apply login_alive|]; realive.
  - destruct (_ && _) eqn:E; [|done]. bool_hyps. assert (served (abort c)) as [[Hp Hd] _] by (apply st_abort, Hserved; congruence).
    by apply result_alive.
  - destruct (state (_socket c)) eqn:Es; [done| |].
    + apply result_alive; [|intros Hr Hr2; cbn in *; congruence]. destruct Hc as [[H1 H2 H3 H4] Hd]. split; cbn; try done.
      intros _. apply H2. by right.
    + assert (alive (on_errorOccurred c)) as [[H1 H2 H3 H4] _] by (apply result_alive; [apply Hc|intros _; apply Hc]).
      apply closed_alive; [|done]. split; cbn; try done. intros [?|?]; [|done]. apply H2. by left.
  - destruct (secured c) eqn:E; [|done]. specialize (Hsec eq_refl). apply (stable_readyRead served mkpath bytes c Hsec).
  - realive.
  - case_bool_decide; [|done]. unfold on_retry. cbn [flags timer set_timers]. destruct (_ && _) eqn:E.
    + apply andb_true_iff in E as [_ Hr]. destruct Hc as [[H1 H2 H3 H4] Hd]. apply begin_alive; [by split|]. apply H2. by left.
    + destruct Hc as [[H1 H2 H3 H4] Hd]. split; [by split|]. intros Hr Hm. cbn in Hr, Hm. by rewrite Hr, Hm in E.
  - destruct (heartbeat_timer _); [|done]. destruct (decide (state (_socket c) = Connecting)) as [Hs|Hs].
    + unfold on_heartbeat. destruct Hc as [[H1 H2 H3 H4] Hd]. rewrite H2 by by right. done.
    + apply (stable_heartbeat served c (Hserved Hs)).
  - destruct (outbox_timer _); [|done]. apply stable_flush; [apply _|done].
  - destruct (friend_timer _); [|done]. realive.
Qed.

Lemma result_flags c : let c' := give_result c in
  _socket c' = _socket c /\ _use_tls (flags c') = _use_tls (flags c) /\ _login_payload (flags c') = _login_payload (flags c) /\
  _manual_disconnect (flags c') = _manual_disconnect (flags c).
Proof. unfold give_result, scheduleReconnect. repeat case_match; done. Qed.

Lemma lost_reconnects c : _manual_disconnect (flags c) = false -> _login_payload (flags c) <> ""%string ->
  _reconnecting (flags (on_disconnected c)) = true.
Proof.
  intros Hm Hp. unfold on_disconnected, scheduleReconnect. cbn zeta.
  destruct (_ =? 0); cbn; rewrite Hm; (destruct (_login_payload (flags c)) eqn:E; [done|]); cbn;
    by case_bool_decide.
Qed.

Lemma write_socket reqId data c : state (_socket c) = Connected -> isEncrypted (_socket c) = true ->
  0 < ssize data <= 2048 -> bytesToWrite (_socket c) = 0 ->
  sent (_socket (writeFrame reqId data c)) = sent (_socket c) ++ [(true, block reqId data)].
Proof.
  intros Hs He Hd Hb. unfold writeFrame. cbn zeta. set (c1 := if (reqId =? ID_CHAT_LOGIN) && _ then _ else c).
  assert (_socket c1 = _socket c) as E by (unfold c1; by destruct (_ && _)). clearbody c1. rewrite E.
  rewrite bool_decide_eq_true_2 by done. cbn [negb]. rewrite He, Hb, andb_false_r.
  destruct data as [|a data]; [unfold ssize in Hd; simpl in Hd; lia|]. cbn [sempty orb].
  rewrite (proj2 (Z.ltb_ge _ (ssize (String a data)))) by (destruct (_ && _); lia).
  rewrite (proj2 (Z.ltb_ge (4 * 1024 * 1024) _)) by lia. cbn [_socket set_socket sent]. done.
Qed.

Lemma retry_step c : state (_socket c) = Unconnected -> _manual_disconnect (flags c) = false ->
  _reconnecting (flags c) = true -> is_Some (retry_timer (timers c)) -> let c' := run_event true c RetryFires in
  _socket c' = mkSocket Connecting false 0 (sent (_socket c)) /\ flags c' = set_connect_result_emitted false (flags c).
Proof.
  intros Hs Hm Hr Hd. cbn [run_event]. rewrite bool_decide_eq_true_2 by done. unfold on_retry, beginConnection. cbn zeta.
  cbn [flags timer set_timers flag set_flags resetParser set_parser]. rewrite Hm, Hr. cbn [negb andb].
  rewrite andb_false_r. cbn [_socket set_socket flags set_flags timer set_timers resetParser set_parser flag].
  unfold connecting. by rewrite Hs.
Qed.

Lemma tcp_step login c : state (_socket c) = Connecting -> _use_tls (flags c) = true ->
  run_event true c (TcpUp login) = set_socket (connected (_socket c)) c.
Proof.
  intros Hs Ht. cbn [run_event]. rewrite bool_decide_eq_true_2 by done. unfold on_connected. cbn [flags set_socket].
  by rewrite Ht.
Qed.

Lemma resume_steps login c : state (_socket c) = Unconnected -> _use_tls (flags c) = true ->
  _manual_disconnect (flags c) = false -> _reconnecting (flags c) = true -> is_Some (retry_timer (timers c)) ->
  0 < ssize (_login_payload (flags c)) <= 2048 ->
  sent (_socket (foldl (run_event true) c [RetryFires; TcpUp login; TlsUp login])) =
  sent (_socket c) ++ [(true, block ID_CHAT_LOGIN (_login_payload (flags c)))].
Proof.
  intros Hs Ht Hm Hr Hd Hp. cbn [foldl]. destruct (retry_step c Hs Hm Hr Hd) as [E1 E2].
  set (c1 := run_event true c RetryFires) in *. clearbody c1.
  rewrite tcp_step by (rewrite ?E1, ?E2; done). rewrite E1. cbn [run_event _socket set_socket connected state isEncrypted].
  rewrite bool_decide_eq_true_2 by done. cbn [flags set_socket]. rewrite E2. cbn [_use_tls set_connect_result_emitted].
  rewrite Ht. cbn [andb negb]. unfold on_encrypted. cbn [flags set_socket]. rewrite E2.
  cbn [_use_tls set_connect_result_emitted _connect_result_emitted]. rewrite Ht. cbn [negb andb]. unfold handleTransportReady.
  cbn [flags flag set_flags set_socket]. rewrite E2. cbn [_reconnecting _login_payload set_connect_result_emitted].
  rewrite Hr. assert (sempty (_login_payload (flags c)) = false) as ->
    by (destruct (_login_payload (flags c)); [unfold ssize in Hp; simpl in Hp; lia|done]).
  cbn [negb andb]. by rewrite write_socket.
Qed.

(** The connection of a client that supports TLS, after events. *)
Definition link_after (m : MessageStore) (events : list event) : TcpMgr := foldl (run_event true) (new_TcpMgr m) events.


End Reconnecting.

(** ** Witnesses *)

Module Example.

#[local] Existing Instance ToyQJson.toy_qjson.

Definition example_store : MessageStore :=
  mkMessageStore (mkDb (mkFile [] []) None true 0 0 (fun _ => Fine) (fun _ => 0)) false 0.
Definition login_frame : string := block ID_CHAT_LOGIN "uid=1&token=t".

(** A session over an encrypted connection, which is lost. *)
Definition connected_events : list event :=
  [Connect (mkServerInfo "chat.example" 8090 " TLS " "" false); TcpUp "uid=1&token=t"; TlsUp "uid=1&token=t"].
Definition lost_events : list event := connected_events ++ [SocketFails].

Lemma never_plain_witness :
  let events := lost_events ++ [RetryFires; TcpUp ""; TlsUp ""] in
  sent (_socket (foldl (run_event true) (new_TcpMgr example_store) events)) = [(true, login_frame); (true, login_frame)] /\
  Forall (fun b => b.1 = true) (sent (_socket (foldl (run_event true) (new_TcpMgr example_store) events))).
Proof. split; [vm_compute; reflexivity|]. apply (never_plain true example_store). repeat constructor. Defined.


End Example.
