(* ===== verification/ClientFrames.v ===== *)
(** The frames of the client's connection: what the server sends is what the
    handlers get.  Over the model of [TcpMgr]. *)
From S2P Require Import Prelude Mysql MessageStore ClientModel QtJson Session TcpMgr.

(** ** Frames *)

Section Frames.
Context `{QJson}.

(** A frame as the server may send it. *)
Definition sendable (f : Z * string) : Prop :=
  0 <= f.1 < 2 ^ 16 /\ known f.1 = true /\ 0 < ssize f.2 <= allowedLength f.1.

Definition bytes_of (fs : list (Z * string)) : string := foldr (fun f s => SendNode f.2 f.1 ++ s)%string ""%string fs.

(** What has arrived and was not handled. *)
Definition unread (p : Parser) : string :=
  if _b_recv_pending p then (be16 (_message_id p) ++ be16 (_message_len p) ++ _buffer p)%string else _buffer p.
Definition parser_ok (p : Parser) : Prop :=
  _b_recv_pending p = true -> 0 <= _message_id p < 2 ^ 16 /\ known (_message_id p) = true /\ 0 < _message_len p <= allowedLength (_message_id p).

Lemma allowed_u16 id : allowedLength id < 2 ^ 16.
Proof. unfold allowedLength. repeat case_match; lia. Qed.

Lemma head_back z w : 0 <= z < 2 ^ 16 -> exists a b, (be16 z ++ w)%string = String a (String b w) /\ of_be16 a b = z.
Proof.
  intros Hz. unfold be16. do 2 eexists. rewrite !string_app_cons. split; [reflexivity|]. by apply of_be16_be16.
Qed.

(** The head of a frame is taken in one piece or left. *)
Lemma read_head_unread i l p : parser_ok p -> _b_recv_pending p = true ->
  read_head (mkParser (unread p) false i l) = read_head p.
Proof.
  intros Hok Hp. specialize (Hok Hp) as (Hid & Hk & Hlen). pose proof (allowed_u16 (_message_id p)).
  unfold unread, read_head. rewrite Hp. cbn [_b_recv_pending _buffer].
  destruct (head_back (_message_id p) (be16 (_message_len p) ++ _buffer p) Hid) as (a & b & -> & Ea).
  destruct (head_back (_message_len p) (_buffer p) ltac:(lia)) as (d & e & -> & Ed). cbv zeta. rewrite Ea, Ed, Hk.
  rewrite (proj2 (Z.eqb_neq _ 0)) by lia. cbn [negb orb]. rewrite (proj2 (Z.ltb_ge _ _)) by lia.
  destruct p. cbn in *. by subst.
Qed.

Lemma parse_turn_unread p : parser_ok p -> _b_recv_pending p = true ->
  match parse_turn (mkParser (unread p) false 0 0) with
  | Waits _ => parse_turn p = Waits p
  | r => parse_turn p = r
  end.
Proof.
  intros Hok Hp. unfold parse_turn. rewrite read_head_unread by done. unfold read_head. rewrite Hp.
  by destruct (_ <? _).
Qed.

Definition turn_ok (p : Parser) (todo : list (Z * string)) (rest : string) (t : turn) : Prop :=
  match t with
  | Waits p' => parser_ok p' /\ unread p' = unread p /\
      match todo with [] => unread p = ""%string | f :: _ => ssize (unread p) < ssize (SendNode f.2 f.1) end
  | Rejects _ => False
  | Frame id data p' => exists todo', todo = (id, data) :: todo' /\ _b_recv_pending p' = false /\
      (unread p' ++ rest)%string = bytes_of todo'
  end.

Lemma SendNode_size f : ssize (SendNode f.2 f.1) = 4 + ssize f.2.
Proof. unfold SendNode, be16. rewrite !ssize_app. unfold ssize at 1 2. cbn [String.length]. lia. Qed.

Lemma bytes_cons f todo : bytes_of (f :: todo) = (be16 f.1 ++ be16 (ssize f.2) ++ f.2 ++ bytes_of todo)%string.
Proof. cbn [bytes_of foldr]. unfold SendNode. by rewrite <- !(assoc_L String.append). Qed.

Lemma turn_fresh B i l todo rest : Forall sendable todo -> (B ++ rest)%string = bytes_of todo ->
  turn_ok (mkParser B false i l) todo rest (parse_turn (mkParser B false i l)).
Proof.
  intros Hf E. unfold parse_turn, read_head. cbn [_b_recv_pending _buffer].
  assert (forall p : Parser, _b_recv_pending p = false -> parser_ok p) as Hidle by (intros p Hp ?; congruence).
  destruct todo as [|f todo].
  { cbn in E. destruct B as [|a B]; [|by rewrite string_app_cons in E]. cbn. split_and!; [by apply Hidle|done|done]. }
  inversion Hf as [|? ? Hfo Hf']; subst. destruct Hfo as (Hid & Hk & Hlen). pose proof (allowed_u16 f.1) as Hu. pose proof (SendNode_size f) as Hsz.
  assert (ssize B < 4 -> turn_ok (mkParser B false i l) (f :: todo) rest (Waits (mkParser B false i l))) as Hshort.
  { intros HB. cbn. split_and!; [by apply Hidle|done|]. unfold unread. cbn. lia. }
  do 4 (destruct B as [|? B]; [apply Hshort; unfold ssize; simpl; lia|]).
  rewrite !string_app_cons, bytes_cons in E.
  destruct (head_back f.1 (be16 (ssize f.2) ++ f.2 ++ bytes_of todo) Hid) as (x1 & x2 & E1 & Ea).
  destruct (head_back (ssize f.2) (f.2 ++ bytes_of todo) ltac:(lia)) as (x3 & x4 & E2 & Ed).
  rewrite E1, E2 in E. injection E as -> -> -> -> E. cbv zeta. rewrite Ea, Ed, Hk.
  rewrite (proj2 (Z.eqb_neq _ 0)) by lia. cbn [negb orb]. rewrite (proj2 (Z.ltb_ge _ _)) by lia.
  cbn [_buffer _message_len _message_id]. destruct (Z.ltb_spec (ssize B) (ssize f.2)).
  - assert (unread (mkParser B true f.1 (ssize f.2)) = unread (mkParser (String x1 (String x2 (String x3 (String x4 B)))) false i l)) as EU.
    { unfold unread. cbn [_b_recv_pending _message_id _message_len _buffer]. 
      rewrite <- Ea, <- Ed, !be16_of_be16, !string_app_cons. done. }
    cbn [turn_ok]. rewrite EU. split_and!; [by intros _|done|]. unfold unread. cbn [_b_recv_pending _buffer].
    rewrite !ssize_cons. lia.
  - destruct (app_split _ _ _ _ E) as (w & -> & Ew); [unfold ssize in *; lia|].
    rewrite stake_size, sdrop_size by (rewrite Z2Nat.id; lia). cbn [turn_ok]. exists todo. by destruct f.
Qed.

Lemma turn_spec p todo rest : parser_ok p -> Forall sendable todo -> (unread p ++ rest)%string = bytes_of todo ->
  turn_ok p todo rest (parse_turn p).
Proof.
  intros Hok Hf E. destruct (_b_recv_pending p) eqn:Hp.
  - pose proof (turn_fresh (unread p) 0 0 todo rest Hf E) as Ht. pose proof (parse_turn_unread p Hok Hp) as Hu.
    destruct (parse_turn (mkParser (unread p) false 0 0)); rewrite Hu; [|done|done].
    destruct Ht as (_ & _ & Ht). by split_and!.
  - destruct p as [B pend i l]. cbn in Hp. subst. by apply turn_fresh.
Qed.

(** A frame takes a byte of the buffer at least. *)
Lemma frame_shrinks p id data p' : parser_ok p -> parse_turn p = Frame id data p' ->
  (String.length (_buffer p') < String.length (_buffer p))%nat.
Proof.
  intros Hok. unfold parse_turn. destruct (read_head p) as [[[] q]|] eqn:E; [|done..].
  assert ((String.length (_buffer q) <= String.length (_buffer p))%nat /\ 0 < _message_len q) as [Hle Hpos].
  { unfold read_head in E. destruct (_b_recv_pending p) eqn:Hp; [simplify_eq; specialize (Hok Hp); lia|].
    destruct (_buffer p) as [|a [|b [|d [|e rest]]]]; [done..|]. cbv zeta in E. pose proof (of_be16_bound d e).
    destruct (negb (known (of_be16 a b)) || (of_be16 d e =? 0)) eqn:E1; [done|]. bool_hyps.
    destruct (_ <? _); [done|]. simplify_eq. cbn [_buffer _message_len String.length]. lia. }
  destruct (Z.ltb_spec (ssize (_buffer q)) (_message_len q)); [done|]. intros [= _ _ <-]. cbn [_buffer].
  pose proof (ssize_sdrop (Z.to_nat (_message_len q)) (_buffer q)) as Hd. unfold ssize in *. lia.
Qed.

(** The handlers leave the reader alone. *)
Definition untouched (p : Parser) (h : list (Z * string)) (c : TcpMgr) : Prop := parser c = p /\ handled c = h.

Lemma write_untouched p h reqId data c : untouched p h c -> untouched p h (writeFrame reqId data c).
Proof. intros Hc. unfold writeFrame. cbn zeta. repeat case_match; done. Qed.

#[local] Instance flows_untouched p h : Flows (untouched p h).
Proof.
  split; [split|..]; try done.
  - intros reqId data c _. apply write_untouched.
  - intros c Hc. unfold abort, on_disconnected, scheduleReconnect. cbn zeta. repeat case_match; done.
Qed.

#[local] Instance handled_untouched p h : Handled (untouched p h).
Proof.
  split; [apply _| |].
  - intros v c Hc. unfold open_account. cbn zeta. destruct (open _ _) as [[[]|] m]; done.
  - intros data c. apply (stable_notify_text (untouched p h)). intros. by apply write_untouched.
Qed.

Lemma handle_frame mkpath id data p c : let c' := handleMsg mkpath id data (set_parser p c) in
  parser c' = p /\ handled c' = handled c ++ [(id, data)].
Proof.
  cbn zeta. unfold handleMsg. cbn zeta. destruct (handler mkpath id) eqn:E; [|done].
  apply (stable_handler (untouched p (handled c ++ [(id, data)])) _ _ _ _ _ E). done.
Qed.

(** What a reader that has worked off its buffer is left with. *)
Definition reads_to (c : TcpMgr) (todo : list (Z * string)) (rest : string) (c' : TcpMgr) : Prop :=
  exists l todo', todo = l ++ todo' /\ handled c' = handled c ++ l /\ parser_ok (parser c') /\
    (unread (parser c') ++ rest)%string = bytes_of todo' /\
    match todo' with [] => unread (parser c') = ""%string | f :: _ => ssize (unread (parser c')) < ssize (SendNode f.2 f.1) end.

Lemma read_loop_spec mkpath rest fuel : forall c todo, (String.length (_buffer (parser c)) <= fuel)%nat ->
  parser_ok (parser c) -> Forall sendable todo -> (unread (parser c) ++ rest)%string = bytes_of todo ->
  reads_to c todo rest (read_loop fuel mkpath c).
Proof.
  induction fuel as [|fuel IH]; intros c todo Hl Hok Hf E; pose proof (turn_spec _ _ _ Hok Hf E) as Ht; cbn [read_loop];
    destruct (parse_turn (parser c)) as [p|p|id data p] eqn:Ep; [| |apply frame_shrinks in Ep; [lia|done]| | |]; try done.
  1,2: destruct Ht as (Hok' & Eu & Hm); exists [], todo; cbn [parser set_parser handled]; rewrite Eu, app_nil_r; by split_and!.
  destruct Ht as (todo' & -> & Hp & Et). apply frame_shrinks in Ep; [|done]. inversion_clear Hf.
  destruct (handle_frame mkpath id data p c) as [E1 E2].
  destruct (IH (handleMsg mkpath id data (set_parser p c)) todo') as (l & todo'' & -> & Eh & Hrest); rewrite ?E1; try done; try lia.
  { intros Hp'. congruence. }
  exists ((id, data) :: l), todo''. rewrite Eh, E2, <- (assoc_L (++)). done.
Qed.

Lemma unread_more p bytes :
  unread (mkParser (_buffer p ++ bytes) (_b_recv_pending p) (_message_id p) (_message_len p)) = (unread p ++ bytes)%string.
Proof. unfold unread. cbn. destruct (_b_recv_pending p); [|done]. by rewrite <- !(assoc_L String.append). Qed.

Lemma readyRead_spec mkpath rest bytes c todo : ssize (unread (parser c)) + ssize bytes <= 256 * 1024 ->
  parser_ok (parser c) -> Forall sendable todo -> (unread (parser c) ++ bytes ++ rest)%string = bytes_of todo ->
  reads_to c todo rest (readyRead mkpath bytes c).
Proof.
  intros Hs Hok Hf E. unfold readyRead. cbn zeta.
  assert (ssize (_buffer (parser c)) <= ssize (unread (parser c))) as Hb.
  { unfold unread. destruct (_b_recv_pending _); [|done]. rewrite !ssize_app. unfold be16, ssize. cbn [String.length]. lia. }
  rewrite (proj2 (Z.ltb_ge _ _)) by (rewrite ssize_app; lia).
  match goal with |- reads_to c todo rest (read_loop _ mkpath ?x) => set (c1 := x) end.
  apply (read_loop_spec mkpath rest _ c1); try done. change (parser c1) with (mkParser (_buffer (parser c) ++ bytes) (_b_recv_pending (parser c)) (_message_id (parser c)) (_message_len (parser c))).
  by rewrite unread_more, <- (assoc_L String.append).
Qed.

Definition joined (pieces : list string) : string := foldr String.append ""%string pieces.

Lemma unread_small c todo rest c' : Forall sendable todo -> reads_to c todo rest c' -> ssize (unread (parser c')) < 2 ^ 17.
Proof.
  intros Hf (l & todo' & -> & _ & _ & _ & Hm). apply Forall_app in Hf as [_ Hf].
  destruct todo' as [|f todo']; [by rewrite Hm|]. inversion_clear Hf as [|? ? (_ & _ & Hl) _]. pose proof (allowed_u16 f.1).
  rewrite SendNode_size in Hm. lia.
Qed.

Lemma pieces_spec mkpath pieces : forall c todo, Forall (fun b => ssize b <= 2 ^ 17) pieces ->
  ssize (unread (parser c)) <= 2 ^ 17 -> parser_ok (parser c) -> Forall sendable todo ->
  (unread (parser c) ++ joined pieces)%string = bytes_of todo ->
  (match todo with [] => True | f :: _ => ssize (unread (parser c)) < ssize (SendNode f.2 f.1) end) ->
  handled (foldl (fun c b => readyRead mkpath b c) c pieces) = handled c ++ todo.
Proof.
  induction pieces as [|b pieces IH]; intros c todo Hb Hu Hok Hf E Hm; cbn [foldl].
  - destruct todo as [|f todo]; [by rewrite app_nil_r|]. cbn [joined foldr] in E. rewrite (right_id_L ""%string String.append) in E.
    apply (f_equal ssize) in E. cbn [bytes_of foldr] in E. rewrite ssize_app in E. fold (bytes_of todo) in E.
    pose proof (ssize_nonneg (bytes_of todo)). lia.
  - inversion_clear Hb as [|? ? Hb1 Hb2]. pose proof (readyRead_spec mkpath (joined pieces) b c todo) as Hr.
    destruct Hr as (l & todo' & -> & Eh & Hr); try done; [lia|].
    pose proof Hf as [_ Hf']%Forall_app. destruct Hr as (Hok' & E' & Hm').
    rewrite (IH _ todo'); try done; [by rewrite Eh, <- (assoc_L (++))| |by destruct todo'].
    enough (ssize (unread (parser (readyRead mkpath b c))) < 2 ^ 17) by lia.
    eapply (unread_small c (l ++ todo') (joined pieces)); [done|]. exists l, todo'. by split_and!.
Qed.

(** C28. The frames a server sends are the frames the client handles: whatever
    the sizes of the pieces in which their bytes arrive on a new connection
    (none above 128 KiB), the slot of [readyRead] gives each of them to
    [handleMsg], in their order, with its identifier and its body, and does
    not lose, split or invent any. *)
Theorem client_reads_frames mkpath c fs pieces :
  Forall sendable fs -> Forall (fun b => ssize b <= 2 ^ 17) pieces -> joined pieces = bytes_of fs ->
  handled (foldl (fun c b => readyRead mkpath b c) (resetParser c) pieces) = handled c ++ fs.
Proof.
  intros Hf Hb E. apply (pieces_spec mkpath pieces (resetParser c) fs); try done.
  destruct fs as [|f fs]; [done|]. rewrite SendNode_size. unfold ssize at 1. cbn. pose proof (ssize_nonneg f.2). lia.
Qed.

End Frames.

Module Example.

#[local] Existing Instance ToyQJson.toy_qjson.

Definition example_client : TcpMgr :=
  new_TcpMgr (mkMessageStore (mkDb (mkFile [] []) None true 0 0 (fun _ => Fine) (fun _ => 0)) false 0).

(** Two frames in pieces that cut a head and a body. *)
Definition example_frames : list (Z * string) := [(ID_HEARTBEAT_RSP, "ok"); (ID_TEXT_CHAT_MSG_RSP, "{}")]%string.
Definition example_pieces : list string :=
  let s := bytes_of example_frames in [stake 3 s; stake 2 (sdrop 3 s); ""; stake 5 (sdrop 5 s); sdrop 10 s]%string.

Lemma client_reads_frames_witness :
  handled (foldl (fun c b => readyRead true b c) (resetParser example_client) example_pieces) = [] ++ example_frames.
Proof.
  apply (client_reads_frames true example_client).
  - repeat constructor; vm_compute; done.
  - repeat constructor; vm_compute; done.
  - vm_compute. reflexivity.
Defined.

End Example.
