(* ===== verification/ClientAcks.v ===== *)
(** What the client acknowledges: only messages that are in its store.  Over
    the models of [TcpMgr] and [MessageStore]. *)
From S2P Require Import Prelude Mysql MessageStore ClientModel QtJson Session TcpMgr.

Section Acks.
Context `{QJson} (supportsSsl : bool).

(** The files of all accounts, the open one included. *)
Definition accounts (c : TcpMgr) : gmap Z File := <[path c := committed (db_ (_messages c))]> (files c).

(** A message of [from] with [id] is in the file of the account [uid], which
    it was sent to. *)
Definition stored (c : TcpMgr) (uid from : Z) (id : string) : Prop :=
  exists f r, accounts c !! uid = Some f /\ r ∈ messages f /\ s_sender r = from /\ s_receiver r = uid /\ s_msgid r = id.

(** An acknowledgement names messages of one sender that are stored. *)
Definition acked (c : TcpMgr) (b : bool * string) : Prop :=
  forall data, b.2 = block ID_TEXT_CHAT_MSG_ACK data ->
  exists uid from ids, data = toJson (ack from ids) /\ forall id, id ∈ ids -> stored c uid from id.

Record kept (c : TcpMgr) : Prop := {
  k_tidy : no_leftover (db_ (_messages c));
  k_owner : uid_ (_messages c) <> 0 -> uid_ (_messages c) = path c /\ GetUid (model c) = path c;
  k_acks : Forall (acked c) (sent (_socket c));
}.

Definition growing (c c' : TcpMgr) : Prop := forall uid from id, stored c uid from id -> stored c' uid from id.

Lemma acked_growing c c' b : growing c c' -> acked c b -> acked c' b.
Proof. intros Hg Hb data E. destruct (Hb data E) as (uid & from & ids & ? & Hids). exists uid, from, ids. auto. Qed.

Lemma kept_step c c' : no_leftover (db_ (_messages c')) ->
  (uid_ (_messages c') <> 0 -> uid_ (_messages c') = path c' /\ GetUid (model c') = path c') ->
  growing c c' -> sent (_socket c') = sent (_socket c) -> kept c -> kept c'.
Proof.
  intros Hn Ho Hg Hs [_ _ Ha]. split; [done|done|]. rewrite Hs. eapply Forall_impl; [done|]. intros b. by apply acked_growing.
Qed.

Lemma kept_same c c' : _messages c' = _messages c -> path c' = path c -> files c' = files c ->
  _user_info (model c') = _user_info (model c) -> sent (_socket c') = sent (_socket c) -> kept c -> kept c'.
Proof.
  intros E1 E2 E3 E4 E5 Hc. pose proof Hc as [Hn Ho _]. apply (kept_step c); unfold GetUid; rewrite ?E1, ?E2, ?E4; try done.
  intros uid from id. unfold stored, accounts. by rewrite E1, E2, E3.
Qed.

Lemma dialog_user s u : _user_info (dialog_slot s u) = _user_info u.
Proof. destruct s; cbn; repeat case_match; auto with same_user. Qed.

Lemma kept_emit s c : kept c -> kept (emit s c).
Proof. apply kept_same; try done. cbn. destruct (dialog c); [apply dialog_user|done]. Qed.

(** The rows stay with what identifies them. *)
Lemma growing_store op c : no_leftover (db_ (_messages c)) -> growing c (set_messages (run_store (_messages c) op) c).
Proof.
  intros Hn uid from id (f & r & Hf & Hr & <- & Hto & <-). destruct (run_store_keeps op (_messages c) Hn) as [_ [Hk _]].
  unfold stored, accounts in *. cbn [path set_messages _messages files]. destruct (decide (uid = path c)) as [->|Hne].
  - rewrite lookup_insert_eq in Hf. injection Hf as <-. apply list_elem_of_lookup in Hr as [k Hr].
    destruct (Hk k r Hr) as (r' & Hr' & Hid & _). unfold identity in Hid.
    exists (committed (db_ (run_store (_messages c) op))), r'. rewrite lookup_insert_eq.
    split_and!; [done|by eapply list_elem_of_lookup_2|congruence..].
  - rewrite lookup_insert_ne in Hf by done. exists f, r. by rewrite lookup_insert_ne.
Qed.

Lemma kept_store op c : (forall uid, op <> Open uid) -> kept c -> kept (set_messages (run_store (_messages c) op) c).
Proof.
  intros Hop Hc. pose proof Hc as [Hn Ho _]. destruct (run_store_keeps op (_messages c) Hn) as [Hn' _].
  apply (kept_step c); try done; [|by apply growing_store]. cbn [_messages set_messages path model].
  destruct (run_store_uid op (_messages c) Hn Hop) as [->| ->]; [done|]. by intros [].
Qed.

(** *** Writing *)

Lemma block_id i j data data' : 0 <= i < 2 ^ 16 -> 0 <= j < 2 ^ 16 -> block i data = block j data' -> i = j.
Proof.
  intros Hi Hj E. unfold block in E. apply string_app_split in E as [E _]; [|done]. by apply be16_inj.
Qed.

(** A frame is written or not, and an overfull buffer is told. *)
Lemma write_cases reqId data c : let c' := writeFrame reqId data c in
  _messages c' = _messages c /\ path c' = path c /\ files c' = files c /\ _user_info (model c') = _user_info (model c) /\
  (sent (_socket c') = sent (_socket c) \/ exists e, sent (_socket c') = sent (_socket c) ++ [(e, block reqId data)]).
Proof.
  cbn zeta. unfold writeFrame. cbn zeta. set (c1 := if (reqId =? ID_CHAT_LOGIN) && _ then _ else c).
  assert (_messages c1 = _messages c /\ path c1 = path c /\ files c1 = files c /\ model c1 = model c /\ dialog c1 = dialog c /\ _socket c1 = _socket c)
    as (E1 & E2 & E3 & E4 & E5 & E6) by (unfold c1; by destruct (_ && _)). clearbody c1.
  rewrite <- E1, <- E2, <- E3, <- E4, <- E6. destruct (negb _); [split_and!; auto|]. destruct (_ && _); [split_and!; auto|].
  destruct (_ || _); [split_and!; auto|]. destruct (_ <? _); [|split_and!; eauto].
  cbn. split_and!; auto. destruct (dialog c1); [apply (dialog_user (sig_connection_state false))|done].
Qed.

Lemma kept_write reqId data c : acked c (true, block reqId data) -> kept c -> kept (writeFrame reqId data c).
Proof.
  intros Hb Hc. destruct (write_cases reqId data c) as (E1 & E2 & E3 & E4 & [E5|[e E5]]); [by apply (kept_same c)|].
  destruct Hc as [Hn Ho Ha]. assert (growing c (writeFrame reqId data c)) as Hg.
  { intros uid from id. unfold stored, accounts. by rewrite E1, E2, E3. }
  split; unfold GetUid; rewrite ?E1, ?E2, ?E4; [done|done|]. rewrite E5. apply Forall_app. split.
  - eapply Forall_impl; [done|]. intros b. by apply acked_growing.
  - apply Forall_singleton. eapply acked_growing; [done|]. exact Hb.
Qed.

Lemma kept_request reqId data c : 0 <= reqId < 2 ^ 16 -> reqId <> ID_TEXT_CHAT_MSG_ACK -> kept c -> kept (writeFrame reqId data c).
Proof. intros Hr Hne. apply kept_write. intros data' E. cbn in E. apply block_id in E; [done|done|done]. Qed.

Lemma kept_schedule c : kept c -> kept (scheduleReconnect c).
Proof. intros Hc. unfold scheduleReconnect. destruct (_ || _); [done|]. by apply (kept_same c). Qed.

Lemma kept_disconnected c : kept c -> kept (on_disconnected c).
Proof.
  intros Hc. unfold on_disconnected. cbn zeta. set (c1 := if _ =? 0 then c else _).
  assert (kept c1) as Hc1 by (unfold c1; destruct (_ =? 0); [done|apply kept_emit; by apply (kept_same c)]). clearbody c1.
  destruct (_ && _); [apply kept_schedule, kept_emit|]; by apply (kept_same c1).
Qed.

Lemma kept_abort c : kept c -> kept (abort c).
Proof.
  intros Hc. unfold abort. cbn zeta. assert (kept (set_socket (closed (_socket c)) c)) by by apply (kept_same c).
  case_bool_decide; [by apply kept_disconnected|done].
Qed.

#[local] Instance steps_kept : Steps kept.
Proof.
  split.
  - apply kept_emit.
  - intros u c E. by apply kept_same.
  - apply kept_store.
  - intros o c. by apply kept_same.
  - intros b c. by apply kept_same.
  - intros n c. by apply kept_same.
  - intros reqId data c (Hr & _ & Hne). by apply kept_request.
Qed.

#[local] Instance flows_kept : Flows kept.
Proof.
  split; try apply _; try (intros b c Hc; by apply (kept_same c)); try (intros c Hc; by apply (kept_same c)).
  intros c. apply kept_abort.
Qed.

(** *** Entering an account *)

Lemma growing_account uid c : no_leftover (db_ (_messages c)) -> growing c (open_account uid c).2.
Proof.
  intros Hn uid' from id (f & r & Hf & Hr & <- & Hto & <-). unfold open_account. cbn zeta.
  set (files' := <[path c := committed (db_ (_messages c))]> (files c)). change (files' !! uid' = Some f) in Hf.
  set (m0 := mkMessageStore _ false 0). pose proof (open_spec uid m0 ltac:(done)) as (_ & _ & Hm). cbn [db_ m0 committed] in Hm.
  destruct (open uid m0) as [res m]. unfold stored, accounts. cbn [path files _messages snd] in *.
  destruct (decide (uid' = uid)) as [->|Hne].
  - exists (committed (db_ m)), r. rewrite lookup_insert_eq, Hm, Hf. by split_and!.
  - exists f, r. rewrite lookup_insert_ne by done. by split_and!.
Qed.

Lemma kept_enter v c : kept c -> let '(opened, c1) := open_account (int_field "uid" v) c in
  kept (if opened : bool then set_model (entered v (model c1)) c1 else c1).
Proof.
  intros Hc. pose proof Hc as [Hn _ Ha]. pose proof (growing_account (int_field "uid" v) c Hn) as Hg. revert Hg.
  unfold open_account. cbn zeta. set (m0 := mkMessageStore _ false 0).
  pose proof (open_spec (int_field "uid" v) m0 ltac:(done)) as (Hn1 & _ & _). pose proof (open_uid (int_field "uid" v) m0) as Hu.
  unfold wp in Hu. destruct (open _ m0) as [[[]|] m]; cbn [fst snd] in *; intros Hg; (eapply kept_step; [done| |exact Hg|done|done]);
    cbn [_messages set_model path model]; rewrite Hu; by auto.
Qed.

(** *** Notices *)

Lemma kept_acks from ids c : (exists uid, forall id, id ∈ ids -> stored c uid from id) -> kept c -> kept (flushAcks from ids c).
Proof.
  intros [uid Hids] Hc. unfold flushAcks. case_bool_decide; [done|]. apply kept_write; [|done]. intros data E.
  exists uid, from, ids. split; [|done]. unfold block in E. cbn [snd] in E. apply string_app_split in E as [_ E]; [|done].
  by apply string_app_split in E as [_ ->].
Qed.

Lemma growing_acks from ids c : growing c (flushAcks from ids c).
Proof.
  unfold flushAcks. case_bool_decide; [by intros uid from' id|].
  destruct (write_cases ID_TEXT_CHAT_MSG_ACK (toJson (ack from ids)) c) as (E1 & E2 & E3 & _).
  intros uid from' id. unfold stored, accounts. by rewrite E1, E2, E3.
Qed.

Lemma kept_ack_loop uid from values : forall batch c, kept c ->
  (forall id, id ∈ (string_field "msgid" <$> values) ++ batch -> stored c uid from id) ->
  let '(r, c') := ack_loop from values batch c in
  kept c' /\ match r with Some ids => forall id, id ∈ ids -> stored c' uid from id | None => True end.
Proof.
  induction values as [|v values IH]; intros batch c Hc Hall; cbn [ack_loop]; [done|].
  destruct (_ || _); [split; [by apply kept_abort|done]|]. destruct (_ <? _).
  - apply IH.
    + apply kept_acks; [|done]. exists uid. intros id Hid. apply Hall. set_solver.
    + intros id Hid. apply growing_acks, Hall. set_solver.
  - apply IH; [done|]. intros id Hid. apply Hall. set_solver.
Qed.

Lemma kept_notify data c : kept c -> kept (notify_text data c).
Proof.
  apply (stable_checked kept); [done|done|]. intros v c1 Hc1. cbn zeta.
  set (from := int_field "fromuid" v). set (to := int_field "touid" v). set (values := array_field "text_array" v).
  destruct (_ || _ || _ || _) eqn:Eg; [by apply kept_abort|]. bool_hyps. pose proof Hc1 as [Hn Ho _].
  pose proof (kept_store (Save from to (items_of values)) c1 ltac:(done) Hc1) as Hc2. unfold on_messages. cbn [run_store] in Hc2.
  pose proof (save_spec from to (items_of values) (_messages c1) Hn) as Hs. unfold wp in Hs.
  destruct (save from to (items_of values) (_messages c1)) as [r m] eqn:Es. cbn [fst snd] in *.
  destruct r as [[fresh|]|]; [|apply kept_abort; apply (kept_same (emit (sig_connection_state false) (set_messages m c1))); try done; by apply kept_emit..].
  destruct Hs as (_ & _ & _ & [[? _]|(fresh' & (new & _ & _ & _ & Hin & _) & _)]); [done|].
  destruct (save_account _ _ _ _ _ _ Es) as (Hu & Hft & Hor). destruct (Ho Hu) as [Hp Hg].
  assert (to = path c1) as Eto by congruence.
  assert (forall id, id ∈ (string_field "msgid" <$> values) ++ [] -> stored (set_messages m c1) to from id) as Hst.
  { intros id Hid. rewrite app_nil_r in Hid. apply list_elem_of_fmap in Hid as (x & -> & Hx).
    destruct (Hin (string_field "msgid" x, string_field "content" x)) as (r & Hr & Hid).
    { apply list_elem_of_fmap. by exists x. }
    unfold identity in Hid. exists (committed (db_ m)), r. unfold accounts. cbn [path set_messages _messages].
    rewrite <- Eto, lookup_insert_eq. split_and!; congruence. }
  pose proof (kept_ack_loop to from values [] (set_messages m c1) Hc2 Hst) as Hl.
  destruct (ack_loop from values [] (set_messages m c1)) as [[ids|] c3]; destruct Hl as [Hc3 Hids]; [|done].
  apply kept_acks; [exists to; intros id Hid; specialize (Hids id Hid)|]; case_bool_decide; try done. by apply kept_emit.
Qed.

#[local] Instance handled_kept : Handled kept.
Proof. split; [apply _|apply kept_enter|apply kept_notify]. Qed.

#[local] Instance stable_kept : Stable kept.
Proof. split; [apply _| |]; [intros p c Hc|intros id data c Hc]; by apply (kept_same c). Qed.

(** *** Events *)

Lemma kept_close c : kept c -> kept (on_messages close tt c).2.
Proof. apply (stable_on_messages kept Close); done. Qed.

Lemma kept_begin c : kept c -> kept (beginConnection supportsSsl c).
Proof.
  intros Hc. unfold beginConnection. cbn zeta. destruct (_ && _); [apply kept_emit|]; apply (kept_same c); try done.
  cbn. unfold connecting. by destruct (state (_socket c)).
Qed.

Lemma kept_connect info c : kept c -> kept (slot_tcp_connect supportsSsl info c).
Proof.
  intros Hc. unfold slot_tcp_connect. cbn zeta. pose proof (kept_close c Hc) as Hc1. set (c1 := (on_messages close tt c).2) in *. clearbody c1.
  match goal with |- context [abort ?x] => set (c2 := abort x); assert (kept c2) as Hc2 by (apply kept_abort; by apply (kept_same c1)) end.
  clearbody c2. destruct (_ || _); [apply kept_emit; by apply (kept_same c2)|].
  destruct (_ && _); [apply kept_emit|apply kept_begin]; by apply (kept_same c2).
Qed.

Lemma kept_ready login c : kept c -> kept (handleTransportReady login c).
Proof. intros Hc. unfold handleTransportReady. destruct (_ && _); apply kept_request; try done; by apply kept_emit. Qed.

Lemma kept_result c : kept c -> kept (give_result c).
Proof.
  intros Hc. unfold give_result. destruct (_reconnecting _); [by apply kept_schedule|]. destruct (negb _); [|done].
  apply kept_emit. by apply (kept_same c).
Qed.

Lemma kept_disconnect c : kept c -> kept (slot_disconnect c).
Proof.
  intros Hc. unfold slot_disconnect. cbn zeta. set (c1 := if _authenticated (flags c) then _ else c).
  assert (kept c1) as Hc1 by (unfold c1; destruct (_authenticated _); [by apply kept_request|done]). clearbody c1.
  pose proof (kept_close (timer (set_outbox_timer false) c1) ltac:(by apply (kept_same c1))) as Hc2.
  set (c2 := (on_messages _ _ _).2) in *. clearbody c2. match goal with |- context [abort ?x] => set (c3 := x) end.
  apply (kept_same (abort c3)); try done. apply kept_abort. by apply (kept_same c2).
Qed.

(** The windows send requests; the acknowledgements are the handler's. *)
Definition requests (e : event) : Prop :=
  match e with Submits _ reqId _ => 0 <= reqId < 2 ^ 16 /\ reqId <> ID_TEXT_CHAT_MSG_ACK | _ => True end.

Lemma kept_event e c : requests e -> kept c -> kept (run_event supportsSsl c e).
Proof.
  intros He Hc. destruct e as [info|now reqId data|uuid request peer remark| | |login|login| | |mkpath bytes|n| | |now| ]; cbn [run_event].
  - by apply kept_connect.
  - destruct (reqId =? ID_CHAT_LOGIN); [done|]. apply (stable_send kept); [|done]. destruct He. by apply kept_request.
  - by apply (stable_befriend kept).
  - by apply kept_disconnect.
  - unfold slot_reconnect_for_proxy. destruct (_ || _); [done|]. apply kept_schedule, kept_abort, kept_emit. by apply (kept_same c).
  - case_bool_decide; [|done]. unfold on_connected. destruct (_ && _); [apply kept_ready|]; by apply (kept_same c).
  - destruct (_ && _ && _); [|done]. unfold on_encrypted. destruct (_ && _); [apply kept_ready|]; by apply (kept_same c).
  - destruct (_ && _); [|done]. by apply kept_result, kept_abort.
  - destruct (state (_socket c)); [done|apply kept_result; by apply (kept_same c)|].
    pose proof (kept_result c Hc) as Hr. apply kept_disconnected. by apply (kept_same (give_result c)).
  - destruct (secured c); [|done]. by apply (stable_readyRead kept).
  - by apply (kept_same c).
  - case_bool_decide; [|done]. unfold on_retry. destruct (_ && _); [apply kept_begin|]; by apply (kept_same c).
  - destruct (heartbeat_timer _); [|done]. by apply (stable_heartbeat kept).
  - destruct (outbox_timer _); [|done]. by apply (stable_flush kept).
  - destruct (friend_timer _); [|done]. apply kept_emit. by apply (kept_same c).
Qed.

(** C10. The client acknowledges a message only when it is stored: after any
    events, each acknowledgement that was written names, for one sender,
    messages that are committed in the file of the account they were sent to
    - also when the database fails at any call, the connection is lost, or
    the user signs in to other accounts in between. *)
Theorem ack_durable m events : no_leftover (db_ m) -> uid_ m = 0 -> Forall requests events ->
  let c := foldl (run_event supportsSsl) (new_TcpMgr m) events in
  forall e data, (e, block ID_TEXT_CHAT_MSG_ACK data) ∈ sent (_socket c) ->
  exists uid from ids, data = toJson (ack from ids) /\ forall id, id ∈ ids -> stored c uid from id.
Proof.
  intros Hn Hu He. assert (forall c, kept c -> kept (foldl (run_event supportsSsl) c events)) as Hrun.
  { induction He as [|e events Hp _ IH]; intros c Hc; [done|]. by apply IH, kept_event. }
  destruct (Hrun (new_TcpMgr m)) as [_ _ Ha]; [split; [done|by intros []|by apply Forall_nil_2]|].
  intros c e data Hin. rewrite Forall_forall in Ha. by apply (Ha _ Hin).
Qed.

End Acks.

(** ** Witness *)

Module Example.

#[local] Existing Instance ToyQJson.toy_qjson.

Definition example_store : MessageStore :=
  mkMessageStore (mkDb (mkFile [] []) None true 0 0 (fun _ => Fine) (fun _ => 0)) false 0.
Definition login_answer : string := toJson (qobject [("error", qint 0); ("uid", qint 1)]%string).
Definition text_notice : string :=
  toJson (qobject [("error", qint 0); ("fromuid", qint 2); ("touid", qint 1);
                   ("text_array", qarray [qobject [("msgid", qstring "m1"); ("content", qstring "hi")]])]%string).

(** A login, a message that is received, and the end of the session. *)
Definition example_events : list event :=
  [Connect (mkServerInfo "chat.example" 8090 "tls" "" false); TcpUp "login"; TlsUp "login";
   Receives true (block ID_CHAT_LOGIN_RSP login_answer); Receives true (block ID_NOTIFY_TEXT_CHAT_MSG_REQ text_notice); Disconnects].

Lemma ack_durable_witness :
  let c := foldl (run_event true) (new_TcpMgr example_store) example_events in
  (true, block ID_TEXT_CHAT_MSG_ACK (toJson (ack 2 ["m1"%string]))) ∈ sent (_socket c) /\
  exists uid from ids, toJson (ack 2 ["m1"%string]) = toJson (ack from ids) /\ forall id, id ∈ ids -> stored c uid from id.
Proof.
  assert ((true, block ID_TEXT_CHAT_MSG_ACK (toJson (ack 2 ["m1"%string]))) ∈
    sent (_socket (foldl (run_event true) (new_TcpMgr example_store) example_events))) as Hin.
  { eapply (list_elem_of_lookup_2 _ 1). vm_compute. reflexivity. }
  split; [exact Hin|]. eapply (ack_durable true example_store example_events); [done|done| |exact Hin].
  repeat constructor.
Defined.

End Example.
