(* ===== verification/Server.v ===== *)
(** The chat server's tables of connections and users:
    [src/servers/chat/network/CServer.cpp],
    [src/servers/chat/service/UserMgr.cpp] and the part of
    [src/servers/chat/network/CSession.cpp] that they see.

    A [CSession] is an object of its own, alive as long as something refers
    to it; here it is named by its session id, which the server draws from a
    random generator ([fresh] below). *)
From S2P Require Import Prelude Mysql Redis Session.

Definition MAX_CHAT_SESSIONS : Z := 10000.
Definition CHAT_HEALTH_PREFIX : string := "chat_health_".
Definition CHAT_HEARTBEAT_TTL_SECONDS : Z := 15.

(** What the tables need to know of a [CSession]. *)
Record Conn := mkConn { c_close : bool; c_uid : Z }.

(** [clearing] holds the connections whose [Close] has set the flag and has
    still to call [ClearSession]; [pending] the connection that the
    outstanding [async_accept] will use. *)
Record Server := mkServer {
  objects : gmap string Conn;
  sessions : gset string;
  users : gmap Z string;
  clearing : gset string;
  started : bool;
  stopping : bool;
  pending : option string;
}.

Definition set_objects f w := mkServer (f (objects w)) (sessions w) (users w) (clearing w) (started w) (stopping w) (pending w).
Definition set_sessions f w := mkServer (objects w) (f (sessions w)) (users w) (clearing w) (started w) (stopping w) (pending w).
Definition set_users f w := mkServer (objects w) (sessions w) (f (users w)) (clearing w) (started w) (stopping w) (pending w).
Definition set_clearing f w := mkServer (objects w) (sessions w) (users w) (f (clearing w)) (started w) (stopping w) (pending w).
Definition set_pending p w := mkServer (objects w) (sessions w) (users w) (clearing w) (started w) (stopping w) p.
Definition set_started w := mkServer (objects w) (sessions w) (users w) (clearing w) true (stopping w) (pending w).
Definition set_stopping w := mkServer (objects w) (sessions w) (users w) (clearing w) (started w) true None.

Definition create : Server := mkServer ∅ ∅ ∅ ∅ false false None.

Definition is_closed (id : string) (w : Server) : bool :=
  match objects w !! id with Some c => c_close c | None => false end.
Definition uid_of (id : string) (w : Server) : Z :=
  match objects w !! id with Some c => c_uid c | None => 0 end.

(** ** [UserMgr] *)

Module UserMgr.

Definition GetSession (uid : Z) (w : Server) : option string := users w !! uid.

Definition SetUserSession (uid : Z) (session : string) (w : Server) : Server :=
  set_users (insert uid session) w.

(** Only the expected session is removed. *)
Definition RmvUserSession (uid : Z) (expected : string) (w : Server) : Server :=
  match users w !! uid with
  | Some session => if String.eqb session expected then set_users (delete uid) w else w
  | None => w
  end.

End UserMgr.

(** ** [CServer] *)

Definition ClearSession (session_id : string) (w : Server) : Server :=
  let w := if bool_decide (session_id ∈ sessions w)
           then let uid := uid_of session_id w in
                if 0 <? uid then UserMgr.RmvUserSession uid session_id w else w
           else w in
  set_clearing (fun c => c ∖ {[session_id]}) (set_sessions (fun t => t ∖ {[session_id]}) w).

(** [CSession::Close]: the flag decides which of several callers clears. *)
Definition close_flag (session_id : string) (w : Server) : Server :=
  if is_closed session_id w then w
  else set_clearing (union {[session_id]})
         (set_objects (alter (fun c => mkConn true (c_uid c)) session_id) w).
Definition Close (session_id : string) (w : Server) : Server :=
  if is_closed session_id w then w else ClearSession session_id (close_flag session_id w).

Definition SetUserId (session_id : string) (uid : Z) (w : Server) : Server :=
  set_objects (alter (fun c => mkConn (c_close c) uid) session_id) w.

Definition GetSession (uuid : string) (w : Server) : option string :=
  if bool_decide (uuid ∈ sessions w) then Some uuid else None.
Definition CheckValid (uuid : string) (w : Server) : bool := bool_decide (uuid ∈ sessions w).

(** A new [CSession] waits to be accepted. *)
Definition StartAccept (fresh : string) (w : Server) : Server :=
  if stopping w then w
  else set_pending (Some fresh) (set_objects (insert fresh (mkConn false 0)) w).

Definition Start (fresh : string) (w : Server) : Server :=
  if started w then w else StartAccept fresh (set_started w).

(** The acceptor is closed, then every listed session. *)
Definition Stop (w : Server) : Server :=
  if stopping w then w
  else foldr Close (set_stopping w) (elements (sessions w)).

Definition HandleAccept (new_session : string) (error : bool) (fresh : string) (w : Server) : Server :=
  if stopping w then w
  else
    let w := if error then w
             else if Z.of_nat (size (sessions w)) <? MAX_CHAT_SESSIONS
             then set_sessions (union {[new_session]}) w
             else Close new_session w in
    if stopping w then w else StartAccept fresh w.

(** The heartbeat entry in Redis. *)
Definition PublishHealth (server_name : string) (w : Server) (r : redis) : bool * redis :=
  RedisMgr.SetWithTtl (CHAT_HEALTH_PREFIX ++ server_name)
    (to_string (Z.of_nat (size (sessions w)))) CHAT_HEARTBEAT_TTL_SECONDS r.
Definition StopTimer (server_name : string) (r : redis) : bool * redis :=
  RedisMgr.Del (CHAT_HEALTH_PREFIX ++ server_name) r.

(** ** Interleavings *)

(** The steps of the threads of a chat server: each is atomic under the lock
    of its table. A login ([LogicSystem::LoginChatCallback]) first binds the
    user to the connection and then the connection to the user. *)
Inductive step : Server -> Server -> Prop :=
| step_start fresh w : objects w !! fresh = None -> step w (Start fresh w)
| step_accept id error fresh w : pending w = Some id -> objects w !! fresh = None ->
    step w (HandleAccept id error fresh (set_pending None w))
| step_close id w : is_Some (objects w !! id) -> pending w <> Some id -> step w (close_flag id w)
| step_clear id w : id ∈ clearing w -> step w (ClearSession id w)
| step_login id uid w : is_Some (objects w !! id) -> 0 < uid -> uid_of id w <= 0 ->
    step w (SetUserId id uid w)
| step_register id w : 0 < uid_of id w -> step w (UserMgr.SetUserSession (uid_of id w) id w)
| step_stop w : step w (Stop w).

Definition reachable (w : Server) : Prop := rtc step create w.

(** ** Invariant *)

Record inv (w : Server) : Prop := {
  inv_size : Z.of_nat (size (sessions w)) <= MAX_CHAT_SESSIONS;
  inv_closed : forall id, id ∈ sessions w -> is_closed id w = true -> id ∈ clearing w;
  inv_clearing : forall id, id ∈ clearing w -> is_closed id w = true;
  inv_pending : forall id, pending w = Some id -> is_Some (objects w !! id) /\ is_closed id w = false;
  inv_users : forall uid id, users w !! uid = Some id -> 0 < uid /\ uid_of id w = uid;
  inv_objects : forall id, id ∈ sessions w -> is_Some (objects w !! id);
}.

(** After [Stop] nothing is accepted and what is still listed is closed. *)
Definition halted (w : Server) : Prop :=
  stopping w = true -> pending w = None /\ forall id, id ∈ sessions w -> is_closed id w = true.

(** *** The flag and the user of an object after each update *)

Lemma is_closed_flag id id' w : is_Some (objects w !! id) ->
  is_closed id' (close_flag id w) = bool_decide (id = id') || is_closed id' w.
Proof.
  intros [c Ho]. unfold close_flag. destruct (is_closed id w) eqn:Ec.
  - case_bool_decide as E; [by subst id'|done].
  - unfold is_closed. simpl. case_bool_decide as E; [subst id'|].
    + by rewrite lookup_alter_eq, Ho.
    + by rewrite lookup_alter_ne.
Qed.

Lemma uid_of_flag id id' w : uid_of id' (close_flag id w) = uid_of id' w.
Proof.
  unfold close_flag. destruct (is_closed id w); [done|]. unfold uid_of. simpl.
  destruct (decide (id = id')) as [->|E]; [|by rewrite lookup_alter_ne].
  rewrite lookup_alter_eq. by destruct (objects w !! id').
Qed.

Lemma close_flag_tables id w :
  sessions (close_flag id w) = sessions w /\ users (close_flag id w) = users w /\
  pending (close_flag id w) = pending w /\ stopping (close_flag id w) = stopping w /\
  clearing (close_flag id w) = (if is_closed id w then clearing w else {[id]} ∪ clearing w) /\
  (forall id', is_Some (objects w !! id') -> is_Some (objects (close_flag id w) !! id')).
Proof.
  unfold close_flag. destruct (is_closed id w); [done|]. split_and!; try done.
  intros id' Ho. simpl. destruct (decide (id = id')) as [->|E].
  - rewrite lookup_alter_eq. by apply fmap_is_Some.
  - by rewrite lookup_alter_ne.
Qed.

Lemma is_closed_SetUserId id id' uid w : is_closed id' (SetUserId id uid w) = is_closed id' w.
Proof.
  unfold is_closed. simpl. destruct (decide (id = id')) as [->|E]; [|by rewrite lookup_alter_ne].
  rewrite lookup_alter_eq. by destruct (objects w !! id').
Qed.

Lemma uid_of_SetUserId id id' uid w : id <> id' -> uid_of id' (SetUserId id uid w) = uid_of id' w.
Proof. intros E. unfold uid_of. simpl. by rewrite lookup_alter_ne. Qed.

(** *** Preservation *)

Lemma close_flag_inv id w : is_Some (objects w !! id) -> pending w <> Some id -> inv w -> inv (close_flag id w).
Proof.
  intros Ho Hp [H1 H2 H3 H4 H5 H7]. destruct (close_flag_tables id w) as (Es & Eu & Ep & Et & Ec & Eo).
  split; rewrite ?Es, ?Eu, ?Ep, ?Et; try done.
  - intros id' Hs. rewrite is_closed_flag, Ec by done. intros H.
    destruct (is_closed id w) eqn:E; case_bool_decide; subst; set_solver.
  - intros id'. rewrite is_closed_flag, Ec by done. intros H.
    destruct (is_closed id w) eqn:E; case_bool_decide; set_solver.
  - intros id' Hp'. destruct (H4 _ Hp') as [? Hn]. split; [by apply Eo|].
    rewrite is_closed_flag, Hn by done. rewrite bool_decide_false; [done|congruence].
  - intros uid id'. rewrite uid_of_flag. apply H5.
  - auto.
Qed.

(** Clearing only takes away. *)
Lemma ClearSession_tables id w :
  let w' := ClearSession id w in
  objects w' = objects w /\ sessions w' = sessions w ∖ {[id]} /\ clearing w' = clearing w ∖ {[id]} /\
  pending w' = pending w /\ stopping w' = stopping w /\
  (users w' = users w \/ users w' = delete (uid_of id w) (users w) /\ users w !! uid_of id w = Some id).
Proof.
  unfold ClearSession, UserMgr.RmvUserSession.
  case_bool_decide; [|by repeat split; left]. destruct (0 <? uid_of id w); [|by repeat split; left].
  destruct (users w !! uid_of id w) as [x|] eqn:E; [|by repeat split; left].
  destruct (String.eqb_spec x id) as [->|]; [|by repeat split; left]. repeat split; by right.
Qed.

Lemma is_closed_Clear id x w : is_closed x (ClearSession id w) = is_closed x w.
Proof. unfold is_closed. by destruct (ClearSession_tables id w) as (-> & _). Qed.
Lemma uid_of_Clear id x w : uid_of x (ClearSession id w) = uid_of x w.
Proof. unfold uid_of. by destruct (ClearSession_tables id w) as (-> & _). Qed.

Lemma ClearSession_inv id w : is_closed id w = true -> inv w -> inv (ClearSession id w).
Proof.
  intros Hc [H1 H2 H3 H4 H5 H7].
  destruct (ClearSession_tables id w) as (Eo & Es & Ec & Ep & Et & Eu).
  split; rewrite ?Es, ?Ec, ?Ep, ?Et, ?Eo.
  - pose proof (subseteq_size (sessions w ∖ {[id]}) (sessions w) ltac:(set_solver)). lia.
  - intros x. rewrite is_closed_Clear. set_solver.
  - intros x. rewrite is_closed_Clear. set_solver.
  - intros x. rewrite is_closed_Clear. auto.
  - intros uid x. rewrite uid_of_Clear. destruct Eu as [->|[-> _]]; [apply H5|].
    intros [_ ?]%lookup_delete_Some. by apply H5.
  - set_solver.
Qed.

Lemma Close_inv id w : is_Some (objects w !! id) -> pending w <> Some id -> inv w -> inv (Close id w).
Proof.
  intros Ho Hp Hi. unfold Close. destruct (is_closed id w); [done|].
  apply ClearSession_inv; [|by apply close_flag_inv].
  rewrite is_closed_flag by done. by rewrite bool_decide_true.
Qed.

(** What [Close] leaves of the other connections. *)
Lemma Close_frame id w : is_Some (objects w !! id) ->
  is_closed id (Close id w) = true /\ pending (Close id w) = pending w /\
  stopping (Close id w) = stopping w /\ sessions (Close id w) ⊆ sessions w /\
  (forall x, is_closed x w = true -> is_closed x (Close id w) = true) /\
  (forall x, uid_of x (Close id w) = uid_of x w) /\
  (forall x, is_Some (objects w !! x) -> is_Some (objects (Close id w) !! x)).
Proof.
  intros Ho. unfold Close. destruct (is_closed id w) eqn:E; [by split_and!|].
  destruct (close_flag_tables id w) as (Es & Eu & Ep & Et & Ec & Eo).
  destruct (ClearSession_tables id (close_flag id w)) as (Eo' & Es' & Ec' & Ep' & Et' & _).
  rewrite Ep', Et', Es', Eo', Ep, Et, Es. split_and!; try done; [..|set_solver| | ].
  - rewrite is_closed_Clear, is_closed_flag by done. by rewrite bool_decide_true.
  - intros x Hx. rewrite is_closed_Clear, is_closed_flag, Hx by done. by rewrite orb_true_r.
  - intros x. by rewrite uid_of_Clear, uid_of_flag.
Qed.

(** Closing all the connections of a list. *)
Lemma Close_all_inv l w : pending w = None -> inv w ->
  (forall id, id ∈ l -> is_Some (objects w !! id)) ->
  let w' := foldr Close w l in
  inv w' /\ pending w' = None /\ stopping w' = stopping w /\ sessions w' ⊆ sessions w /\
  (forall id, id ∈ l \/ is_closed id w = true -> is_closed id w' = true) /\
  (forall x, uid_of x w' = uid_of x w) /\
  (forall x, is_Some (objects w !! x) -> is_Some (objects w' !! x)).
Proof.
  intros Hp Hi. induction l as [|id l IH]; intros Ho; simpl.
  { split_and!; try done. by intros id [?%elem_of_nil|?]. }
  destruct IH as (I1 & I2 & I3 & I4 & I5 & I6 & I7); [set_solver|].
  assert (is_Some (objects (foldr Close w l) !! id)) as Hid by (apply I7, Ho; set_solver).
  destruct (Close_frame id (foldr Close w l) Hid) as (C1 & C2 & C3 & C4 & C5 & C6 & C7).
  split_and!.
  - apply Close_inv; [done| |done]. by rewrite I2.
  - by rewrite C2.
  - by rewrite C3.
  - set_solver.
  - intros x [[->|Hx]%elem_of_cons|Hx]; [done|..]; apply C5, I5; auto.
  - intros x. by rewrite C6.
  - auto.
Qed.

Lemma StartAccept_inv fresh w : objects w !! fresh = None -> inv w -> inv (StartAccept fresh w).
Proof.
  intros Hf Hi. unfold StartAccept. destruct (stopping w); [done|].
  destruct Hi as [H1 H2 H3 H4 H5 H7].
  assert (forall x, is_closed x (set_pending (Some fresh) (set_objects (insert fresh (mkConn false 0)) w)) =
                    is_closed x w) as Hcl.
  { intros x. unfold is_closed. simpl. destruct (decide (fresh = x)) as [<-|E].
    - by rewrite lookup_insert_eq, Hf.
    - by rewrite lookup_insert_ne. }
  split; simpl; try done.
  - intros x. rewrite Hcl. auto.
  - intros x. rewrite Hcl. auto.
  - intros x [= <-]. rewrite Hcl, lookup_insert_eq. unfold is_closed. by rewrite Hf.
  - intros uid x [H6 H8]%H5. split; [done|]. unfold uid_of in *. simpl.
    destruct (decide (fresh = x)) as [<-|E]; [rewrite Hf in H8; lia|]. by rewrite lookup_insert_ne.
  - intros x Hx. destruct (decide (fresh = x)) as [<-|E]; [by rewrite lookup_insert_eq|].
    rewrite lookup_insert_ne by done. auto.
Qed.

Lemma HandleAccept_inv id error fresh w : pending w = Some id -> objects w !! fresh = None ->
  inv w -> halted w ->
  inv (HandleAccept id error fresh (set_pending None w)) /\
  stopping (HandleAccept id error fresh (set_pending None w)) = false.
Proof.
  intros Hp Hf Hi Hh. destruct (inv_pending w Hi id Hp) as [Ho Hc].
  assert (stopping w = false) as Hst.
  { destruct (stopping w) eqn:E; [|done]. destruct (Hh E). congruence. }
  assert (inv (set_pending None w)) as Hi' by (destruct Hi; by split).
  unfold HandleAccept. simpl. rewrite Hst.
  set (w1 := if error then _ else _).
  assert (inv w1 /\ stopping w1 = false /\ objects w1 !! fresh = None) as (H1 & H2 & H3).
  { subst w1. destruct error; [done|]. destruct (_ <? MAX_CHAT_SESSIONS) eqn:Hlt; bool_hyps.
    - split_and!; [|done..]. destruct Hi' as [H1 H2 H3 H4 H5 H7]. split; try done.
      + simpl. pose proof (size_union_alt (C := gset string) {[id]} (sessions w)) as Hu.
        rewrite size_singleton in Hu.
        pose proof (subseteq_size (sessions w ∖ {[id]}) (sessions w) ltac:(set_solver)). simpl in *. lia.
      + intros x. simpl. intros [Hx%elem_of_singleton|Hx]%elem_of_union Hcl; [subst x|by apply H2].
        change (is_closed id w = true) in Hcl. congruence.
      + intros x. simpl. intros [Hx%elem_of_singleton|Hx]%elem_of_union; [by subst x|by apply H7].
    - destruct (Close_frame id (set_pending None w) Ho) as (_ & _ & C3 & _).
      split_and!; [by apply Close_inv|by rewrite C3|]. unfold Close.
      destruct (is_closed id _); [done|].
      destruct (ClearSession_tables id (close_flag id (set_pending None w))) as (-> & _).
      unfold close_flag. destruct (is_closed id _); [done|]. simpl.
      destruct (decide (id = fresh)) as [->|E]; [by rewrite Hf in Ho; destruct Ho|].
      by rewrite lookup_alter_ne. }
  rewrite H2. split; [by apply StartAccept_inv|]. unfold StartAccept. by rewrite H2.
Qed.

Lemma Stop_inv w : inv w -> halted w -> inv (Stop w) /\ halted (Stop w).
Proof.
  intros Hi Hh. unfold Stop. destruct (stopping w) eqn:E; [done|].
  assert (inv (set_stopping w)) as Hi' by (destruct Hi; by split).
  destruct (Close_all_inv (elements (sessions w)) (set_stopping w) eq_refl Hi') as (I1 & I2 & I3 & I4 & I5 & _).
  { intros id Hid%elem_of_elements. by apply (inv_objects w Hi). }
  split; [done|]. intros _. split; [done|]. intros id Hid. apply I5. left.
  apply elem_of_elements. exact (I4 _ Hid).
Qed.

Lemma server_step_inv w w' : step w w' -> inv w /\ halted w -> inv w' /\ halted w'.
Proof.
  intros Hs [Hi Hh]. destruct Hs as [fresh w Hf|id error fresh w Hp Hf|id w Ho Hp|id w Hc|id uid w Ho Hu Hn|id w Hu|w].
  - unfold Start. destruct (started w); [done|].
    assert (inv (set_started w)) as Hi' by (destruct Hi; by split).
    split; [by apply StartAccept_inv|]. unfold StartAccept. simpl. destruct (stopping w) eqn:E; [done|].
    intros Hst. simpl in Hst. congruence.
  - destruct (HandleAccept_inv id error fresh w) as [H1 H2]; try done. split; [done|].
    intros Hst. congruence.
  - split; [by apply close_flag_inv|]. destruct (close_flag_tables id w) as (Es & _ & Ep & Et & _).
    unfold halted. rewrite Es, Ep, Et. intros [? H]%Hh. split; [done|].
    intros x Hx. rewrite is_closed_flag, (H x Hx) by done. by rewrite orb_true_r.
  - split; [apply ClearSession_inv; [by apply (inv_clearing w Hi)|done]|].
    destruct (ClearSession_tables id w) as (_ & Es & _ & Ep & Et & _).
    unfold halted. rewrite Es, Ep, Et. intros [? H]%Hh. split; [done|].
    intros x Hx. rewrite is_closed_Clear. set_solver.
  - split.
    + destruct Hi as [H1 H2 H3 H4 H5 H7].
      assert (forall x, is_Some (objects w !! x) -> is_Some (objects (SetUserId id uid w) !! x)) as Hob.
      { intros x Hx. simpl. destruct (decide (id = x)) as [->|E]; [|by rewrite lookup_alter_ne].
        rewrite lookup_alter_eq. by apply fmap_is_Some. }
      split; try done.
      * intros x. rewrite is_closed_SetUserId. apply H2.
      * intros x. rewrite is_closed_SetUserId. apply H3.
      * intros x [? ?]%H4. rewrite is_closed_SetUserId. auto.
      * intros u x [? <-]%H5. split; [done|]. rewrite uid_of_SetUserId; [done|]. intros ->. lia.
      * intros x Hx. by apply Hob, H7.
    + intros [? H]%Hh. split; [done|]. intros x Hx. rewrite is_closed_SetUserId. by apply H.
  - split; [|done]. destruct Hi as [H1 H2 H3 H4 H5 H7]. split; try done.
    intros u x. simpl. intros [[<- <-]|[_ ?]]%lookup_insert_Some; [done|by apply H5].
  - by apply Stop_inv.
Qed.

Lemma server_reachable_inv w : reachable w -> inv w /\ halted w.
Proof.
  intros Hr. assert (inv create /\ halted create) as Hi.
  { split; [|done]. by split; try set_solver. }
  induction Hr as [|w1 w2 w3 Hs _ IH]; [done|]. by apply IH, (server_step_inv w1).
Qed.

(** The tables of a chat server, over every interleaving of accepting,
    closing, logging in and stopping: at most 10000 connections are listed, a
    listed connection is open or on its way out, the session kept for a user
    is bound to that user, and after [Stop] nothing is accepted and every
    connection still listed is closed. *)
Theorem connection_tables w : reachable w ->
  Z.of_nat (size (sessions w)) <= MAX_CHAT_SESSIONS /\
  (forall id, id ∈ sessions w -> is_closed id w = true -> id ∈ clearing w) /\
  (forall uid id, UserMgr.GetSession uid w = Some id -> uid_of id w = uid) /\
  (stopping w = true -> pending w = None /\ forall id, id ∈ sessions w -> is_closed id w = true).
Proof.
  intros [[H1 H2 H3 H4 H5 H7] Hh]%server_reachable_inv. split_and!; try done.
  intros uid id. apply H5.
Qed.

Lemma connection_tables_witness : exists w, stopping w = true /\
  Z.of_nat (size (sessions w)) <= MAX_CHAT_SESSIONS.
Proof.
  assert (reachable (Stop (Start "s1" create))) as Hr.
  { eapply rtc_l; [by apply (step_start "s1")|]. eapply rtc_l; [apply step_stop|]. apply rtc_refl. }
  exists (Stop (Start "s1" create)). split; [by vm_compute|]. exact (proj1 (connection_tables _ Hr)).
Defined.

(** A session kept for a user is dropped by its own closing only. *)
Definition kept (uid : Z) (id : string) (w : Server) : Prop :=
  users w !! uid = Some id \/ users w !! uid = None /\ is_closed id w = true.

Lemma ClearSession_kept uid id x w : is_closed x w = true ->
  kept uid id w -> kept uid id (ClearSession x w).
Proof.
  intros Hc Hk. unfold kept. rewrite is_closed_Clear.
  destruct (ClearSession_tables x w) as (_ & _ & _ & _ & _ & [->|[-> Hx]]); [done|].
  destruct (decide (uid_of x w = uid)) as [<-|E]; [|by rewrite lookup_delete_ne].
  rewrite lookup_delete_eq. destruct Hk as [Hk|[Hk _]]; [|congruence]. right. split; [done|congruence].
Qed.

Lemma Close_kept uid id x w : is_Some (objects w !! x) -> kept uid id w -> kept uid id (Close x w).
Proof.
  intros Ho Hk. unfold Close. destruct (is_closed x w) eqn:E; [done|].
  apply ClearSession_kept; [rewrite is_closed_flag by done; by rewrite bool_decide_true|].
  unfold kept in *. destruct (close_flag_tables x w) as (_ & -> & _). rewrite is_closed_flag by done.
  destruct Hk as [?|[? ->]]; [by left|right]. by rewrite orb_true_r.
Qed.

Lemma Close_all_kept uid id l w : (forall x, x ∈ l -> is_Some (objects w !! x)) ->
  kept uid id w -> kept uid id (foldr Close w l).
Proof.
  intros Ho Hk.
  assert (kept uid id (foldr Close w l) /\
          forall x, is_Some (objects w !! x) -> is_Some (objects (foldr Close w l) !! x)) as [? _]; [|done].
  induction l as [|y l IH]; simpl; [done|]. destruct IH as [I1 I2]; [set_solver|].
  assert (is_Some (objects (foldr Close w l) !! y)) as Hy by (apply I2, Ho; set_solver).
  split; [by apply Close_kept|]. intros x Hx. apply (Close_frame y _ Hy). auto.
Qed.

(** Nobody else takes a user's session away: in one step the session kept
    for a user stays, or is replaced by another session of the same user
    that logs in, or is dropped because it was itself closed. Closing an old
    connection of a user who has logged in again leaves the new one. *)
Theorem registration_stable w w' uid id :
  reachable w -> step w w' -> UserMgr.GetSession uid w = Some id ->
  UserMgr.GetSession uid w' = Some id \/
  (exists id', UserMgr.GetSession uid w' = Some id' /\ uid_of id' w = uid) \/
  UserMgr.GetSession uid w' = None /\ is_closed id w' = true.
Proof.
  intros [Hi Hh]%server_reachable_inv Hs Hu. unfold UserMgr.GetSession in *.
  assert (kept uid id w' -> users w' !! uid = Some id \/
    (exists id', users w' !! uid = Some id' /\ uid_of id' w = uid) \/
    users w' !! uid = None /\ is_closed id w' = true) as Hkept by (intros [?|?]; auto).
  assert (kept uid id w) as Hk by by left.
  destruct Hs as [fresh w Hf|x error fresh w Hp Hf|x w Ho Hp|x w Hc|x u w Ho Hux Hn|x w Hux|w].
  - left. unfold Start, StartAccept. by repeat case_match.
  - apply Hkept. destruct (inv_pending w Hi x Hp) as [Ho Hc]. unfold HandleAccept. simpl.
    destruct (stopping w) eqn:E; [done|]. set (w1 := if error then _ else _).
    assert (kept uid id w1) as Hk1.
    { subst w1. destruct error; [done|]. destruct (_ <? _); [done|]. by apply Close_kept. }
    destruct (stopping w1); [done|]. unfold StartAccept. destruct (stopping w1); [done|].
    destruct Hk1 as [?|[? Hcl]]; [by left|right]. split; [done|].
    unfold is_closed. simpl. destruct (decide (fresh = id)) as [->|Hne]; [|by rewrite lookup_insert_ne].
    destruct (inv_users w Hi _ _ Hu) as [Hpos Hid]. unfold uid_of in Hid. rewrite Hf in Hid. lia.
  - left. by destruct (close_flag_tables x w) as (_ & -> & _).
  - apply Hkept, ClearSession_kept; [by apply (inv_clearing w Hi)|done].
  - by left.
  - simpl. destruct (decide (uid_of x w = uid)) as [<-|E].
    + right. left. exists x. by rewrite lookup_insert_eq.
    + left. by rewrite lookup_insert_ne.
  - apply Hkept. unfold Stop. destruct (stopping w); [done|]. apply Close_all_kept; [|done].
    intros y Hy%elem_of_elements. by apply (inv_objects w Hi).
Qed.

(** A user on an old connection [s1] and a new one [s2]. *)
Definition relogged : Server :=
  let w := HandleAccept "s1" false "s2" (set_pending None (Start "s1" create)) in
  let w := HandleAccept "s2" false "s3" (set_pending None w) in
  let w := UserMgr.SetUserSession 7 "s1" (SetUserId "s1" 7 w) in
  UserMgr.SetUserSession 7 "s2" (SetUserId "s2" 7 w).

Lemma relogged_reachable : reachable relogged.
Proof.
  eapply rtc_l; [by apply (step_start "s1")|].
  eapply rtc_l; [by apply (step_accept "s1" false "s2")|].
  eapply rtc_l; [by apply (step_accept "s2" false "s3")|].
  eapply rtc_l; [apply (step_login "s1" 7); by vm_compute; eauto|].
  eapply rtc_l; [apply (step_register "s1"); by vm_compute|].
  eapply rtc_l; [apply (step_login "s2" 7); by vm_compute; eauto|].
  eapply rtc_l; [apply (step_register "s2"); by vm_compute|].
  apply rtc_refl.
Qed.

Lemma registration_stable_witness :
  UserMgr.GetSession 7 (close_flag "s1" relogged) = Some "s2" \/
  (exists id', UserMgr.GetSession 7 (close_flag "s1" relogged) = Some id' /\ uid_of id' relogged = 7) \/
  UserMgr.GetSession 7 (close_flag "s1" relogged) = None /\ is_closed "s2" (close_flag "s1" relogged) = true.
Proof.
  apply (registration_stable relogged (close_flag "s1" relogged) 7 "s2" relogged_reachable).
  - apply step_close; [vm_compute; eauto|by vm_compute].
  - by vm_compute.
Defined.

(** A login that registers a connection which was closed meanwhile leaves it
    registered: it has been cleared already and nothing clears it again. *)
Lemma stale_registration : exists w, reachable w /\ clearing w = ∅ /\
  UserMgr.GetSession 7 w = Some "s1" /\ is_closed "s1" w = true /\ CheckValid "s1" w = false.
Proof.
  set (w0 := HandleAccept "s1" false "s2" (set_pending None (Start "s1" create))).
  set (w1 := ClearSession "s1" (close_flag "s1" w0)).
  exists (UserMgr.SetUserSession 7 "s1" (SetUserId "s1" 7 w1)). split; [|by vm_compute].
  eapply rtc_l; [by apply (step_start "s1")|].
  eapply rtc_l; [by apply (step_accept "s1" false "s2")|].
  eapply rtc_l; [apply (step_close "s1"); [vm_compute; eauto|by vm_compute]|].
  eapply rtc_l; [apply (step_clear "s1"); by vm_compute|].
  eapply rtc_l; [apply (step_login "s1" 7); by vm_compute; eauto|].
  eapply rtc_l; [apply (step_register "s1"); by vm_compute|].
  apply rtc_refl.
Qed.
