(* ===== verification/Rpc.v ===== *)
(** The authentication of calls between the servers:
    [src/common/InternalRpcAuth.h]. *)
From S2P Require Import Prelude Session.

Module InternalRpc.

Definition kMetadataKey : string := "x-chat-internal-token".
Definition kRequestIdMetadataKey : string := "x-chat-request-id".
Definition kDevelopmentToken : string := "local-development-only-change-me".

(** The loop of [constant_time_equal]: the bits in which two bytes differ are
    gathered in an [unsigned char]. *)
Fixpoint difference (supplied expected : string) (acc : Z) : Z :=
  match supplied, expected with
  | String a supplied, String b expected =>
      difference supplied expected (Z.lor acc (Z.lxor (of_byte a) (of_byte b)))
  | _, _ => acc
  end.

Definition constant_time_equal (supplied expected : string) : bool :=
  if negb (ssize supplied =? ssize expected) then false
  else difference supplied expected 0 =? 0.

Inductive StatusCode := OK | UNAUTHENTICATED | INVALID_ARGUMENT.

#[global] Instance StatusCode_eq_dec : EqDecision StatusCode.
Proof. solve_decision. Defined.

(** The metadata of a call, as [find] of the multimap sees it. *)
Definition find_metadata (k : string) (metadata : list (string * string)) : option string :=
  snd <$> List.find (fun p => String.eqb p.1 k) metadata.

Definition authorize (metadata : list (string * string)) (expected : string) : StatusCode :=
  if sempty expected then UNAUTHENTICATED
  else match find_metadata kMetadataKey metadata with
       | None => UNAUTHENTICATED
       | Some supplied => if constant_time_equal supplied expected then OK else UNAUTHENTICATED
       end.

Definition authenticate (token : string) (metadata : list (string * string))
    : outcome (list (string * string)) :=
  if sempty token then Throws else Returns (metadata ++ [(kMetadataKey, token)]).

Definition propagate_request_id (request_id : string) (metadata : list (string * string))
    : list (string * string) :=
  if sempty request_id then metadata else metadata ++ [(kRequestIdMetadataKey, request_id)].

Definition request_id (metadata : list (string * string)) : string :=
  match find_metadata kRequestIdMetadataKey metadata with
  | Some supplied => if 64 <? ssize supplied then "" else supplied
  | None => ""
  end.

Definition is_loopback (host : string) : bool :=
  String.eqb host "127.0.0.1" || String.eqb host "::1" || String.eqb host "localhost".

Definition validate_server_configuration (host token transport_mode : string) : outcome unit :=
  if sempty token then Throws
  else if negb (is_loopback host) && negb (String.eqb transport_mode "tls")
          && negb (String.eqb transport_mode "mtls") then Throws
  else if negb (is_loopback host) && String.eqb token kDevelopmentToken then Throws
  else Returns tt.

(** ** Properties *)

Lemma difference_zero s1 : forall s2 acc, ssize s1 = ssize s2 ->
  difference s1 s2 acc = 0 <-> acc = 0 /\ s1 = s2.
Proof.
  induction s1 as [|a s1 IH]; intros [|b s2] acc Hl; rewrite ?ssize_cons in Hl.
  - naive_solver.
  - pose proof (ssize_nonneg s2). change (ssize "") with 0 in Hl. lia.
  - pose proof (ssize_nonneg s1). change (ssize "") with 0 in Hl. lia.
  - cbn [difference]. rewrite IH, Z.lor_eq_0_iff, Z.lxor_eq_0_iff by lia. split.
    + intros [[-> ->%of_byte_inj] ->]. done.
    + by intros [-> [= -> ->]].
Qed.

Lemma constant_time_equal_spec s1 s2 : constant_time_equal s1 s2 = true <-> s1 = s2.
Proof.
  unfold constant_time_equal. destruct (Z.eqb_spec (ssize s1) (ssize s2)) as [E|E]; simpl.
  - rewrite Z.eqb_eq, difference_zero by done. naive_solver.
  - split; [done|]. by intros ->.
Qed.

(** A call between servers is let in exactly when a token is configured and
    the call carries that very token; the comparison that does not stop at the
    first difference decides equality. In particular a server without a
    configured token refuses every call. *)
Theorem authorize_exact metadata expected :
  authorize metadata expected = OK <->
  expected <> ""%string /\ find_metadata kMetadataKey metadata = Some expected.
Proof.
  unfold authorize. destruct expected as [|c expected]; simpl; [naive_solver|].
  destruct (find_metadata _ _) as [supplied|]; [|naive_solver].
  destruct (constant_time_equal supplied _) eqn:E.
  - apply constant_time_equal_spec in E as ->. naive_solver.
  - split; [done|]. intros [_ [= ->]].
    assert (constant_time_equal (String c expected) (String c expected) = true); [|congruence].
    by apply constant_time_equal_spec.
Qed.

End InternalRpc.
