(* ===== verification/Json.v ===== *)
(** The part of JsonCpp that the servers use, as an interface: [Json] has the
    operations and [JsonLaws] what its documentation says of them.  The
    library is not part of the repository, so the components are written and
    proved against the interface; [toy_json] at the end shows that the laws
    can hold. *)
From stdpp Require Import countable.
From S2P Require Import Prelude.

Class Json := {
  value : Type;
  null : value;
  of_int : Z -> value;
  of_string : string -> value;
  of_bool : bool -> value;
  empty_array : value;
  isNull : value -> bool;
  isObject : value -> bool;
  isInt : value -> bool;
  isString : value -> bool;
  isBool : value -> bool;
  isArray : value -> bool;
  asInt : value -> outcome Z;
  asString : value -> outcome string;
  asBool : value -> outcome bool;
  member : string -> value -> outcome value;        (** [v[k]]; throws when [v] is no object *)
  isMember : string -> value -> bool;
  set_member : string -> value -> value -> value;   (** [v[k] = x], on an object or null *)
  items : value -> list value;                      (** the elements of an array *)
  append : value -> value -> value;
  parse : string -> option value;
  toStyledString : value -> string;
  printable : value -> bool;      (** integers and ASCII text all through *)
}.

(** Every byte below 128. *)
Fixpoint ascii_text (s : string) : bool :=
  match s with
  | EmptyString => true
  | String c rest => (N_of_ascii c <? 128)%N && ascii_text rest
  end.

Section Ops.
Context `{Json}.

Definition container (v : value) : bool := isNull v || isObject v.

(** [a && b], the right side evaluated only when the left holds. *)
Definition and_then (a b : outcome bool) : outcome bool :=
  match a with Returns true => b | r => r end.
Definition or_else (a b : outcome bool) : outcome bool :=
  match a with Returns false => b | r => r end.

(** A test of a member. *)
Definition member_is (test : value -> bool) (k : string) (v : value) : outcome bool :=
  match member k v with Returns x => Returns (test x) | Throws => Throws end.

Definition member_int (k : string) (v : value) : outcome Z :=
  match member k v with Returns x => asInt x | Throws => Throws end.
Definition member_string (k : string) (v : value) : outcome string :=
  match member k v with Returns x => asString x | Throws => Throws end.

(** An object from its members, the first written first. *)
Definition object (l : list (string * value)) : value :=
  foldl (fun v p => set_member p.1 p.2 v) null l.

Definition lift {S A} (r : outcome A) : prog S A := fun s => (r, s).

End Ops.

Class JsonLaws (J : Json) : Prop := {
  null_isNull : isNull null = true;
  member_null k : member k null = Returns null;
  member_set k k' x v : container v = true ->
    member k' (set_member k x v) = if String.eqb k k' then Returns x else member k' v;
  set_isObject k x v : container v = true -> isObject (set_member k x v) = true;
  int_isInt z : is_int z = true -> isInt (of_int z) = true;
  int_asInt z : is_int z = true -> asInt (of_int z) = Returns z;
  string_isString s : isString (of_string s) = true;
  string_asString s : asString (of_string s) = Returns s;
  container_member k v : container v = true -> exists x, member k v = Returns x;
  isInt_asInt v : isInt v = true -> exists z, asInt v = Returns z /\ is_int z = true;
  isString_asString v : isString v = true -> exists s, asString v = Returns s;
  printable_null : printable null = true;
  printable_int z : printable (of_int z) = true;
  printable_string s : ascii_text s = true -> printable (of_string s) = true;
  printable_set k x v : container v = true -> ascii_text k = true ->
    printable x = true -> printable v = true -> printable (set_member k x v) = true;
  parse_print v : printable v = true -> parse (toStyledString v) = Some v;
}.

Section Members.
Context `{J : Json} `{!JsonLaws J}.

Lemma object_app l k x : object (l ++ [(k, x)]) = set_member k x (object l).
Proof. unfold object. by rewrite foldl_app. Qed.

Lemma object_container l : container (object l) = true.
Proof.
  induction l as [|[k x] l IH] using rev_ind.
  - unfold object, container. simpl. by rewrite null_isNull.
  - rewrite object_app. unfold container. rewrite set_isObject by done. by rewrite orb_true_r.
Qed.

Lemma member_int_set k k' z v : container v = true -> is_int z = true ->
  member_int k' (set_member k (of_int z) v) = if String.eqb k k' then Returns z else member_int k' v.
Proof.
  intros Hv Hz. unfold member_int. rewrite member_set by done.
  destruct (String.eqb k k'); [by apply int_asInt|done].
Qed.

Lemma member_int_other k k' x v : container v = true -> k <> k' ->
  member_int k' (set_member k x v) = member_int k' v.
Proof.
  intros Hv Hk. unfold member_int. rewrite member_set by done. by destruct (String.eqb_spec k k').
Qed.

End Members.

(** ** The laws can hold *)

Module ToyJson.

Abbreviation tree := (gen_tree (Z + (bool + string))).

Definition entry (k : string) (x : tree) : tree := GenNode 3 [GenLeaf (inr (inr k)); x].
Definition has_key (k : string) (e : tree) : bool :=
  match e with GenNode 3 [GenLeaf (inr (inr k')); _] => String.eqb k' k | _ => false end.
Definition content_of (e : tree) : tree :=
  match e with GenNode 3 [_; x] => x | _ => GenNode 0 [] end.

Definition print (v : tree) : string := to_string (Z.pos (encode v)).
Definition read (s : string) : option tree :=
  z ← decimal s; match z with Z.pos p => decode p | _ => None end.

Instance toy_json : Json := {|
  value := tree;
  null := GenNode 0 [];
  of_int z := GenLeaf (inl z);
  of_string s := GenLeaf (inr (inr s));
  of_bool b := GenLeaf (inr (inl b));
  empty_array := GenNode 1 [];
  isNull v := match v with GenNode 0 _ => true | _ => false end;
  isObject v := match v with GenNode 2 _ => true | _ => false end;
  isInt v := match v with GenLeaf (inl z) => is_int z | _ => false end;
  isString v := match v with GenLeaf (inr (inr _)) => true | _ => false end;
  isBool v := match v with GenLeaf (inr (inl _)) => true | _ => false end;
  isArray v := match v with GenNode 1 _ => true | _ => false end;
  asInt v := match v with GenLeaf (inl z) => if is_int z then Returns z else Throws | _ => Throws end;
  asString v := match v with GenLeaf (inr (inr s)) => Returns s | _ => Throws end;
  asBool v := match v with GenLeaf (inr (inl b)) => Returns b | _ => Throws end;
  member k v := match v with
                | GenNode 0 _ => Returns (GenNode 0 [])
                | GenNode 2 l => Returns (match List.find (has_key k) l with Some e => content_of e | None => GenNode 0 [] end)
                | _ => Throws
                end;
  isMember k v := match v with GenNode 2 l => existsb (has_key k) l | _ => false end;
  set_member k x v := match v with
                      | GenNode 2 l => GenNode 2 (entry k x :: List.filter (fun e => negb (has_key k e)) l)
                      | _ => GenNode 2 [entry k x]
                      end;
  items v := match v with GenNode 1 l => l | _ => [] end;
  append v x := match v with GenNode 1 l => GenNode 1 (l ++ [x]) | _ => GenNode 1 [x] end;
  parse := read;
  toStyledString := print;
  printable _ := true;
|}.

Lemma find_other k k' (l : list tree) : k <> k' ->
  List.find (has_key k') (List.filter (fun e => negb (has_key k e)) l) = List.find (has_key k') l.
Proof.
  intros Hne. induction l as [|e l IH]; [done|]. simpl. destruct (has_key k e) eqn:Ek; simpl.
  - rewrite IH. destruct (has_key k' e) eqn:Ek'; [|done]. exfalso. apply Hne.
    destruct e as [|[|[|[|[|]]]] [|[[|[|]]|] [|? [|]]]]; try done. simpl in *.
    apply String.eqb_eq in Ek, Ek'. congruence.
  - by destruct (has_key k' e).
Qed.

#[export] Instance toy_json_laws : JsonLaws toy_json.
Proof.
  split; try done.
  - intros k k' x v Hv. unfold container in Hv. simpl in *.
    destruct v as [|[|[|[|]]] l]; try done; simpl; (destruct (String.eqb_spec k k') as [->|Hne]; [done|]).
    + done.
    + by rewrite find_other.
  - intros k x v Hv. unfold container in Hv. simpl in *. by destruct v as [|[|[|[|]]] l].
  - intros z Hz. simpl. by rewrite Hz.
  - intros k v Hv. unfold container in Hv. simpl in *. destruct v as [|[|[|[|]]] l]; try done; eauto.
  - intros v Hv. simpl in *. destruct v as [[z|]|]; try done. rewrite Hv. eauto.
  - intros v Hv. simpl in *. destruct v as [[|[|]]|]; try done. eauto.
  - intros v _. simpl. unfold read, print. rewrite decimal_to_string. simpl. apply decode_encode.
Qed.

End ToyJson.
