(* ===== verification/Status.v ===== *)
(** The status server: the configured chat servers, the choice of one and the
    login ticket ([src/servers/status/rpc/StatusServiceImpl.cpp], with the
    lookups of [src/servers/status/config/ConfigMgr.h]). *)
From S2P Require Import Prelude Mysql Redis Routing Session Server Rpc Json.
Import ChatServerSelector.

(** ** Configuration *)

(** [ConfigMgr]: a missing section or key reads as the empty string. *)
Abbreviation Config := (gmap string (gmap string string)).
Definition cfg_get (cfg : Config) (section key : string) : string :=
  default "" (m ← cfg !! section; m !! key).

Record ChatServer := mkChatServer {
  host : string;
  port : string;
  name : string;
  transport : string;
  tls_server_name : string;
  con_count : Z;
}.

(** [std::getline(ss, word, ',')] until the end of the input, with the word
    read so far. *)
Fixpoint getlines (word s : string) : list string :=
  match s with
  | EmptyString => if sempty word then [] else [word]
  | String c rest =>
      if Ascii.eqb c "," then word :: getlines "" rest else getlines (word ++ String c "") rest
  end.

Definition server_words (server_list : string) : list string :=
  filter (fun w => sempty w = false) (trim <$> getlines "" server_list).

Definition or_default (s d : string) : string := if sempty s then d else s.

(** One configured server; [Throws] is the exception of the constructor. *)
Definition configure (cfg : Config) (word : string) : outcome (option ChatServer) :=
  if sempty (cfg_get cfg word "Name") then Returns None
  else
    let port := or_default (cfg_get cfg word "PublicPort") (cfg_get cfg word "Port") in
    let host := or_default (cfg_get cfg word "PublicHost") (cfg_get cfg word "Host") in
    let transport := lower (or_default (cfg_get cfg word "Transport") "insecure") in
    if negb (String.eqb transport "tls") && negb (String.eqb transport "insecure") then Throws
    else
      let tls := cfg_get cfg word "TLSName" in
      let tls := if String.eqb transport "tls" && sempty tls then host else tls in
      if sempty host || sempty port then Throws
      else Returns (Some (mkChatServer host port (cfg_get cfg word "Name") transport tls 0)).

Fixpoint configure_all (cfg : Config) (words : list string) (servers : gmap string ChatServer)
    : outcome (gmap string ChatServer) :=
  match words with
  | [] => Returns servers
  | word :: words =>
      match configure cfg word with
      | Throws => Throws
      | Returns None => configure_all cfg words servers
      | Returns (Some server) => configure_all cfg words (<[name server := server]> servers)
      end
  end.

(** The constructor. *)
Definition StatusServiceImpl (cfg : Config) : outcome (gmap string ChatServer) :=
  match configure_all cfg (server_words (cfg_get cfg "chatservers" "Name")) ∅ with
  | Throws => Throws
  | Returns servers => if bool_decide (servers = ∅) then Throws else Returns servers
  end.

(** ** Routing *)

Section Routing.
Context `{J : Json}.
(** The order in which the unordered map is iterated. *)
Variable iteration : gmap string ChatServer -> list (string * ChatServer).

Record Status := mkStatus {
  servers : gmap string ChatServer;
  cursor : nat;
  store_ : redis;
}.

(** The first loop of [getChatServer]. *)
Fixpoint healthy_servers (l : list (string * ChatServer)) (r : redis) : list ServerLoad * redis :=
  match l with
  | [] => ([], r)
  | (key, server) :: l =>
      let '(count_text, r) := RedisMgr.Get (CHAT_HEALTH_PREFIX ++ key) r in
      let '(loads, r) := healthy_servers l r in
      (match count_text ≫= from_chars with
       | Some connection_count =>
           if connection_count <? 0 then loads
           else mkServerLoad (name server) connection_count :: loads
       | None => loads
       end, r)
  end.

Definition set_count (n : Z) (s : ChatServer) : ChatServer :=
  mkChatServer (host s) (port s) (name s) (transport s) (tls_server_name s) n.

(** [at] throws when the name is unknown. *)
Definition getChatServer : prog Status (option ChatServer) := fun s =>
  if bool_decide (servers s = ∅) then (Returns None, s)
  else
    let '(loads, r) := healthy_servers (iteration (servers s)) (store_ s) in
    let s := mkStatus (servers s) (cursor s) r in
    match selectLeastLoaded loads (cursor s) with
    | None => (Returns None, s)
    | Some selected_name =>
        let s := mkStatus (servers s) (S (cursor s)) r in
        match servers s !! selected_name,
              List.find (fun c => String.eqb (ChatServerSelector.name c) selected_name) loads with
        | Some selected, Some load => (Returns (Some (set_count (connection_count load) selected)), s)
        | _, _ => (Throws, s)
        end
    end.

Definition ticket_text (uid : Z) (server_name : string) : string :=
  toStyledString (object [("uid"%string, of_int uid); ("server"%string, of_string server_name)]).

Definition insertToken (uid : Z) (token server_name : string) : prog Status bool := fun s =>
  let '(ok, r) := RedisMgr.SetEx (Tickets.ticket_key token) (ticket_text uid server_name)
                    Tickets.CHAT_TICKET_TTL_SECONDS (store_ s) in
  (Returns ok, mkStatus (servers s) (cursor s) r).

(** The answer of [GetChatServer]; [token] is the string drawn by
    [generate_unique_string]. *)
Record Reply := mkReply {
  r_error : Z;
  r_host : string;
  r_port : string;
  r_transport : string;
  r_tls_server_name : string;
  r_token : string;
}.

Definition RPCFailed : Z := 1002.

Definition GetChatServer (metadata : list (string * string)) (gate_token : string) (uid : Z) (token : string)
    : prog Status (InternalRpc.StatusCode * Reply) :=
  let empty := mkReply 0 "" "" "" "" "" in
  match InternalRpc.authorize metadata gate_token with
  | InternalRpc.OK =>
      if uid <=? 0 then mret (InternalRpc.INVALID_ARGUMENT, empty)
      else
        server ← getChatServer;
        match server with
        | None => mret (InternalRpc.OK, mkReply RPCFailed "" "" "" "" "")
        | Some server =>
            inserted ← insertToken uid token (name server);
            mret (InternalRpc.OK,
                  mkReply (if inserted : bool then 0 else RPCFailed) (host server) (port server)
                    (transport server) (tls_server_name server) (if inserted : bool then token else ""))
        end
  | status => mret (status, empty)
  end.

End Routing.

(** ** A ticket that was handed out *)

Section Ticket.
Context `{J : Json}.
Variable iteration : gmap string ChatServer -> list (string * ChatServer).

(** The last command of the store set the ticket, for sixty seconds. *)
Definition ticket_stored (uid : Z) (server_name token : string) (r : redis) : Prop :=
  keys r !! Tickets.ticket_key token =
  Some (mkEntry (VString (ticket_text uid server_name)) (Some (rclock r (pred (rcalls r)) + 60000))).

Lemma insertToken_stored uid token server_name s s' :
  insertToken uid token server_name s = (Returns true, s') -> ticket_stored uid server_name token (store_ s').
Proof.
  unfold insertToken, RedisMgr.SetEx, command, SET.
  destruct (roracle (store_ s) (rcalls (store_ s))); simpl; [|done|by destruct (lookup_key _ _ _)].
  destruct (lookup_key _ _ _); simpl; [done|]. intros [= <-]. unfold ticket_stored. simpl.
  by rewrite lookup_insert_eq.
Qed.

Lemma getChatServer_choice s : let '(r, s') := getChatServer iteration s in
  servers s' = servers s /\ forall server, r = Returns (Some server) ->
  exists key base, servers s !! key = Some base /\ server = set_count (con_count server) base.
Proof.
  unfold getChatServer. case_bool_decide; [done|]. destruct (healthy_servers _ _) as [loads r].
  cbn [servers cursor]. destruct (selectLeastLoaded loads (cursor s)) as [selected|]; [|done].
  destruct (servers s !! selected) as [base|] eqn:E; [|done]. destruct (List.find _ loads); [|done].
  split; [done|]. intros server [= <-]. by exists selected, base.
Qed.

(** An answer without error names a configured server, and its token is
    stored for the user on that server. *)
Lemma GetChatServer_ticket metadata gate_token uid token s reply s' :
  GetChatServer iteration metadata gate_token uid token s = (Returns (InternalRpc.OK, reply), s') ->
  r_error reply = 0 ->
  exists key server, servers s !! key = Some server /\
    reply = mkReply 0 (host server) (port server) (transport server) (tls_server_name server) token /\
    ticket_stored uid (name server) token (store_ s').
Proof.
  unfold GetChatServer. destruct (InternalRpc.authorize _ _); [|done..].
  destruct (uid <=? 0); [done|]. unfold mbind, prog_bind.
  pose proof (getChatServer_choice s) as Hc. destruct (getChatServer iteration s) as [[[server|]|] s1];
    [|by intros [= <- <-]|done].
  destruct Hc as [Hs Hc]. destruct (Hc server eq_refl) as (key & base & Hk & ->).
  destruct (insertToken uid token _ s1) as [[[]|] s2] eqn:Ei; [|by intros [= <- <-]|done].
  intros [= <- <-] _. exists key, base. split_and!; [done|done|]. by eapply insertToken_stored.
Qed.

End Ticket.

(** ** Configured servers *)

Definition server_ok (key : string) (s : ChatServer) : Prop :=
  name s = key /\ sempty (host s) = false /\ sempty (port s) = false /\
  (transport s = "insecure"%string \/ transport s = "tls"%string /\ sempty (tls_server_name s) = false).

Lemma configure_ok cfg word s : configure cfg word = Returns (Some s) -> server_ok (name s) s.
Proof.
  unfold configure. destruct (sempty (cfg_get cfg word "Name")); [done|].
  destruct (negb _ && _) eqn:Ht; [done|]. destruct (sempty _ || _) eqn:He; [done|].
  intros [= <-]. bool_hyps. unfold server_ok. simpl. split_and!; try done.
  destruct (String.eqb_spec (lower (or_default (cfg_get cfg word "Transport") "insecure")) "tls") as [E|E].
  - right. split; [done|]. simpl. by destruct (sempty (cfg_get cfg word "TLSName")) eqn:En.
  - left. destruct Ht as [?|?]; bool_hyps; [done|]. by apply String.eqb_eq.
Qed.

Lemma configure_all_ok cfg words : forall servers servers',
  map_Forall server_ok servers -> configure_all cfg words servers = Returns servers' ->
  map_Forall server_ok servers'.
Proof.
  induction words as [|w words IH]; intros servers servers' Hok; simpl; [by intros [= <-]|].
  destruct (configure cfg w) as [[s|]|] eqn:E; [|by apply IH|done].
  apply IH, map_Forall_insert_2; [by eapply configure_ok|done].
Qed.

(** A status server that starts has at least one chat server, and each one
    is listed under its name with a host, a port and a transport that is
    [insecure], or [tls] with a name to verify. *)
Theorem configured_servers cfg l :
  StatusServiceImpl cfg = Returns l -> l <> ∅ /\ map_Forall server_ok l.
Proof.
  unfold StatusServiceImpl. destruct (configure_all _ _ _) eqn:E; [|done].
  case_bool_decide; [done|]. intros [= <-]. split; [done|].
  eapply configure_all_ok; [|done]. apply map_Forall_empty.
Qed.

Definition example_config : Config :=
  {[ "chatservers" := {["Name" := "c1, c2"]};
     "c1" := {["Name" := "chat1"; "Host" := "10.0.0.1"; "Port" := "8090"; "Transport" := "TLS"]};
     "c2" := {["Name" := "chat2"; "Host" := "10.0.0.2"; "Port" := "8091"]} ]}%string.

Lemma configured_servers_witness : exists l : gmap string ChatServer, l <> ∅ /\ map_Forall server_ok l.
Proof.
  destruct (StatusServiceImpl example_config) as [l|] eqn:E; [|by vm_compute in E].
  exists l. exact (configured_servers example_config l E).
Defined.

(** ** Heartbeats *)

(** The connection count a live heartbeat of the server reports. *)
Definition heartbeat (key : string) (now : Z) (m : gmap string entry) : option Z :=
  match lookup_key now (c_str (CHAT_HEALTH_PREFIX ++ key)) m with
  | Some (mkEntry (VString v) _) =>
      match from_chars (c_str v) with
      | Some n => if n <? 0 then None else Some n
      | None => None
      end
  | _ => None
  end.

(** One read of the loop. *)
Lemma get_heartbeat key r :
  let '(text, r') := RedisMgr.Get (CHAT_HEALTH_PREFIX ++ key) r in
  keys r' = keys r /\ rcalls r' = S (rcalls r) /\ roracle r' = roracle r /\ rclock r' = rclock r /\
  match text ≫= from_chars with
  | Some n => if n <? 0 then True else heartbeat key (rclock r (rcalls r)) (keys r) = Some n
  | None => True
  end /\
  (roracle r (rcalls r) = Fine -> forall n, heartbeat key (rclock r (rcalls r)) (keys r) = Some n ->
     text ≫= from_chars = Some n /\ 0 <= n).
Proof.
  unfold RedisMgr.Get, command, GET, heartbeat.
  destruct (roracle r (rcalls r)) eqn:Eo; simpl;
    (destruct (lookup_key _ _ _) as [[[v| |] t]|] eqn:E; simpl; split_and!; try done).
  - destruct (from_chars (c_str v)) as [n|]; simpl; [|done]. by destruct (n <? 0).
  - intros _ n. destruct (from_chars (c_str v)) as [n'|]; simpl; [|done].
    destruct (n' <? 0) eqn:En; [done|]. intros [= ->]. bool_hyps. by split.
Qed.

(** No server is counted twice. *)
Lemma healthy_servers_names l r :
  (ChatServerSelector.name <$> (healthy_servers l r).1) `sublist_of` ((fun p => name p.2) <$> l).
Proof.
  revert r. induction l as [|[k0 s0] l IH]; intros r; simpl; [done|].
  destruct (RedisMgr.Get _ r) as [text r1]. specialize (IH r1).
  destruct (healthy_servers l r1) as [loads r2]. simpl in *.
  destruct (text ≫= from_chars) as [n|]; [|by apply sublist_cons].
  destruct (n <? 0); [by apply sublist_cons|by apply sublist_skip].
Qed.

(** The heartbeats found by the loop are live, and when Redis answers, all
    that stay live are found. *)
Lemma healthy_servers_spec l : forall r,
  let '(loads, r') := healthy_servers l r in
  keys r' = keys r /\
  Forall (fun load => is_int (connection_count load) = true /\ exists key server n, (key, server) ∈ l /\
            ChatServerSelector.name load = name server /\
            heartbeat key (rclock r n) (keys r) = Some (connection_count load)) loads /\
  ((forall n, (rcalls r <= n)%nat -> roracle r n = Fine) ->
   forall key server c, (key, server) ∈ l ->
     (forall n, (rcalls r <= n)%nat -> heartbeat key (rclock r n) (keys r) = Some c) ->
     mkServerLoad (name server) c ∈ loads).
Proof.
  induction l as [|[k0 s0] l IH]; intros r; simpl; [split_and!; [done|constructor|set_solver]|].
  pose proof (get_heartbeat k0 r) as Hg. destruct (RedisMgr.Get _ r) as [text r1].
  destruct Hg as (Ek & Ec & Eo & Et & Hsound & Hfound). specialize (IH r1).
  destruct (healthy_servers l r1) as [loads r2]. destruct IH as (I1 & I2 & I3).
  rewrite Ek, Et in I2. rewrite Ek, Eo, Et, Ec in I3. split_and!; [congruence| |].
  - assert (Forall (fun load => is_int (connection_count load) = true /\
      exists key server n, (key, server) ∈ (k0, s0) :: l /\
            ChatServerSelector.name load = name server /\
            heartbeat key (rclock r n) (keys r) = Some (connection_count load)) loads) as I2'.
    { eapply Forall_impl; [done|]. intros load (? & key & server & n & ? & ?). split; [done|].
      exists key, server, n. set_solver. }
    destruct (text ≫= from_chars) as [n|] eqn:En; [|done]. destruct (n <? 0); [done|].
    constructor; [|done]. simpl. split; [|exists k0, s0, (rcalls r); set_solver].
    destruct text as [v|]; [|done]. simpl in En. unfold from_chars in En.
    destruct (decimal v) as [z|]; simpl in En; [|done]. by destruct (is_int z) eqn:Ei; simplify_eq.
  - intros Hfine key server c [[= -> ->]|Hin]%elem_of_cons Hlive.
    + destruct (Hfound (Hfine (rcalls r) ltac:(lia)) c (Hlive (rcalls r) ltac:(lia))) as [-> Hc].
      rewrite (proj2 (Z.ltb_ge c 0) Hc). set_solver.
    + assert (mkServerLoad (name server) c ∈ loads) as Hl.
      { apply (I3 ltac:(intros; apply Hfine; lia) key); [done|]. intros; apply Hlive; lia. }
      destruct (text ≫= from_chars) as [n|]; [|done]. destruct (n <? 0); [done|set_solver].
Qed.

Section Route.
Variable iteration : gmap string ChatServer -> list (string * ChatServer).
Hypothesis iteration_elements : forall m, iteration m ≡ₚ map_to_list m.

Lemma iteration_names m : map_Forall (fun key server => name server = key) m ->
  NoDup ((fun p => name p.2) <$> iteration m).
Proof.
  intros Hn. rewrite iteration_elements.
  replace ((fun p => name p.2) <$> map_to_list m) with ((map_to_list m).*1); [apply NoDup_fst_map_to_list|].
  apply list_fmap_ext. intros i [k server] Hi%list_elem_of_lookup_2%elem_of_map_to_list. symmetry. by apply Hn.
Qed.

(** Routing a user: the status server never fails on a chosen name; the
    server it chooses is a configured one, with a heartbeat that was live
    when it was read and reported the returned count; and while Redis answers,
    if any configured server keeps a live heartbeat with [c] connections, a
    server is found and has at most [c]. The store is only read. *)
Theorem routing_sound s :
  map_Forall (fun key server => name server = key) (servers s) ->
  let '(r, s') := getChatServer iteration s in
  keys (store_ s') = keys (store_ s) /\ servers s' = servers s /\
  exists answer, r = Returns answer /\
  (forall server, answer = Some server ->
     (exists base, servers s !! name server = Some base /\ server = set_count (con_count server) base) /\
     exists n, heartbeat (name server) (rclock (store_ s) n) (keys (store_ s)) = Some (con_count server)) /\
  ((forall n, (rcalls (store_ s) <= n)%nat -> roracle (store_ s) n = Fine) ->
   forall key c, is_Some (servers s !! key) ->
     (forall n, (rcalls (store_ s) <= n)%nat ->
        heartbeat key (rclock (store_ s) n) (keys (store_ s)) = Some c) ->
     exists server, answer = Some server /\ con_count server <= c).
Proof.
  intros Hnames. unfold getChatServer. case_bool_decide as Hempty.
  { split_and!; [done..|]. exists None. split_and!; [done..|]. rewrite Hempty. intros _ key c [? ?]. done. }
  pose proof (healthy_servers_spec (iteration (servers s)) (store_ s)) as Hh.
  destruct (healthy_servers _ _) as [loads r] eqn:El. destruct Hh as (Hk & Hsound & Hcomplete). cbn [servers cursor].
  assert (forall key server, (key, server) ∈ iteration (servers s) -> servers s !! key = Some server) as Hit.
  { intros key server Hin. rewrite iteration_elements in Hin. by apply elem_of_map_to_list. }
  destruct (decide (loads = [])) as [->|Hne].
  { simpl. split_and!; [done..|]. exists None. split_and!; [done..|]. intros Hfine key c [server Hs] Hlive.
    assert (mkServerLoad (name server) c ∈ []) as Habs; [|by apply elem_of_nil in Habs].
    apply (Hcomplete Hfine key); [|done]. rewrite iteration_elements. by apply elem_of_map_to_list. }
  destruct (select_spec loads (cursor s)) as (load & [Hin Hmin] & ->); [|done|].
  { eapply Forall_impl; [done|]. by intros ? []. }
  rewrite Forall_forall in Hsound. destruct (Hsound load Hin) as (_ & key & server & n & Hks & Hname & Hbeat).
  apply Hit in Hks as Hlook. pose proof (Hnames _ _ Hlook) as Hkey. simpl in Hkey. rewrite Hname.
  rewrite <- Hkey in Hlook. rewrite Hlook.
  assert (NoDup (ChatServerSelector.name <$> loads)) as Hnd.
  { pose proof (healthy_servers_names (iteration (servers s)) (store_ s)) as Hsub. rewrite El in Hsub.
    eapply sublist_NoDup; [|exact Hsub]. by apply iteration_names. }
  assert (List.find (fun c => String.eqb (ChatServerSelector.name c) (name server)) loads = Some load) as ->.
  { destruct (List.find _ loads) as [load'|] eqn:Ef.
    - apply find_some in Ef as [Hin'%list_elem_of_In E%String.eqb_eq]. f_equal.
      apply (NoDup_fmap_eq ChatServerSelector.name loads); try done. congruence.
    - apply list_elem_of_In in Hin as Hin'. pose proof (find_none _ _ Ef _ Hin') as E. simpl in E.
      by rewrite Hname, String.eqb_refl in E. }
  split_and!; [done..|]. exists (Some (set_count (connection_count load) server)). split_and!; [done|..].
  - intros srv [= <-]. simpl. rewrite Hkey. split; [|by exists n]. exists server. by rewrite <- Hkey.
  - intros Hfine key' c [server' Hs'] Hlive. eexists. split; [done|]. simpl.
    apply (Hmin (mkServerLoad (name server') c)), (Hcomplete Hfine key'); [|done].
    rewrite iteration_elements. by apply elem_of_map_to_list.
Qed.

End Route.

Lemma routing_sound_witness :
  let s := mkStatus {["chat1"%string := mkChatServer "h" "p" "chat1" "insecure" "" 0]} 0
             (mkRedis {["chat_health_chat1"%string := mkEntry (VString "12") None]} 0 (fun _ => Fine) (fun _ => 0)) in
  exists server, (getChatServer map_to_list s).1 = Returns (Some server) /\ con_count server <= 12.
Proof.
  intros s. assert (map_Forall (fun key server => name server = key) (servers s)) as Hn.
  { intros k server. simpl. by intros [<- <-]%lookup_singleton_Some. }
  pose proof (routing_sound map_to_list (fun m => reflexivity _) s Hn) as H.
  destruct (getChatServer map_to_list s) as [r s']. destruct H as (_ & _ & answer & -> & _ & H).
  destruct (H ltac:(done) "chat1"%string 12) as (server & -> & Hc).
  - simpl. rewrite lookup_singleton_eq. by eexists.
  - intros n _. by vm_compute.
  - by exists server.
Defined.

(** ** From one server's heartbeat to the other's choice *)

Lemma c_str_digits d : c_str (DecimalString.NilEmpty.string_of_uint d) = DecimalString.NilEmpty.string_of_uint d.
Proof. induction d; simpl; congruence. Qed.

Lemma c_str_to_string z : c_str (to_string z) = to_string z.
Proof.
  unfold to_string. destruct (Z.to_int z) as [d|d]; destruct d; simpl; try done; by rewrite c_str_digits.
Qed.

(** A heartbeat that a chat server has published is seen by the status
    server for exactly fifteen seconds and reports the number of listed
    connections. *)
Theorem heartbeat_published server_name w r r' :
  Server.reachable w -> c_str (CHAT_HEALTH_PREFIX ++ server_name) = (CHAT_HEALTH_PREFIX ++ server_name)%string ->
  PublishHealth server_name w r = (true, r') ->
  forall now, heartbeat server_name now (keys r') =
    if now <? rclock r (rcalls r) + 15000 then Some (Z.of_nat (size (sessions w))) else None.
Proof.
  intros [[Hsize _ _ _ _ _] _]%server_reachable_inv. unfold PublishHealth, heartbeat.
  generalize (CHAT_HEALTH_PREFIX ++ server_name)%string. intros key Hkey.
  unfold RedisMgr.SetWithTtl, command, SET. destruct (roracle r (rcalls r)); simpl; [|done|done].
  intros [= <-] now. unfold lookup_key. simpl. rewrite Hkey, lookup_insert_eq. simpl. unfold live. simpl.
  replace (1000 * CHAT_HEARTBEAT_TTL_SECONDS) with 15000 by done.
  destruct (now <? rclock r (rcalls r) + 15000); simpl; [|done].
  rewrite c_str_to_string, from_chars_to_string by (unfold is_int, MAX_CHAT_SESSIONS in *; bool_goal; lia).
  by rewrite (proj2 (Z.ltb_ge (Z.of_nat (size (sessions w))) 0)) by lia.
Qed.

Lemma heartbeat_published_witness : exists r',
  PublishHealth "chat1" Server.create DistLock.idle_redis = (true, r') /\
  heartbeat "chat1" 14999 (keys r') = Some 0 /\ heartbeat "chat1" 15000 (keys r') = None.
Proof.
  destruct (PublishHealth "chat1" Server.create DistLock.idle_redis) as [ok r'] eqn:E.
  assert (ok = true) as -> by (by vm_compute in E; injection E).
  exists r'. split; [done|].
  pose proof (heartbeat_published "chat1" Server.create DistLock.idle_redis r' (rtc_refl _ _) eq_refl E) as H.
  split; by rewrite H.
Defined.
