(* ===== verification/Gate.v ===== *)
(** The gate server: the account handlers of
    [src/servers/gate/service/LogicSystem.cpp], the request dispatch of
    [src/servers/gate/network/HttpConnection.cpp] and the clients of the mail
    and status services ([gate/rpc/VerifyGrpcClient.cpp],
    [StatusGrpcClient.cpp]), put together with the models of the database,
    the codes, the mail service and the status server. *)
From S2P Require Import Prelude Mysql Schema Password FriendDao UserDao Redis Varify Url NewPassword.
From S2P Require Import Routing Session Server Rpc Json Status.
Import PasswordHasher VerificationCode.

(** ** State *)

(** What the gate reaches: the account database, the Redis it shares with the
    mail and status services, the mails that left, the status server's
    routing table and cursor. *)
Record Gate := mkGate {
  g_mysql : db Tables;
  g_store : redis;
  g_sent : list (string * string);
  g_servers : gmap string ChatServer;
  g_cursor : nat;
}.

Definition set_g_mysql (d : db Tables) (s : Gate) : Gate :=
  mkGate d (g_store s) (g_sent s) (g_servers s) (g_cursor s).
Definition set_g_store (r : redis) (s : Gate) : Gate :=
  mkGate (g_mysql s) r (g_sent s) (g_servers s) (g_cursor s).
Definition g_mail (s : Gate) : Mail := mkMail (g_store s) (g_sent s).
Definition set_g_mail (m : Mail) (s : Gate) : Gate :=
  mkGate (g_mysql s) (m_redis m) (sent m) (g_servers s) (g_cursor s).
Definition g_status (s : Gate) : Status := mkStatus (g_servers s) (g_cursor s) (g_store s).
Definition set_g_status (t : Status) (s : Gate) : Gate :=
  mkGate (g_mysql s) (store_ t) (g_sent s) (servers t) (cursor t).

(** What is drawn and what the network does during one request. *)
Record Draws := mkDraws {
  salt : Z;
  code_number : Z;
  smtp : fault;
  rpc : fault;
  token : string;
  request_id : string;
}.

Definition JSON_ERROR : Z := 1001.
Definition RPC_ERROR : Z := 1002.
Definition VarifyExpired : Z := 1003.
Definition VarifyCodeErr : Z := 1004.
Definition UserExist : Z := 1005.
Definition EmailNotMatch : Z := 1007.
Definition PasswdUpFailed : Z := 1008.
Definition PasswdInvalid : Z := 1009.

Definition normalizeEmail (email : string) : string := lower (trim_right (trim_left email)).

(** An answer: the error code and the fields written after it. *)
Abbreviation answer := (Z * list (string * value))%type.

Section Handlers.
Context `{J : Json} `{Collation, Sodium}.

(** The configuration: the gate's tokens for the two services, the environment
    and mail budget of the mail service, the token the status server expects,
    the iteration order of its table, and [CHAT_RESOURCE_BASE_URL]. *)
Record Config := mkConfig {
  varify_token : string;
  status_token : string;
  varify_env : gmap string string;
  global_limit : Z;
  gate_token : string;
  iteration : gmap string ChatServer -> list (string * ChatServer);
  resource_url : option string;
}.
Context (cfg : Config).

(** ** Remote calls *)

(** A call that arrives or not, and whose answer arrives or not; [None] is a
    status other than OK. *)
Definition remote {A} (fate : fault) (m : prog Gate (option A)) : prog Gate (option A) :=
  match fate with
  | Fine => m
  | FailsBefore => mret None
  | FailsAfter => m ;; mret None
  end.

(** [VerifyGrpcClient::GetVarifyCode]: the error of the answer. *)
Definition GetVarifyCode (d : Draws) (email : string) : prog Gate Z :=
  metadata ← lift (InternalRpc.authenticate (varify_token cfg) []);
  let metadata := InternalRpc.propagate_request_id (request_id d) metadata in
  response ← remote (rpc d)
    (zoom g_mail set_g_mail
       (total (fun s =>
          let '(r, s) := Varify.GetVarifyCode (varify_env cfg) (global_limit cfg) metadata email
                           (code_number d) (smtp d) s in
          (match r with Unauthenticated => None | Answer _ error => Some error end, s))));
  mret (default RPC_ERROR response).

(** [StatusGrpcClient::GetChatServer] *)
Definition GetChatServer (d : Draws) (uid : Z) : prog Gate Status.Reply :=
  metadata ← lift (InternalRpc.authenticate (status_token cfg) []);
  let metadata := InternalRpc.propagate_request_id (request_id d) metadata in
  reply ← remote (rpc d)
    (zoom g_status set_g_status
       (answer ← Status.GetChatServer (iteration cfg) metadata (gate_token cfg) uid (token d);
        mret (match answer with (InternalRpc.OK, reply) => Some reply | _ => None end)));
  mret (match reply with
        | Some reply => reply
        | None => Status.mkReply RPC_ERROR "" "" "" "" ""
        end).

(** ** Account handlers *)

(** [hasStringFields] *)
Fixpoint all_strings (object : value) (field_names : list string) : outcome bool :=
  match field_names with
  | [] => Returns true
  | k :: rest => and_then (member_is isString k object) (all_strings object rest)
  end.
Definition hasStringFields (object : value) (field_names : list string) : outcome bool :=
  if negb (isObject object) then Returns false else all_strings object field_names.

(** A parsed body with the wanted fields; [None] is answered [JSON_ERROR]. *)
Definition request (body : string) (field_names : list string) : prog Gate (option value) :=
  match parse body with
  | None => mret None
  | Some src_root =>
      ok ← lift (hasStringFields src_root field_names);
      mret (if ok : bool then Some src_root else None)
  end.

(** [root.toStyledString()] *)
Definition print_answer (a : answer) : string :=
  toStyledString (object (("error"%string, of_int a.1) :: a.2)).

(** [consumeVerificationCode]: [None] on success, else the error. *)
Definition consumeVerificationCode (email submitted_code : string) : prog Gate (option Z) :=
  result ← zoom g_store set_g_store (total (ConsumeVerificationCode email submitted_code 5));
  mret (match result with
        | Success => None
        | Expired => Some VarifyExpired
        | _ => Some VarifyCodeErr
        end).

Definition post_email (d : Draws) (body : string) : prog Gate answer :=
  src ← request body ["email"%string];
  match src with
  | None => mret (JSON_ERROR, [])
  | Some src_root =>
      raw ← lift (member_string "email" src_root);
      let email := normalizeEmail raw in
      error ← GetVarifyCode d email;
      mret (error, [("email"%string, of_string email)])
  end.

Definition user_register (d : Draws) (body : string) : prog Gate answer :=
  src ← request body ["email"; "user"; "passwd"; "icon"; "varifycode"]%string;
  match src with
  | None => mret (JSON_ERROR, [])
  | Some src_root =>
      raw ← lift (member_string "email" src_root);
      let email := normalizeEmail raw in
      name ← lift (member_string "user" src_root);
      pwd ← lift (member_string "passwd" src_root);
      icon ← lift (member_string "icon" src_root);
      if negb (validNewPassword pwd) then mret (PasswdInvalid, [])
      else
        code ← lift (member_string "varifycode" src_root);
        refused ← consumeVerificationCode email code;
        match refused with
        | Some error => mret (error, [])
        | None =>
            uid ← zoom g_mysql set_g_mysql (GateUsers.RegUserTransaction (salt d) name email pwd icon);
            if (uid =? 0) || (uid =? -1) then mret (UserExist, [])
            else mret (0, [("uid", of_int uid); ("email", of_string email); ("user", of_string name)]%string)
        end
  end.

Definition reset_pwd (d : Draws) (body : string) : prog Gate answer :=
  src ← request body ["email"; "user"; "passwd"; "varifycode"]%string;
  match src with
  | None => mret (JSON_ERROR, [])
  | Some src_root =>
      raw ← lift (member_string "email" src_root);
      let email := normalizeEmail raw in
      name ← lift (member_string "user" src_root);
      pwd ← lift (member_string "passwd" src_root);
      if negb (validNewPassword pwd) then mret (PasswdInvalid, [])
      else
        code ← lift (member_string "varifycode" src_root);
        refused ← consumeVerificationCode email code;
        match refused with
        | Some error => mret (error, [])
        | None =>
            email_valid ← zoom g_mysql set_g_mysql (GateUsers.CheckEmail name email);
            if negb email_valid then mret (EmailNotMatch, [])
            else
              b_up ← zoom g_mysql set_g_mysql (GateUsers.UpdatePwd (salt d) name pwd);
              if negb b_up then mret (PasswdUpFailed, [])
              else mret (0, [("email", of_string email); ("user", of_string name)]%string)
        end
  end.

Definition user_login (d : Draws) (body : string) : prog Gate answer :=
  src ← request body ["email"; "passwd"]%string;
  match src with
  | None => mret (JSON_ERROR, [])
  | Some src_root =>
      raw ← lift (member_string "email" src_root);
      let email := normalizeEmail raw in
      pwd ← lift (member_string "passwd" src_root);
      result ← zoom g_mysql set_g_mysql (GateUsers.CheckPwd (salt d) email pwd);
      match result with
      | (None, unavailable) =>
          mret (if unavailable : bool then RPC_ERROR else PasswdInvalid,
                [("retryable"%string, of_bool unavailable)])
      | (Some userInfo, _) =>
          reply ← GetChatServer d (uid userInfo);
          if negb (r_error reply =? 0) then mret (RPC_ERROR, [])
          else
            mret (0, [("email", of_string email); ("user", of_string (FriendDao.name userInfo));
                      ("uid", of_int (uid userInfo)); ("token", of_string (r_token reply));
                      ("resource_base_url",
                         of_string (default "https://localhost/api/resources/v1" (resource_url cfg)));
                      ("resource_protocol_version", of_int 1);
                      ("host", of_string (r_host reply)); ("port", of_string (r_port reply));
                      ("transport", of_string (r_transport reply));
                      ("tls_server_name", of_string (r_tls_server_name reply))]%string)
      end
  end.

(** ** Dispatch *)

(** The table that the constructor fills with [RegPost], and [HandlePost];
    [None] is the answer [false]. *)
Definition post_handlers (path : string) : option (Draws -> string -> prog Gate answer) :=
  if String.eqb path "/post_email" then Some post_email
  else if String.eqb path "/user_register" then Some user_register
  else if String.eqb path "/reset_pwd" then Some reset_pwd
  else if String.eqb path "/user_login" then Some user_login
  else None.

Definition HandlePost (d : Draws) (path body : string) : prog Gate (option string) :=
  match post_handlers path with
  | None => mret None
  | Some handler => a ← handler d body; mret (Some (print_answer a))
  end.

Definition HandleGet (path : string) : option string :=
  if String.eqb path "/get_test" then Some "Hello, World!"%string else None.

Inductive verb := GET | POST | OtherVerb.

(** [HandleReq]: the status and the body that are written; an exception of a
    handler leaves the request without an answer. *)
Definition HandleReq (d : Draws) (method : verb) (target body : string) : prog Gate (Z * string) :=
  match method with
  | GET =>
      match PreParseGetParam target with
      | None => mret (400, "invalid URL encoding"%string)
      | Some (get_url, _) =>
          match HandleGet get_url with
          | None => mret (404, ("404 Not Found" ++ String (ascii_of_N 10) " url not found.")%string)
          | Some text => mret (200, text)
          end
      end
  | POST =>
      res ← HandlePost d target body;
      match res with
      | None => mret (404, ("url not found" ++ String (ascii_of_N 13) (String (ascii_of_N 10) ""))%string)
      | Some text => mret (200, text)
      end
  | OtherVerb => mret (405, "method not allowed"%string)
  end.

End Handlers.

(** ** Steps of the handlers *)

Section Correctness.
Context `{J : Json} `{Collation, Sodium}.
Context (cfg : Config).

Lemma wp_lift {S A} (r : outcome A) Q (s : S) : Q r s -> wp (lift r) Q s.
Proof. done. Qed.

Lemma wp_request body fields Q s :
  Q Throws s -> Q (Returns None) s -> (forall src, parse body = Some src -> Q (Returns (Some src)) s) ->
  wp (request body fields) Q s.
Proof.
  intros Ht Hn Hs. unfold request. destruct (parse body) as [src|]; [|by apply wp_ret].
  apply wp_bind, wp_lift. destruct (hasStringFields src fields) as [[]|]; [|by apply wp_ret|done].
  apply wp_ret. by apply Hs.
Qed.

Lemma wp_field k src Q s : Q Throws s -> (forall x, member_string k src = Returns x -> Q (Returns x) s) ->
  wp (S := Gate) (lift (member_string k src)) Q s.
Proof. intros Ht Hx. apply wp_lift. destruct (member_string k src); auto. Qed.

(** A submission changes nothing but the codes; when it passes, the stored
    code of the address was submitted and is gone. *)
Lemma wp_consume email code Q s :
  (forall error r, error <> 0 -> Q (Returns (Some error)) (set_g_store r s)) ->
  (forall r, redeems email code (g_store s) r -> Q (Returns None) (set_g_store r s)) ->
  wp (consumeVerificationCode email code) Q s.
Proof.
  intros He Hn. apply wp_bind, wp_zoom, wp_total, wp_ret.
  destruct (ConsumeVerificationCode email code 5 (g_store s)) as [[] r] eqn:E; simpl; try (by apply He).
  apply Hn. by eapply consume_success.
Qed.

(** *** Registration *)

(** The request of [body] entitles to the account that [s'] has and [s] does
    not. *)
Definition enrolled (salt : Z) (body : string) (s s' : Gate) : Prop :=
  exists src raw name pwd icon code h,
    parse body = Some src /\
    member_string "email" src = Returns raw /\ member_string "user" src = Returns name /\
    member_string "passwd" src = Returns pwd /\ member_string "icon" src = Returns icon /\
    member_string "varifycode" src = Returns code /\
    new_password pwd /\ hash salt pwd = Returns h /\
    redeems (lower (trim raw)) code (g_store s) (g_store s') /\
    GateUsers.registered name (lower (trim raw)) h icon (committed (g_mysql s)) (committed (g_mysql s')).

Definition register_post (salt : Z) (body : string) (s : Gate) (r : outcome answer) (s' : Gate) : Prop :=
  borrowed (g_mysql s') = borrowed (g_mysql s) /\
  (committed (g_mysql s') = committed (g_mysql s) \/ enrolled salt body s s') /\
  (GateUsers.users_ok (committed (g_mysql s)) -> GateUsers.users_ok (committed (g_mysql s'))) /\
  forall fields, r = Returns (0, fields) ->
    enrolled salt body s s' /\ ("uid"%string, of_int (user_id (committed (g_mysql s)) + 1)) ∈ fields.

Lemma register_same salt body s r s' : g_mysql s' = g_mysql s ->
  (forall fields, r <> Returns (0, fields)) -> register_post salt body s r s'.
Proof.
  intros E Hr. unfold register_post. rewrite E. split_and!; [done|by left|done|].
  intros fields ->. by destruct (Hr fields).
Qed.


(** *** Password reset *)

Definition may_reset (salt : Z) (body : string) (s s' : Gate) : Prop :=
  exists src raw name pwd code h row,
    parse body = Some src /\
    member_string "email" src = Returns raw /\ member_string "user" src = Returns name /\
    member_string "passwd" src = Returns pwd /\ member_string "varifycode" src = Returns code /\
    new_password pwd /\ hash salt pwd = Returns h /\
    redeems (lower (trim raw)) code (g_store s) (g_store s') /\
    row ∈ user (committed (g_mysql s)) /\ weight (u_name row) = weight name /\
    u_email row = lower (trim raw) /\
    GateUsers.pwd_reset name h (committed (g_mysql s)) (committed (g_mysql s')).

Definition reset_post (salt : Z) (body : string) (s : Gate) (r : outcome answer) (s' : Gate) : Prop :=
  (committed (g_mysql s') = committed (g_mysql s) \/ may_reset salt body s s') /\
  forall fields, r = Returns (0, fields) -> may_reset salt body s s'.

Lemma reset_same salt body s r s' : committed (g_mysql s') = committed (g_mysql s) ->
  (forall fields, r <> Returns (0, fields)) -> reset_post salt body s r s'.
Proof. intros E Hr. split; [by left|]. intros fields ->. by destruct (Hr fields). Qed.

(** A password is replaced only for someone who holds the code mailed to
    the account's address: whatever the request and the failures, the
    accounts stay as they are, or the account with the name of the request,
    whose address is the normalised address of the request, gets the hash of
    the new password, which obeys the rule; the stored live code of that
    address was submitted and is used up.  The answer 0 means it happened. *)
Theorem reset_needs_code d body s :
  let '(r, s') := reset_pwd d body s in reset_post (salt d) body s r s'.
Proof.
  assert (forall r, (forall fields, r <> Returns (0, fields)) -> reset_post (salt d) body s r s) as Hsame
    by (intros; by apply reset_same).
  apply wp_let. unfold reset_pwd. apply wp_bind, wp_request; [by apply Hsame|by apply wp_ret, Hsame|].
  intros src Hp.
  apply wp_bind, wp_field; [by apply Hsame|]. intros raw Hraw.
  apply wp_bind, wp_field; [by apply Hsame|]. intros name Hname.
  apply wp_bind, wp_field; [by apply Hsame|]. intros pwd Hpwd.
  destruct (validNewPassword pwd) eqn:Hv; [|by apply wp_ret, Hsame]. apply validNewPassword_spec in Hv.
  apply wp_bind, wp_field; [by apply Hsame|]. intros code Hcode.
  apply wp_bind, wp_consume; [intros error r He; apply wp_ret, reset_same; [done|congruence]|].
  intros r Hr. apply wp_bind, wp_zoom. unfold wp at 1. cbn [g_mysql set_g_store].
  pose proof (GateUsers.CheckEmail_spec name (normalizeEmail raw) (g_mysql s)) as Hce.
  destruct (GateUsers.CheckEmail _ _ _) as [[[]|] s1]; cbn [fst snd];
    [|by apply wp_ret, reset_same; [apply Hce|]|by apply reset_same; [apply Hce|]].
  destruct Hce as [Ec Hce]. destruct (Hce eq_refl) as (row & Hin & Hwn & Hre).
  apply wp_bind, wp_zoom. unfold wp at 1. cbn [g_mysql set_g_mysql].
  pose proof (GateUsers.UpdatePwd_spec (salt d) name pwd s1) as Hup.
  destruct (GateUsers.UpdatePwd _ _ _ _) as [res s2]. cbn [fst snd]. rewrite Ec in Hup.
  destruct Hup as [[Eu Hres]|(h & Hh & Hup)].
  { destruct res as [[]|]; [by destruct Hres|apply wp_ret|]; by apply reset_same. }
  match goal with |- context [set_g_mysql s2 ?x] => set (s' := set_g_mysql s2 x) end.
  assert (may_reset (salt d) body s s') as Hm by (exists src, raw, name, pwd, code, h, row; by split_and!).
  assert (forall res, reset_post (salt d) body s res s') as Hpost by (intros; split; [by right|done]).
  destruct res as [[]|]; [apply wp_ret..|]; apply Hpost.
Qed.

(** *** Login *)

(** A reply without error names a chat server of the routing table, and its
    token is stored for the user on that server. *)
Definition routed (uid : Z) (token : string) (reply : Status.Reply) (s s' : Gate) : Prop :=
  exists key server, g_servers s !! key = Some server /\
    reply = Status.mkReply 0 (host server) (port server) (transport server) (tls_server_name server) token /\
    ticket_stored uid (name server) token (g_store s').

Lemma wp_GetChatServer d uid Q s :
  (forall r s', g_mysql s' = g_mysql s ->
     (forall reply, r = Returns reply -> r_error reply = 0 -> routed uid (token d) reply s s') -> Q r s') ->
  wp (GetChatServer cfg d uid) Q s.
Proof.
  intros HQ. unfold GetChatServer. apply wp_bind, wp_lift.
  destruct (InternalRpc.authenticate _ _) as [metadata|]; [|by apply HQ].
  set (md := InternalRpc.propagate_request_id _ metadata).
  set (call := zoom g_status set_g_status _).
  assert (forall Q', (forall r s', g_mysql s' = g_mysql s ->
     (forall reply, r = Returns (Some reply) -> r_error reply = 0 -> routed uid (token d) reply s s') -> Q' r s') ->
     wp call Q' s) as Hcall.
  { intros Q' HQ'. unfold call. apply wp_zoom, wp_bind. unfold wp at 1.
    destruct (Status.GetChatServer _ _ _ _ _ (g_status s)) as [[[code reply]|] s1] eqn:E; cbn [fst snd];
      [apply wp_ret|]; apply HQ'; try done.
    intros reply' Hr He. destruct code; [|done..]. injection Hr as ->.
    exact (GetChatServer_ticket (iteration cfg) md _ _ _ (g_status s) _ _ E He). }
  destruct (rpc d); cbn [remote].
  - apply wp_bind, Hcall. intros [[reply|]|] s' Em Hr; [apply wp_ret, HQ; [done|]| |by apply HQ].
    + intros reply' [= <-]. by apply Hr.
    + apply wp_ret, HQ; [done|]. by intros reply [= <-].
  - apply wp_bind, wp_ret, wp_ret, HQ; [done|]. by intros reply [= <-].
  - apply wp_bind, wp_bind, Hcall. intros [?|] s' Em _; [|by apply HQ].
    apply wp_ret, wp_ret, HQ; [done|]. by intros reply [= <-].
Qed.

(** What an answer without error says. *)
Definition logged_in (d : Draws) (body : string) (fields : list (string * value)) (s s' : Gate) : Prop :=
  exists src raw pwd row reply,
    parse body = Some src /\
    member_string "email" src = Returns raw /\ member_string "passwd" src = Returns pwd /\
    GateUsers.logs_in (lower (trim raw)) pwd (committed (g_mysql s)) row /\
    routed (u_uid row) (token d) reply s s' /\
    ("uid"%string, of_int (u_uid row)) ∈ fields /\ ("token"%string, of_string (token d)) ∈ fields /\
    ("host"%string, of_string (r_host reply)) ∈ fields /\ ("port"%string, of_string (r_port reply)) ∈ fields.

Definition login_post (d : Draws) (body : string) (s : Gate) (r : outcome answer) (s' : Gate) : Prop :=
  borrowed (g_mysql s') = borrowed (g_mysql s) /\
  (committed (g_mysql s') = committed (g_mysql s) \/
   exists src raw pwd, parse body = Some src /\ member_string "email" src = Returns raw /\
     member_string "passwd" src = Returns pwd /\
     GateUsers.credentials_kept (lower (trim raw)) pwd (committed (g_mysql s)) (committed (g_mysql s'))) /\
  forall fields, r = Returns (0, fields) -> logged_in d body fields s s'.

Lemma login_same d body s r s' : g_mysql s' = g_mysql s ->
  (forall fields, r <> Returns (0, fields)) -> login_post d body s r s'.
Proof.
  intros E Hr. unfold login_post. rewrite E. split_and!; [done|by left|].
  intros fields ->. by destruct (Hr fields).
Qed.

(** C14. A login token is handed out only for the right password: an answer 0
    to a login means that the stored credential of the account under the
    normalised address accepts the submitted password, and that the token in
    the answer has just been stored, for sixty seconds, as the ticket of that
    account on a configured chat server, whose host and port are in the
    answer.  With any request and any failure, the accounts change only in
    that the credential that was checked may get a new hash of the same
    password. *)
Theorem login_needs_password `{!SodiumLaws} d body s :
  let '(r, s') := user_login cfg d body s in login_post d body s r s'.
Proof.
  assert (forall r, (forall fields, r <> Returns (0, fields)) -> login_post d body s r s) as Hsame
    by (intros; by apply login_same).
  apply wp_let. unfold user_login. apply wp_bind, wp_request; [by apply Hsame|by apply wp_ret, Hsame|].
  intros src Hp.
  apply wp_bind, wp_field; [by apply Hsame|]. intros raw Hraw.
  apply wp_bind, wp_field; [by apply Hsame|]. intros pwd Hpwd.
  apply wp_bind, wp_zoom. unfold wp at 1.
  pose proof (GateUsers.login_keeps_credential (salt d) (normalizeEmail raw) pwd (g_mysql s)) as Hl.
  destruct (GateUsers.CheckPwd _ _ _ _) as [res s1]. destruct Hl as (Hb & Hk & Hl). cbn [fst snd].
  assert (forall r s', g_mysql s' = s1 -> (forall fields, r = Returns (0, fields) -> logged_in d body fields s s') ->
    login_post d body s r s') as Hpost.
  { intros r s' E Hf. unfold login_post. rewrite E. split_and!; [done| |done]. right. by exists src, raw, pwd. }
  destruct res as [[[info|] unavailable]|]; [| |by apply Hpost].
  2: { apply wp_ret, Hpost; [done|]. by destruct unavailable. }
  destruct Hl as (row & Hrow & Hu). apply wp_bind, wp_GetChatServer. intros [reply|] s' Em Hr; [|by apply Hpost].
  destruct (Z.eqb_spec (r_error reply) 0) as [He|He]; apply wp_ret, Hpost; try done.
  intros fields [= <-]. rewrite Hu in *. specialize (Hr reply eq_refl He). pose proof Hr as (key & server & _ & Er & _).
  exists src, raw, pwd, row, reply. split_and!; try done; rewrite Er; set_solver.
Qed.

(** *** Dispatch *)

(** A request that is no [POST] to one of the four paths changes nothing, and
    is answered, with 200 only for [/get_test]. *)
Theorem other_requests d method target body s :
  (method = POST -> target ∉ ["/post_email"; "/user_register"; "/reset_pwd"; "/user_login"]%string) ->
  exists status text, HandleReq cfg d method target body s = (Returns (status, text), s) /\
    (status = 200 -> method = GET /\ exists params, PreParseGetParam target = Some ("/get_test"%string, params)).
Proof.
  intros Hm. destruct method; simpl.
  - destruct (PreParseGetParam target) as [[url params]|]; [|by eexists _, _].
    unfold HandleGet. destruct (String.eqb_spec url "/get_test") as [->|]; [|by eexists _, _].
    eexists _, _. split; [done|]. eauto.
  - unfold HandlePost, post_handlers. specialize (Hm eq_refl).
    repeat match goal with |- context [String.eqb target ?p] =>
      destruct (String.eqb_spec target p) as [->|]; [exfalso; apply Hm; set_solver|] end.
    by eexists _, _.
  - by eexists _, _.
Qed.

End Correctness.

(** ** Example *)

Module Example.
Import ToyJson.
#[local] Instance gate_collation : Collation := fold_case.
#[local] Existing Instance toy_sodium.

Definition example_config : Config :=
  mkConfig "varify-secret" "status-secret" {["CHAT_GATE_VARIFY_TOKEN" := "varify-secret"]}%string 500
    "status-secret" map_to_list None.

(** One account with an old hash, one chat server with a live heartbeat. *)
Definition example_gate : Gate :=
  mkGate (healthy GateUsers.legacy_tables 0)
    (mkRedis {[ (CHAT_HEALTH_PREFIX ++ "chat1")%string := mkEntry (VString "3") None ]} 0 (fun _ => Fine)
       (fun n => Z.of_nat n)) []
    {["chat1"%string := mkChatServer "10.0.0.1" "8090" "chat1" "insecure" "" 0]} 0.

Definition example_draws : Draws := mkDraws 1 42 Fine Fine "token-1" "req-1".

Definition login_body : string :=
  toStyledString (object [("email", of_string " Old@Example.org "); ("passwd", of_string "secret")]%string).

Lemma login_needs_password_witness : exists fields s',
  user_login example_config example_draws login_body example_gate = (Returns (0, fields), s') /\
  logged_in example_draws login_body fields example_gate s'.
Proof.
  pose proof (login_needs_password (H1 := toy_sodium_laws) example_config example_draws login_body example_gate) as Hl.
  destruct (user_login example_config example_draws login_body example_gate) as [r s'] eqn:E.
  assert (exists fields, r = Returns (0, fields)) as [fields ->]
    by (vm_compute in E; injection E as <- _; by eexists).
  exists fields, s'. split; [done|]. by apply Hl.
Defined.

End Example.
