(* ===== verification/Logic.v ===== *)
(** The message handling of the chat server
    ([src/servers/chat/service/LogicSystem.cpp]): its state, the profile
    cache, and the path of a text message from its sender to its recipient. *)
From S2P Require Import Prelude Messages Mysql Schema MessageDao FriendDao Acceptance Redis Session Server Json.

(** ** State *)

(** [LogicSystem::DeliveryState] *)
Record DeliveryState := mkDeliveryState {
  window : DeliveryWindow.window;
  next : Z;
  idle_seconds : Z;
}.

Definition new_delivery : DeliveryState := mkDeliveryState ∅ 0 1.

(** A chat server: its databases, its connections with their send queues, the
    delivery states by session (the shard of a session is a function of its
    id, so the shards' maps are disjoint and kept as one), the notification
    and wake-up tasks it has queued, the calls it made to other servers, the
    activity reports it posted to sessions, and its counters. *)
Record Logic := mkLogic {
  mysql : db Tables;
  cache : redis;
  net : Server;
  outbox : gmap string SendQueue.Queue;
  delivery : gmap string DeliveryState;
  notifications : list (Z * list TextMessage);
  wakeups : list (string * Z);
  peer_calls : list (string * Z);
  touched : list string;
  delivered : Z;
  retries : Z;
  ack_failures : Z;
  query_failures : Z;
}.

Definition set_mysql x s := mkLogic x (cache s) (net s) (outbox s) (delivery s) (notifications s) (wakeups s) (peer_calls s) (touched s) (delivered s) (retries s) (ack_failures s) (query_failures s).
Definition set_cache x s := mkLogic (mysql s) x (net s) (outbox s) (delivery s) (notifications s) (wakeups s) (peer_calls s) (touched s) (delivered s) (retries s) (ack_failures s) (query_failures s).
Definition set_net x s := mkLogic (mysql s) (cache s) x (outbox s) (delivery s) (notifications s) (wakeups s) (peer_calls s) (touched s) (delivered s) (retries s) (ack_failures s) (query_failures s).
Definition set_outbox x s := mkLogic (mysql s) (cache s) (net s) x (delivery s) (notifications s) (wakeups s) (peer_calls s) (touched s) (delivered s) (retries s) (ack_failures s) (query_failures s).
Definition set_delivery x s := mkLogic (mysql s) (cache s) (net s) (outbox s) x (notifications s) (wakeups s) (peer_calls s) (touched s) (delivered s) (retries s) (ack_failures s) (query_failures s).
Definition set_notifications x s := mkLogic (mysql s) (cache s) (net s) (outbox s) (delivery s) x (wakeups s) (peer_calls s) (touched s) (delivered s) (retries s) (ack_failures s) (query_failures s).
Definition set_wakeups x s := mkLogic (mysql s) (cache s) (net s) (outbox s) (delivery s) (notifications s) x (peer_calls s) (touched s) (delivered s) (retries s) (ack_failures s) (query_failures s).
Definition set_peer_calls x s := mkLogic (mysql s) (cache s) (net s) (outbox s) (delivery s) (notifications s) (wakeups s) x (touched s) (delivered s) (retries s) (ack_failures s) (query_failures s).
Definition add_touched id s := mkLogic (mysql s) (cache s) (net s) (outbox s) (delivery s) (notifications s) (wakeups s) (peer_calls s) (touched s ++ [id]) (delivered s) (retries s) (ack_failures s) (query_failures s).
Definition count_sent (retry : bool) s := mkLogic (mysql s) (cache s) (net s) (outbox s) (delivery s) (notifications s) (wakeups s) (peer_calls s) (touched s) (delivered s + 1) (if retry then retries s + 1 else retries s) (ack_failures s) (query_failures s).
Definition count_ack_failure s := mkLogic (mysql s) (cache s) (net s) (outbox s) (delivery s) (notifications s) (wakeups s) (peer_calls s) (touched s) (delivered s) (retries s) (ack_failures s + 1) (query_failures s).
Definition count_query_failure s := mkLogic (mysql s) (cache s) (net s) (outbox s) (delivery s) (notifications s) (wakeups s) (peer_calls s) (touched s) (delivered s) (retries s) (ack_failures s) (query_failures s + 1).

(** What a handler learns from outside: the steady clock, the name of this
    server, whether the notification and the logic queue take a task,
    whether the call to another server is answered without an error, and the
    random bytes of a new credential. *)
Record Outside := mkOutside {
  o_now : Z;
  self_name : string;
  notify_room : bool;
  logic_room : bool;
  peer_ok : bool;
  random_token : string;
}.

Definition ERROR_CODE_OK : Z := 0.
Definition JSON_ERROR : Z := 1001.
Definition RPC_ERROR : Z := 1002.
Definition TokenInvalid : Z := 1010.
Definition UidInvalid : Z := 1011.
Definition MAX_TEXT_MESSAGES_PER_FRAME : Z := 50.
Definition MAX_TEXT_MESSAGE_ID_BYTES : Z := 128.
Definition USERIPPREFIX : string := "uip_".
Definition USER_BASE_INFO : string := "ubaseinfo_".
Definition NAME_INFO : string := "nameinfo_".

(** ** Calls *)

Definition on_mysql {A} (m : prog (db Tables) A) : prog Logic A := fun s =>
  let '(r, d) := m (mysql s) in (r, set_mysql d s).

Definition on_cache {A} (f : redis -> A * redis) : prog Logic A := fun s =>
  let '(a, r) := f (cache s) in (Returns a, set_cache r s).

Definition IsClosed (id : string) : prog Logic bool := gets (fun s => is_closed id (net s)).
Definition GetUserId (id : string) : prog Logic Z := gets (fun s => uid_of id (net s)).
Definition Close (id : string) : prog Logic unit := modify (fun s => set_net (Server.Close id (net s)) s).

(** The send queue of a session; the closed flag is the session's. *)
Definition queue_of (id : string) (s : Logic) : SendQueue.Queue :=
  let q := default SendQueue.create (outbox s !! id) in
  SendQueue.mkQueue (is_closed id (net s)) (SendQueue.send_que q) (SendQueue.send_bytes q)
    (SendQueue.started q) (SendQueue.flight q) (SendQueue.wire q) (SendQueue.accepted q).

(** [CSession::Send]; an oversized frame closes the session. *)
Definition Send (id : string) (msg : string) (msgid : Z) : prog Logic bool := fun s =>
  let '(ok, q) := SendQueue.Send msg msgid (queue_of id s) in
  let s := set_outbox (<[id := q]> (outbox s)) s in
  (Returns ok, if SendQueue.b_close q then set_net (Server.Close id (net s)) s else s).

(** A local variable that a [Defer] object reads when the scope is left, by
    return or by exception. *)
Definition with_cell {C A} (c : C) (fin : C -> prog Logic unit) (body : prog (C * Logic) A)
    : prog Logic A := fun s =>
  let '(r, (c, s)) := body (c, s) in
  let '(_, s) := fin c s in (r, s).
Definition inner {C A} (m : prog Logic A) : prog (C * Logic) A := fun '(c, s) =>
  let '(r, s) := m s in (r, (c, s)).
Definition cell {C} (f : C -> C) : prog (C * Logic) unit := modify (fun '(c, s) => (f c, s)).

Section Json.
Context `{J : Json} `{Collation}.

(** [rtvalue[k] = x] *)
Definition put (k : string) (x : value) : prog (value * Logic) unit := cell (set_member k x).

(** ** Delivery *)

(** The frame that carries one pending message. *)
Definition notice (message : TextMessage) : string :=
  toStyledString (object
    [("error"%string, of_int ERROR_CODE_OK);
     ("fromuid"%string, of_int (sender_uid message));
     ("touid"%string, of_int (receiver_uid message));
     ("text_array"%string, append null (object
        [("msgid"%string, of_string (client_message_id message));
         ("content"%string, of_string (content message))]))]).

Definition get_delivery (id : string) (s : Logic) : DeliveryState :=
  default new_delivery (delivery s !! id).
Definition put_delivery (id : string) (d : DeliveryState) : prog Logic unit :=
  modify (fun s => set_delivery (<[id := d]> (delivery s)) s).

(** The loop over the pending messages; [break] on a refused frame. *)
Fixpoint deliver_loop (id : string) (now : Z) (pending : list TextMessage) : prog Logic unit :=
  match pending with
  | [] => mret tt
  | message :: rest =>
      d ← gets (get_delivery id);
      if negb (DeliveryWindow.due message now (window d)) then deliver_loop id now rest
      else
        ok ← Send id (notice message) ID_NOTIFY_TEXT_CHAT_MSG_REQ;
        if negb ok then mret tt
        else
          let '(retry, w) := DeliveryWindow.sent message now (window d) in
          put_delivery id (mkDeliveryState w (next d) (idle_seconds d)) ;;
          modify (count_sent retry) ;;
          deliver_loop id now rest
  end.

Definition DeliverPendingTextMessages (o : Outside) (id : string) (receiver_uid : Z) : prog Logic unit :=
  closed ← IsClosed id;
  if closed : bool then mret tt
  else
    d ← gets (get_delivery id);
    put_delivery id d ;;
    pending ← on_mysql (GetPendingTextMessages receiver_uid DeliveryWindow.Capacity);
    match pending with
    | None =>
        modify count_query_failure ;;
        let idle := Z.min (u32 (idle_seconds d * 2)) 30 in
        put_delivery id (mkDeliveryState (window d) (o_now o + seconds idle) idle)
    | Some pending =>
        let idle := if bool_decide (pending = []) then Z.min (u32 (idle_seconds d * 2)) 30 else 1 in
        put_delivery id (mkDeliveryState (DeliveryWindow.reconcile pending (window d))
                           (o_now o + seconds idle) idle) ;;
        deliver_loop id (o_now o) pending
    end.

(** [WakeDelivery]: the task is queued for the session's shard. *)
Definition WakeDelivery (o : Outside) (uid : Z) : prog Logic bool :=
  session ← gets (fun s => UserMgr.GetSession uid (net s));
  match session with
  | None => mret true
  | Some id =>
      closed ← IsClosed id;
      if closed : bool then mret true
      else if logic_room o then modify (fun s => set_wakeups (wakeups s ++ [(id, uid)]) s) ;; mret true
      else mret false
  end.

(** The task of a wake-up. *)
Definition run_wakeup (o : Outside) (id : string) (uid : Z) : prog Logic unit :=
  closed ← IsClosed id;
  if closed : bool then mret tt else DeliverPendingTextMessages o id uid.

Definition NotifyRecipient (o : Outside) (touid : Z) (messages : list TextMessage) : prog Logic unit :=
  session ← gets (fun s => UserMgr.GetSession touid (net s));
  match session with
  | Some _ => WakeDelivery o touid ;; mret tt
  | None =>
      target_server ← on_cache (RedisMgr.Get (USERIPPREFIX ++ to_string touid));
      match target_server with
      | None => mret tt
      | Some target_server =>
          if String.eqb target_server (self_name o) then mret tt
          else modify (fun s => set_peer_calls (peer_calls s ++ [(target_server, touid)]) s)
      end
  end.

(** ** Text messages *)

(** The elements of [text_array]; [None] is the early return with
    [JSON_ERROR]. *)
Fixpoint text_items (uid touid : Z) (arrays : list value) : outcome (option (list TextMessage)) :=
  match arrays with
  | [] => Returns (Some [])
  | text :: arrays =>
      match and_then (Returns (isObject text))
              (and_then (member_is isString "content" text) (member_is isString "msgid" text)) with
      | Throws => Throws
      | Returns false => Returns None
      | Returns true =>
          match member_string "msgid" text, member_string "content" text with
          | Returns id, Returns text_content =>
              match text_items uid touid arrays with
              | Returns (Some rest) => Returns (Some (mkTextMessage id uid touid text_content :: rest))
              | r => r
              end
          | _, _ => Throws
          end
      end
  end.

(** The guard on a frame with a peer and an array of at most fifty elements. *)
Definition frame_with_array (peer array : string) (root : value) : outcome bool :=
  and_then (Returns (isObject root))
    (and_then (member_is isInt peer root)
      (and_then (member_is isArray array root)
        (member_is (fun a => negb (bool_decide (items a = [])) &&
                             (Z.of_nat (length (items a)) <=? MAX_TEXT_MESSAGES_PER_FRAME)) array root))).

(** The handler after the reply has been prepared. *)
Definition text_body (o : Outside) (uid touid : Z) (arrays : value) : prog (value * Logic) unit :=
  messages ← lift (text_items uid touid (items arrays));
  match messages with
  | None => put "error" (of_int JSON_ERROR)
  | Some messages =>
      result ← inner (on_mysql (TextMessageService.accept CheckFriendRelation PersistTextMessages
                                  uid touid messages));
      match result with
      | TextMessageService.InvalidMessage => put "error" (of_int JSON_ERROR)
      | TextMessageService.InvalidRecipient => put "error" (of_int UidInvalid)
      | TextMessageService.Accepted =>
          put "delivery" (of_string "accepted") ;;
          inner (if notify_room o
                 then modify (fun s => set_notifications (notifications s ++ [(touid, messages)]) s)
                 else mret tt)
      | TextMessageService.Unavailable =>
          put "error" (of_int RPC_ERROR) ;;
          put "retryable" (of_bool true)
      end
  end.

Definition TextChatMsgCallback (o : Outside) (id : string) (msg_data : string) : prog Logic unit :=
  match parse msg_data with
  | None => Close id
  | Some root =>
      ok ← lift (frame_with_array "touid" "text_array" root);
      if negb ok then Close id
      else
        uid ← GetUserId id;
        touid ← lift (member_int "touid" root);
        arrays ← lift (member "text_array" root);
        let rtvalue := object [("error"%string, of_int ERROR_CODE_OK); ("text_array"%string, arrays);
                               ("fromuid"%string, of_int uid); ("touid"%string, of_int touid)] in
        with_cell rtvalue (fun rt => Send id (toStyledString rt) ID_TEXT_CHAT_MSG_RSP ;; mret tt)
          (text_body o uid touid arrays)
  end.

(** The identifiers of an acknowledgement; [None] closes the session. *)
Fixpoint ack_ids (values : list value) : outcome (option (list string)) :=
  match values with
  | [] => Returns (Some [])
  | v :: values =>
      if negb (isString v) then Returns None
      else match asString v with
           | Throws => Throws
           | Returns id =>
               if sempty id || (MAX_TEXT_MESSAGE_ID_BYTES <? ssize id) then Returns None
               else match ack_ids values with
                    | Returns (Some rest) => Returns (Some (id :: rest))
                    | r => r
                    end
           end
  end.

Definition TextChatAckCallback (o : Outside) (id : string) (msg_data : string) : prog Logic unit :=
  match parse msg_data with
  | None => Close id
  | Some root =>
      ok ← lift (frame_with_array "fromuid" "msgids" root);
      if negb ok then Close id
      else
        sender_uid ← lift (member_int "fromuid" root);
        values ← lift (member "msgids" root);
        ids ← lift (ack_ids (items values));
        match ids with
        | None => Close id
        | Some ids =>
            uid ← GetUserId id;
            ok ← on_mysql (AcknowledgeTextMessages uid sender_uid ids);
            if negb ok then modify count_ack_failure
            else DeliverPendingTextMessages o id uid
        end
  end.

End Json.

(** ** What a sender is told *)

Section Accepting.
Context `{J : Json} `{!JsonLaws J} `{Collation}.

Lemma text_items_total uid touid arrays : exists r, text_items uid touid arrays = Returns r.
Proof.
  induction arrays as [|text arrays [r IH]]; simpl; [by eexists|].
  destruct (isObject text) eqn:Ho; simpl; [|by eexists].
  assert (container text = true) as Hc by (unfold container; by rewrite Ho, orb_true_r).
  unfold member_is, member_string.
  destruct (container_member "content" text Hc) as [c Ec]. destruct (container_member "msgid" text Hc) as [i Ei].
  rewrite Ec, Ei. destruct (isString c) eqn:Hcs; simpl; [|by eexists].
  destruct (isString i) eqn:His; simpl; [|by eexists].
  destruct (isString_asString c Hcs) as [cs Ecs]. destruct (isString_asString i His) as [istr Eis].
  rewrite Ecs, Eis, IH. destruct r; by eexists.
Qed.

(** The frames a session has been given. *)
Definition frames_to (id : string) (s : Logic) : list string := SendQueue.accepted (queue_of id s).

(** A frame is queued or refused; nothing else is sent. *)
Lemma Send_frames id msg msgid s :
  exists ok s', Send id msg msgid s = (Returns ok, s') /\ mysql s' = mysql s /\
    delivery s' = delivery s /\ delivered s' = delivered s /\
    frames_to id s' = frames_to id s ++ (if ok : bool then [SendNode msg msgid] else []).
Proof.
  unfold Send, frames_to. destruct (SendQueue.Send msg msgid (queue_of id s)) as [ok q] eqn:E.
  eexists ok, _. split; [done|].
  assert (SendQueue.accepted q = SendQueue.accepted (queue_of id s) ++ (if ok then [SendNode msg msgid] else [])) as Hq.
  { revert E. unfold SendQueue.Send. repeat case_match; intros; simplify_eq; simpl; by rewrite ?app_nil_r. }
  destruct (SendQueue.b_close q); (do 3 (split; [done|])); unfold queue_of at 1; simpl; by rewrite lookup_insert_eq.
Qed.

Lemma set_container k x v : container v = true -> container (set_member k x v) = true.
Proof. intros Hv. unfold container. by rewrite set_isObject, orb_true_r. Qed.

(** What the body of the handler promises of the reply [rt] it prepares. *)
Definition promises (uid touid : Z) (arrays rt : value) (t t' : Tables) : Prop :=
  (member_int "error" rt = Returns 0 ->
   exists messages, text_items uid touid (items arrays) = Returns (Some messages) /\
     TextMessageService.valid_batch uid touid messages /\ relation_count uid touid t = 2 /\
     Forall (stored t') messages) /\
  (t' = t \/ exists messages, text_items uid touid (items arrays) = Returns (Some messages) /\
               insert_all messages t = Some t').

Lemma text_body_spec o uid touid arrays rt s : container rt = true ->
  exists rt' s', text_body o uid touid arrays (rt, s) = (Returns tt, (rt', s')) /\
    outbox s' = outbox s /\ net s' = net s /\
    promises uid touid arrays rt' (committed (mysql s)) (committed (mysql s')).
Proof.
  intros Hc. unfold text_body, promises, mbind, prog_bind, lift, put, cell, modify, inner, on_mysql.
  destruct (text_items_total uid touid (items arrays)) as [[messages|] Ei]; rewrite Ei.
  2: { eexists _, s. split_and!; [done..| |by left]. rewrite member_int_set by done. done. }
  destruct (accept_durable uid touid messages (mysql s)) as (res & d & -> & Hd & Hacc).
  assert (committed d = committed (mysql s) \/
          exists m, Returns (Some messages) = Returns (Some m) /\ insert_all m (committed (mysql s)) = Some (committed d)) as Hd'.
  { destruct Hd; eauto. }
  destruct res.
  - destruct (Hacc eq_refl) as (Hv & Hr & Hi). destruct (insert_all_spec _ _ _ Hi) as (_ & Hs & _).
    destruct (notify_room o); (eexists _, _; split_and!; [reflexivity|done|done|eauto 6|done]).
  - eexists _, _. split_and!; [reflexivity|done|done| |done]. by rewrite member_int_set.
  - eexists _, _. split_and!; [reflexivity|done|done| |done]. by rewrite member_int_set.
  - eexists _, _. split_and!; [reflexivity|done|done| |done].
    rewrite member_int_other by (done || by apply set_container). by rewrite member_int_set.
Qed.

(** The guard never throws, and what it lets through has its members. *)
Lemma frame_with_array_spec peer array root :
  exists ok, frame_with_array peer array root = Returns ok /\
    (ok = true -> exists z a, member_int peer root = Returns z /\ member array root = Returns a /\
                              (1 <= length (items a) <= 50)%nat).
Proof.
  unfold frame_with_array, member_is, member_int. destruct (isObject root) eqn:Ho; simpl; [|by exists false].
  assert (container root = true) as Hc by (unfold container; by rewrite Ho, orb_true_r).
  destruct (container_member peer root Hc) as [x ->]. destruct (container_member array root Hc) as [a ->].
  destruct (isInt x) eqn:Hx; simpl; [|by exists false]. destruct (isInt_asInt x Hx) as (z & -> & _).
  destruct (isArray a); simpl; [|by exists false]. eexists. split; [done|]. intros Hb. bool_hyps.
  exists z, a. split_and!; try done; unfold MAX_TEXT_MESSAGES_PER_FRAME in *; [|lia].
  destruct (items a); simpl; [done|lia].
Qed.

(** C2. A sender is told of success only for stored messages: whatever arrives
    as a text frame, from any state and with any failures, the handler returns
    and either drops the frame or prepares one reply, which is queued or
    refused by the send queue; if that reply carries the error code 0 then the
    frame was a valid batch between friends and every message of it is in the
    committed tables; and the committed tables change by this whole batch or
    not at all. *)
Theorem accepted_is_durable o id msg_data s :
  let '(r, s') := TextChatMsgCallback o id msg_data s in
  r = Returns tt /\
  (frames_to id s' = frames_to id s /\ committed (mysql s') = committed (mysql s) \/
   exists rt root arrays touid,
     parse msg_data = Some root /\ member "text_array" root = Returns arrays /\
     member_int "touid" root = Returns touid /\
     (frames_to id s' = frames_to id s \/
      frames_to id s' = frames_to id s ++ [SendNode (toStyledString rt) ID_TEXT_CHAT_MSG_RSP]) /\
     promises (uid_of id (net s)) touid arrays rt (committed (mysql s)) (committed (mysql s'))).
Proof.
  unfold TextChatMsgCallback. destruct (parse msg_data) as [root|] eqn:Ep; [|by split; [|left]].
  destruct (frame_with_array_spec "touid" "text_array" root) as (ok & Eg & Hok).
  unfold mbind, prog_bind, lift. rewrite Eg. destruct ok; simpl; [|by split; [|left]].
  destruct (Hok eq_refl) as (touid & arrays & Et & Ea & _). rewrite Et, Ea. unfold with_cell.
  set (rt0 := object _). destruct (text_body_spec o (uid_of id (net s)) touid arrays rt0 s (object_container _))
    as (rt & s1 & -> & Eo & En & Hp).
  destruct (Send_frames id (toStyledString rt) ID_TEXT_CHAT_MSG_RSP s1) as (ok & s2 & -> & Em & _ & _ & Ef).
  split; [done|]. right. exists rt, root, arrays, touid. split_and!; try done.
  - rewrite Ef. unfold frames_to, queue_of. rewrite Eo, En. destruct ok; [by right|left]. by rewrite app_nil_r.
  - by rewrite Em.
Qed.

End Accepting.

(** ** What a recipient is sent *)

Section Delivering.
Context `{J : Json} `{Collation}.

Definition is_due (now : Z) (w : DeliveryWindow.window) (m : TextMessage) : Prop :=
  DeliveryWindow.due m now w = true.
#[local] Instance is_due_dec now w m : Decision (is_due now w m).
Proof. unfold is_due. apply _. Defined.

Definition notice_frame (m : TextMessage) : string := SendNode (notice m) ID_NOTIFY_TEXT_CHAT_MSG_REQ.

(** A refused frame is refused again. *)
Lemma Send_refused id msg msgid s s' :
  Send id msg msgid s = (Returns false, s') -> (Send id msg msgid s').1 = Returns false.
Proof.
  assert (forall s, (SendQueue.Send msg msgid (queue_of id s)).1 = false ->
            (Send id msg msgid s).1 = Returns false) as Hs.
  { intros s0. unfold Send. by destruct (SendQueue.Send _ _ _) as [[] q]. }
  unfold Send at 1. destruct (SendQueue.Send msg msgid (queue_of id s)) as [ok q] eqn:E. intros [= -> <-].
  apply Hs. revert E. unfold SendQueue.Send. destruct (65535 <? ssize msg); [done|].
  destruct (is_closed id (net s)) eqn:Ec.
  - assert (SendQueue.b_close (queue_of id s) = true) as Eb by done. rewrite Eb. intros [= <-].
    rewrite Eb. unfold Server.Close. rewrite Ec. simpl. by rewrite Ec.
  - assert (SendQueue.b_close (queue_of id s) = false) as Eb by done. rewrite Eb.
    destruct (_ || _) eqn:Ef; [|done]. intros [= <-]. rewrite Eb.
    assert (queue_of id (set_outbox (<[id := queue_of id s]> (outbox s)) s) = queue_of id s) as ->.
    { unfold queue_of at 1. simpl. by rewrite lookup_insert_eq. }
    by rewrite Eb, Ef.
Qed.

(** One message after another; the window changes only at the keys sent. *)
Definition sent_all (now : Z) (l : list TextMessage) (w : DeliveryWindow.window) : DeliveryWindow.window :=
  foldl (fun w m => (DeliveryWindow.sent m now w).2) w l.

Lemma due_after_sent m m' now now' w : DeliveryWindow.key m <> DeliveryWindow.key m' ->
  is_due now (DeliveryWindow.sent m now' w).2 m' <-> is_due now w m'.
Proof. intros Hk. unfold is_due, DeliveryWindow.due. by rewrite DeliveryWindow.sent_other. Qed.

Lemma deliver_loop_spec id now pending : forall s, NoDup (DeliveryWindow.key <$> pending) ->
  let d := get_delivery id s in
  exists out s', deliver_loop id now pending s = (Returns tt, s') /\
    out `prefix_of` filter (is_due now (window d)) pending /\
    (out = filter (is_due now (window d)) pending \/
     exists m, m ∈ pending /\ (Send id (notice m) ID_NOTIFY_TEXT_CHAT_MSG_REQ s').1 = Returns false) /\
    frames_to id s' = frames_to id s ++ (notice_frame <$> out) /\ mysql s' = mysql s /\
    delivered s' = delivered s + Z.of_nat (length out) /\
    get_delivery id s' = mkDeliveryState (sent_all now out (window d)) (next d) (idle_seconds d).
Proof.
  induction pending as [|m pending IH]; intros s Hnd d.
  { exists [], s. split_and!; try done; [by left|by rewrite app_nil_r|simpl; lia|by subst d; destruct (get_delivery id s)]. }
  apply NoDup_cons in Hnd as [Hm Hnd]. cbn [deliver_loop]. unfold mbind, prog_bind, gets.
  rewrite filter_cons. fold d. destruct (DeliveryWindow.due m now (window d)) eqn:Hdue; cbn [negb].
  2: { rewrite decide_False by (unfold is_due; congruence).
       destruct (IH s Hnd) as (out & s' & -> & ? & Hor & ?). exists out, s'. split_and!; try naive_solver.
       destruct Hor as [?|(x & ? & ?)]; [by left|right; exists x; set_solver]. }
  rewrite decide_True by done.
  destruct (Send_frames id (notice m) ID_NOTIFY_TEXT_CHAT_MSG_REQ s) as (ok & s1 & Es & Em & Ed & Ec & Ef).
  rewrite Es. destruct ok; cbn [negb].
  2: { exists [], s1. apply Send_refused in Es as Hr. split_and!; try done.
       - apply prefix_nil.
       - right. exists m. split; [set_solver|done].
       - simpl. lia.
       - assert (get_delivery id s1 = d) as -> by (unfold get_delivery; by rewrite Ed).
         by destruct d. }
  destruct (DeliveryWindow.sent m now (window d)) as [retry w] eqn:Ew.
  unfold put_delivery, modify.
  set (s2 := count_sent retry _).
  assert (get_delivery id s2 = mkDeliveryState w (next d) (idle_seconds d)) as Eg.
  { subst s2. unfold get_delivery. simpl. by rewrite lookup_insert_eq. }
  destruct (IH s2 Hnd) as (out & s' & -> & Hpre & Hor & Hf & Hmy & Hde & Hg). rewrite Eg in *. cbn [window next idle_seconds] in *.
  assert (filter (is_due now w) pending = filter (is_due now (window d)) pending) as Efil.
  { replace w with (DeliveryWindow.sent m now (window d)).2 by (by rewrite Ew).
    apply filter_iff_in. intros x Hx. apply due_after_sent. intros Hk. apply Hm.
    rewrite Hk. by apply (list_elem_of_fmap_2 DeliveryWindow.key). }
  exists (m :: out), s'. rewrite Efil in *. split_and!; try done.
  - by apply prefix_cons.
  - destruct Hor as [->|(x & ? & ?)]; [by left|right; exists x; set_solver].
  - rewrite Hf. change (frames_to id s2) with (frames_to id s1). by rewrite Ef, <- (assoc_L (++)).
  - rewrite Hmy. exact Em.
  - rewrite Hde. change (delivered s2) with (delivered s1 + 1). rewrite Ec. simpl. lia.
  - rewrite Hg. unfold sent_all. cbn [foldl]. by rewrite Ew.
Qed.

Lemma sent_all_covered pending now out : forall w, out ⊆ pending ->
  DeliveryWindow.covered pending w -> DeliveryWindow.covered pending (sent_all now out w).
Proof.
  induction out as [|m out IH]; intros w Hs Hc; [done|]. apply IH; [set_solver|].
  apply DeliveryWindow.sent_covered; [set_solver|done].
Qed.

(** The messages that a recipient is shown next. *)
Definition next_pending (uid : Z) (t : Tables) : list TextMessage :=
  row_message <$> take 32 (pending_rows uid t).

Lemma next_pending_keys uid t : messages_ok t -> NoDup (DeliveryWindow.key <$> next_pending uid t).
Proof.
  intros Hok. unfold next_pending. rewrite pending_rows_eq by done. destruct Hok as [Hu _].
  apply (NoDup_fmap_1 (fun k : Z * string => (k.1, weight k.2))).
  rewrite <- !list_fmap_compose.
  eapply sublist_NoDup; [exact Hu|]. apply fmap_sublist.
  etrans; [apply sublist_take|apply sublist_filter].
Qed.

(** C7. Delivery to a recipient: the handler returns, changes no table, and
    appends to the session's frames the notices of a beginning of the pending
    messages that are due, oldest first and each once. Unless the session is
    closed or the query failed (then nothing is sent and the retry schedule is
    kept), the schedule is that of the at most 32 messages still pending, and
    all that are due have been sent unless the send queue refuses frames. *)
Theorem delivery_bounded o id uid s : messages_ok (committed (mysql s)) ->
  let pending := next_pending uid (committed (mysql s)) in
  let w := DeliveryWindow.reconcile pending (window (get_delivery id s)) in
  let '(r, s') := DeliverPendingTextMessages o id uid s in
  r = Returns tt /\ committed (mysql s') = committed (mysql s) /\
  exists out, frames_to id s' = frames_to id s ++ (notice_frame <$> out) /\
    delivered s' = delivered s + Z.of_nat (length out) /\
    out `prefix_of` filter (is_due (o_now o) w) pending /\
    (out = [] /\ window (get_delivery id s') = window (get_delivery id s) /\
       (is_closed id (net s) = true \/ (GetPendingTextMessages uid 32 (mysql s)).1 = Returns None) \/
     window (get_delivery id s') = sent_all (o_now o) out w /\
       DeliveryWindow.size (window (get_delivery id s')) <= 32 /\
       (out = filter (is_due (o_now o) w) pending \/
        exists m, m ∈ pending /\ (Send id (notice m) ID_NOTIFY_TEXT_CHAT_MSG_REQ s').1 = Returns false)).
Proof.
  intros Hok pending w. unfold DeliverPendingTextMessages, mbind, prog_bind, IsClosed, gets, put_delivery, modify.
  destruct (is_closed id (net s)) eqn:Hcl.
  { split_and!; [done..|]. exists []. rewrite app_nil_r. split_and!; [done|simpl; lia|apply prefix_nil|].
    left. auto. }
  set (d := get_delivery id s) in *. unfold on_mysql. cbn [mysql set_delivery].
  destruct (pending_spec uid 32 (mysql s)) as (result & d' & Eq & Ec & _ & Hr).
  change (GetPendingTextMessages uid DeliveryWindow.Capacity (mysql s)) with (GetPendingTextMessages uid 32 (mysql s)).
  rewrite Eq. destruct result as [l|].
  2: { split_and!; [done..|]. exists []. rewrite app_nil_r. split_and!; [done|simpl; lia|apply prefix_nil|].
       left. split_and!; [done| |by right]. unfold get_delivery. simpl. by rewrite lookup_insert_eq. }
  destruct Hr as [|[_ Hl]]; [done|]. injection Hl as Hl. change (Z.to_nat 32) with 32%nat in Hl.
  fold (next_pending uid (committed (mysql s))) in Hl. fold pending in Hl. subst l.
  set (idle := if bool_decide _ then _ else _). set (s1 := set_delivery _ _).
  assert (get_delivery id s1 = mkDeliveryState w (o_now o + seconds idle) idle) as Eg.
  { subst s1. unfold get_delivery. simpl. by rewrite lookup_insert_eq. }
  destruct (deliver_loop_spec id (o_now o) pending s1 (next_pending_keys _ _ Hok))
    as (out & s' & -> & Hpre & Hor & Hf & Hmy & Hde & Hg). rewrite Eg in *. cbn [window] in *.
  split_and!; [done|by rewrite Hmy|]. exists out. split_and!; try done. right. rewrite Hg. cbn [window].
  split_and!; [done| |done]. etrans; [apply (DeliveryWindow.covered_size pending)|].
  - apply sent_all_covered; [|apply DeliveryWindow.reconcile_covered].
    intros x Hx. destruct Hpre as [k Ek]. assert (x ∈ filter (is_due (o_now o) w) pending) by (rewrite Ek; set_solver).
    by apply list_elem_of_filter in H0 as [_ ?].
  - unfold pending, next_pending. rewrite length_fmap, length_take. lia.
Qed.

End Delivering.

(** ** Examples *)

Module Example.
Import ToyJson.

Instance example_collation : Collation := fold_case.

(** Two users connected to one server. *)
Definition example_net : Server :=
  let w := HandleAccept "s1" false "s2" (set_pending None (Start "s1" Server.create)) in
  let w := HandleAccept "s2" false "s3" (set_pending None w) in
  let w := UserMgr.SetUserSession 1001 "s1" (SetUserId "s1" 1001 w) in
  UserMgr.SetUserSession 1002 "s2" (SetUserId "s2" 1002 w).

Definition example_logic : Logic :=
  mkLogic (healthy befriended 0) DistLock.idle_redis example_net ∅ ∅ [] [] [] [] 0 0 0 0.

Definition example_outside : Outside := mkOutside 0 "chat1" true true true "token".

(** A frame from 1001 to 1002 with one message. *)
Definition example_frame : string :=
  toStyledString (object
    [("touid"%string, of_int 1002);
     ("text_array"%string, append null (object
        [("msgid"%string, of_string "m-9"); ("content"%string, of_string "hi")]))]).

Lemma accepted_is_durable_witness :
  exists rt s', TextChatMsgCallback example_outside "s1" example_frame example_logic = (Returns tt, s') /\
    frames_to "s1" s' = [SendNode (toStyledString rt) ID_TEXT_CHAT_MSG_RSP] /\
    stored (committed (mysql s')) (mkTextMessage "m-9" 1001 1002 "hi").
Proof.
  pose proof (accepted_is_durable example_outside "s1" example_frame example_logic) as H.
  assert (length (frames_to "s1" (TextChatMsgCallback example_outside "s1" example_frame example_logic).2) = 1%nat)
    as Hne by (vm_compute; reflexivity).
  assert (existsb (fun r => bool_decide (row_message r = mkTextMessage "m-9" 1001 1002 "hi"))
    (chat_message (committed (mysql (TextChatMsgCallback example_outside "s1" example_frame example_logic).2))) = true)
    as Hst by (vm_compute; reflexivity).
  assert (frames_to "s1" example_logic = []) as H0 by (vm_compute; reflexivity). rewrite H0 in H.
  destruct (TextChatMsgCallback example_outside "s1" example_frame example_logic) as [r s']. cbn [snd] in Hne, Hst.
  destruct H as [-> [[Hf _]|(rt & root & arrays & touid & _ & _ & _ & [Hf|Hf] & _)]];
    [by rewrite Hf in Hne|by rewrite Hf in Hne|].
  exists rt, s'. split_and!; [reflexivity|exact Hf|]. apply existsb_exists in Hst as (row & Hin & E).
  apply bool_decide_eq_true_1 in E. exists row. injection E as -> -> -> ->.
  split_and!; [by apply list_elem_of_In|reflexivity..].
Defined.

Lemma befriended_messages_ok : messages_ok befriended.
Proof.
  split.
  - by apply (bool_decide_unpack (NoDup (row_key <$> chat_message befriended))); vm_compute.
  - by repeat constructor.
Qed.

Lemma delivery_bounded_witness : exists s',
  DeliverPendingTextMessages example_outside "s2" 1002 example_logic = (Returns tt, s') /\
  committed (mysql s') = befriended /\ frames_to "s2" s' = [notice_frame (mkTextMessage "m-1" 1001 1002 "hello")].
Proof.
  pose proof (delivery_bounded example_outside "s2" 1002 example_logic befriended_messages_ok) as H.
  assert (frames_to "s2" (DeliverPendingTextMessages example_outside "s2" 1002 example_logic).2 =
          [notice_frame (mkTextMessage "m-1" 1001 1002 "hello")]) as Hf by (vm_compute; reflexivity).
  cbn zeta in H. destruct (DeliverPendingTextMessages example_outside "s2" 1002 example_logic) as [r s'].
  destruct H as (-> & Hc & _). exists s'. split_and!; [reflexivity|exact Hc|exact Hf].
Defined.

End Example.
