(* ===== verification/DeliveryTick.v ===== *)
(** The periodic round of a shard over its delivery states:
    [LogicSystem::Tick] of [src/servers/chat/service/LogicSystem.cpp].  Its
    metrics are left out. *)
From S2P Require Import Prelude Messages Mysql Schema MessageDao FriendDao Redis Session Server Json Logic.

(** ** The order of [std::map<std::string, ...>] *)

(** The order of the bytes, as the comparison of [std::string] has it. *)
Abbreviation key_le := (String.le).
Abbreviation key_lt := (strict key_le).

(** The least of the keys, if there is one. *)
Definition least (l : list string) : option string :=
  foldr (fun k m => match m with Some x => if decide (key_lt k x) then Some k else Some x | None => Some k end) None l.

(** [upper_bound(cursor)], or [begin()] when that is the end. *)
Definition next_key (cursor : string) (l : list string) : option string :=
  match least (filter (key_lt cursor) l) with
  | Some k => Some k
  | None => least l
  end.

Lemma key_not_le a b : ~ key_le a b -> key_lt b a.
Proof. intros H. destruct (base.total key_le a b); [done|by split]. Qed.

Lemma key_lt_le a b : key_lt a b -> key_le a b.
Proof. by intros []. Qed.

Lemma key_le_neq a b : key_le a b -> a <> b -> key_lt a b.
Proof. intros H1 H2. split; [done|]. intros H3. apply H2. by apply (anti_symm key_le). Qed.

Lemma key_lt_trans a b c : key_lt a b -> key_lt b c -> key_lt a c.
Proof. intros. by transitivity b. Qed.

Lemma key_lt_le_trans a b c : key_lt a b -> key_le b c -> key_lt a c.
Proof. intros [H1 H2] H3. split; [by transitivity b|]. intros H4. apply H2. by transitivity c. Qed.

Lemma key_le_lt_trans a b c : key_le a b -> key_lt b c -> key_lt a c.
Proof. intros H1 [H2 H3]. split; [by transitivity b|]. intros H4. apply H3. by transitivity a. Qed.

Lemma key_lt_irrefl a : ~ key_lt a a.
Proof. by intros []. Qed.

Lemma least_spec l : match least l with
  | Some k => k ∈ l /\ forall x, x ∈ l -> key_le k x
  | None => l = []
  end.
Proof.
  induction l as [|a l IH]; [done|]. unfold least. cbn [foldr]. fold (least l). destruct (least l) as [k|].
  - destruct IH as [Hk Hmin]. case_decide as Hd.
    + split; [by left|]. intros x [->|Hx]%elem_of_cons; [done|]. etrans; [by apply key_lt_le|by apply Hmin].
    + split; [by right|]. intros x [->|Hx]%elem_of_cons; [|by apply Hmin].
      destruct (base.total key_le k a) as [|Hle]; [done|]. destruct (decide (a = k)) as [->|Hne]; [done|]. by destruct Hd; apply key_le_neq.
  - subst l. split; [by left|]. by intros x ->%list_elem_of_singleton.
Qed.

Lemma next_key_spec cursor l : match next_key cursor l with
  | Some k => k ∈ l /\ ((key_lt cursor k /\ forall x, x ∈ l -> key_lt cursor x -> key_le k x) \/
                      ((forall x, x ∈ l -> key_le x cursor) /\ forall x, x ∈ l -> key_le k x))
  | None => l = []
  end.
Proof.
  unfold next_key. pose proof (least_spec (filter (key_lt cursor) l)) as Hf. destruct (least (filter _ l)) as [k|].
  - destruct Hf as [[Hk Hin]%list_elem_of_filter Hmin]. split; [done|]. left. split; [done|]. intros x Hx Hlt.
    apply Hmin. by apply list_elem_of_filter.
  - pose proof (least_spec l) as Hl. destruct (least l) as [k|]; [|done]. destruct Hl as [Hk Hmin]. split; [done|]. right.
    split; [|done]. intros x Hx. destruct (decide (key_le x cursor)) as [|Hn]; [done|]. apply key_not_le in Hn.
    assert (x ∈ filter (key_lt cursor) l) as Hin by by apply list_elem_of_filter. rewrite Hf in Hin. by apply elem_of_nil in Hin.
Qed.

(** *** How far the cursor is from a key *)

(** The keys that the cursor meets on its way to [k]. *)
Definition ahead (cursor k x : string) : Prop :=
  if decide (key_lt cursor k) then key_lt cursor x /\ key_le x k else key_lt cursor x \/ key_le x k.
#[export] Instance ahead_dec cursor k x : Decision (ahead cursor k x).
Proof. unfold ahead. destruct (decide _); apply _. Defined.

Lemma ahead_self cursor k : ahead cursor k k.
Proof. unfold ahead. case_decide; [by split|by right]. Qed.

(** A step that does not meet [k] comes nearer to it. *)
Lemma ahead_step cursor k l c x : next_key cursor l = Some c -> k ∈ l -> c <> k -> x ∈ l ->
  ahead cursor k c /\ (ahead c k x -> ahead cursor k x /\ x <> c).
Proof.
  intros E Hk Hne Hx. pose proof (next_key_spec cursor l) as Hn. rewrite E in Hn. destruct Hn as [Hc [[Hlt Hmin]|[Hall Hmin]]]; unfold ahead.
  - destruct (decide (key_lt cursor k)) as [Hck|Hck].
    + assert (key_lt c k) as Hck' by (apply key_le_neq; auto). split; [split; [done|by apply key_lt_le]|].
      rewrite decide_True by done. intros [H1 H2]. split; [split; [by apply (key_lt_trans _ c)|done]|]. intros ->. by apply key_lt_irrefl in H1.
    + assert (key_lt k c) as Hkc.
      { apply key_not_le. intros Hle. apply Hck. by apply (key_lt_le_trans _ c). }
      split; [by left|]. rewrite decide_False by (intros H; by destruct (key_lt_irrefl c); apply (key_lt_trans _ k)).
      intros [H1|H2]; (split; [|intros ->]).
      * left. by apply (key_lt_trans _ c).
      * by apply key_lt_irrefl in H1.
      * by right.
      * destruct (key_lt_irrefl c). by apply (key_le_lt_trans _ k).
  - assert (~ key_lt cursor k) as Hck.
    { intros H. destruct (key_lt_irrefl cursor). apply (key_lt_le_trans _ k); auto. }
    destruct (decide (key_lt cursor k)); [done|]. assert (key_lt c k) as Hck' by (apply key_le_neq; auto). rewrite decide_True by done.
    split; [right; by apply key_lt_le|]. intros [H1 H2]. split; [by right|]. intros ->. by apply key_lt_irrefl in H1.
Qed.

Section Tick.
Context `{J : Json} `{Collation}.

(** The sessions whose object still exists, and those of the shard. *)
Context (exists_ mine : string -> bool).

Definition states (s : Logic) : gmap string DeliveryState := filter (fun p => mine p.1 = true) (delivery s).

Definition erase (id : string) (s : Logic) : Logic := set_delivery (delete id (delivery s)) s.

Fixpoint tick_loop (o : Outside) (budget queries : nat) (cursor : string) (s : Logic) : string * Logic :=
  match budget with
  | O => (cursor, s)
  | S budget =>
      match next_key cursor (elements (dom (states s))) with
      | None => (cursor, s)
      | Some id =>
          if (4 <=? queries)%nat then (cursor, s)
          else if negb (exists_ id) || is_closed id (net s)
               || negb (bool_decide (UserMgr.GetSession (uid_of id (net s)) (net s) = Some id))
          then tick_loop o budget queries id (erase id s)
          else if next (get_delivery id s) <=? o_now o
          then tick_loop o budget (S queries) id (DeliverPendingTextMessages o id (uid_of id (net s)) s).2
          else tick_loop o budget queries id s
      end
  end.

Definition Tick (o : Outside) (p : string * Logic) : string * Logic :=
  tick_loop o (Nat.min (size (states p.2)) 128) 0 p.1 p.2.

(** *** A delivery *)

(** The session is the current one of its user. *)
Definition live (id : string) (w : Server) : Prop :=
  is_closed id w = false /\ UserMgr.GetSession (uid_of id w) w = Some id.

Lemma is_closed_flag_mono id id' w : is_closed id' w = true -> is_closed id' (close_flag id w) = true.
Proof.
  intros Hc. unfold close_flag. destruct (is_closed id w) eqn:E; [done|]. unfold is_closed in *. cbn.
  destruct (decide (id = id')) as [->|Hne]; [|by rewrite lookup_alter_ne].
  rewrite lookup_alter_eq. by destruct (objects w !! id').
Qed.

Lemma close_live id j w : live id (Server.Close j w) -> live id w.
Proof.
  unfold Server.Close. destruct (is_closed j w); [done|]. intros [Hc Hu].
  destruct (ClearSession_tables j (close_flag j w)) as (Eo & _ & _ & _ & _ & Eu).
  assert (forall k, is_closed k (ClearSession j (close_flag j w)) = is_closed k (close_flag j w)) as Ec
    by (intros k; unfold is_closed; by rewrite Eo).
  assert (uid_of id (ClearSession j (close_flag j w)) = uid_of id w) as Ei by (unfold uid_of at 1; rewrite Eo; apply uid_of_flag).
  rewrite Ec in Hc. rewrite Ei in Hu. unfold UserMgr.GetSession in *. split.
  - destruct (is_closed id w) eqn:E; [|done]. rewrite is_closed_flag_mono in Hc by done. done.
  - destruct (close_flag_tables j w) as (_ & Ef & _). destruct Eu as [Eu|[Eu _]]; rewrite Eu, Ef in Hu; [done|].
    by apply lookup_delete_Some in Hu as [_ Hu].
Qed.

Lemma Send_tick id msg msgid s : exists ok s', Send id msg msgid s = (Returns ok, s') /\ delivery s' = delivery s /\
  forall j, live j (net s') -> live j (net s).
Proof.
  unfold Send. destruct (SendQueue.Send _ _ _) as [ok q]. exists ok. destruct (SendQueue.b_close q); (eexists; split; [done|]);
    (split; [done|]); [|done]. intros j. apply close_live.
Qed.

Definition idle_ok (s : Logic) : Prop := forall id d, delivery s !! id = Some d -> 1 <= idle_seconds d <= 30.

Lemma deliver_loop_tick id now pending : forall s d, delivery s !! id = Some d ->
  exists s' w, deliver_loop id now pending s = (Returns tt, s') /\
    delivery s' = <[id := mkDeliveryState w (next d) (idle_seconds d)]> (delivery s) /\ forall j, live j (net s') -> live j (net s).
Proof.
  induction pending as [|m pending IH]; intros s d Hd; cbn [deliver_loop].
  { exists s, (window d). split_and!; [done| |done]. symmetry. apply insert_id. rewrite Hd. by destruct d. }
  unfold mbind, prog_bind, gets. assert (get_delivery id s = d) as -> by (unfold get_delivery; by rewrite Hd).
  destruct (DeliveryWindow.due _ _ _); cbn [negb]; [|by apply IH].
  destruct (Send_tick id (notice m) ID_NOTIFY_TEXT_CHAT_MSG_REQ s) as (ok & s1 & -> & Ed & Hl). destruct ok; cbn [negb].
  2: { exists s1, (window d). split_and!; [done| |done]. rewrite Ed. symmetry. apply insert_id. rewrite Hd. by destruct d. }
  destruct (DeliveryWindow.sent _ _ _) as [retry w]. unfold put_delivery, modify. set (s2 := count_sent retry _).
  destruct (IH s2 (mkDeliveryState w (next d) (idle_seconds d))) as (s' & w' & -> & E & Hl'); [cbn; by rewrite lookup_insert_eq|].
  exists s', w'. split_and!; [done| |intros j Hj; by apply Hl, Hl']. rewrite E. cbn. by rewrite Ed, insert_insert_eq.
Qed.

Lemma deliver_tick o id uid s : is_closed id (net s) = false -> idle_ok s -> let s' := (DeliverPendingTextMessages o id uid s).2 in
  exists d, delivery s' = <[id := d]> (delivery s) /\ o_now o < next d /\ idle_ok s' /\ forall j, live j (net s') -> live j (net s).
Proof.
  intros Hc Hi. unfold DeliverPendingTextMessages, mbind, prog_bind, IsClosed, gets, put_delivery, modify. rewrite Hc.
  set (d0 := get_delivery id s). unfold on_mysql. cbn [mysql set_delivery].
  assert (1 <= idle_seconds d0 <= 30) as Hd0.
  { unfold d0, get_delivery. destruct (delivery s !! id) as [d|] eqn:E; [by eapply Hi|done]. }
  assert (1 <= Z.min (u32 (idle_seconds d0 * 2)) 30 <= 30) as Hidle by (unfold u32; rewrite Z.mod_small; lia).
  assert (forall d m, delivery m = <[id := d]> (delivery s) -> 1 <= idle_seconds d <= 30 -> idle_ok m) as Hok.
  { intros d m Em Hd k d' Hk. rewrite Em in Hk. apply lookup_insert_Some in Hk as [[_ <-]|[_ Hk]]; [done|by eapply Hi]. }
  destruct (pending_spec uid 32 (mysql s)) as (result & db' & Eq & _).
  change (GetPendingTextMessages uid DeliveryWindow.Capacity (mysql s)) with (GetPendingTextMessages uid 32 (mysql s)).
  rewrite Eq. destruct result as [l|].
  - set (idle := if bool_decide _ then _ else _). assert (1 <= idle <= 30) as Hid by (unfold idle; destruct (bool_decide _); lia).
    set (s1 := set_delivery _ _). destruct (deliver_loop_tick id (o_now o) l s1
      (mkDeliveryState (DeliveryWindow.reconcile l (window d0)) (o_now o + seconds idle) idle)) as (s' & w & -> & E & Hl);
      [cbn; by rewrite lookup_insert_eq|].
    cbn [snd next idle_seconds] in *. eexists. cbn in E. rewrite !insert_insert_eq in E. split_and!; [exact E| |by eapply Hok|exact Hl].
    cbn. unfold seconds. lia.
  - cbn [snd]. eexists. split_and!; [exact (insert_insert_eq _ _ _ _)| |eapply Hok; [exact (insert_insert_eq _ _ _ _)|]|done].
    + cbn. unfold seconds. lia.
    + cbn. lia.
Qed.

(** *** A round *)

Definition served (id : string) (t : Z) (s : Logic) : Prop := forall d, delivery s !! id = Some d -> t < next d.

Definition distance (id cursor : string) (s : Logic) : nat := size (filter (ahead cursor id) (dom (states s))).

#[local] Instance served_dec id t s : Decision (served id t s).
Proof.
  destruct (delivery s !! id) as [d|] eqn:E.
  - destruct (decide (t < next d)); [left|right]; unfold served; rewrite E; naive_solver.
  - left. unfold served. by rewrite E.
Defined.

Lemma in_states id s : id ∈ dom (states s) <-> is_Some (delivery s !! id) /\ mine id = true.
Proof.
  rewrite elem_of_dom. unfold states. split.
  - intros [d [Hd Hm]%map_lookup_filter_Some]. split; [by exists d|done].
  - intros [[d Hd] Hm]. exists d. by apply map_lookup_filter_Some.
Qed.

Lemma distance_size id cursor s : (distance id cursor s <= size (states s))%nat.
Proof. unfold distance. rewrite <- size_dom. apply subseteq_size. set_solver. Qed.

Lemma distance_zero id t cursor s : mine id = true -> distance id cursor s = O -> served id t s.
Proof.
  intros Hm Hz d Hd. apply size_empty_iff in Hz. exfalso.
  assert (id ∈ filter (ahead cursor id) (dom (states s))) as Hin; [|set_solver].
  apply elem_of_filter. split; [apply ahead_self|]. apply in_states. split; [by exists d|done].
Qed.

(** The keys only become fewer. *)
Lemma distance_step id cursor c s s' : id ∈ dom (states s) -> next_key cursor (elements (dom (states s))) = Some c -> c <> id ->
  dom (states s') ⊆ dom (states s) -> (distance id c s' + 1 <= distance id cursor s)%nat.
Proof.
  intros Hid E Hne Hsub. unfold distance.
  assert (c ∈ dom (states s)) as Hc.
  { pose proof (next_key_spec cursor (elements (dom (states s)))) as Hn. rewrite E in Hn. apply elem_of_elements, Hn. }
  assert (forall x, x ∈ dom (states s) -> ahead cursor id c /\ (ahead c id x -> ahead cursor id x /\ x <> c)) as Hstep.
  { intros x Hx. eapply ahead_step; [exact E|by apply elem_of_elements|done|by apply elem_of_elements]. }
  assert (filter (ahead c id) (dom (states s')) ⊂ filter (ahead cursor id) (dom (states s))) as Hss%subset_size; [|lia].
  split.
  - intros x [Hx Hin]%elem_of_filter. apply elem_of_filter. destruct (Hstep x (Hsub x Hin)) as [_ Hs]. split; [by apply Hs|auto].
  - intros Hback. assert (c ∈ filter (ahead c id) (dom (states s'))) as [Hx Hin]%elem_of_filter.
    { apply Hback. apply elem_of_filter. split; [exact (proj1 (Hstep c Hc))|done]. }
    destruct (Hstep c Hc) as [_ H2]. by destruct (H2 Hx).
Qed.

Lemma next_key_in cursor s c : next_key cursor (elements (dom (states s))) = Some c -> c ∈ dom (states s).
Proof. intros E. pose proof (next_key_spec cursor (elements (dom (states s)))) as Hn. rewrite E in Hn. apply elem_of_elements, Hn. Qed.

Lemma states_insert id d s s' : delivery s' = <[id := d]> (delivery s) -> id ∈ dom (states s) -> dom (states s') ⊆ dom (states s).
Proof.
  intros E Hid x [Hx Hm]%in_states. apply in_states. split; [|done]. rewrite E in Hx. apply in_states in Hid as [Hid _].
  destruct (decide (x = id)) as [->|Hne]; [done|]. by rewrite lookup_insert_ne in Hx.
Qed.

Lemma states_erase id s : dom (states (erase id s)) ⊆ dom (states s).
Proof.
  intros x [Hx Hm]%in_states. apply in_states. split; [|done]. cbn in Hx. destruct Hx as [d Hx].
  apply lookup_delete_Some in Hx as [_ Hx]. by exists d.
Qed.

Lemma erase_idle id s : idle_ok s -> idle_ok (erase id s).
Proof. intros Hi k d Hk. cbn in Hk. apply lookup_delete_Some in Hk as [_ Hk]. by eapply Hi. Qed.

(** What a round does to one session: it keeps the state of a live one, its
    next delivery only moves into the future, and as long as the round has not
    come to the session it has come nearer. *)
Definition advances (id : string) (t : Z) (n : nat) (cursor cursor' : string) (s s' : Logic) : Prop :=
  idle_ok s' /\ (forall j, live j (net s') -> live j (net s)) /\ (served id t s -> served id t s') /\
  (served id t s' \/ (distance id cursor' s' + n <= distance id cursor s)%nat) /\
  (is_Some (delivery s !! id) -> live id (net s') -> is_Some (delivery s' !! id)).

(** One turn of the loop, and the rest. *)
Lemma advances_turn id t n c cursor cursor' s s1 s' : mine id = true -> next_key cursor (elements (dom (states s))) = Some c ->
  dom (states s1) ⊆ dom (states s) -> (forall j, live j (net s1) -> live j (net s)) ->
  (served id t s -> served id t s1) -> (c = id -> served id t s1) ->
  (is_Some (delivery s !! id) -> live id (net s1) -> is_Some (delivery s1 !! id)) ->
  advances id t n c cursor' s1 s' -> advances id t (S n) cursor cursor' s s'.
Proof.
  intros Hm E Hsub Hl Hs Hid Hp (H1 & H2 & H3 & H4 & H5). split_and!; [done|auto|auto| |auto].
  destruct (decide (served id t s')) as [|Hn]; [by left|right].
  destruct H4 as [|H4]; [done|]. destruct (decide (id ∈ dom (states s))) as [Hin|Hin].
  - assert (c <> id) as Hne by (intros ->; auto). pose proof (distance_step id cursor c s s1 Hin E Hne Hsub). lia.
  - destruct Hn. apply H3, Hs. intros d Hd. destruct Hin. apply in_states. split; [by exists d|done].
Qed.

Lemma tick_loop_advances o id t budget : mine id = true -> exists_ id = true -> t <= o_now o -> forall queries cursor s, idle_ok s ->
  let '(cursor', s') := tick_loop o budget queries cursor s in advances id t (Nat.min budget (4 - queries)) cursor cursor' s s'.
Proof.
  intros Hm He Ht. induction budget as [|budget IH]; intros queries cursor s Hi; cbn [tick_loop].
  { split_and!; auto with lia. }
  destruct (next_key cursor (elements (dom (states s)))) as [c|] eqn:E.
  2: { split_and!; auto. left. apply (distance_zero id t cursor); [done|]. pose proof (next_key_spec cursor (elements (dom (states s)))) as Hn.
       rewrite E in Hn. apply elements_empty_inv in Hn. unfold distance. apply size_empty_iff. set_solver. }
  destruct (4 <=? queries)%nat eqn:Eq; [split_and!; auto; right; apply Nat.leb_le in Eq; lia|]. apply Nat.leb_gt in Eq.
  pose proof (next_key_in cursor s c E) as Hc. replace (Nat.min (S budget) (4 - queries)) with (S (Nat.min budget (3 - queries))) by lia.
  assert (forall q s1, (3 - queries <= 4 - q)%nat -> idle_ok s1 -> dom (states s1) ⊆ dom (states s) -> (forall j, live j (net s1) -> live j (net s)) ->
    (served id t s -> served id t s1) -> (c = id -> served id t s1) ->
    (is_Some (delivery s !! id) -> live id (net s1) -> is_Some (delivery s1 !! id)) ->
    let '(cursor', s') := tick_loop o budget q c s1 in advances id t (S (Nat.min budget (3 - queries))) cursor cursor' s s') as Hturn.
  { intros q s1 Hq Hi1 Hsub Hl Hs Hid Hp. specialize (IH q c s1 Hi1). destruct (tick_loop o budget q c s1) as [cursor' s'].
    eapply advances_turn; try done. destruct IH as (? & ? & ? & [?|?] & ?); split_and!; auto. right. lia. }
  destruct (_ || _ || _) eqn:Eg.
  - apply Hturn; [lia|by apply erase_idle|apply states_erase|done| |intros <-; intros d Hd|].
    + intros Hs d Hd. cbn in Hd. apply lookup_delete_Some in Hd as [_ Hd]. by apply Hs.
    + cbn in Hd. by rewrite lookup_delete_eq in Hd.
    + intros Hp [Hcl Hu]. cbn in Hcl, Hu. cbn. rewrite lookup_delete_ne; [done|]. intros ->.
      rewrite He, Hcl, bool_decide_eq_true_2 in Eg by done. done.
  - apply orb_false_iff in Eg as [[_ Ecl]%orb_false_iff _]. destruct (next (get_delivery c s) <=? o_now o) eqn:Ed.
    + destruct (deliver_tick o c (uid_of c (net s)) s Ecl Hi) as (d & Edl & Hd & Hi' & Hl).
      apply Hturn; [lia|done|by eapply states_insert|done| | |].
      * intros Hs d' Hd'. rewrite Edl in Hd'. apply lookup_insert_Some in Hd' as [[_ <-]|[_ Hd']]; [lia|by apply Hs].
      * intros -> d' Hd'. rewrite Edl, lookup_insert_eq in Hd'. injection Hd' as <-. lia.
      * intros Hp _. rewrite Edl. destruct (decide (c = id)) as [->|]; [by rewrite lookup_insert_eq|by rewrite lookup_insert_ne].
    + apply Z.leb_gt in Ed. apply Hturn; try done; [lia|]. intros -> d Hd. unfold get_delivery in Ed. rewrite Hd in Ed. cbn in Ed. lia.
Qed.

Lemma Tick_advances o id t p : mine id = true -> exists_ id = true -> t <= o_now o -> idle_ok p.2 ->
  advances id t (Nat.min (size (states p.2)) 4) p.1 (Tick o p).1 p.2 (Tick o p).2.
Proof.
  intros Hm He Ht Hi. pose proof (tick_loop_advances o id t (Nat.min (size (states p.2)) 128) Hm He Ht 0 p.1 p.2 Hi) as Ha.
  fold (Tick o p) in Ha. destruct (Tick o p) as [cursor' s']. destruct Ha as (? & ? & ? & [?|?] & ?); split_and!; auto. right. cbn [fst snd]. lia.
Qed.

Lemma Ticks_serve id t os : mine id = true -> exists_ id = true -> Forall (fun o => t <= o_now o) os -> forall p, idle_ok p.2 ->
  (served id t p.2 \/ (distance id p.1 p.2 <= 4 * length os)%nat) ->
  let s' := (foldl (fun p o => Tick o p) p os).2 in
  served id t s' /\ (is_Some (delivery p.2 !! id) -> live id (net s') -> is_Some (delivery s' !! id)) /\
  (forall j, live j (net s') -> live j (net p.2)).
Proof.
  intros Hm He HF. induction HF as [|o os Ho HF IH]; intros p Hi Hd; cbn [foldl].
  { split_and!; [|done|done]. destruct Hd as [|Hd]; [done|]. apply (distance_zero id t p.1); [done|]. cbn in Hd. lia. }
  pose proof (Tick_advances o id t p Hm He Ho Hi) as (H1 & H2 & H3 & H4 & H5).
  destruct (IH (Tick o p) H1) as (I1 & I2 & I3); [|split_and!; auto].
  destruct Hd as [|Hd]; [auto|]. destruct H4 as [|H4]; [by left|right]. pose proof (distance_size id p.1 p.2). cbn [length] in Hd. lia.
Qed.

(** C8. Every session is served: the rounds of a shard take its sessions in
    turn, at most four deliveries a round, so that after as many rounds as a
    quarter of the sessions of the shard the delivery of a session that was
    due has been tried, however many others were due before it, as long as
    the session is the current one of its user; its next delivery is then in
    the future. *)
Theorem due_session_served os cursor s id t : mine id = true -> exists_ id = true -> idle_ok s -> is_Some (delivery s !! id) ->
  Forall (fun o => t <= o_now o) os -> (size (states s) <= 4 * length os)%nat ->
  let s' := (foldl (fun p o => Tick o p) (cursor, s) os).2 in
  live id (net s') -> exists d, delivery s' !! id = Some d /\ t < next d.
Proof.
  intros Hm He Hi Hd HF Hsz s' Hl. destruct (Ticks_serve id t os Hm He HF (cursor, s) Hi) as (H1 & H2 & _).
  { right. cbn [fst snd]. pose proof (distance_size id cursor s). lia. }
  destruct (H2 Hd Hl) as [d Hd']. exists d. split; [done|]. by apply H1.
Qed.

End Tick.

Module Example.
Import ToyJson.

#[local] Instance tick_collation : Collation := fold_case.

(** Five sessions that are due; the sixth has left. *)
Definition online : list (Z * string) :=
  [(1001, "s1"); (1002, "s2"); (1003, "s3"); (1004, "s4"); (1005, "s5"); (1006, "s6")]%string.
Definition example_net : Server :=
  foldr (fun p w => UserMgr.SetUserSession p.1 p.2 (set_sessions (union {[p.2]}) (set_objects (insert p.2 (mkConn false p.1)) w)))
    Server.create online.
Definition example_tick : Logic :=
  mkLogic (healthy befriended 0) DistLock.idle_redis (Server.Close "s6" example_net) ∅
    (list_to_map ((fun p => (p.2, new_delivery)) <$> online)) [] [] [] [] 0 0 0 0.
Definition at_ (now : Z) : Outside := mkOutside now "chat1" true true true "token".

Lemma due_session_served_witness :
  exists d, delivery (foldl (fun p o => Tick (fun _ => true) (fun _ => true) o p) ("s2"%string, example_tick) [at_ 5; at_ 6]).2 !! "s2"%string = Some d /\ 5 < next d.
Proof.
  apply (due_session_served (fun _ => true) (fun _ => true) [at_ 5; at_ 6] "s2" example_tick "s2" 5); try done.
  - intros id d Hd. apply elem_of_list_to_map_2 in Hd. apply list_elem_of_fmap in Hd as (k & [= -> ->] & _). cbn. lia.
  - by repeat constructor.
  - vm_compute. lia.
Defined.

End Example.
