(* ===== verification/EndToEnd.v ===== *)
(** A message from one client to another: the stores of the clients
    ([MessageStore]), the server's acceptance and its table ([Messages],
    [MessageDao], [FriendDao]), and a network between them that may lose,
    repeat, delay and reorder whatever was sent on it.

    The steps are those of the handlers, on what their frames say:
    [TcpMgr::enqueueText] and [flushOutbox], [TextChatMsgCallback] and
    [TextChatAckCallback] of the server, its delivery
    ([DeliverPendingTextMessages]), and the client's handlers of the
    acceptance and of a notice. Every database call may fail. *)
From S2P Require Import Logic.
From S2P Require Import Prelude Messages Mysql MessageStore Schema MessageDao FriendDao Acceptance.

(** ** The system *)

Inductive packet :=
| Request (from to : Z) (items : list item)      (** [ID_TEXT_CHAT_MSG_REQ] *)
| Reply (resp : Response)                        (** [ID_TEXT_CHAT_MSG_RSP] *)
| Notice (from to : Z) (items : list item)       (** [ID_NOTIFY_TEXT_CHAT_MSG_REQ] *)
| Ack (by_ from : Z) (ids : list string).        (** [ID_TEXT_CHAT_MSG_ACK] *)

(** The stores of the accounts, the server's database, and everything that was
    ever sent. *)
Record System := mkSystem { clients : gmap Z MessageStore; server : db Tables; wire : list packet }.

Definition put_client (uid : Z) (m : MessageStore) (s : System) : System :=
  mkSystem (<[uid := m]> (clients s)) (server s) (wire s).
Definition put_server (d : db Tables) (s : System) : System := mkSystem (clients s) d (wire s).
Definition send (ps : list packet) (s : System) : System := mkSystem (clients s) (server s) (wire s ++ ps).

Section EndToEnd.
Context `{Collation}.

(** The outbox: a message is marked before it is sent. *)
Fixpoint flush (now : Z) (due : list (Z * item)) (m : MessageStore) : list packet * MessageStore :=
  match due with
  | [] => ([], m)
  | (to, i) :: due =>
      match attempted i.1 now m with
      | (Returns true, m) => let '(ps, m') := flush now due m in (Request (uid_ m) to [i] :: ps, m')
      | (_, m) => ([], m)
      end
  end.

(** [n] is how many of the due messages the connection has room for. *)
Definition flush_turn (now limit : Z) (n : nat) (m : MessageStore) : list packet * MessageStore :=
  match pending now limit m with
  | (Returns due, m) => flush now (take n due) m
  | (Throws, m) => ([], m)
  end.

Definition text_of (from to : Z) (i : item) : TextMessage := mkTextMessage i.1 from to i.2.

(** The answer to a batch repeats it. *)
Definition reply (from to : Z) (items : list item) (r : outcome TextMessageService.Result) : Response :=
  match r with
  | Returns TextMessageService.Accepted => MessageStore.mkResponse from 0 "accepted" to items
  | Returns TextMessageService.InvalidRecipient => MessageStore.mkResponse from UidInvalid "" to items
  | Returns TextMessageService.Unavailable => MessageStore.mkResponse from RPC_ERROR "" to items
  | _ => MessageStore.mkResponse from JSON_ERROR "" to items
  end.

Definition notice_of (m : TextMessage) : packet :=
  Notice (sender_uid m) (receiver_uid m) [(client_message_id m, content m)].

(** The acknowledgements of a notice, in batches of the given sizes. *)
Fixpoint batches (sizes : list nat) (ids : list string) : list (list string) :=
  match sizes with
  | [] => [ids]
  | n :: sizes => take n ids :: batches sizes (drop n ids)
  end.

Definition notice_turn (from to : Z) (items : list item) (sizes : list nat) (m : MessageStore) : list packet * MessageStore :=
  match save from to items m with
  | (Returns (Some _), m) => (Ack to from <$> batches sizes (fst <$> items), m)
  | (_, m) => ([], m)
  end.

Inductive event :=
| Compose (uid to : Z) (items : list item)
| Flush (uid now limit : Z) (n : nat)
| Serve (k : nat)                               (** the server gets the packet [k] *)
| Deliver (uid limit : Z)
| Arrive (k : nat) (sizes : list nat)           (** the client it is for gets the packet [k] *)
| Restart (uid : Z).

Definition on_client (uid : Z) (f : MessageStore -> list packet * MessageStore) (s : System) : System :=
  match clients s !! uid with
  | None => s
  | Some m => let '(ps, m) := f m in send ps (put_client uid m s)
  end.

Definition run (s : System) (e : event) : System :=
  match e with
  | Compose uid to items => on_client uid (fun m => ([], (save uid to items m).2)) s
  | Flush uid now limit n => on_client uid (flush_turn now limit n) s
  | Serve k =>
      match wire s !! k with
      | Some (Request from to items) =>
          let '(r, d) := TextMessageService.accept CheckFriendRelation PersistTextMessages from to
                           (text_of from to <$> items) (server s) in
          send [Reply (reply from to items r)] (put_server d s)
      | Some (Ack by_ from ids) => put_server (AcknowledgeTextMessages by_ from ids (server s)).2 s
      | _ => s
      end
  | Deliver uid limit =>
      match GetPendingTextMessages uid limit (server s) with
      | (Returns (Some ms), d) => send (notice_of <$> ms) (put_server d s)
      | (_, d) => put_server d s
      end
  | Arrive k sizes =>
      match wire s !! k with
      | Some (Reply resp) => on_client (fromuid resp) (fun m => ([], (MessageStore.accept resp m).2)) s
      | Some (Notice from to items) => on_client to (notice_turn from to items sizes) s
      | _ => s
      end
  | Restart uid => on_client uid (fun m => ([], run_store (run_store m Close) (Open uid))) s
  end.

(** ** What is where *)

Abbreviation said := (Z * Z * item)%type.

Definition rows_of (m : MessageStore) : list Row := messages (committed (db_ m)).
Definition sident (r : MessageRow) : said := (m_sender r, m_receiver r, (m_client_id r, m_content r)).

(** The client [uid] has the message. *)
Definition at_client (s : System) (uid : Z) (x : said) : Prop :=
  exists m r, clients s !! uid = Some m /\ r ∈ rows_of m /\ identity r = x.
Definition at_server (s : System) (x : said) : Prop := x ∈ sident <$> chat_message (committed (server s)).

(** Up to identifiers that the collation of the server does not tell apart. *)
Definition alike (x y : said) : Prop := x.1 = y.1 /\ weight x.2.1 = weight y.2.1 /\ x.2.2 = y.2.2.

Definition row_ok (s : System) (uid : Z) (r : Row) : Prop :=
  s_sender r <> s_receiver r /\ (s_sender r = uid \/ s_receiver r = uid) /\
  (s_sender r = uid -> match s_state r with
                       | pending_ => True
                       | accepted_ => exists x, alike (identity r) x /\ at_server s x
                       | received_ => False
                       end) /\
  (s_sender r <> uid -> at_server s (identity r)).

Definition server_row_ok (s : System) (r : MessageRow) : Prop :=
  (exists items, Request (m_sender r) (m_receiver r) items ∈ wire s /\ (m_client_id r, m_content r) ∈ items) /\
  (m_acknowledged_at r <> None -> at_client s (m_receiver r) (sident r)).

Definition packet_ok (s : System) (p : packet) : Prop :=
  match p with
  | Request from to items => True
  | Reply resp => error resp = 0 -> delivery resp = "accepted"%string -> forall i, i ∈ text_array resp ->
      exists x, alike (fromuid resp, touid resp, i) x /\ at_server s x
  | Notice from to items => forall i, i ∈ items -> at_server s (from, to, i)
  | Ack by_ from ids => from <> by_ /\ forall id, id ∈ ids -> exists c, at_client s by_ (from, by_, (id, c))
  end.

Record Safe (s : System) : Prop := {
  sf_clients : forall uid m, clients s !! uid = Some m ->
    no_leftover (db_ m) /\ (uid_ m = 0 \/ uid_ m = uid) /\ Forall (row_ok s uid) (rows_of m);
  sf_keys : messages_ok (committed (server s));
  sf_rows : Forall (server_row_ok s) (chat_message (committed (server s)));
  sf_wire : Forall (packet_ok s) (wire s);
}.

(** Nothing that was anywhere is lost. *)
Definition grows (s s' : System) : Prop :=
  (forall uid x, at_client s uid x -> at_client s' uid x) /\ (forall x, at_server s x -> at_server s' x) /\
  wire s ⊆ wire s'.

Lemma row_ok_grows s s' uid r : grows s s' -> row_ok s uid r -> row_ok s' uid r.
Proof.
  intros (Hc & Hs & _) (H1 & H2 & H3 & H4). split_and!; [done|done| |auto]. intros Hu. specialize (H3 Hu).
  destruct (s_state r); [done| |done]. destruct H3 as (x & ? & ?). exists x. auto.
Qed.

Lemma server_row_ok_grows s s' r : grows s s' -> server_row_ok s r -> server_row_ok s' r.
Proof.
  intros (Hc & _ & Hw) [(items & Hi & Hin) H1]. split; [exists items; auto|auto].
Qed.

Lemma packet_ok_grows s s' p : grows s s' -> packet_ok s p -> packet_ok s' p.
Proof.
  intros (Hc & Hs & _). destruct p as [from to items|resp|from to items|by_ from ids]; cbn.
  - done.
  - intros Hp He Hd i Hi. destruct (Hp He Hd i Hi) as (x & ? & ?). exists x. auto.
  - auto.
  - intros [Hne Hp]. split; [done|]. intros id Hid. destruct (Hp id Hid) as [c ?]. exists c. auto.
Qed.

Lemma grows_refl s : grows s s.
Proof. done. Qed.

Lemma grows_client s uid m m' : clients s !! uid = Some m ->
  (forall r, r ∈ rows_of m -> exists r', r' ∈ rows_of m' /\ identity r' = identity r) -> grows s (put_client uid m' s).
Proof.
  intros Hm Hk. split_and!; [|done|done]. intros uid' x (m1 & r & Hm1 & Hr & Hx). unfold at_client, put_client. cbn.
  destruct (decide (uid' = uid)) as [->|Hne]; [|exists m1, r; by rewrite lookup_insert_ne].
  assert (m1 = m) as -> by congruence. destruct (Hk r Hr) as (r' & Hr' & E). exists m', r'. rewrite lookup_insert_eq.
  split_and!; [done|done|congruence].
Qed.

(** A client's turn. *)
Lemma safe_client s uid m m' ps : Safe s -> clients s !! uid = Some m -> no_leftover (db_ m') -> (uid_ m' = 0 \/ uid_ m' = uid) ->
  (forall r, r ∈ rows_of m -> exists r', r' ∈ rows_of m' /\ identity r' = identity r) ->
  (forall r', r' ∈ rows_of m' -> row_ok s uid r') ->
  Forall (packet_ok (put_client uid m' s)) ps -> Safe (send ps (put_client uid m' s)).
Proof.
  intros Hs Hm Hn Hu Hk Hr Hp. pose proof (grows_client s uid m m' Hm Hk) as Hg. destruct Hs as [H1 H2 H3 H4].
  assert (grows s (send ps (put_client uid m' s))) as Hg'.
  { destruct Hg as (? & ? & ?). split_and!; [done|done|]. cbn. set_solver. }
  split; cbn [clients server wire send put_client].
  - intros uid' m1 Hm1. destruct (decide (uid' = uid)) as [->|Hne].
    + rewrite lookup_insert_eq in Hm1. injection Hm1 as <-. split_and!; [done|done|]. apply Forall_forall. intros r' Hr'.
      eapply row_ok_grows; [exact Hg'|auto].
    + rewrite lookup_insert_ne in Hm1 by done. destruct (H1 uid' m1 Hm1) as (? & ? & HF). split_and!; [done|done|].
      eapply Forall_impl; [exact HF|]. intros r. by apply row_ok_grows.
  - done.
  - eapply Forall_impl; [exact H3|]. intros r. by apply server_row_ok_grows.
  - apply Forall_app. split; [eapply Forall_impl; [exact H4|]; intros p; by apply packet_ok_grows|exact Hp].
Qed.

(** The rows after a map that keeps what identifies them. *)
Lemma mapped_rows m m' g : rows_of m' = g <$> rows_of m -> (forall r, identity (g r) = identity r) ->
  forall r, r ∈ rows_of m -> exists r', r' ∈ rows_of m' /\ identity r' = identity r.
Proof. intros E Hg r Hr. exists (g r). rewrite E. split; [by apply list_elem_of_fmap_2|done]. Qed.

Lemma row_ok_state s uid r r' : identity r' = identity r -> s_state r' = s_state r -> row_ok s uid r -> row_ok s uid r'.
Proof.
  unfold row_ok. intros E Es. rewrite Es, E. unfold identity in E. injection E as -> -> _ _. done.
Qed.

(** A call that leaves the rows, or a save. *)
Lemma same_rows m m' : rows_of m' = rows_of m -> forall r, r ∈ rows_of m -> exists r', r' ∈ rows_of m' /\ identity r' = identity r.
Proof. intros E r Hr. exists r. by rewrite E. Qed.

Section Turns.
Context (s : System) (Hs : Safe s).

Lemma turn_quiet uid m m' : clients s !! uid = Some m -> rows_of m' = rows_of m -> no_leftover (db_ m') ->
  (uid_ m' = uid_ m \/ uid_ m' = 0 \/ uid_ m' = uid) -> Safe (send [] (put_client uid m' s)).
Proof.
  intros Hm E Hn Hu. destruct (sf_clients s Hs uid m Hm) as (_ & Hu0 & HF). eapply safe_client; try done.
  - destruct Hu as [->|[->| ->]]; auto.
  - by apply same_rows.
  - rewrite E. by apply Forall_forall.
Qed.

(** [save]: the rows of the batch are there, and no others are new. *)
Lemma save_rows from to items m : no_leftover (db_ m) -> let m' := (save from to items m).2 in
  no_leftover (db_ m') /\ uid_ m' = uid_ m /\ exists new, rows_of m' = rows_of m ++ new /\
    Forall (fun r => s_sender r = from /\ s_receiver r = to /\ s_state r = (if from =? uid_ m then pending_ else received_) /\ (s_msgid r, s_content r) ∈ items) new /\
    (forall fresh, (save from to items m).1 = Returns (Some fresh) -> forall i, i ∈ items -> exists r, r ∈ rows_of m' /\ identity r = (from, to, i)).
Proof.
  intros Hn. destruct (save_spec from to items m Hn) as (H1 & H2 & _ & Hc). cbn zeta. split_and!; [done|done|].
  destruct Hc as [[Hr E]|(fresh & (new & E & Ef & Hnew & Hall & _ & Hsub) & Hr)].
  - exists []. rewrite app_nil_r. split_and!; [exact (f_equal messages E)|done|]. intros fresh E1. congruence.
  - exists new. split_and!; [done| |intros _ _; exact Hall]. apply Forall_forall. intros r Hr'. rewrite Forall_forall in Hnew.
    destruct (Hnew r Hr') as (-> & -> & Es & _). split_and!; [done..|].
    apply Hsub. rewrite Ef. by apply (list_elem_of_fmap_2 (fun r => (s_msgid r, s_content r))).
Qed.

(** What a successful [save] says of the account. *)
Lemma save_grows uid from to items m : clients s !! uid = Some m ->
  (forall i, i ∈ items -> from <> uid -> at_server s (from, to, i)) ->
  (forall r, r ∈ rows_of (save from to items m).2 -> row_ok s uid r) \/ rows_of (save from to items m).2 = rows_of m.
Proof.
  intros Hm Hat. destruct (sf_clients s Hs uid m Hm) as (Hn & Hu & HF).
  destruct (save_rows from to items m Hn) as (_ & _ & new & E & Hnew & _).
  destruct new as [|r0 new]; [right; by rewrite E, app_nil_r|left].
  assert (uid_ m = uid /\ from <> to /\ (from = uid \/ to = uid)) as (Eu & Hft & Hor).
  { assert (rows_of (save from to items m).2 <> rows_of m) as Hgrew.
    { rewrite E. intros E1. apply (f_equal length) in E1. rewrite length_app in E1. simpl in E1. lia. }
    destruct (save_guard from to items m Hn) as [(H1 & H2 & H3)|Hg]; [|unfold rows_of in Hgrew; by rewrite Hg in Hgrew].
    destruct Hu as [?|Hu]; [done|]. by rewrite Hu in H3. }
  rewrite E. intros r [Hr|Hr]%elem_of_app; [rewrite Forall_forall in HF; auto|].
  rewrite Forall_forall in Hnew. destruct (Hnew r Hr) as (E1 & E2 & E3 & E4). unfold row_ok. rewrite E1, E2.
  rewrite E3, Eu. split_and!; try done; [intros ->; by rewrite Z.eqb_refl|]. intros Hne. unfold identity. rewrite E1, E2. auto.
Qed.

(** A save of the user's own messages, or of a notice. *)
Lemma turn_save uid from to items m ps : clients s !! uid = Some m ->
  (forall i, i ∈ items -> from <> uid -> at_server s (from, to, i)) ->
  let m' := (save from to items m).2 in
  Forall (packet_ok (put_client uid m' s)) ps -> Safe (send ps (put_client uid m' s)).
Proof.
  intros Hm Hat m' Hp. destruct (sf_clients s Hs uid m Hm) as (Hn & Hu & HF).
  destruct (save_rows from to items m Hn) as (Hn' & Hu' & new & E & _). fold m' in Hn', Hu', E.
  apply (safe_client s uid m); try done; [by rewrite Hu'| |].
  - intros r Hr. exists r. rewrite E. split; [apply elem_of_app; by left|done].
  - rewrite Forall_forall in HF. destruct (save_grows uid from to items m Hm Hat) as [Hok|Hsame]; [exact Hok|].
    fold m' in Hsame. rewrite Hsame. auto.
Qed.

Lemma turn_reply resp m : clients s !! fromuid resp = Some m -> Reply resp ∈ wire s ->
  Safe (send [] (put_client (fromuid resp) (MessageStore.accept resp m).2 s)).
Proof.
  intros Hm Hin. destruct (sf_clients s Hs _ m Hm) as (Hn & Hu & HF). pose proof (sf_wire s Hs) as Hw. rewrite Forall_forall in Hw. rewrite Forall_forall in HF.
  specialize (Hw _ Hin). cbn in Hw. destruct (accept_spec resp m Hn) as (Hn' & Hu' & _ & Hc).
  destruct Hc as [[_ E]|(E1 & E2 & E3 & E4 & _)].
  { apply (turn_quiet _ m); [done|exact (f_equal messages E)|done|by left]. }
  eapply safe_client; try done; [by rewrite Hu'| |].
  - apply (mapped_rows m _ (accept_all (uid_ m) (touid resp) (text_array resp))); [exact E4|].
    intros r. by destruct (accept_moves (uid_ m) resp r).
  - intros r' Hr'. unfold rows_of in Hr'. rewrite E4 in Hr'. apply list_elem_of_fmap in Hr' as (r & -> & Hr).
    destruct (accept_moves (uid_ m) resp r) as [Hid Hst]; [done|done|done|].
    destruct (HF r Hr) as (H1 & H2 & H3 & H4). unfold row_ok. rewrite Hid. unfold identity in Hid. injection Hid as -> -> _ _.
    split_and!; try done. intros Hme. destruct Hst as [Hst|(Hacc & resp' & Hresp & Hconf)].
    + rewrite Hst. by apply H3.
    + rewrite Hacc. apply list_elem_of_singleton in Hresp. injection Hresp as ->. destruct Hconf as (C1 & C2 & C3 & C4 & C5).
      destruct (Hw C2 C3 _ C5) as (x & Hx & Hat). exists x. split; [|done]. unfold identity. by rewrite <- C1, <- C4.
Qed.

Lemma attempt_turn uid i now m : clients s !! uid = Some m -> let m' := (attempted i now m).2 in
  no_leftover (db_ m') /\ uid_ m' = uid_ m /\
  (forall r, r ∈ rows_of m -> exists r', r' ∈ rows_of m' /\ identity r' = identity r) /\
  (forall r, r ∈ rows_of m' -> row_ok s uid r).
Proof.
  intros Hm. destruct (sf_clients s Hs uid m Hm) as (Hn & Hu & HF). rewrite Forall_forall in HF. cbn zeta.
  destruct (attempted_spec i now m Hn) as (Hn' & Hu' & _ & _ & [E|E]); (split_and!; [done|done|..]).
  - apply same_rows. exact (f_equal messages E).
  - intros r Hr. unfold rows_of in Hr. rewrite E in Hr. by apply HF.
  - apply (mapped_rows m _ (attempt_all (uid_ m) i now)); [exact E|]. intros r. by destruct (attempt_moves [] (uid_ m) i now r).
  - intros r Hr. unfold rows_of in Hr. rewrite E in Hr. apply list_elem_of_fmap in Hr as (r0 & -> & Hr0).
    destruct (attempt_moves [] (uid_ m) i now r0) as [Hid [Hst|(_ & resp & Hin & _)]]; [|by apply elem_of_nil in Hin].
    by eapply row_ok_state; [| |apply HF].
Qed.

End Turns.

Lemma send_nil s : send [] s = s.
Proof. unfold send. rewrite app_nil_r. by destruct s. Qed.

Lemma send_put uid m m1 ps ps1 s : send ps (put_client uid m (send ps1 (put_client uid m1 s))) = send (ps1 ++ ps) (put_client uid m s).
Proof. unfold send, put_client. cbn. by rewrite insert_insert_eq, <- (assoc_L (++)). Qed.

Lemma turn_flush now uid due : forall m s, Safe s -> clients s !! uid = Some m ->
  let '(ps, m') := flush now due m in Safe (send ps (put_client uid m' s)).
Proof.
  induction due as [|[to i] due IH]; intros m s Hs Hm; cbn [flush].
  { apply (turn_quiet s Hs uid m); [done..| |by left]. by destruct (sf_clients s Hs uid m Hm). }
  destruct (sf_clients s Hs uid m Hm) as (_ & Hu & _).
  pose proof (attempt_turn s Hs uid i.1 now m Hm) as Ha. destruct (attempted i.1 now m) as [r m1] eqn:E. cbn [snd] in Ha.
  destruct Ha as (Hn1 & Hu1 & Hk & Hr).
  assert (forall ps, Forall (packet_ok (put_client uid m1 s)) ps -> Safe (send ps (put_client uid m1 s))) as Hsafe.
  { intros ps Hps. eapply safe_client; try done. by rewrite Hu1. }
  destruct r as [[]|]; [|by apply Hsafe..]. specialize (IH m1 (send [Request (uid_ m1) to [i]] (put_client uid m1 s))).
  destruct (flush now due m1) as [ps m']. rewrite send_put in IH. apply IH; [apply Hsafe; by repeat constructor|].
  apply lookup_insert_eq.
Qed.

Lemma pending_quiet now limit m : no_leftover (db_ m) ->
  exists due m1, pending now limit m = (Returns due, m1) /\ rows_of m1 = rows_of m /\ no_leftover (db_ m1) /\ uid_ m1 = uid_ m.
Proof.
  intros Hn. assert (wp (pending now limit) (fun r m1 => r <> Throws /\ rows_of m1 = rows_of m /\ no_leftover (db_ m1) /\
    uid_ m1 = uid_ m) m) as Hw.
  { apply wp_bind, wp_gets. destruct (uid_ m =? 0); [by apply wp_ret|]. eapply wp_mono; [by apply reading_spec|].
    intros r m1 (H1 & H2 & _ & H3 & H4). split_and!; try done. exact (f_equal messages H4). }
  unfold wp in Hw. destruct (pending now limit m) as [[due|] m1]; [|by destruct Hw]. destruct Hw as (_ & H1 & H2 & H3). by exists due, m1.
Qed.

(** *** The server's turns *)

Lemma safe_server s d ps : Safe s ->
  (forall x, at_server s x -> at_server (put_server d s) x) -> messages_ok (committed d) ->
  Forall (server_row_ok s) (chat_message (committed d)) -> Forall (packet_ok (put_server d s)) ps -> Safe (send ps (put_server d s)).
Proof.
  intros [H1 H2 H3 H4] Hg Hk Hr Hp. assert (grows s (send ps (put_server d s))) as Hg' by (split_and!; [done|done|cbn; set_solver]). split; cbn [clients server wire send put_server].
  - intros uid m Hm. destruct (H1 uid m Hm) as (? & ? & HF). split_and!; [done|done|].
    eapply Forall_impl; [exact HF|]. intros r. by apply (row_ok_grows s).
  - done.
  - eapply Forall_impl; [exact Hr|]. intros r. by apply server_row_ok_grows.
  - apply Forall_app. split; [eapply Forall_impl; [exact H4|]; intros p; by apply (packet_ok_grows s)|exact Hp].
Qed.

Lemma server_same s d ps : Safe s -> committed d = committed (server s) -> Forall (packet_ok s) ps -> Safe (send ps (put_server d s)).
Proof.
  intros Hs E Hp. assert (forall x, at_server s x <-> at_server (put_server d s) x) as Hat by (intros x; unfold at_server; cbn; by rewrite E).
  apply safe_server; [done|intros x; apply Hat|rewrite E; apply Hs..|].
  eapply Forall_impl; [exact Hp|]. intros p. apply packet_ok_grows. split_and!; [done| |done]. intros x. apply Hat.
Qed.

(** A batch that was accepted is stored; the new rows wait for their receivers. *)
Lemma turn_request s from to items : Safe s -> Request from to items ∈ wire s ->
  let '(r, d) := TextMessageService.accept CheckFriendRelation PersistTextMessages from to (text_of from to <$> items) (server s) in
  Safe (send [Reply (reply from to items r)] (put_server d s)).
Proof.
  intros Hs Hreq. destruct (accept_durable from to (text_of from to <$> items) (server s)) as (res & d & -> & Hc & Hacc).
  assert (Forall (server_row_ok s) (chat_message (committed d)) /\ messages_ok (committed d) /\
          (forall x, at_server s x -> at_server (put_server d s) x)) as (Hrows & Hok & Hg).
  { destruct Hc as [E|Hi]; [unfold at_server; cbn; rewrite E; split_and!; [apply Hs..|done]|].
    apply insert_all_spec in Hi as ((rows & E & Hnew) & _ & Hok). split_and!; [|by apply Hok, Hs|].
    - rewrite E. cbn. apply Forall_app. split; [apply Hs|]. eapply Forall_impl; [exact Hnew|]. intros r [En Hin]. split; [|by rewrite En].
      apply list_elem_of_fmap in Hin as (i & Ei & Hi). unfold row_message, text_of in Ei. injection Ei as -> -> -> ->. exists items. by destruct i.
    - intros x Hx. unfold at_server. cbn. rewrite E. cbn. rewrite fmap_app. apply elem_of_app. by left. }
  apply safe_server; try done. apply Forall_singleton. cbn. intros He Hd i Hi.
  destruct res; cbn in He, Hd; try done. destruct (Hacc eq_refl) as (_ & _ & Hins).
  apply insert_all_spec in Hins as (_ & Hst & _). rewrite Forall_fmap, Forall_forall in Hst.
  destruct (Hst i Hi) as (r & Hr & E1 & E2 & E3 & E4). cbn in E1, E2, E3, E4. exists (sident r). split; [|by apply list_elem_of_fmap_2].
  unfold alike, sident. cbn. by rewrite E1, E2, E3, E4.
Qed.

Lemma acked_row s by_ from ids r : Safe s -> Ack by_ from ids ∈ wire s -> r ∈ chat_message (committed (server s)) ->
  matched by_ from ids r = true -> at_client s (m_receiver r) (sident r).
Proof.
  intros Hs Hin Hr (E1 & E2 & (id & Hid & E3)%Exists_exists)%matched_addressed.
  pose proof (sf_wire s Hs) as Hw. rewrite Forall_forall in Hw. destruct (Hw _ Hin) as [Hne Hids].
  destruct (Hids id Hid) as [c (m & row & Hm & Hrow & Eid)]. destruct (sf_clients s Hs by_ m Hm) as (_ & _ & HF).
  rewrite Forall_forall in HF. destruct (HF row Hrow) as (_ & _ & _ & Hat). unfold identity in Eid. injection Eid as F1 F2 F3 F4.
  rewrite F1 in Hat. specialize (Hat Hne). unfold at_server, identity in Hat. rewrite F1, F2, F3, F4 in Hat.
  apply list_elem_of_fmap in Hat as (r2 & Es & Hr2).
  assert (r2 = r) as ->.
  { apply (NoDup_fmap_eq row_key (chat_message (committed (server s)))); [apply Hs|done|done|]. unfold sident in Es. injection Es as G1 G2 G3 G4.
    unfold row_key. congruence. }
  rewrite <- Es, E1. exists m, row. split_and!; [done|done|]. unfold identity. by rewrite F1, F2, F3, F4.
Qed.

Lemma turn_ack s by_ from ids : Safe s -> Ack by_ from ids ∈ wire s ->
  Safe (send [] (put_server (AcknowledgeTextMessages by_ from ids (server s)).2 s)).
Proof.
  intros Hs Hin. destruct (acknowledge_spec by_ from ids (server s)) as (answer & d & -> & _ & [E|Ha] & _); cbn [snd]; [by apply server_same|].
  apply safe_server; [done| |eapply acked_ok; [done|apply Hs]| |done].
  - intros x. unfold at_server. cbn. by rewrite (acked_identity sident _ _ _ _ _ ltac:(done) Ha).
  - pose proof (sf_rows s Hs) as H1. rewrite Forall_forall in H1. destruct Ha as (rows & -> & HF). cbn. apply Forall_forall. intros r' [k Hk]%list_elem_of_lookup.
    destruct (Forall2_lookup_r _ _ _ _ _ HF Hk) as (r & Hr%list_elem_of_lookup_2 & Hack). unfold ack_row in Hack.
    destruct (matched by_ from ids r) eqn:Em.
    + destruct Hack as [now ->]. split; [exact (proj1 (H1 r Hr))|]. intros _. change (at_client s (m_receiver r) (sident r)). by eapply acked_row.
    + subst r'. auto.
Qed.

Lemma turn_deliver s uid limit : Safe s -> Safe (run s (Deliver uid limit)).
Proof.
  intros Hs. cbn [run]. destruct (pending_spec uid limit (server s)) as (result & d & -> & E & _ & Hr).
  destruct result as [ms|]; [|rewrite <- (send_nil (put_server d s)); by apply server_same]. destruct Hr as [|[_ [= ->]]]; [done|]. apply server_same; [done|done|].
  apply Forall_fmap, Forall_fmap, Forall_forall. intros r Hr%subseteq_take. cbn. intros i ->%list_elem_of_singleton.
  rewrite pending_rows_eq in Hr by apply Hs. apply list_elem_of_filter in Hr as [_ Hr]. by apply (list_elem_of_fmap_2 sident).
Qed.

(** *** Every turn *)

Lemma batches_elem sizes : forall ids b, b ∈ batches sizes ids -> b ⊆ ids.
Proof.
  induction sizes as [|n sizes IH]; intros ids b; cbn; [by intros ->%list_elem_of_singleton|].
  intros [->|Hb]%elem_of_cons; [apply subseteq_take|]. etransitivity; [by apply IH|]. apply subseteq_drop.
Qed.

Lemma turn_notice s k from to items sizes : Safe s -> wire s !! k = Some (Notice from to items) -> Safe (run s (Arrive k sizes)).
Proof.
  intros Hs Hk. cbn [run]. rewrite Hk. unfold on_client, notice_turn. destruct (clients s !! to) as [m|] eqn:Hm; [|done].
  pose proof (sf_wire s Hs) as Hw. rewrite Forall_forall in Hw. pose proof (Hw _ (list_elem_of_lookup_2 _ _ _ Hk)) as Hn. cbn in Hn.
  assert (forall i, i ∈ items -> from <> to -> at_server s (from, to, i)) as Hat by auto.
  pose proof (turn_save s Hs to from to items m) as Hsave. destruct (sf_clients s Hs to m Hm) as (Hl & _ & _).
  destruct (save_rows from to items m Hl) as (_ & _ & new & _ & _ & Hall). pose proof (save_account from to items) as Hacc.
  destruct (save from to items m) as [[[fresh|]|] m'] eqn:E; cbn [fst snd] in *; [|by apply Hsave..].
  destruct (Hacc fresh m m' E) as (_ & Hne & _). apply Hsave; [done|done|]. apply Forall_fmap, Forall_forall. intros b Hb. split; [done|].
  intros id Hid. apply (batches_elem _ _ _ Hb), list_elem_of_fmap in Hid as (i & -> & Hi). destruct (Hall fresh eq_refl i Hi) as (r & Hr & Eid).
  exists i.2. exists m', r. unfold put_client. cbn. rewrite lookup_insert_eq, <- surjective_pairing. done.
Qed.

Lemma run_safe s e : Safe s -> Safe (run s e).
Proof.
  intros Hs. destruct e as [uid to items|uid now limit n|k|uid limit|k sizes|uid].
  - cbn [run]. unfold on_client. destruct (clients s !! uid) as [m|] eqn:Hm; [|done]. by apply turn_save.
  - cbn [run]. unfold on_client. destruct (clients s !! uid) as [m|] eqn:Hm; [|done]. destruct (sf_clients s Hs uid m Hm) as (Hn & _).
    unfold flush_turn. destruct (pending_quiet now limit m Hn) as (due & m1 & -> & E1 & E2 & E3).
    pose proof (turn_flush now uid (take n due) m1 (send [] (put_client uid m1 s))) as Hf.
    destruct (flush now (take n due) m1) as [ps m']. rewrite send_put in Hf. apply Hf; [|apply lookup_insert_eq].
    apply (turn_quiet s Hs uid m); auto.
  - cbn [run]. destruct (wire s !! k) as [[from to items| | |by_ from ids]|] eqn:Hk; try done.
    { pose proof (turn_request s from to items Hs (list_elem_of_lookup_2 _ _ _ Hk)) as Ht. by destruct (TextMessageService.accept _ _ _ _ _ _). }
    pose proof (turn_ack s by_ from ids Hs (list_elem_of_lookup_2 _ _ _ Hk)) as Ht. by rewrite send_nil in Ht.
  - by apply turn_deliver.
  - destruct (wire s !! k) as [[|resp|from to items|]|] eqn:Hk; try by (cbn [run]; rewrite Hk).
    + cbn [run]. rewrite Hk. unfold on_client. destruct (clients s !! fromuid resp) as [m|] eqn:Hm; [|done].
      apply turn_reply; [done|done|by eapply list_elem_of_lookup_2].
    + by eapply turn_notice.
  - cbn [run]. unfold on_client. destruct (clients s !! uid) as [m|] eqn:Hm; [|done]. cbn [run_store].
    destruct (open_spec uid (close m).2 ltac:(done)) as (H1 & _ & H2). pose proof (open_uid uid (close m).2) as H3. unfold wp in H3.
    destruct (open uid (close m).2) as [r m'] eqn:E. cbn [fst snd] in *. apply (turn_quiet s Hs uid m); [done|exact H2|done|].
    right. rewrite H3. destruct r as [[]|]; auto.
Qed.

Lemma runs_safe es : forall s, Safe s -> Safe (foldl run s es).
Proof. induction es as [|e es IH]; [done|]. intros s Hs. by apply IH, run_safe. Qed.

(** ** The system from its start *)

(** No message yet; whoever are friends, and whatever calls will fail. *)
Definition started (s : System) : Prop :=
  (forall uid m, clients s !! uid = Some m -> no_leftover (db_ m) /\ uid_ m = 0 /\ rows_of m = []) /\
  chat_message (committed (server s)) = [] /\ wire s = [].

Lemma started_safe s : started s -> Safe s.
Proof.
  intros (Hc & Hm & Hw). split.
  - intros uid m Hu. destruct (Hc uid m Hu) as (? & ? & ->). auto.
  - split; rewrite Hm; constructor.
  - by rewrite Hm.
  - by rewrite Hw.
Qed.

(** A client's turn is a sequence of calls of its store. *)
Definition by_calls (f : MessageStore -> list packet * MessageStore) : Prop :=
  forall m, exists ops, (f m).2 = foldl run_store m ops.

Lemma flush_calls now due : by_calls (flush now due).
Proof.
  induction due as [|[to i] due IH]; intros m; [by exists []|]. cbn [flush].
  assert ((attempted i.1 now m).2 = run_store m (Attempted i.1 now)) as E by done.
  destruct (attempted i.1 now m) as [[[]|] m1]; cbn in E; subst m1; [|by exists [Attempted i.1 now]..].
  destruct (IH (run_store m (Attempted i.1 now))) as [ops E]. destruct (flush now due _) as [ps m'].
  by exists (Attempted i.1 now :: ops).
Qed.

Lemma on_client_kept s uid f x uid' : Safe s -> by_calls f -> at_client s uid' x -> at_client (on_client uid f s) uid' x.
Proof.
  intros Hs Hf. unfold on_client. destruct (clients s !! uid) as [m|] eqn:Hm; [|done]. destruct (Hf m) as [ops E].
  destruct (f m) as [ps m']. cbn in E. subst m'. destruct (sf_clients s Hs uid m Hm) as (Hn & _).
  destruct (run_stores_keep ops m Hn) as [_ [Hk _]]. intros Hx.
  destruct (grows_client s uid m (foldl run_store m ops) Hm) as [Hg _]; [|by apply Hg in Hx].
  intros r [k Hr]%list_elem_of_lookup. destruct (Hk k r Hr) as (r' & Hr' & Hid & _). exists r'.
  split; [by eapply list_elem_of_lookup_2|done].
Qed.

Lemma run_kept s e uid x : Safe s -> at_client s uid x -> at_client (run s e) uid x.
Proof.
  intros Hs. destruct e as [u to items|u now limit n|k|u limit|k sizes|u]; cbn [run].
  - apply on_client_kept; [done|]. intros m. by exists [Save u to items].
  - apply on_client_kept; [done|]. intros m. unfold flush_turn. assert ((pending now limit m).2 = run_store m (Pending now limit)) as E by done.
    destruct (pending now limit m) as [[due|] m1]; cbn in E; subst m1; [|by exists [Pending now limit]].
    destruct (flush_calls now (take n due) (run_store m (Pending now limit))) as [ops E]. by exists (Pending now limit :: ops).
  - destruct (wire s !! k) as [[]|]; try done. by destruct (TextMessageService.accept _ _ _ _ _ _).
  - by destruct (GetPendingTextMessages u limit (server s)) as [[[]|] ?].
  - destruct (wire s !! k) as [[|resp|from to items|]|]; try done; (apply on_client_kept; [done|]); intros m.
    + by exists [Accept resp].
    + unfold notice_turn. assert ((save from to items m).2 = run_store m (Save from to items)) as E by done. exists [Save from to items].
      by destruct (save from to items m) as [[[]|] m1]; cbn in E; subst m1.
  - apply on_client_kept; [done|]. intros m. by exists [Close; Open u].
Qed.

Lemma runs_kept es uid x : forall s, Safe s -> at_client s uid x -> at_client (foldl run s es) uid x.
Proof. induction es as [|e es IH]; [done|]. intros s Hs Hx. apply IH; [by apply run_safe|by apply run_kept]. Qed.

(** C1. A message that the client took from its user is never lost, whatever
    databases fail, whatever the network loses, repeats or reorders, and
    whichever clients restart, however often: it is in the sender's file, and
    waits there to be sent, or the server has it, for that receiver and with
    that text, and keeps it to be delivered until it is in the receiver's own
    file. *)
Theorem no_message_lost s0 before uid to items fresh m m' after : started s0 ->
  clients (foldl run s0 before) !! uid = Some m -> save uid to items m = (Returns (Some fresh), m') ->
  let s := foldl run s0 (before ++ Compose uid to items :: after) in
  forall i, i ∈ items -> exists m1 r, clients s !! uid = Some m1 /\ r ∈ rows_of m1 /\ identity r = (uid, to, i) /\
    (s_state r = pending_ \/
     s_state r = accepted_ /\ exists row, row ∈ chat_message (committed (server s)) /\
       m_sender row = uid /\ m_receiver row = to /\ weight (m_client_id row) = weight i.1 /\ m_content row = i.2 /\
       (m_acknowledged_at row = None \/
        exists m2 r2, clients s !! to = Some m2 /\ r2 ∈ rows_of m2 /\ identity r2 = sident row)).
Proof.
  intros H0 Hm E s i Hi. unfold s. rewrite foldl_app. cbn [foldl]. set (s1 := foldl run s0 before) in *.
  assert (Safe s1) as Hs1 by by apply runs_safe, started_safe.
  assert (at_client (run s1 (Compose uid to items)) uid (uid, to, i)) as Hat.
  { destruct (sf_clients s1 Hs1 uid m Hm) as (Hn & _). destruct (save_rows uid to items m Hn) as (_ & _ & new & _ & _ & Hall).
    rewrite E in Hall. destruct (Hall fresh eq_refl i Hi) as (r & Hr & Hid). cbn [run]. unfold on_client. rewrite Hm, E.
    exists m', r. cbn. by rewrite lookup_insert_eq. }
  assert (Safe (run s1 (Compose uid to items))) as Hs2 by by apply run_safe.
  apply (runs_kept after) in Hat; [|done]. pose proof (runs_safe after _ Hs2) as Hs. clear Hs2. fold s1 in Hat, Hs.
  set (s2 := foldl run _ after) in *. clearbody s2. destruct Hat as (m1 & r & Hm1 & Hr & Hid). exists m1, r. split_and!; [done..|].
  destruct (sf_clients s2 Hs uid m1 Hm1) as (_ & _ & HF). rewrite Forall_forall in HF. destruct (HF r Hr) as (_ & _ & Hst & _).
  pose proof Hid as Hid'. unfold identity in Hid'. injection Hid' as Eu _ _. specialize (Hst Eu).
  destruct (s_state r); [by left|right|done]. split; [done|]. destruct Hst as (x & Hx & (row & -> & Hrow)%list_elem_of_fmap).
  rewrite Hid in Hx. destruct Hx as (X1 & X2 & X3). cbn in X1, X2, X3. injection X1 as X0 X1. exists row. split_and!; try done.
  pose proof (sf_rows s2 Hs) as HR. rewrite Forall_forall in HR. destruct (HR row Hrow) as [_ Hack].
  destruct (m_acknowledged_at row); [right|by left]. rewrite X1. by apply Hack.
Qed.

(** C3. A message that a client shows as received was sent by the one it is
    shown to be from, to this user, with this text: it is in a request of
    that account's client. *)
Theorem message_authentic s0 es uid m r : started s0 -> let s := foldl run s0 es in
  clients s !! uid = Some m -> r ∈ rows_of m -> s_sender r <> uid ->
  s_receiver r = uid /\ exists items, Request (s_sender r) uid items ∈ wire s /\ (s_msgid r, s_content r) ∈ items.
Proof.
  intros H0 s Hm Hr Hne. assert (Safe s) as Hs by by apply runs_safe, started_safe. clearbody s.
  destruct (sf_clients s Hs uid m Hm) as (_ & _ & HF). rewrite Forall_forall in HF. destruct (HF r Hr) as (_ & Hor & _ & Hat).
  destruct Hor as [?|Hu]; [done|]. split; [done|]. specialize (Hat Hne).
  unfold at_server in Hat. apply list_elem_of_fmap in Hat as (row & E & Hrow). unfold identity, sident in E. injection E as E1 E2 E3 E4.
  pose proof (sf_rows s Hs) as HR. rewrite Forall_forall in HR. destruct (HR row Hrow) as [(items & Hin & Hi) _].
  exists items. by rewrite E1, E3, E4, <- Hu, E2.
Qed.

End EndToEnd.

(** ** Examples *)

Module Example.

#[local] Instance end_collation : Collation := fold_case.

(** The commit of the acceptance in the sender's file loses its answer. *)
Definition empty_store (o : nat -> fault) : MessageStore :=
  mkMessageStore (mkDb (mkFile [] []) None true 0 0 o (fun _ => 0)) false 0.
Definition example_system : System :=
  mkSystem {[1001 := empty_store (fun n => if (n =? 20)%nat then FailsAfter else Fine); 1002 := empty_store (fun _ => Fine)]}
    (healthy (set_messages [] befriended) 5) [].
Definition items : list item := [("m1", "hello"); ("m2", "there")]%string.

(** The first request is served twice, its notice arrives twice, and the
    receiver restarts in between; the second message waits on the server. *)
Definition opened : list event := [Restart 1001; Restart 1002].
Definition traffic : list event :=
  [Flush 1001 100 16 16; Serve 0; Serve 0; Arrive 2 []; Deliver 1002 50; Arrive 4 []; Restart 1002; Arrive 4 [1%nat];
   Serve 5; Serve 1; Restart 1001].

Lemma example_started : started example_system.
Proof.
  split_and!; [|reflexivity|reflexivity]. intros uid m Hm. unfold example_system in Hm. cbn in Hm.
  apply lookup_insert_Some in Hm as [[_ <-]|[_ [_ <-]%lookup_singleton_Some]]; by split_and!.
Qed.

Abbreviation final := (foldl run example_system (opened ++ Compose 1001 1002 items :: traffic)).

Lemma no_message_lost_witness : Forall (fun i => exists m1 r, clients final !! 1001 = Some m1 /\ r ∈ rows_of m1 /\
  identity r = (1001, 1002, i) /\
    (s_state r = pending_ \/
     s_state r = accepted_ /\ exists row, row ∈ chat_message (committed (server final)) /\
       m_sender row = 1001 /\ m_receiver row = 1002 /\ weight (m_client_id row) = weight i.1 /\ m_content row = i.2 /\
       (m_acknowledged_at row = None \/
        exists m2 r2, clients final !! 1002 = Some m2 /\ r2 ∈ rows_of m2 /\ identity r2 = sident row))) items.
Proof.
  destruct (clients (foldl run example_system opened) !! 1001) as [m|] eqn:Em; [|vm_compute in Em; discriminate].
  destruct (save 1001 1002 items m) as [r m'] eqn:Es.
  assert (r = Returns (Some items)) as ->.
  { change r with ((r, m').1). rewrite <- Es. vm_compute in Em. injection Em as <-. vm_compute. reflexivity. }
  rewrite Forall_forall. exact (no_message_lost example_system opened 1001 1002 items items m m' traffic example_started Em Es).
Defined.

Example end_states :
  ((fun m => (fun r => (s_msgid r, s_state r)) <$> rows_of m) <$> clients final !! 1001,
   (fun m => (fun r => (s_msgid r, s_state r)) <$> rows_of m) <$> clients final !! 1002,
   (fun r => (m_client_id r, m_acknowledged_at r)) <$> chat_message (committed (server final))) =
  (Some [("m1", accepted_); ("m2", pending_)], Some [("m1", received_)], [("m1", Some 5); ("m2", None)])%string.
Proof. vm_compute. reflexivity. Qed.

Lemma message_authentic_witness :
  exists items, Request 1001 1002 items ∈ wire final /\ ("m1", "hello")%string ∈ items.
Proof.
  destruct (clients final !! 1002) as [m|] eqn:Em; [|vm_compute in Em; discriminate].
  pose proof (message_authentic example_system (opened ++ Compose 1001 1002 items :: traffic) 1002 m
    (mkRow 1001 1002 "m1" "hello" received_ 0 0) example_started) as H. cbv zeta in H.
  apply (H Em); [|discriminate]. clear H. vm_compute in Em. injection Em as <-. vm_compute. left.
Defined.

End Example.
