(* ===== verification/ClientTurns.v ===== *)
(** The steps of a client in [EndToEnd] are those of its connection: what
    [TcpMgr] does with the store and writes on the socket when it sends the
    outbox, gets an answer, or gets a notice. *)
From S2P Require Import EndToEnd.
From S2P Require Import Prelude Mysql MessageStore ClientModel QtJson Session TcpMgr ClientAcks.

Section Turns.
Context `{QJson} (supportsSsl : bool).

(** The frame of a packet of a client. *)
Definition encodes (p : packet) (bytes : string) : Prop :=
  match p with
  | Request from to [i] => bytes = block ID_TEXT_CHAT_MSG_REQ (toJson (text_message from to i))
  | Ack _ from ids => bytes = block ID_TEXT_CHAT_MSG_ACK (toJson (ack from ids))
  | _ => False
  end.

(** Frames were written for some of the packets, in their order; a frame that
    the socket did not take is one that the network lost. *)
Definition wrote (ps : list packet) (c c' : TcpMgr) : Prop :=
  exists ps' frames, ps' `sublist_of` ps /\ sent (_socket c') = sent (_socket c) ++ frames /\
    Forall2 (fun p f => encodes p f.2) ps' frames.

Definition turn (f : MessageStore -> list packet * MessageStore) (c c' : TcpMgr) : Prop :=
  let '(ps, m) := f (_messages c) in _messages c' = m /\ wrote ps c c'.

Definition quiet (c c' : TcpMgr) : Prop := _messages c' = _messages c /\ sent (_socket c') = sent (_socket c).

Lemma wrote_same ps c c' : sent (_socket c') = sent (_socket c) -> wrote ps c c'.
Proof. intros E. exists [], []. rewrite E, app_nil_r. split_and!; [apply sublist_nil_l|done|constructor]. Qed.

Lemma wrote_trans ps1 ps2 c c1 c2 : wrote ps1 c c1 -> wrote ps2 c1 c2 -> wrote (ps1 ++ ps2) c c2.
Proof.
  intros (q1 & f1 & S1 & E1 & F1) (q2 & f2 & S2 & E2 & F2). exists (q1 ++ q2), (f1 ++ f2).
  split_and!; [by apply sublist_app|by rewrite E2, E1, <- (assoc_L (++))|by apply Forall2_app].
Qed.

Lemma wrote_frame p reqId data c : encodes p (block reqId data) -> wrote [p] c (writeFrame reqId data c).
Proof.
  intros Hp. destruct (write_cases reqId data c) as (_ & _ & _ & _ & [E|[e E]]); [by apply wrote_same|].
  exists [p], [(e, block reqId data)]. split_and!; [done|done|]. by repeat constructor.
Qed.

Lemma write_messages reqId data c : _messages (writeFrame reqId data c) = _messages c.
Proof. apply (write_cases reqId data c). Qed.

Lemma quiet_emit s c : quiet c (emit s c).
Proof. done. Qed.

Lemma quiet_trans c c1 c2 : quiet c c1 -> quiet c1 c2 -> quiet c c2.
Proof. intros [E1 E2] [F1 F2]. split; congruence. Qed.

Lemma quiet_abort c : quiet c (abort c).
Proof.
  assert (forall c, quiet c (scheduleReconnect c)) as Hsch by (intros c1; unfold scheduleReconnect; by destruct (_ || _)).
  unfold abort. cbn zeta. case_bool_decide; [|done]. unfold on_disconnected. cbn zeta.
  set (c1 := if _ =? 0 then _ else _). assert (quiet c c1) as Hc1 by (unfold c1; by destruct (_ =? 0)). clearbody c1.
  destruct (_ && _); [|done]. eapply quiet_trans; [exact Hc1|]. by eapply quiet_trans; [|apply Hsch].
Qed.

(** *** The outbox *)

Lemma flush_loop_turn now due : forall c, exists n, turn (flush now (take n due)) c (flush_loop now due c).
Proof.
  induction due as [|[to i] due IH]; intros c; cbn [flush_loop]; [exists O; split; [done|by apply wrote_same]|].
  destruct (_ <? _); [exists O; split; [done|by apply wrote_same]|]. unfold on_messages.
  destruct (attempted i.1 now (_messages c)) as [r m] eqn:E. 
  destruct r as [[]|]; cbn [negb]; [|exists 1%nat; unfold turn; cbn [take flush]; rewrite E; split; [done|by apply wrote_same]..].
  cbn [_messages set_messages]. set (c1 := writeFrame _ _ _). destruct (IH c1) as [n Hn]. exists (S n).
  assert (_messages c1 = m) as E1 by apply write_messages. unfold turn in *. cbn [take flush]. rewrite E.
  rewrite E1 in Hn. destruct (flush now (take n due) m) as [ps m']. destruct Hn as [Hm Hw]. split; [done|].
  apply (wrote_trans [_] ps c c1); [|done]. by apply (wrote_frame (Request (uid_ m) to [i]) _ _ (set_messages m c)).
Qed.

(** *** A notice *)

Lemma flush_acks_turn to from ids c : wrote [Ack to from ids] c (flushAcks from ids c) /\ _messages (flushAcks from ids c) = _messages c.
Proof.
  unfold flushAcks. case_bool_decide; [split; [by apply wrote_same|done]|]. split; [by apply wrote_frame|apply write_messages].
Qed.

Lemma ack_loop_turn to from values : forall batch c, let '(r, c') := ack_loop from values batch c in
  _messages c' = _messages c /\ exists acked rest, wrote (Ack to from <$> acked) c c' /\
    batch ++ (string_field "msgid" <$> values) = concat acked ++ rest /\ (r = None \/ r = Some rest).
Proof.
  induction values as [|v values IH]; intros batch c; cbn [ack_loop].
  { split; [done|]. exists [], batch. rewrite app_nil_r. split_and!; [by apply wrote_same|done|by right]. }
  destruct (_ || _).
  { destruct (quiet_abort c) as [E1 E2]. split; [done|]. exists [], (batch ++ (string_field "msgid" <$> v :: values)).
    split_and!; [by apply wrote_same|done|by left]. }
  set (id := string_field "msgid" v). destruct (_ <? _).
  - destruct (flush_acks_turn to from batch c) as [Hw Em]. specialize (IH [id] (flushAcks from batch c)).
    destruct (ack_loop from values [id] _) as [r c']. destruct IH as (E1 & acked & rest & H1 & H2 & H3). split; [congruence|].
    exists (batch :: acked), rest. split_and!; [by apply (wrote_trans [_] _ c (flushAcks from batch c))| |done].
    cbn [concat]. rewrite <- (assoc_L (++)), <- H2. done.
  - specialize (IH (batch ++ [id]) c). destruct (ack_loop from values (batch ++ [id]) c) as [r c'].
    destruct IH as (E1 & acked & rest & H1 & H2 & H3). split; [done|]. exists acked, rest. split_and!; [done| |done].
    rewrite <- H2, <- (assoc_L (++)). done.
Qed.

Lemma batches_concat acked rest : batches (length <$> acked) (concat acked ++ rest) = acked ++ [rest].
Proof.
  induction acked as [|ids acked IH]; [done|]. cbn. rewrite <- (assoc_L (++)), take_app_length, drop_app_length. by f_equal.
Qed.

Lemma notice_turns from to values c fresh m : save from to (items_of values) (_messages c) = (Returns (Some fresh), m) ->
  exists sizes, turn (notice_turn from to (items_of values) sizes) c
    match ack_loop from values [] (set_messages m c) with
    | (None, c) => c
    | (Some batch, c) =>
        flushAcks from batch (if bool_decide (fresh = []) then c else emit (sig_text_chat_msg from to fresh) c)
    end.
Proof.
  intros E. pose proof (ack_loop_turn to from values [] (set_messages m c)) as Hl.
  destruct (ack_loop from values [] (set_messages m c)) as [r c1]. destruct Hl as (E1 & acked & rest & Hw & Ei & Hr).
  exists (length <$> acked). unfold turn, notice_turn. rewrite E.
  assert (fst <$> items_of values = concat acked ++ rest) as ->.
  { rewrite <- Ei. unfold items_of. by rewrite <- list_fmap_compose. }
  rewrite batches_concat, fmap_app. destruct Hr as [->| ->].
  - split; [done|]. apply (wrote_trans _ _ c c1); [exact Hw|by apply wrote_same].
  - set (c2 := if bool_decide _ then _ else _). assert (quiet c1 c2) as [Q1 Q2] by (unfold c2; by case_bool_decide).
    destruct (flush_acks_turn to from rest c2) as [Hf Em]. split; [cbn in E1; congruence|].
    apply (wrote_trans _ _ c c1); [exact Hw|]. apply (wrote_trans [] _ c1 c2); [by apply wrote_same|exact Hf].
Qed.


End Turns.
