(* ===== verification/ServerTurns.v ===== *)
(** The steps of the server in [EndToEnd] are those of its handlers
    ([Logic]): what they do with the database and send on the session. *)
From S2P Require Import EndToEnd.
From S2P Require Import Prelude Messages Mysql Schema MessageDao FriendDao Acceptance Session Server Json Logic.

Section ServerTurns.
Context `{J : Json} `{!JsonLaws J} `{Collation}.

(** The messages of a frame are those of the user of the session. *)
Lemma text_items_of uid touid arrays : forall messages, text_items uid touid arrays = Returns (Some messages) ->
  exists its, messages = text_of uid touid <$> its.
Proof.
  induction arrays as [|text arrays IH]; intros messages; cbn [text_items]; [intros [= <-]; by exists []|].
  destruct (and_then (Returns (isObject text)) _) as [[]|]; [|done..]. destruct (member_string "msgid" text) as [i|]; [|done].
  destruct (member_string "content" text) as [t|]; [|done]. destruct (text_items uid touid arrays) as [[rest|]|]; [|done..].
  intros [= <-]. destruct (IH rest eq_refl) as [its ->]. by exists ((i, t) :: its).
Qed.

(** The database and the reply after the body of the handler. *)
Lemma text_body_turn o uid touid arrays rt s : container rt = true -> member_int "error" rt = Returns 0 ->
  exists rt' s', text_body o uid touid arrays (rt, s) = (Returns tt, (rt', s')) /\ outbox s' = outbox s /\ net s' = net s /\
    (mysql s' = mysql s /\ member_int "error" rt' = Returns JSON_ERROR \/
     exists its, text_items uid touid (items arrays) = Returns (Some (text_of uid touid <$> its)) /\
       let '(r, d) := TextMessageService.accept CheckFriendRelation PersistTextMessages uid touid
                        (text_of uid touid <$> its) (mysql s) in
       mysql s' = d /\ member_int "error" rt' = Returns (MessageStore.error (reply uid touid its r))).
Proof.
  intros Hc He. unfold text_body, mbind, prog_bind, lift, put, cell, modify, inner, on_mysql.
  destruct (text_items_total uid touid (items arrays)) as [[messages|] Ei]; rewrite Ei.
  2: { eexists _, s. split_and!; [done..|]. left. split; [done|]. by rewrite member_int_set. }
  destruct (text_items_of _ _ _ _ Ei) as [its ->].
  destruct (accept_durable uid touid (text_of uid touid <$> its) (mysql s)) as (res & d & Ea & _). rewrite Ea.
  destruct res; [destruct (notify_room o)|..]; (eexists _, _; split_and!; [reflexivity|done|done|]);
    right; exists its; rewrite Ea; (split_and!; [done|done|]).
  - by rewrite member_int_other.
  - by rewrite member_int_other.
  - by rewrite member_int_set.
  - by rewrite member_int_set.
  - rewrite member_int_other by (done || by apply set_container). by rewrite member_int_set.
Qed.

(** The reply that the handler starts with. *)
Lemma reply_error arrays uid touid :
  member_int "error" (object [("error"%string, of_int ERROR_CODE_OK); ("text_array"%string, arrays);
                              ("fromuid"%string, of_int uid); ("touid"%string, of_int touid)]) = Returns 0.
Proof.
  pose proof (object_container []) as Hn. unfold object in *. cbn [foldl fst snd] in *.
  rewrite !member_int_other by (done || by repeat apply set_container). by rewrite member_int_set.
Qed.

Lemma deliver_loop_turn id now pending : forall s, exists out s', deliver_loop id now pending s = (Returns tt, s') /\
  out `sublist_of` pending /\ frames_to id s' = frames_to id s ++ (notice_frame <$> out) /\ mysql s' = mysql s.
Proof.
  induction pending as [|m pending IH]; intros s.
  { exists [], s. rewrite app_nil_r. by split_and!. }
  cbn [deliver_loop]. unfold mbind, prog_bind, gets. destruct (DeliveryWindow.due _ _ _); cbn [negb].
  2: { destruct (IH s) as (out & s' & -> & Hs & Hf & Hm). exists out, s'. split_and!; try done. by apply sublist_cons. }
  destruct (Send_frames id (notice m) ID_NOTIFY_TEXT_CHAT_MSG_REQ s) as (ok & s1 & -> & Em & _ & _ & Ef). destruct ok; cbn [negb].
  2: { exists [], s1. split_and!; [done|apply sublist_nil_l|done|done]. }
  destruct (DeliveryWindow.sent _ _ _) as [retry w]. unfold put_delivery, modify. set (s2 := count_sent retry _).
  destruct (IH s2) as (out & s' & -> & Hs & Hf & Hm). exists (m :: out), s'. split_and!; [done|by apply sublist_skip| |].
  - rewrite Hf. change (frames_to id s2) with (frames_to id s1). by rewrite Ef, <- (assoc_L (++)).
  - rewrite Hm. exact Em.
Qed.

(** What a delivery asks the database, and what it sends of the answer. *)
Definition delivers (id : string) (uid : Z) (s s' : Logic) : Prop :=
  let '(r, d) := GetPendingTextMessages uid 32 (mysql s) in
  mysql s' = d /\ exists out, frames_to id s' = frames_to id s ++ (notice_frame <$> out) /\
    out `sublist_of` match r with Returns (Some ms) => ms | _ => [] end.

Lemma deliver_turn o id uid s : let '(r, s') := DeliverPendingTextMessages o id uid s in
  r = Returns tt /\ (s' = s \/ delivers id uid s s').
Proof.
  unfold DeliverPendingTextMessages, mbind, prog_bind, IsClosed, gets, put_delivery, modify.
  destruct (is_closed id (net s)); [by split; [|left]|]. unfold on_mysql, delivers. cbn [mysql set_delivery].
  destruct (pending_spec uid 32 (mysql s)) as (result & d & Eq & _).
  change (GetPendingTextMessages uid DeliveryWindow.Capacity (mysql s)) with (GetPendingTextMessages uid 32 (mysql s)).
  rewrite Eq. destruct result as [l|].
  - set (s1 := set_delivery _ _). destruct (deliver_loop_turn id (o_now o) l s1) as (out & s' & -> & Hs & Hf & Hm).
    split; [done|]. right. split; [by rewrite Hm|]. by exists out.
  - split; [done|]. right. split; [done|]. exists []. by rewrite app_nil_r.
Qed.


End ServerTurns.

(** ** Example *)

Module Example.
Import ToyJson Logic.Example.
#[local] Existing Instance example_collation.


End Example.
