(* ===== verification/Handlers.v ===== *)
(** The other client requests of the chat server
    ([src/servers/chat/service/LogicSystem.cpp]): login, search, friendship,
    heartbeat, resource credentials, and the dispatch of a frame to its
    handler. *)
From S2P Require Import Prelude Messages Mysql Schema MessageDao FriendDao Password Redis Session Server Json Logic.

Section Handlers.
Context `{J : Json} `{Collation} `{Sodium}.

(** The resource service of the deployment, asked by
    [src/servers/chat/rpc/ResourceClient.h]: an array, or null when no endpoint
    answers, or an exception on an answer that is no JSON. *)
Variable PendingResources : Z -> outcome value.
(** The first 64 characters of a remark, as the database counts characters. *)
Variable clip64 : string -> string.

(** ** Profiles *)

(** The seven members of a cached profile; [None] when one is missing or of
    another type. *)
Definition cached_profile (uid : Z) (root : value) : outcome (option UserInfo) :=
  match and_then (Returns (isObject root))
          (and_then (member_is isInt "uid" root)
             (and_then (match member_int "uid" root with
                        | Returns z => Returns (z =? uid) | Throws => Throws end)
                (and_then (member_is isString "name" root)
                   (and_then (member_is isString "email" root)
                      (and_then (member_is isString "nick" root)
                         (and_then (member_is isString "desc" root)
                            (and_then (member_is isInt "sex" root) (member_is isString "icon" root)))))))) with
  | Throws => Throws
  | Returns false => Returns None
  | Returns true =>
      match member_string "name" root, member_string "email" root, member_string "nick" root,
            member_string "desc" root, member_int "sex" root, member_string "icon" root with
      | Returns n, Returns e, Returns k, Returns d, Returns x, Returns i =>
          Returns (Some (mkUserInfo n "" uid e k d x i ""))
      | _, _, _, _, _, _ => Throws
      end
  end.

(** The profile as it is cached. *)
Definition profile_text (uid : Z) (u : UserInfo) : string :=
  toStyledString (object
    [("uid"%string, of_int uid); ("name"%string, of_string (name u)); ("email"%string, of_string (email u));
     ("nick"%string, of_string (nick u)); ("desc"%string, of_string (desc u)); ("sex"%string, of_int (sex u));
     ("icon"%string, of_string (icon u))]).

Definition GetBaseInfo (base_key : string) (uid : Z) : prog Logic (option UserInfo) :=
  info_str ← on_cache (RedisMgr.Get base_key);
  cached ← match info_str with
           | None => mret None
           | Some info_str =>
               cached ← match parse info_str with
                        | Some root => lift (cached_profile uid root)
                        | None => mret None
                        end;
               match cached with
               | Some u => mret (Some u)
               | None => on_cache (RedisMgr.Del base_key) ;; mret None
               end
           end;
  match cached with
  | Some u => mret (Some u)
  | None =>
      user_info ← on_mysql (GetUser uid);
      match user_info with
      | None => mret None
      | Some u => on_cache (RedisMgr.Set_ base_key (profile_text uid u)) ;; mret (Some u)
      end
  end.

(** ** Login *)

(** [rtvalue] and [authenticated]. *)
Definition put_login (k : string) (x : value) : prog ((value * bool) * Logic) unit :=
  cell (fun '(rt, auth) => (set_member k x rt, auth)).

Fixpoint put_all {C} (put : string -> value -> prog (C * Logic) unit) (l : list (string * value))
    : prog (C * Logic) unit :=
  match l with
  | [] => mret tt
  | (k, x) :: l => put k x ;; put_all put l
  end.

(** [rtvalue[k].append(x)] for each element; without elements [k] stays absent. *)
Definition put_list {C} (put : string -> value -> prog (C * Logic) unit) (k : string) (l : list value)
    : prog (C * Logic) unit :=
  match l with [] => mret tt | _ => put k (foldl append null l) end.

Definition apply_item (a : ApplyInfo) : value :=
  object [("name"%string, of_string (_name a)); ("uid"%string, of_int (_uid a));
          ("icon"%string, of_string (_icon a)); ("nick"%string, of_string (_nick a));
          ("sex"%string, of_int (_sex a)); ("desc"%string, of_string (_desc a));
          ("status"%string, of_int (_status a))].

Definition friend_item (u : UserInfo) : value :=
  object [("name"%string, of_string (name u)); ("uid"%string, of_int (uid u));
          ("icon"%string, of_string (icon u)); ("nick"%string, of_string (nick u));
          ("sex"%string, of_int (sex u)); ("desc"%string, of_string (desc u));
          ("back"%string, of_string (back u))].

Definition GetFriendApplyInfo (to_uid : Z) : prog Logic (option (list ApplyInfo)) :=
  on_mysql (GetApplyList to_uid 0 50).
Definition GetFriendList (self_id : Z) : prog Logic (option (list UserInfo)) :=
  on_mysql (FriendDao.GetFriendList self_id).

(** The ticket of a login: issued for this user and for this server. *)
Definition ticket_valid (uid : Z) (self : string) (ticket_value : string) : outcome bool :=
  match parse ticket_value with
  | None => Returns false
  | Some ticket =>
      and_then (Returns (isObject ticket))
        (and_then (member_is isInt "uid" ticket)
           (and_then (member_is isString "server" ticket)
              (and_then (match member_int "uid" ticket with
                         | Returns z => Returns (z =? uid) | Throws => Throws end)
                 (match member_string "server" ticket with
                  | Returns n => Returns (String.eqb n self) | Throws => Throws end))))
  end.

(** [root.get(k, 0).asInt()] *)
Definition get_int (k : string) (root : value) : outcome Z :=
  if isMember k root then member_int k root else Returns 0.

Definition login_body (o : Outside) (id : string) (root : value) (uid : Z) (token : string)
    : prog ((value * bool) * Logic) unit :=
  current ← inner (GetUserId id);
  if (0 <? current) || (uid <=? 0) || sempty token then put_login "error" (of_int TokenInvalid)
  else
    version ← lift (get_int "resource_protocol_version" root);
    if negb (version =? 1) then
      put_login "error" (of_int 426) ;;
      put_login "message" (of_string "Please upgrade the client: HTTPS resource protocol v1 required")
    else
      ticket_value ← inner (on_cache (RedisMgr.GetDel (Tickets.ticket_key token)));
      match ticket_value with
      | None => put_login "error" (of_int UidInvalid)
      | Some ticket_value =>
          valid ← lift (ticket_valid uid (self_name o) ticket_value);
          if negb valid then put_login "error" (of_int TokenInvalid)
          else
            put_login "error" (of_int ERROR_CODE_OK) ;;
            user_info ← inner (GetBaseInfo (USER_BASE_INFO ++ to_string uid) uid);
            match user_info with
            | None => put_login "error" (of_int UidInvalid)
            | Some u =>
                put_all put_login
                  [("uid"%string, of_int uid); ("name"%string, of_string (name u));
                   ("email"%string, of_string (email u)); ("nick"%string, of_string (nick u));
                   ("desc"%string, of_string (desc u)); ("sex"%string, of_int (sex u));
                   ("icon"%string, of_string (icon u))] ;;
                apply_list ← inner (GetFriendApplyInfo uid);
                put_list put_login "apply_list" (apply_item <$> default [] apply_list) ;;
                friend_list ← inner (GetFriendList uid);
                put_list put_login "friend_list" (friend_item <$> default [] friend_list) ;;
                files ← lift (PendingResources uid);
                put_login "pending_files" files ;;
                put_login "resources_unavailable" (of_bool (isNull files)) ;;
                inner (modify (fun s => set_net (SetUserId id uid (net s)) s)) ;;
                inner (on_cache (RedisMgr.Set_ (USERIPPREFIX ++ to_string uid) (self_name o))) ;;
                inner (modify (fun s => set_net (UserMgr.SetUserSession uid id (net s)) s)) ;;
                cell (fun '(rt, _) => (rt, true))
            end
      end.

(** The [Defer] object of a login. *)
Definition login_reply (o : Outside) (id : string) (uid : Z) (c : value * bool) : prog Logic unit :=
  let '(rt, authenticated) := c in
  ok ← Send id (toStyledString rt) MSG_CHAT_LOGIN_RSP;
  if ok && authenticated then DeliverPendingTextMessages o id uid else mret tt.

Definition LoginChatCallback (o : Outside) (id msg_data : string) : prog Logic unit :=
  match parse msg_data with
  | None => Close id
  | Some root =>
      ok ← lift (and_then (Returns (isObject root))
                   (and_then (member_is isInt "uid" root) (member_is isString "token" root)));
      if negb ok then Close id
      else
        uid ← lift (member_int "uid" root);
        token ← lift (member_string "token" root);
        with_cell (null, false) (login_reply o id uid) (login_body o id root uid token)
  end.

(** ** Search *)

Definition isPureDigit (str : string) : bool :=
  negb (sempty str) &&
  (fix go (s : string) : bool :=
     match s with
     | EmptyString => true
     | String c s => let n := N_of_ascii c in (48 <=? n)%N && (n <=? 57)%N && go s
     end) str.

(** A profile from the cache, taken as it is; a failed parse leaves null. *)
Definition show_cached (with_icon : bool) (info_str : string) : prog (value * Logic) unit :=
  let root := default null (parse info_str) in
  u ← lift (member_int "uid" root);
  n ← lift (member_string "name" root);
  k ← lift (member_string "nick" root);
  d ← lift (member_string "desc" root);
  x ← lift (member_int "sex" root);
  put_all put [("uid"%string, of_int u); ("name"%string, of_string n); ("nick"%string, of_string k);
               ("desc"%string, of_string d); ("sex"%string, of_int x)] ;;
  if with_icon then i ← lift (member_string "icon" root); put "icon" (of_string i)
  else
    i ← lift (member "icon" root);
    put "icon" i ;;
    if isMember "icon" root then mret tt
    else
      profile ← inner (on_mysql (GetUser u));
      match profile with Some p => put "icon" (of_string (icon p)) | None => mret tt end.

(** A profile from the database, cached under [base_key]. *)
Definition show_stored (base_key : string) (found : prog Logic (option UserInfo)) : prog (value * Logic) unit :=
  user_info ← inner found;
  match user_info with
  | None => put "error" (of_int UidInvalid)
  | Some u =>
      inner (on_cache (RedisMgr.Set_ base_key (profile_text (uid u) u))) ;;
      put_all put [("uid"%string, of_int (uid u)); ("name"%string, of_string (name u));
                   ("nick"%string, of_string (nick u)); ("desc"%string, of_string (desc u));
                   ("sex"%string, of_int (sex u)); ("icon"%string, of_string (icon u))]
  end.

Definition GetUserByUid (uid_str : string) : prog (value * Logic) unit :=
  put "error" (of_int ERROR_CODE_OK) ;;
  match from_chars uid_str with
  | Some n =>
      if n <=? 0 then put "error" (of_int UidInvalid)
      else
        let base_key := (USER_BASE_INFO ++ uid_str)%string in
        info_str ← inner (on_cache (RedisMgr.Get base_key));
        match info_str with
        | Some info_str => show_cached true info_str
        | None => show_stored base_key (on_mysql (GetUser n))
        end
  | None => put "error" (of_int UidInvalid)
  end.

Definition GetUserByName (user_name : string) : prog (value * Logic) unit :=
  put "error" (of_int ERROR_CODE_OK) ;;
  let base_key := (NAME_INFO ++ user_name)%string in
  info_str ← inner (on_cache (RedisMgr.Get base_key));
  match info_str with
  | Some info_str => show_cached false info_str
  | None => show_stored base_key (on_mysql (FriendDao.GetUserByName user_name))
  end.

Definition SearchUserCallback (id msg_data : string) : prog Logic unit :=
  let invalid := Send id (toStyledString (object [("error"%string, of_int JSON_ERROR)])) ID_SEARCH_USER_RSP ;; mret tt in
  match parse msg_data with
  | None => invalid
  | Some root =>
      ok ← lift (and_then (Returns (isObject root)) (member_is isString "uid" root));
      if negb ok then invalid
      else
        uid_str ← lift (member_string "uid" root);
        with_cell null (fun rt => Send id (toStyledString rt) ID_SEARCH_USER_RSP ;; mret tt)
          (if sempty uid_str then put "error" (of_int JSON_ERROR)
           else if isPureDigit uid_str then GetUserByUid uid_str else GetUserByName uid_str)
  end.

(** ** Friendship *)

(** [(root.isMember(k) && !root[k].isString())] *)
Definition bad_text (k : string) (root : value) : outcome bool :=
  and_then (Returns (isMember k root)) (member_is (fun v => negb (isString v)) k root).

(** The request identifier of a friendship request, when it is a short text. *)
Definition put_request_id (root : value) : prog (value * Logic) unit :=
  request ← lift (member "request_id" root);
  keep ← lift (and_then (Returns (isString request))
                 (match asString request with Returns r => Returns (ssize r <=? 64) | Throws => Throws end));
  if keep : bool then put "request_id" request else mret tt.

(** Steps on a local variable before its [Defer] object exists. *)
Definition prepare {C A} (c : C) (m : prog (C * Logic) A) : prog Logic (C * A) := fun s =>
  let '(r, (c, s)) := m (c, s) in
  (match r with Returns a => Returns (c, a) | Throws => Throws end, s).

(** [ChatGrpcClient::Notify...]: the call is made and answered, or not. *)
Definition notify_peer (o : Outside) (server : string) (touid : Z) : prog Logic bool :=
  modify (fun s => set_peer_calls (peer_calls s ++ [(server, touid)]) s) ;; mret (peer_ok o).

Definition add_friend_body (o : Outside) (id : string) (uid touid : Z) (applyname : string)
    : prog (value * Logic) unit :=
  if (touid <=? 0) || (touid =? uid) then put "error" (of_int UidInvalid)
  else
    relation ← inner (on_mysql (CheckFriendRelation uid touid));
    match relation with
    | None => put "error" (of_int RPC_ERROR)
    | Some true => put "error" (of_int UidInvalid)
    | Some false =>
        peer ← inner (on_mysql (GetUser touid));
        applied ← inner (match peer with
                         | None => mret false
                         | Some _ => on_mysql (AddFriendApply uid touid)
                         end);
        if negb applied then put "error" (of_int UidInvalid)
        else
          ip ← inner (on_cache (RedisMgr.Get (USERIPPREFIX ++ to_string touid)));
          match ip with
          | None => mret tt
          | Some ip_str =>
              apply_info ← inner (GetBaseInfo (USER_BASE_INFO ++ to_string uid) uid);
              let applyname := match apply_info with Some u => name u | None => applyname end in
              if String.eqb ip_str (self_name o) then
                session ← inner (gets (fun s => UserMgr.GetSession touid (net s)));
                match session with
                | None => mret tt
                | Some peer_id =>
                    let notify := object
                      ([("error"%string, of_int ERROR_CODE_OK); ("applyuid"%string, of_int uid);
                        ("name"%string, of_string applyname); ("desc"%string, of_string "")] ++
                       match apply_info with
                       | Some u => [("icon"%string, of_string (icon u)); ("sex"%string, of_int (sex u));
                                    ("nick"%string, of_string (nick u))]
                       | None => []
                       end) in
                    ok ← inner (Send peer_id (toStyledString notify) ID_NOTIFY_ADD_FRIEND_REQ);
                    if ok : bool then mret tt else put "notification_pending" (of_bool true)
                end
              else
                ok ← inner (notify_peer o ip_str touid);
                if ok : bool then mret tt else put "notification_pending" (of_bool true)
          end
    end.

Definition AddFriendCallback (o : Outside) (id msg_data : string) : prog Logic unit :=
  match parse msg_data with
  | None => Close id
  | Some root =>
      bad ← lift (or_else (Returns (negb (isObject root)))
                    (or_else (member_is (fun v => negb (isInt v)) "touid" root)
                       (or_else (bad_text "applyname" root) (bad_text "bakname" root))));
      if bad : bool then Close id
      else
        uid ← GetUserId id;
        applyname ← lift (member_string "applyname" root);
        lift (member_string "bakname" root) ;;
        touid ← lift (member_int "touid" root);
        '(rt, _) ← prepare (object [("error"%string, of_int ERROR_CODE_OK); ("touid"%string, of_int touid)])
                     (put_request_id root);
        with_cell rt (fun rt => Send id (toStyledString rt) ID_ADD_FRIEND_RSP ;; mret tt)
          (add_friend_body o id uid touid applyname)
  end.

Definition auth_friend_body (o : Outside) (uid touid : Z) (known : bool) (back_name : string)
    : prog (value * Logic) unit :=
  if (touid <=? 0) || (touid =? uid) || negb known then put "error" (of_int UidInvalid)
  else
    relation ← inner (on_mysql (CheckFriendRelation uid touid));
    match relation with
    | None => put "error" (of_int RPC_ERROR)
    | Some already =>
        acceptance ← inner (if already : bool then mret Success else on_mysql (AddFriend clip64 uid touid back_name));
        match acceptance with
        | PendingMissing => put "error" (of_int UidInvalid)
        | StorageError => put "error" (of_int RPC_ERROR)
        | Success =>
            to_ip ← inner (on_cache (RedisMgr.Get (USERIPPREFIX ++ to_string touid)));
            match to_ip with
            | None => mret tt
            | Some to_ip =>
                if String.eqb to_ip (self_name o) then
                  session ← inner (gets (fun s => UserMgr.GetSession touid (net s)));
                  match session with
                  | None => mret tt
                  | Some peer_id =>
                      user_info ← inner (GetBaseInfo (USER_BASE_INFO ++ to_string uid) uid);
                      let notify := object
                        ([("error"%string, of_int ERROR_CODE_OK); ("fromuid"%string, of_int uid);
                          ("touid"%string, of_int touid)] ++
                         match user_info with
                         | Some u => [("name"%string, of_string (name u)); ("nick"%string, of_string (nick u));
                                      ("icon"%string, of_string (icon u)); ("sex"%string, of_int (sex u))]
                         | None => [("error"%string, of_int UidInvalid)]
                         end) in
                      inner (Send peer_id (toStyledString notify) ID_NOTIFY_AUTH_FRIEND_REQ) ;; mret tt
                  end
                else inner (notify_peer o to_ip touid) ;; mret tt
            end
        end
    end.

Definition AuthFriendCallback (o : Outside) (id msg_data : string) : prog Logic unit :=
  match parse msg_data with
  | None => Close id
  | Some root =>
      ok ← lift (and_then (Returns (isObject root))
                   (and_then (member_is isInt "touid" root) (member_is isString "back" root)));
      if negb ok then Close id
      else
        uid ← GetUserId id;
        touid ← lift (member_int "touid" root);
        back_name ← lift (member_string "back" root);
        '(rt, known) ← prepare (object [("error"%string, of_int ERROR_CODE_OK); ("uid"%string, of_int touid)])
          (put_request_id root ;;
           user_info ← inner (GetBaseInfo (USER_BASE_INFO ++ to_string touid) touid);
           match user_info with
           | Some u =>
               put_all put [("name"%string, of_string (name u)); ("nick"%string, of_string (nick u));
                            ("icon"%string, of_string (icon u)); ("sex"%string, of_int (sex u));
                            ("uid"%string, of_int touid)] ;; mret true
           | None => put "error" (of_int UidInvalid) ;; mret false
           end);
        with_cell rt (fun rt => Send id (toStyledString rt) ID_AUTH_FRIEND_RSP ;; mret tt)
          (auth_friend_body o uid touid known back_name)
  end.

(** ** Heartbeat *)

(** [flush]: the snapshot is sent and its lists are emptied. *)
Definition flush (id : string) : prog (value * Logic) unit :=
  snapshot ← gets fst;
  inner (Send id (toStyledString snapshot) ID_HEARTBEAT_RSP) ;;
  put_all put [("apply_list"%string, empty_array); ("friend_list"%string, empty_array);
               ("pending_files"%string, empty_array)].

(** One element more in a list of the snapshot, flushing before it would grow
    beyond 12 KiB and after twenty elements. *)
Definition add_item (id k : string) (item : value) : prog (value * Logic) unit :=
  snapshot ← gets fst;
  (if 12 * 1024 <? ssize (toStyledString snapshot) + ssize (toStyledString item) then flush id else mret tt) ;;
  snapshot ← gets fst;
  l ← lift (member k snapshot);
  put k (append l item) ;;
  if Z.of_nat (length (items (append l item))) =? 20 then flush id else mret tt.

Fixpoint add_items (id k : string) (l : list value) : prog (value * Logic) unit :=
  match l with
  | [] => mret tt
  | item :: l => add_item id k item ;; add_items id k l
  end.

Definition empty_snapshot : value :=
  object [("apply_list"%string, empty_array); ("friend_list"%string, empty_array);
          ("pending_files"%string, empty_array)].

Definition heartbeat_body (id : string) (uid : Z) : prog (value * Logic) unit :=
  applications ← inner (GetFriendApplyInfo uid);
  add_items id "apply_list" (apply_item <$> default [] applications) ;;
  friends ← inner (GetFriendList uid);
  add_items id "friend_list" (friend_item <$> default [] friends) ;;
  files ← lift (PendingResources uid);
  put "resources_unavailable" (of_bool (isNull files)) ;;
  add_items id "pending_files" (items files) ;;
  flush id.

Definition HeartbeatCallback (id msg_data : string) : prog Logic unit :=
  modify (add_touched id) ;;
  let plain := Send id "{}" ID_HEARTBEAT_RSP ;; mret tt in
  match parse msg_data with
  | None => plain
  | Some request =>
      sync ← lift (and_then (Returns (isObject request))
                     (and_then (member_is isBool "sync_friends" request)
                        (match member "sync_friends" request with Returns v => asBool v | Throws => Throws end)));
      if negb sync then plain
      else
        uid ← GetUserId id;
        with_cell empty_snapshot (fun _ => mret tt) (heartbeat_body id uid)
  end.

(** ** Resource credentials *)

Definition TokenSeconds : Z := 900.
Definition tokenKey (token : string) : string := "resource_token:" ++ sha256_hex token.
Definition sessionKey (session : string) : string := "resource_session:" ++ session.

Definition newToken (random : string) : outcome string := if sodium_init_ok then Returns random else Throws.

Definition ResourceTokenCallback (o : Outside) (id body : string) : prog Logic unit :=
  match parse body with
  | None => throw
  | Some request =>
      request_id ← lift (member "request_id" request);
      if negb (isString request_id) then throw
      else
        text ← lift (asString request_id);
        if sempty text || (64 <? ssize text) then throw
        else
          uid ← GetUserId id;
          let response := object [("error"%string, of_int 0); ("uid"%string, of_int uid);
                                  ("request_id"%string, request_id)] in
          token ← lift (newToken (random_token o));
          let record := object [("uid"%string, of_int uid); ("session"%string, of_string id);
                                ("generation"%string, of_string id)] in
          first_ ← on_cache (RedisMgr.SetWithTtl (sessionKey id) id TokenSeconds);
          ok ← (if first_ : bool
                then on_cache (RedisMgr.SetWithTtl (tokenKey token) (toStyledString record) TokenSeconds)
                else mret false);
          let response := if ok : bool
            then set_member "expires_in" (of_int TokenSeconds) (set_member "token" (of_string token) response)
            else set_member "error" (of_int 503) response in
          Send id (toStyledString response) ID_RESOURCE_TOKEN_RSP ;; mret tt
  end.

Definition ResourceRevokeCallback (id : string) : prog Logic unit :=
  on_cache (RedisMgr.Del (sessionKey id)) ;; Close id.

(** ** Dispatch *)

(** [RegisterCallBacks] *)
Definition callback (o : Outside) (msg_id : Z) (id msg_data : string) : option (prog Logic unit) :=
  if msg_id =? ID_RESOURCE_TOKEN_REQ then Some (ResourceTokenCallback o id msg_data)
  else if msg_id =? ID_RESOURCE_REVOKE_REQ then Some (ResourceRevokeCallback id)
  else if msg_id =? MSG_CHAT_LOGIN then Some (LoginChatCallback o id msg_data)
  else if msg_id =? ID_SEARCH_USER_REQ then Some (SearchUserCallback id msg_data)
  else if msg_id =? ID_ADD_FRIEND_REQ then Some (AddFriendCallback o id msg_data)
  else if msg_id =? ID_AUTH_FRIEND_REQ then Some (AuthFriendCallback o id msg_data)
  else if msg_id =? ID_TEXT_CHAT_MSG_REQ then Some (TextChatMsgCallback o id msg_data)
  else if msg_id =? ID_TEXT_CHAT_MSG_ACK then Some (TextChatAckCallback o id msg_data)
  else if msg_id =? ID_HEART_BEAT_REQ then Some (HeartbeatCallback id msg_data)
  else None.

Definition DealMsg (o : Outside) (id : string) (msg_id : Z) (msg_data : string) : prog Logic unit :=
  closed ← IsClosed id;
  if closed : bool then mret tt
  else match callback o msg_id id msg_data with
       | None => mret tt
       | Some handler =>
           uid ← GetUserId id;
           if negb (msg_id =? MSG_CHAT_LOGIN) && (uid <=? 0) then Close id
           else try_catch handler (Close id)
       end.

End Handlers.

(** ** Who sets the user of a connection *)

(** The call leaves the user of every connection as it is, or sets it to one
    that [P] allows. *)
Class Keeps {X A} (P : string -> Z -> Prop) (view : X -> Logic) (m : prog X A) : Prop :=
  keeps : forall s x, uid_of x (net (view (m s).2)) = uid_of x (net (view s)) \/
                      P x (uid_of x (net (view (m s).2))).

Section Keeping.
Context {X : Type} {P : string -> Z -> Prop} (view : X -> Logic).

#[global] Instance keeps_ret {A} (a : A) : Keeps P view (mret a).
Proof. by left. Qed.
#[global] Instance keeps_throw {A} : Keeps P view (throw : prog X A).
Proof. by left. Qed.
#[global] Instance keeps_gets {A} (f : X -> A) : Keeps P view (gets f).
Proof. by left. Qed.
#[global] Instance keeps_lift {A} (r : outcome A) : Keeps P view (lift r).
Proof. by left. Qed.
#[global] Instance keeps_bind {A B} (m : prog X A) (k : A -> prog X B) :
  Keeps P view m -> (forall a, Keeps P view (k a)) -> Keeps P view (m ≫= k).
Proof.
  intros Hm Hk s x. unfold mbind, prog_bind. pose proof (Hm s x) as E.
  destruct (m s) as [[a|] s']; [|done]. destruct (Hk a s' x) as [->|?]; [exact E|by right].
Qed.
#[global] Instance keeps_try {A} (m h : prog X A) :
  Keeps P view m -> Keeps P view h -> Keeps P view (try_catch m h).
Proof.
  intros Hm Hh s x. unfold try_catch. pose proof (Hm s x) as E.
  destruct (m s) as [[a|] s']; [done|]. destruct (Hh s' x) as [->|?]; [exact E|by right].
Qed.
End Keeping.

Definition here (s : Logic) : Logic := s.

Section Calls.
Context {P : string -> Z -> Prop}.

#[global] Instance keeps_mysql {A} (m : prog (db Tables) A) : Keeps P here (on_mysql m).
Proof. intros s x. left. unfold on_mysql. by destruct (m (mysql s)). Qed.
#[global] Instance keeps_cache {A} (f : redis -> A * redis) : Keeps P here (on_cache f).
Proof. intros s x. left. unfold on_cache. by destruct (f (cache s)). Qed.
#[global] Instance keeps_Close id : Keeps P here (Close id).
Proof.
  intros s x. left. unfold Close, modify, here. simpl. unfold Server.Close.
  destruct (is_closed id (net s)); [done|]. by rewrite uid_of_Clear, uid_of_flag.
Qed.
#[global] Instance keeps_Send id msg msgid : Keeps P here (Send id msg msgid).
Proof.
  intros s x. unfold Send. destruct (SendQueue.Send _ _ _) as [ok q].
  destruct (SendQueue.b_close q); [|by left]. exact (keeps_Close id s x).
Qed.
Lemma keeps_modify f : (forall s x, uid_of x (net (f s)) = uid_of x (net s)) -> Keeps P here (modify f).
Proof. intros Hf s x. left. apply Hf. Qed.
#[global] Instance keeps_inner {C A} (m : prog Logic A) :
  Keeps P here m -> Keeps P (snd : C * Logic -> Logic) (inner m).
Proof. intros Hm [c s] x. unfold inner. pose proof (Hm s x) as E. by destruct (m s). Qed.
#[global] Instance keeps_cell {C} (f : C -> C) : Keeps P (snd : C * Logic -> Logic) (cell f).
Proof. intros [c s] x. by left. Qed.
#[global] Instance keeps_with_cell {C A} (c : C) fin (body : prog (C * Logic) A) :
  Keeps P snd body -> (forall c, Keeps P here (fin c)) -> Keeps P here (with_cell c fin body).
Proof.
  intros Hb Hf s x. unfold with_cell. pose proof (Hb (c, s) x) as E.
  destruct (body (c, s)) as [r [c' s']]. pose proof (Hf c' s' x) as E'. simpl in E.
  destruct (fin c' s') as [r' s'']. unfold here in *. simpl in *.
  destruct E' as [->|?]; [exact E|by right].
Qed.

#[global] Instance keeps_prepare {C A} (c : C) (m : prog (C * Logic) A) :
  Keeps P snd m -> Keeps P here (prepare c m).
Proof.
  intros Hm s x. unfold prepare. pose proof (Hm (c, s) x) as E. by destruct (m (c, s)) as [[a|] [rt s']].
Qed.

(** The one call that sets a user. *)
Lemma keeps_SetUserId id uid : P id uid -> Keeps P here (modify (fun s => set_net (SetUserId id uid (net s)) s)).
Proof.
  intros Hp s x. unfold modify, here. simpl. destruct (decide (id = x)) as [<-|Hne].
  - unfold uid_of. simpl. rewrite lookup_alter_eq. destruct (objects (net s) !! id); [by right|by left].
  - left. by apply uid_of_SetUserId.
Qed.
End Calls.

(** Case analysis inside a call. *)
Ltac keeps_step :=
  match goal with
  | |- Keeps _ _ (match ?x with _ => _ end) => destruct x
  | |- Keeps _ _ (let '(_, _) := ?x in _) => destruct x
  | |- Keeps _ here (modify (fun s => set_net (SetUserId _ _ _) _)) => apply keeps_SetUserId
  | |- Keeps _ here (modify _) => apply keeps_modify; intros; try done
  | |- Keeps _ _ (mbind _ _) => apply keeps_bind; [|intros]
  | |- Keeps _ _ (try_catch _ _) => apply keeps_try
  | |- Keeps _ _ (with_cell _ _ _) => apply keeps_with_cell; [|intros]
  | |- Keeps _ _ (inner _) => apply keeps_inner
  | |- Keeps _ _ (prepare _ _) => apply keeps_prepare
  | |- Keeps _ _ _ => progress cbv zeta
  | |- Keeps _ _ _ => apply _
  end.
Ltac keeps := repeat keeps_step.

Section Users.
Context `{J : Json} `{Collation} `{Sodium}.
Variable PendingResources : Z -> outcome value.
Variable clip64 : string -> string.
Context {P : string -> Z -> Prop}.

#[local] Instance keeps_put k x : Keeps P snd (put k x).
Proof. unfold put. apply _. Qed.
#[local] Instance keeps_put_login k x : Keeps P snd (put_login k x).
Proof. unfold put_login. apply _. Qed.
#[local] Instance keeps_put_all {C} (put : string -> value -> prog (C * Logic) unit) l :
  (forall k x, Keeps P snd (put k x)) -> Keeps P snd (put_all put l).
Proof. intros Hp. induction l as [|[k x] l IH]; simpl; keeps. Qed.
#[local] Instance keeps_put_list {C} (put : string -> value -> prog (C * Logic) unit) k l :
  (forall k x, Keeps P snd (put k x)) -> Keeps P snd (put_list put k l).
Proof. intros Hp. unfold put_list. keeps. Qed.
#[local] Instance keeps_deliver_loop id t l : Keeps P here (deliver_loop id t l).
Proof. induction l as [|m l IH]; simpl; unfold put_delivery; keeps. Qed.
#[local] Instance keeps_deliver o id u : Keeps P here (DeliverPendingTextMessages o id u).
Proof. unfold DeliverPendingTextMessages, put_delivery, IsClosed. keeps. Qed.
#[local] Instance keeps_base k u : Keeps P here (GetBaseInfo k u).
Proof. unfold GetBaseInfo. keeps. Qed.
#[local] Instance keeps_text o id m : Keeps P here (TextChatMsgCallback o id m).
Proof. unfold TextChatMsgCallback, text_body, GetUserId. keeps. Qed.
#[local] Instance keeps_ack o id m : Keeps P here (TextChatAckCallback o id m).
Proof. unfold TextChatAckCallback, GetUserId. keeps. Qed.
#[local] Instance keeps_search id m : Keeps P here (SearchUserCallback id m).
Proof.
  unfold SearchUserCallback, GetUserByUid, Handlers.GetUserByName, show_cached, show_stored. keeps.
Qed.
#[local] Instance keeps_notify o k u : Keeps P here (notify_peer o k u).
Proof. unfold notify_peer. keeps. Qed.
#[local] Instance keeps_request_id root : Keeps P snd (put_request_id root).
Proof. unfold put_request_id. keeps. Qed.

#[local] Instance keeps_add_friend o id m : Keeps P here (AddFriendCallback o id m).
Proof.
  unfold AddFriendCallback, add_friend_body, GetUserId. keeps.
Qed.
#[local] Instance keeps_auth_friend o id m : Keeps P here (AuthFriendCallback clip64 o id m).
Proof.
  unfold AuthFriendCallback, auth_friend_body, GetUserId. keeps.
Qed.
#[local] Instance keeps_flush id : Keeps P snd (flush id).
Proof. unfold flush. keeps. Qed.
#[local] Instance keeps_add_items id k l : Keeps P snd (add_items id k l).
Proof. induction l; simpl; unfold add_item; keeps. Qed.
#[local] Instance keeps_heartbeat id m : Keeps P here (HeartbeatCallback PendingResources id m).
Proof. unfold HeartbeatCallback, heartbeat_body, GetFriendApplyInfo, GetFriendList, GetUserId. keeps. Qed.
#[local] Instance keeps_resource o id m : Keeps P here (ResourceTokenCallback o id m).
Proof. unfold ResourceTokenCallback, GetUserId. keeps. Qed.

End Users.

Section Login.
Context `{J : Json} `{Collation} `{Sodium}.
Variable PendingResources : Z -> outcome value.
Variable clip64 : string -> string.

#[local] Existing Instances keeps_put_login keeps_put_all keeps_put_list keeps_base keeps_deliver
  keeps_text keeps_ack keeps_search keeps_add_friend keeps_auth_friend keeps_heartbeat keeps_resource.

(** A login that may set the user of [id] to [uid]: the connection had none
    and the token was redeemed for a ticket of this user on this server. *)
Definition entitled (o : Outside) (id : string) (s : Logic) (uid : Z) (token : string) : Prop :=
  uid_of id (net s) <= 0 /\ 0 < uid /\
  exists ticket, (RedisMgr.GetDel (Tickets.ticket_key token) (cache s)).1 = Some ticket /\
                 ticket_valid uid (self_name o) ticket = Returns true.

Ltac refused x :=
  match goal with |- context [ (?m (?c, ?s)).2.2 ] =>
    let Hk := fresh in
    assert (Keeps (fun _ _ => False) snd m) as Hk by keeps;
    destruct (Hk (c, s) x) as [?|[]]; by left
  end.

(** The user of [x] after a login: as before, or the one logged in. *)
Definition login_result (o : Outside) (id : string) (s : Logic) (uid : Z) (token x : string) (v : Z) : Prop :=
  v = uid_of x (net s) \/ x = id /\ v = uid /\ entitled o id s uid token.

Lemma login_body_users o id root uid token c s x :
  login_result o id s uid token x
    (uid_of x (net (login_body PendingResources o id root uid token (c, s)).2.2)).
Proof.
  unfold login_body. unfold mbind at 1, prog_bind at 1, inner at 1, GetUserId, gets.
  destruct ((0 <? uid_of id (net s)) || (uid <=? 0) || sempty token) eqn:Hg; [by left|]. bool_hyps.
  unfold mbind at 1, prog_bind at 1, lift at 1.
  destruct (get_int _ root) as [version|]; [|by left]. destruct (version =? 1); cbn [negb].
  2: { refused x. }
  unfold mbind at 1, prog_bind at 1, inner at 1, on_cache at 1.
  destruct (RedisMgr.GetDel (Tickets.ticket_key token) (cache s)) as [[ticket|] r] eqn:Et;
    [|refused x].
  unfold mbind at 1, prog_bind at 1, lift at 1.
  destruct (ticket_valid uid (self_name o) ticket) as [[]|] eqn:Ev; cbn [negb]; [|refused x|by left].
  assert (entitled o id s uid token) as He.
  { split_and!; [lia..|]. exists ticket. by rewrite Et. }
  set (P := fun y v => y = id /\ v = uid /\ entitled o id s uid token).
  match goal with |- context [ (?m (c, set_cache r s)).2.2 ] =>
    assert (Keeps P snd m) as Hk end.
  { unfold GetFriendApplyInfo, GetFriendList. keeps. done. }
  destruct (Hk (c, set_cache r s) x) as [E|E]; [left|right]; exact E.
Qed.

#[local] Instance keeps_login_reply P o id u c : Keeps P here (login_reply o id u c).
Proof. unfold login_reply. keeps. Qed.

Lemma login_users o id msg_data s x : let s' := (LoginChatCallback PendingResources o id msg_data s).2 in
  uid_of x (net s') = uid_of x (net s) \/
  exists root token, parse msg_data = Some root /\ member_string "token" root = Returns token /\
    member_int "uid" root = Returns (uid_of x (net s')) /\ x = id /\
    entitled o id s (uid_of x (net s')) token.
Proof.
  cbn zeta. unfold LoginChatCallback. destruct (parse msg_data) as [root|] eqn:Ep.
  2: { destruct (keeps_Close (P := fun _ _ => False) id s x) as [E|[]]. by left. }
  unfold mbind, prog_bind, lift. destruct (and_then _ _) as [[]|]; cbn [negb]; [| |by left].
  2: { destruct (keeps_Close (P := fun _ _ => False) id s x) as [E|[]]. by left. }
  destruct (member_int "uid" root) as [uid|] eqn:Eu; [|by left].
  destruct (member_string "token" root) as [token|] eqn:Et; [|by left].
  unfold with_cell. pose proof (login_body_users o id root uid token (null, false) s x) as Hl.
  destruct (login_body _ _ _ _ _ _ _) as [r [c s1]]. cbn [snd] in Hl.
  destruct (keeps_login_reply (fun _ _ => False) o id uid c s1 x) as [E|[]].
  destruct (login_reply o id uid c s1) as [r' s2]. cbn [snd] in *. unfold here in E. rewrite E.
  destruct Hl as [->|(-> & -> & He)]; [by left|right]. by exists root, token.
Qed.


End Login.
