(* ===== verification/ResourceAuth.v ===== *)
(** The credentials of the resource service: the chat servers issue and revoke
    them ([ResourceTokenCallback], [ResourceRevokeCallback]), the resource
    servers check them and limit the rate of requests
    ([Redis::authenticate] of [src/servers/resource/ResourceSupport.h]), all
    over one Redis. *)
From S2P Require Import Prelude Mysql Password Redis Session Server Json Logic Handlers.

(** ** The script of the rate limit *)

Definition int64 (z : Z) : bool := (- 2 ^ 63 <=? z) && (z <? 2 ^ 63).

Definition HINCRBY (k f : string) (n now : Z) (m : gmap string entry) : Reply * gmap string entry :=
  match lookup_key now k m with
  | None => (ReplyInteger n, <[k := mkEntry (VHash {[f := to_string n]}) None]> m)
  | Some (mkEntry (VHash h) t) =>
      match from_option decimal (Some 0) (h !! f) with
      | None => (ReplyError "ERR hash value is not an integer", m)
      | Some z =>
          if int64 (z + n) then (ReplyInteger (z + n), <[k := mkEntry (VHash (<[f := to_string (z + n)]> h)) t]> m)
          else (ReplyError "ERR increment or decrement would overflow", m)
      end
  | Some _ => (WRONGTYPE, m)
  end.

Definition EXPIRE (k : string) (ttl now : Z) (m : gmap string entry) : gmap string entry :=
  alter (fun e => mkEntry (rval e) (Some (now + 1000 * ttl))) k m.

(** The key of the counters of a second. *)
Definition rate_key (key : string) (second : Z) : string := key ++ ":" ++ to_string second.

(** A failing call ends the script; what was done before it stays. *)
Definition EVAL_rate (key : string) (bytes now : Z) (m : gmap string entry) : Reply * gmap string entry :=
  let k := rate_key key (now / 1000) in
  match HINCRBY k "requests" 1 now m with
  | (ReplyInteger n, m) =>
      match HINCRBY k "bytes" bytes now m with
      | (ReplyInteger b, m) => (ReplyInteger (if (128 <? n) || (8388608 <? b) then 0 else 1), EXPIRE k 2 now m)
      | r => r
      end
  | r => r
  end.

Section Auth.
Context `{J : Json} `{Sodium}.
(** The reader with [rejectDupKeys] and [failIfExtra]. *)
Context (strict_parse : string -> option value).

(** ** [Redis] of the resource server *)

(** What a call gives: the status of an [Error], 503 for another exception, or
    its value. *)
Definition command (f : Z -> gmap string entry -> Reply * gmap string entry) (s : redis) : (Z + Reply) * redis :=
  match Redis.command f s with
  | (None, s) | (Some (ReplyError _), s) => (inl 503, s)
  | (Some r, s) => (inr r, s)
  end.

Definition get (k : string) (s : redis) : (Z + option string) * redis :=
  match command (GET k) s with
  | (inl status, s) => (inl status, s)
  | (inr ReplyNil, s) => (inr None, s)
  | (inr (ReplyString v), s) => (inr (Some v), s)
  | (inr _, s) => (inl 503, s)
  end.

Definition bearer (auth : string) : option string :=
  if (ssize auth =? 71) && String.eqb (stake 7 auth) "Bearer " then Some (sdrop 7 auth) else None.

(** The last steps of [authenticate]: the identity and its rate. *)
Definition admit_uid (uid bytes : Z) (s : redis) : (Z + Z) * redis :=
  if uid <=? 0 then (inl 401, s)
  else
    match command (EVAL_rate ("resource_rate:" ++ to_string uid) bytes) s with
    | (inl status, s) => (inl status, s)
    | (inr (ReplyInteger 1), s) => (inr uid, s)
    | (inr _, s) => (inl 429, s)
    end.

Definition authenticate (auth : string) (bytes : Z) (s : redis) : (Z + Z) * redis :=
  match bearer auth with
  | None => (inl 401, s)
  | Some token =>
      match get (tokenKey token) s with
      | (inl status, s) => (inl status, s)
      | (inr None, s) => (inl 401, s)
      | (inr (Some text), s) =>
          match strict_parse text with
          | None => (inl 400, s)
          | Some v =>
              if negb (isObject v) then (inl 400, s)
              else
                match member_string "session" v with
                | Throws => (inl 503, s)
                | Returns session =>
                    match get (sessionKey session) s with
                    | (inl status, s) => (inl status, s)
                    | (inr None, s) => (inl 401, s)
                    | (inr (Some generation), s) =>
                        match member_string "generation" v with
                        | Throws => (inl 503, s)
                        | Returns g =>
                            if negb (String.eqb generation g) then (inl 401, s)
                            else match member_int "uid" v with
                                 | Throws => (inl 503, s)
                                 | Returns uid => admit_uid uid bytes s
                                 end
                        end
                    end
                end
          end
      end
  end.

(** ** Traces *)

(** A chat server with the state [s] handles a request of its session [id]; a
    resource server checks a request; the keys of others change. *)
Inductive event :=
| AsksToken (o : Outside) (id body : string) (s : Logic)
| Revokes (id : string) (s : Logic)
| Authenticates (auth : string) (bytes : Z)
| Elsewhere (m : gmap string entry).

(** The keys that belong to the credentials. *)
Definition resource_key (k : string) : bool := String.prefix "resource_" k.

(** [grants]: user, second and bytes of the requests that were admitted. *)
Record World := mkWorld { store : redis; grants : list (Z * Z * Z) }.

Definition set_store (r : redis) (w : World) : World := mkWorld r (grants w).

Definition run_event (w : World) (e : event) : World :=
  match e with
  | AsksToken o id body s => set_store (cache (ResourceTokenCallback o id body (set_cache (store w) s)).2) w
  | Revokes id s => set_store (cache (ResourceRevokeCallback id (set_cache (store w) s)).2) w
  | Authenticates auth bytes =>
      match authenticate auth bytes (store w) with
      | (inl _, r) => set_store r w
      | (inr uid, r) => mkWorld r (grants w ++ [(uid, rclock r (pred (rcalls r)) / 1000, bytes)])
      end
  | Elsewhere m =>
      set_store (mkRedis (filter (fun x => resource_key x.1 = true) (keys (store w)) ∪ filter (fun x => resource_key x.1 = false) m)
                   (S (rcalls (store w))) (roracle (store w)) (rclock (store w))) w
  end.

(** ** What the events do to the store *)

Definition record_text (uid : Z) (id : string) : string :=
  toStyledString (object [("uid"%string, of_int uid); ("session"%string, of_string id); ("generation"%string, of_string id)]).

(** The clock and the failures are those of the start. *)
Definition same_course (r r' : redis) : Prop := rclock r' = rclock r /\ roracle r' = roracle r /\ (rcalls r <= rcalls r')%nat.

Lemma same_course_refl r : same_course r r.
Proof. by split_and!. Qed.

Lemma same_course_trans r1 r2 r3 : same_course r1 r2 -> same_course r2 r3 -> same_course r1 r3.
Proof. intros (E1 & E2 & E3) (F1 & F2 & F3). split_and!; [congruence..|lia]. Qed.

Lemma command_course f r : same_course r (Redis.command f r).2.
Proof. unfold Redis.command. destruct (roracle r (rcalls r)); [destruct (f _ _)| |destruct (f _ _)]; split_and!; cbn; auto. Qed.

Lemma set_ttl_spec k v ttl r : 0 < ttl -> let '(ok, r') := RedisMgr.SetWithTtl k v ttl r in
  same_course r r' /\ rcalls r' = S (rcalls r) /\
  (keys r' = keys r /\ ok = false \/
   keys r' = <[k := mkEntry (VString v) (Some (rclock r (rcalls r) + 1000 * ttl))]> (keys r)).
Proof.
  intros Ht. unfold RedisMgr.SetWithTtl. rewrite (proj2 (Z.leb_gt _ _)) by done. unfold Redis.command, SET.
  destruct (roracle r (rcalls r)) eqn:E; cbn; (split_and!; [by split_and!; cbn; auto|done|auto]).
Qed.

(** A request for a token gives up, or writes the session and then the token. *)
Definition issue (o : Outside) (id : string) (uid : Z) (r : redis) : redis :=
  let '(ok, r) := RedisMgr.SetWithTtl (sessionKey id) id TokenSeconds r in
  if ok : bool then (RedisMgr.SetWithTtl (tokenKey (random_token o)) (record_text uid id) TokenSeconds r).2 else r.

Lemma cache_Send id m k s : cache (Send id m k s).2 = cache s.
Proof. unfold Send. destruct (SendQueue.Send _ _ _) as [ok q]. by destruct (SendQueue.b_close q). Qed.

Lemma cache_sent id m k s : cache ((Send id m k ≫= fun _ => mret tt) s).2 = cache s.
Proof.
  rewrite <- (cache_Send id m k s) at 1. unfold mbind, prog_bind. by destruct (Send id m k s) as [[|] s'].
Qed.

Lemma token_cache o id body s : let r := cache (ResourceTokenCallback o id body s).2 in
  r = cache s \/ r = issue o id (uid_of id (net s)) (cache s).
Proof.
  cbv zeta. unfold ResourceTokenCallback. destruct (parse body) as [request|]; [|by left].
  unfold mbind, prog_bind, lift. destruct (member "request_id" request) as [rid|]; [|by left].
  destruct (negb _); [by left|]. destruct (asString rid) as [text|]; [|by left]. destruct (_ || _); [by left|].
  unfold GetUserId, gets. destruct (newToken _) as [token|] eqn:Et; [|by left]. right.
  assert (token = random_token o) as -> by (unfold newToken in Et; destruct sodium_init_ok; congruence).
  unfold on_cache, issue. destruct (RedisMgr.SetWithTtl (sessionKey id) id TokenSeconds (cache s)) as [[|] r]; cbn [cache set_cache].
  - fold (record_text (uid_of id (net s)) id). destruct (RedisMgr.SetWithTtl (tokenKey _) _ _ r) as [ok r2].
    exact (cache_sent _ _ _ (set_cache r2 (set_cache r s))).
  - exact (cache_sent _ _ _ (set_cache r s)).
Qed.

Lemma revoke_cache id s : cache (ResourceRevokeCallback id s).2 = (Redis.command (DEL (c_str (sessionKey id))) (cache s)).2.
Proof.
  unfold ResourceRevokeCallback, on_cache, RedisMgr.Del, mbind, prog_bind. by destruct (Redis.command _ (cache s)).
Qed.

(** The keys of the two other kinds. *)
Lemma HINCRBY_other k f n now m j : j <> k -> (HINCRBY k f n now m).2 !! j = m !! j.
Proof.
  intros Hj. unfold HINCRBY. destruct (lookup_key now k m) as [[[] t]|]; try done; [|by cbn; rewrite lookup_insert_ne].
  destruct (from_option _ _ _); [|done]. destruct (int64 _); [|done]. cbn. by rewrite lookup_insert_ne.
Qed.

Lemma EVAL_rate_other key bytes now m j : j <> rate_key key (now / 1000) -> (EVAL_rate key bytes now m).2 !! j = m !! j.
Proof.
  intros Hj. unfold EVAL_rate. cbv zeta. set (k := rate_key key (now / 1000)) in *.
  pose proof (HINCRBY_other k "requests" 1 now m j Hj) as E1. destruct (HINCRBY k "requests" 1 now m) as [[] m1]; try done.
  pose proof (HINCRBY_other k "bytes" bytes now m1 j Hj) as E2. destruct (HINCRBY k "bytes" bytes now m1) as [[] m2]; cbn [snd] in *; try congruence.
  unfold EXPIRE. rewrite lookup_alter_ne by done. congruence.
Qed.

Lemma lookup_key_Some now k m e : lookup_key now k m = Some e -> m !! k = Some e /\ Redis.live now e = true.
Proof. unfold lookup_key. destruct (m !! k) as [e'|]; cbn [mbind option_bind]; [|done]. destruct (Redis.live now e') eqn:E; [|done]. by intros [= <-]. Qed.

Lemma get_spec k r : let '(x, r') := get k r in same_course r r' /\ rcalls r' = S (rcalls r) /\ keys r' = keys r /\
  (forall v, x = inr (Some v) -> exists t, keys r !! k = Some (mkEntry (VString v) t) /\ Redis.live (rclock r (rcalls r)) (mkEntry (VString v) t) = true).
Proof.
  unfold get, command, Redis.command, GET.
  assert (same_course r (mkRedis (keys r) (S (rcalls r)) (roracle r) (rclock r))) as Hc by by split_and!; cbn; auto.
  destruct (roracle r (rcalls r)); [|by split_and!|].
  - destruct (lookup_key (rclock r (rcalls r)) k (keys r)) as [[v t]|] eqn:E; [|by split_and!]. apply lookup_key_Some in E as [E1 E2].
    destruct v; split_and!; try done. intros v [= <-]. eauto.
  - destruct (lookup_key (rclock r (rcalls r)) k (keys r)) as [[v t]|] eqn:E; [|by split_and!]. by destruct v; split_and!.
Qed.

(** Where the call ends, and what it has done. *)
Definition rate_only (r r' : redis) : Prop :=
  same_course r r' /\ forall k, (forall x, k <> ("resource_rate:" ++ x)%string) -> keys r' !! k = keys r !! k.

Lemma admit_rate_only uid bytes r : rate_only r (admit_uid uid bytes r).2.
Proof.
  unfold admit_uid. destruct (uid <=? 0); [split; [apply same_course_refl|done]|].
  unfold command. pose proof (command_course (EVAL_rate ("resource_rate:" ++ to_string uid) bytes) r) as Hc.
  assert (forall k, (forall x, k <> ("resource_rate:" ++ x)%string) ->
    keys (Redis.command (EVAL_rate ("resource_rate:" ++ to_string uid) bytes) r).2 !! k = keys r !! k) as Hk.
  { intros k Hk. unfold Redis.command. pose proof (EVAL_rate_other ("resource_rate:" ++ to_string uid) bytes (rclock r (rcalls r)) (keys r) k) as E.
    destruct (roracle r (rcalls r)); cbn; [|done|]; destruct (EVAL_rate _ _ _ _); apply E, Hk. }
  destruct (Redis.command _ r) as [x r']. cbn [snd] in *. by repeat case_match; simplify_eq; split.
Qed.

(** The call gives up having read keys, or it comes to the rate. *)
Definition read_only (r r' : redis) : Prop := same_course r r' /\ keys r' = keys r.

Lemma read_only_trans r1 r2 r3 : read_only r1 r2 -> read_only r2 r3 -> read_only r1 r3.
Proof. intros [C1 K1] [C2 K2]. split; [by eapply same_course_trans|congruence]. Qed.

Lemma authenticate_cases auth bytes r :
  (exists status, (authenticate auth bytes r).1 = inl status) /\ read_only r (authenticate auth bytes r).2 \/
  exists uid r', read_only r r' /\ authenticate auth bytes r = admit_uid uid bytes r'.
Proof.
  unfold authenticate. destruct (bearer auth) as [token|]; [|left; split; [by eexists|by split; [apply same_course_refl|]]].
  pose proof (get_spec (tokenKey token) r) as Hg. destruct (get (tokenKey token) r) as [x r1]. destruct Hg as (C1 & _ & K1 & _).
  assert (read_only r r1) as H1 by by split. destruct x as [|[text|]]; try (left; by eauto).
  destruct (strict_parse text) as [v|]; [|left; by eauto]. destruct (negb _); [left; by eauto|].
  destruct (member_string "session" v) as [session|]; [|left; by eauto].
  pose proof (get_spec (sessionKey session) r1) as Hg. destruct (get (sessionKey session) r1) as [x r2]. destruct Hg as (C2 & _ & K2 & _).
  assert (read_only r r2) as H2 by (by eapply read_only_trans; [exact H1|split]). destruct x as [|[generation|]]; try (left; by eauto).
  destruct (member_string "generation" v); [|left; by eauto]. destruct (negb _); [left; by eauto|].
  destruct (member_int "uid" v) as [uid|]; [|left; by eauto]. right. eauto.
Qed.

Lemma authenticate_rate_only auth bytes r : rate_only r (authenticate auth bytes r).2.
Proof.
  destruct (authenticate_cases auth bytes r) as [(_ & C & K)|(uid & r' & [C K] & ->)]; [split; [done|by rewrite K]|].
  destruct (admit_rate_only uid bytes r') as [C2 K2]. split; [by eapply same_course_trans|]. by rewrite <- K.
Qed.

(** ** Who is admitted *)

Lemma event_course w e : same_course (store w) (store (run_event w e)).
Proof.
  destruct e; cbn [run_event].
  - destruct (token_cache o id body (set_cache (store w) s)) as [->| ->]; cbn [cache set_cache set_store store]; [apply same_course_refl|].
    unfold issue. pose proof (set_ttl_spec (sessionKey id) id TokenSeconds (store w) ltac:(done)) as Hs.
    destruct (RedisMgr.SetWithTtl (sessionKey id) id TokenSeconds (store w)) as [[|] r]; [|apply Hs].
    eapply same_course_trans; [apply Hs|]. pose proof (set_ttl_spec (tokenKey (random_token o)) (record_text (uid_of id (net s)) id) TokenSeconds r ltac:(done)) as Ht.
    cbn [net set_cache]. destruct (RedisMgr.SetWithTtl (tokenKey _) _ _ r) as [ok r2]. apply Ht.
  - rewrite revoke_cache. apply command_course.
  - pose proof (authenticate_rate_only auth bytes (store w)) as [Hc _]. by destruct (authenticate auth bytes (store w)) as [[|] r].
  - split_and!; cbn; auto.
Qed.

Section Sound.
Context (w0 : World).
Hypothesis no_keys : forall k, resource_key k = true -> keys (store w0) !! k = None.

Definition after (l : list event) : World := foldl run_event w0 l.

Lemma after_snoc l e : after (l ++ [e]) = run_event (after l) e.
Proof. unfold after. by rewrite foldl_app. Qed.

Lemma after_course l : same_course (store w0) (store (after l)).
Proof.
  induction l as [|e l IH] using rev_ind; [apply same_course_refl|]. rewrite after_snoc.
  eapply same_course_trans; [exact IH|apply event_course].
Qed.

Abbreviation clock := (rclock (store w0)).
(** The number of the next command. *)
Definition at_ (l : list event) : nat := rcalls (store (after l)).

(** The session [id] of [uid] asked for a token with this digest. *)
Definition issued (l l1 : list event) (digest : string) (uid : Z) (id : string) : Prop :=
  exists o body s l2, l = l1 ++ AsksToken o id body s :: l2 /\ sha256_hex (random_token o) = digest /\ uid_of id (net s) = uid.

(** No revocation reached Redis since. *)
Definition unrevoked (id : string) (l1 l2 : list event) : Prop :=
  forall a s b, l2 = a ++ Revokes id s :: b -> roracle (store w0) (at_ (l1 ++ a)) = FailsBefore.

Record noted (l : list event) : Prop := {
  no_token : forall digest e, keys (store (after l)) !! ("resource_token:" ++ digest)%string = Some e -> exists l1 uid id,
    issued l l1 digest uid id /\ e = mkEntry (VString (record_text uid id)) (Some (clock (S (at_ l1)) + 900000));
  no_session : forall id e, keys (store (after l)) !! sessionKey id = Some e -> exists l1 o body s l2,
    l = l1 ++ AsksToken o id body s :: l2 /\ e = mkEntry (VString id) (Some (clock (at_ l1) + 900000)) /\
    unrevoked id (l1 ++ [AsksToken o id body s]) l2;
}.

(** An event that leaves a key alone leaves what is known of it. *)
Lemma issued_snoc l l1 digest uid id e : issued l l1 digest uid id -> issued (l ++ [e]) l1 digest uid id.
Proof. intros (o & body & s & l2 & -> & Hr). exists o, body, s, (l2 ++ [e]). by rewrite <- app_assoc. Qed.

Lemma noted_frame l e : noted l ->
  (forall digest, keys (store (after (l ++ [e]))) !! ("resource_token:" ++ digest)%string = keys (store (after l)) !! ("resource_token:" ++ digest)%string) ->
  (forall id x, keys (store (after (l ++ [e]))) !! sessionKey id = Some x -> keys (store (after l)) !! sessionKey id = Some x /\
     ((forall s, e <> Revokes id s) \/ roracle (store w0) (at_ l) = FailsBefore)) ->
  noted (l ++ [e]).
Proof.
  intros [Ht Hs] Kt Ks. split.
  - intros digest x. rewrite Kt. intros (l1 & uid & id & Hi & ->)%Ht. exists l1, uid, id. split; [by apply issued_snoc|done].
  - intros id x Hx. destruct (Ks id x Hx) as [Hl Hor]. destruct (Hs id x Hl) as (l1 & o & body & s & l2 & -> & -> & Hu).
    exists l1, o, body, s, (l2 ++ [e]). rewrite <- app_assoc. split_and!; [done..|].
    intros a s' b E. destruct b as [|y b _] using rev_ind.
    + apply app_inj_tail in E as [<- ->]. destruct Hor as [Hne|Hf]; [by destruct (Hne s')|]. by rewrite <- app_assoc.
    + rewrite app_comm_cons, app_assoc in E. apply app_inj_tail in E as [E _]. exact (Hu a s' b E).
Qed.

(** What [issue] has written. *)
Lemma issue_spec o id uid r : let r' := issue o id uid r in
  (forall digest e, keys r' !! ("resource_token:" ++ digest)%string = Some e -> keys r !! ("resource_token:" ++ digest)%string = Some e \/
     sha256_hex (random_token o) = digest /\ e = mkEntry (VString (record_text uid id)) (Some (rclock r (S (rcalls r)) + 900000))) /\
  (forall i e, keys r' !! sessionKey i = Some e -> keys r !! sessionKey i = Some e \/
     i = id /\ e = mkEntry (VString id) (Some (rclock r (rcalls r) + 900000))).
Proof.
  cbv zeta. unfold issue. pose proof (set_ttl_spec (sessionKey id) id TokenSeconds r ltac:(done)) as Hs.
  destruct (RedisMgr.SetWithTtl (sessionKey id) id TokenSeconds r) as [ok r1]. destruct Hs as ((C1 & _) & N1 & Hk).
  assert (forall j e, keys r1 !! j = Some e -> keys r !! j = Some e \/ j = sessionKey id /\ e = mkEntry (VString id) (Some (rclock r (rcalls r) + 900000))) as H1.
  { intros j e. destruct Hk as [[-> _]| ->]; [by left|]. intros [[<- <-]|[_ E]]%lookup_insert_Some; by auto. }
  assert (forall j e, keys (if ok then (RedisMgr.SetWithTtl (tokenKey (random_token o)) (record_text uid id) TokenSeconds r1).2 else r1) !! j = Some e ->
    keys r1 !! j = Some e \/ j = tokenKey (random_token o) /\ e = mkEntry (VString (record_text uid id)) (Some (rclock r (S (rcalls r)) + 900000))) as H2.
  { intros j e. destruct ok; [|by left]. rewrite <- C1, <- N1.
    pose proof (set_ttl_spec (tokenKey (random_token o)) (record_text uid id) TokenSeconds r1 ltac:(done)) as Ht.
    destruct (RedisMgr.SetWithTtl (tokenKey _) _ _ r1) as [ok2 r2]. destruct Ht as (_ & _ & [[E _]|E]); cbn [snd]; rewrite E; [by left|].
    intros [[<- <-]|[_ E']]%lookup_insert_Some; by auto. }
  split.
  - intros digest e [Hin|[E ->]]%H2; [apply H1 in Hin as [Hin|[E _]]; [by left|discriminate]|].
    right. split; [|done]. unfold tokenKey in E. by injection E.
  - intros i e [Hin|[E _]]%H2; [|discriminate]. apply H1 in Hin as [Hin|[E ->]]; [by left|]. right. split; [|done]. by injection E.
Qed.

Lemma noted_asks l o id body s : noted l -> noted (l ++ [AsksToken o id body s]).
Proof.
  intros Hn. pose proof (after_snoc l (AsksToken o id body s)) as Ea. cbn [run_event] in Ea.
  destruct (token_cache o id body (set_cache (store (after l)) s)) as [E|E]; rewrite E in Ea; cbn [cache set_cache net] in Ea.
  { apply noted_frame; [done|by rewrite Ea|]. rewrite Ea. intros i x Hx. split; [done|]. by left. }
  destruct (issue_spec o id (uid_of id (net s)) (store (after l))) as [Ht Hs]. destruct (after_course l) as (Ec & _ & _). rewrite Ec in Ht, Hs.
  split; rewrite Ea; cbn [set_store store].
  - intros digest e [Hin|[Hd ->]]%Ht.
    + destruct (no_token l Hn _ _ Hin) as (l1 & uid & i & Hi & ->). exists l1, uid, i. split; [by apply issued_snoc|done].
    + exists l, (uid_of id (net s)), id. split; [|done]. by exists o, body, s, [].
  - intros i e [Hin|[-> ->]]%Hs.
    + destruct (no_session l Hn _ _ Hin) as (l1 & o' & body' & s' & l2 & -> & -> & Hu).
      exists l1, o', body', s', (l2 ++ [AsksToken o id body s]). rewrite <- app_assoc. split_and!; [done..|].
      intros a s1 b E1. destruct b as [|y b _] using rev_ind; [by apply app_inj_tail in E1 as [_ ?]|].
      rewrite app_comm_cons, app_assoc in E1. apply app_inj_tail in E1 as [E1 _]. exact (Hu a s1 b E1).
    + exists l, o, body, s, []. split_and!; [done..|]. intros [] ? ? [=].
Qed.

Definition event_ok (e : event) : Prop :=
  match e with
  | AsksToken o id body s => ascii_text id = true /\ is_int (uid_of id (net s)) = true
  | Revokes id s => c_str (sessionKey id) = sessionKey id
  | Authenticates auth bytes => 0 <= bytes
  | Elsewhere m => True
  end.

Lemma noted_revokes l id s : event_ok (Revokes id s) -> noted l -> noted (l ++ [Revokes id s]).
Proof.
  intros Hid Hn. cbn in Hid. pose proof (after_snoc l (Revokes id s)) as Ea. cbn [run_event] in Ea. rewrite revoke_cache in Ea. cbn [cache set_cache] in Ea.
  destruct (after_course l) as (_ & Eo & _). rewrite Hid in Ea.
  assert (roracle (store w0) (at_ l) = FailsBefore /\ keys (store (after (l ++ [Revokes id s]))) = keys (store (after l)) \/
    keys (store (after (l ++ [Revokes id s]))) = delete (sessionKey id) (keys (store (after l)))) as Hk.
  { rewrite Ea. unfold Redis.command, DEL. rewrite Eo. fold (at_ l). destruct (roracle (store w0) (at_ l)); auto. }
  destruct Hk as [[Hf Hk]|Hk]; apply noted_frame; rewrite ?Hk; auto.
  - intros digest. by rewrite lookup_delete_ne.
  - intros i x [Hne Hx]%lookup_delete_Some. split; [done|]. left. intros s' [=]. congruence.
Qed.

Lemma noted_authenticates l auth bytes : noted l -> noted (l ++ [Authenticates auth bytes]).
Proof.
  intros Hn. pose proof (after_snoc l (Authenticates auth bytes)) as Ea. cbn [run_event] in Ea.
  destruct (authenticate_rate_only auth bytes (store (after l))) as [_ Hk].
  assert (forall k, (forall x, k <> ("resource_rate:" ++ x)%string) ->
    keys (store (after (l ++ [Authenticates auth bytes]))) !! k = keys (store (after l)) !! k) as Hs.
  { intros k Hne. rewrite Ea, <- (Hk k Hne). by destruct (authenticate auth bytes (store (after l))) as [[|] r]. }
  apply noted_frame; [done|intros digest; by apply Hs|]. intros i x. rewrite Hs by done. auto.
Qed.

Lemma elsewhere_keys m r k : resource_key k = true ->
  (filter (fun x : string * entry => resource_key x.1 = true) (keys r) ∪ filter (fun x : string * entry => resource_key x.1 = false) m) !! k = keys r !! k.
Proof.
  intros Hk. destruct (keys r !! k) as [e|] eqn:E.
  - apply lookup_union_Some_l. by apply map_lookup_filter_Some.
  - apply lookup_union_None. split; apply map_lookup_filter_None; [by left|]. right. intros x _ E'. change (resource_key k = false) in E'. congruence.
Qed.

Lemma noted_elsewhere l m : noted l -> noted (l ++ [Elsewhere m]).
Proof.
  intros Hn. pose proof (after_snoc l (Elsewhere m)) as Ea. cbn [run_event] in Ea.
  apply noted_frame; [done|..]; rewrite Ea; cbn [set_store store keys].
  - intros digest. by apply elsewhere_keys.
  - intros i x. rewrite elsewhere_keys by done. auto.
Qed.

Lemma noted_run l : Forall event_ok l -> noted l.
Proof.
  induction l as [|e l IH] using rev_ind; intros Hl.
  { split; [intros digest e|intros id e]; (unfold after; cbn [foldl]; by rewrite no_keys). }
  apply Forall_app in Hl as [Hl [He _]%Forall_cons]. specialize (IH Hl). destruct e.
  - by apply noted_asks.
  - by apply noted_revokes.
  - by apply noted_authenticates.
  - by apply noted_elsewhere.
Qed.

(** What the record of a token says. *)
Lemma record_read `{!JsonLaws J} (strict_print : forall v, printable v = true -> strict_parse (toStyledString v) = Some v) uid id :
  is_int uid = true -> ascii_text id = true -> exists v, strict_parse (record_text uid id) = Some v /\ isObject v = true /\
    member_string "session" v = Returns id /\ member_string "generation" v = Returns id /\ member_int "uid" v = Returns uid.
Proof.
  intros Hu Hi. assert (container null = true) as Hn by (unfold container; by rewrite null_isNull).
  unfold record_text. eexists. unfold object, member_string, member_int. cbn [foldl fst snd].
  rewrite strict_print; [split_and!; [done| | | |]|].
  - apply set_isObject. by repeat apply set_container.
  - rewrite !member_set by (by repeat apply set_container). cbn. apply string_asString.
  - rewrite !member_set by (by repeat apply set_container). cbn. apply string_asString.
  - rewrite !member_set by (by repeat apply set_container). cbn. by apply int_asInt.
  - repeat (apply printable_set; [by repeat apply set_container|done|by first [apply printable_int|apply printable_string]|]). apply printable_null.
Qed.

Lemma authenticate_inv auth bytes r uid : (authenticate auth bytes r).1 = inr uid -> exists token text v session generation r1 r2,
  auth = ("Bearer " ++ token)%string /\ get (tokenKey token) r = (inr (Some text), r1) /\ strict_parse text = Some v /\
  member_string "session" v = Returns session /\ get (sessionKey session) r1 = (inr (Some generation), r2) /\
  member_int "uid" v = Returns uid /\ (admit_uid uid bytes r2).1 = inr uid /\ authenticate auth bytes r = admit_uid uid bytes r2.
Proof.
  unfold authenticate. destruct (bearer auth) as [token|] eqn:Eb; [|done].
  destruct (get (tokenKey token) r) as [[|[text|]] r1] eqn:Eg; try done. destruct (strict_parse text) as [v|] eqn:Ep; [|done].
  destruct (negb (isObject v)); [done|]. destruct (member_string "session" v) as [session|] eqn:Es; [|done].
  destruct (get (sessionKey session) r1) as [[|[generation|]] r2] eqn:Eg2; try done.
  destruct (member_string "generation" v) as [g|]; [|done]. destruct (negb _); [done|].
  destruct (member_int "uid" v) as [uid'|] eqn:Eu; [|done]. intros Ha.
  assert (uid' = uid) as ->.
  { revert Ha. unfold admit_uid. destruct (uid' <=? 0); [done|]. destruct (command _ r2) as [[|x] r3]; [done|].
    repeat case_match; cbn; congruence. }
  exists token, text, v, session, generation, r1, r2. split_and!; try done. unfold bearer in Eb.
  destruct (_ && _) eqn:Ex; [|done]. injection Eb as <-. bool_hyps. apply String.eqb_eq in H1. rewrite <- H1 at 1. symmetry. apply stake_sdrop.
Qed.

(** C18. A request to the resource service is admitted as [uid] only with a
    credential of that user: a chat server gave a token with this digest to a
    session of [uid] less than fifteen minutes ago, that session asked for a
    token less than fifteen minutes ago, and no revocation of the session
    reached Redis since.  However the requests of all chat and resource servers
    follow each other, and whatever commands and replies are lost. *)
Theorem credential_sound `{!JsonLaws J} (strict_print : forall v, printable v = true -> strict_parse (toStyledString v) = Some v)
    (l : list event) (auth : string) (bytes uid : Z) : Forall event_ok l -> (authenticate auth bytes (store (after l))).1 = inr uid ->
  0 < uid /\ exists token id l1 l2 o body s l3,
    auth = ("Bearer " ++ token)%string /\ issued l l1 (sha256_hex token) uid id /\ clock (at_ l) < clock (S (at_ l1)) + 900000 /\
    l = l2 ++ AsksToken o id body s :: l3 /\ clock (S (at_ l)) < clock (at_ l2) + 900000 /\
    unrevoked id (l2 ++ [AsksToken o id body s]) l3.
Proof.
  intros Hl Ha. destruct (authenticate_inv auth bytes (store (after l)) uid Ha) as (token & text & v & session & generation & r1 & r2 & -> & E1 & Ep & Es & E2 & Eu & Hd & _).
  assert (0 < uid) as Hpos. { revert Hd. unfold admit_uid. destruct (Z.leb_spec uid 0); [done|lia]. }
  split; [done|]. destruct (noted_run l Hl) as [Ht Hs]. destruct (after_course l) as (Ec & _ & _).
  pose proof (get_spec (tokenKey token) (store (after l))) as G1. rewrite E1 in G1. destruct G1 as ((C1 & _) & N1 & K1 & V1).
  destruct (V1 text eq_refl) as (t1 & L1 & A1). pose proof (get_spec (sessionKey session) r1) as G2. rewrite E2 in G2. destruct G2 as (_ & _ & _ & V2).
  destruct (V2 generation eq_refl) as (t2 & L2 & A2). rewrite K1 in L2. rewrite C1, N1, Ec in A2. rewrite Ec in A1. fold (at_ l) in A1, A2.
  destruct (Ht _ _ L1) as (l1 & uid' & id & Hi & [= -> ->]). pose proof Hi as (o1 & body1 & s1 & l1' & El & _ & Hu1).
  assert (event_ok (AsksToken o1 id body1 s1)) as [Ha1 Ha2] by (rewrite El in Hl; by apply Forall_app in Hl as [_ [? _]%Forall_cons]).
  destruct (record_read strict_print uid' id) as (v' & Ep' & _ & Es' & _ & Eu'); [by rewrite <- Hu1|done|].
  rewrite Ep' in Ep. injection Ep as <-. rewrite Es' in Es. injection Es as <-. rewrite Eu' in Eu. injection Eu as ->.
  destruct (Hs _ _ L2) as (l2 & o & body & s & l3 & El2 & [= -> ->] & Hu).
  exists token, id, l1, l2, o, body, s, l3. unfold Redis.live in A1, A2. cbn in A1, A2. bool_hyps. by split_and!.
Qed.

(** ** How often *)

Hypothesis clock_mono : forall n n', (n <= n')%nat -> clock n <= clock n'.

(** The requests of a user that were admitted in a second, and their bytes. *)
Definition count (uid second : Z) (g : list (Z * Z * Z)) : Z := Z.of_nat (length (filter (fun x => x.1 = (uid, second)) g)).
Definition volume (uid second : Z) (g : list (Z * Z * Z)) : Z := foldr (fun x n => if decide (x.1 = (uid, second)) then x.2 + n else n) 0 g.

Abbreviation key_of uid second := (rate_key ("resource_rate:" ++ to_string uid) second).

(** The counters of the second are at least [n] and [b], and stay while it lasts. *)
Definition counted (m : gmap string entry) (uid second n b : Z) : Prop :=
  m !! key_of uid second = None /\ n = 0 /\ b = 0 \/
  exists h t n' b', m !! key_of uid second = Some (mkEntry (VHash h) t) /\
    from_option decimal (Some 0) (h !! "requests"%string) = Some n' /\ n <= n' /\ 0 <= n' /\
    from_option decimal (Some 0) (h !! "bytes"%string) = Some b' /\ b <= b' /\ 0 <= b' /\
    match t with None => True | Some t => 1000 * second + 1000 <= t end.

Lemma to_string_no_colon z : sall (fun d => negb (Ascii.eqb d ":")) (to_string z) = true.
Proof.
  assert (forall u, sall (fun d => negb (Ascii.eqb d ":")) (DecimalString.NilZero.string_of_uint u) = true) as Hu.
  { intros u. assert (forall v, sall (fun d => negb (Ascii.eqb d ":")) (DecimalString.NilEmpty.string_of_uint v) = true) as Hv by (induction v; done).
    destruct u; apply (Hv Decimal.Nil) || apply Hv || done. }
  unfold to_string. destruct (Z.to_int z) as [u|u]; cbn; [apply Hu|apply Hu].
Qed.

Lemma key_of_inj uid second uid' second' : key_of uid second = key_of uid' second' -> uid = uid' /\ second = second'.
Proof.
  unfold rate_key. rewrite <- !(assoc_L String.append). intros E. apply (inj (String.append "resource_rate:")) in E.
  apply (f_equal (sfind ":")) in E. change (":" ++ to_string second)%string with (String ":" (to_string second)) in E.
  change (":" ++ to_string second')%string with (String ":" (to_string second')) in E.
  rewrite !sfind_skip in E by apply to_string_no_colon. injection E as E1 E2.
  apply (f_equal decimal) in E1, E2. rewrite !decimal_to_string in E1, E2. split; congruence.
Qed.

Lemma HINCRBY_hash k f n now m h t z : lookup_key now k m = Some (mkEntry (VHash h) t) -> from_option decimal (Some 0) (h !! f) = Some z ->
  HINCRBY k f n now m = (ReplyInteger (z + n), <[k := mkEntry (VHash (<[f := to_string (z + n)]> h)) t]> m) \/
  exists e, HINCRBY k f n now m = (ReplyError e, m).
Proof. intros E Ez. unfold HINCRBY. rewrite E, Ez. destruct (int64 (z + n)); eauto. Qed.

Lemma counted_weaken m uid second n b n' b' : counted m uid second n' b' -> 0 <= n <= n' -> 0 <= b <= b' -> counted m uid second n b.
Proof.
  intros [(E & -> & ->)|(h & t & x & y & E & Er & Hn & Hx & Eb & Hb & Hy & Ht)] Hn' Hb'; [left; split_and!; [done|lia..]|].
  right. exists h, t, x, y. split_and!; try done; lia.
Qed.

(** The two increments from a hash that holds the counters. *)
Lemma rate_hash uid bytes now m h t n b : 0 <= bytes -> lookup_key now (key_of uid (now / 1000)) m = Some (mkEntry (VHash h) t) ->
  from_option decimal (Some 0) (h !! "requests"%string) = Some n -> from_option decimal (Some 0) (h !! "bytes"%string) = Some b -> 0 <= n -> 0 <= b ->
  (match t with None => True | Some t => 1000 * (now / 1000) + 1000 <= t end) ->
  let '(r, m') := EVAL_rate ("resource_rate:" ++ to_string uid) bytes now m in
  m' = m /\ r <> ReplyInteger 1 \/ counted m' uid (now / 1000) (n + 1) b /\
    (r = ReplyInteger 1 -> counted m' uid (now / 1000) (n + 1) (b + bytes) /\ n + 1 <= 128 /\ b + bytes <= 8388608).
Proof.
  intros Hbytes El En Eb Hn Hb Ht. unfold EVAL_rate. cbv zeta. set (k := key_of uid (now / 1000)) in *.
  destruct (HINCRBY_hash k "requests" 1 now m h t n El En) as [->|[e ->]]; [|by left].
  apply lookup_key_Some in El as [_ Hlive]. set (h1 := <["requests"%string := _]> h). set (m1 := <[k := _]> m).
  assert (lookup_key now k m1 = Some (mkEntry (VHash h1) t)) as E1.
  { unfold lookup_key, m1. rewrite lookup_insert_eq. cbn [mbind option_bind]. unfold Redis.live in *. cbn [expires] in *. by rewrite Hlive. }
  assert (from_option decimal (Some 0) (h1 !! "bytes"%string) = Some b) as Eb1 by (unfold h1; by rewrite lookup_insert_ne).
  destruct (HINCRBY_hash k "bytes" bytes now m1 h1 t b E1 Eb1) as [->|[e ->]].
  2: { cbv iota. right. split; [|done]. right. exists h1, t, (n + 1), b. unfold m1, h1. rewrite !lookup_insert_eq, lookup_insert_ne by done. split_and!; try done; try lia. apply decimal_to_string. }
  assert (counted (EXPIRE k 2 now (<[k := mkEntry (VHash (<["bytes"%string := to_string (b + bytes)]> h1)) t]> m1)) uid (now / 1000) (n + 1) (b + bytes)) as Hc.
  { right. eexists _, _, (n + 1), (b + bytes). unfold EXPIRE. rewrite lookup_alter_eq, lookup_insert_eq. cbn [fmap option_fmap option_map rval].
    split_and!; [reflexivity| | | | | | |]; try lia.
    - rewrite lookup_insert_ne by done. unfold h1. rewrite lookup_insert_eq. apply decimal_to_string.
    - rewrite lookup_insert_eq. apply decimal_to_string.
    - cbv iota. pose proof (Z.mul_div_le now 1000 ltac:(done)). lia. }
  cbv iota. right. split; [by eapply counted_weaken; [exact Hc|lia..]|]. intros E. split; [done|]. destruct (_ || _) eqn:Eo; [done|]. bool_hyps. lia.
Qed.

(** A key that is absent counts as an empty hash. *)
Lemma rate_empty key bytes now m : m !! rate_key key (now / 1000) = None ->
  EVAL_rate key bytes now m = EVAL_rate key bytes now (<[rate_key key (now / 1000) := mkEntry (VHash ∅) None]> m).
Proof.
  intros E. unfold EVAL_rate. cbv zeta. set (k := rate_key key (now / 1000)) in *.
  assert (HINCRBY k "requests" 1 now m = HINCRBY k "requests" 1 now (<[k := mkEntry (VHash ∅) None]> m)) as ->; [|done].
  unfold HINCRBY, lookup_key. rewrite E, lookup_insert_eq. cbn [mbind option_bind]. unfold Redis.live. cbn [expires]. rewrite lookup_empty.
  cbn [from_option]. change (int64 (0 + 1)) with true. cbv iota. by rewrite insert_insert_eq, insert_empty.
Qed.

Lemma rate_counted uid bytes now m n b : 0 <= bytes -> 0 <= n -> 0 <= b -> counted m uid (now / 1000) n b ->
  let '(r, m') := EVAL_rate ("resource_rate:" ++ to_string uid) bytes now m in counted m' uid (now / 1000) n b /\
    (r = ReplyInteger 1 -> counted m' uid (now / 1000) (n + 1) (b + bytes) /\ n + 1 <= 128 /\ b + bytes <= 8388608).
Proof.
  intros Hbytes Hn Hb Hc. assert (exists m1 h t n' b', EVAL_rate ("resource_rate:" ++ to_string uid) bytes now m =
      EVAL_rate ("resource_rate:" ++ to_string uid) bytes now m1 /\ m1 !! key_of uid (now / 1000) = Some (mkEntry (VHash h) t) /\
    from_option decimal (Some 0) (h !! "requests"%string) = Some n' /\ n <= n' /\ 0 <= n' /\
    from_option decimal (Some 0) (h !! "bytes"%string) = Some b' /\ b <= b' /\ 0 <= b' /\
    match t with None => True | Some t => 1000 * (now / 1000) + 1000 <= t end) as (m1 & h & t & n' & b' & -> & E & Er & Hn' & Hx & Eb & Hb' & Hy & Ht).
  { destruct Hc as [(E & -> & ->)|(h & t & n' & b' & Hc)]; [|exists m, h, t, n', b'; by destruct Hc as (? & ? & ? & ? & ? & ? & ? & ?)].
    eexists _, ∅, None, 0, 0. split; [by apply rate_empty|]. by rewrite lookup_insert_eq. }
  assert (lookup_key now (key_of uid (now / 1000)) m1 = Some (mkEntry (VHash h) t)) as El.
  { unfold lookup_key. rewrite E. cbn [mbind option_bind]. unfold Redis.live. cbn [expires]. destruct t as [t|]; [|done].
    pose proof (Z.mul_succ_div_gt now 1000 ltac:(done)). rewrite (proj2 (Z.ltb_lt _ _)) by lia. done. }
  pose proof (rate_hash uid bytes now m1 h t n' b' Hbytes El Er Eb Hx Hy Ht) as Hr. destruct (EVAL_rate _ _ _ m1) as [r m'].
  destruct Hr as [[-> Hne]|[H1 H2]]; (split; [|intros Er1]); [right; by exists h, t, n', b'|done|by eapply counted_weaken; [exact H1|lia..]|].
  destruct (H2 Er1) as (H3 & ? & ?). split_and!; [by eapply counted_weaken; [exact H3|lia..]|lia|lia].
Qed.

Record rated (w : World) : Prop := {
  ra_count : forall uid second, 0 <= count uid second (grants w) <= 128;
  ra_volume : forall uid second, 0 <= volume uid second (grants w) <= 8388608;
  ra_counted : forall uid second, clock (rcalls (store w)) / 1000 <= second ->
    counted (keys (store w)) uid second (count uid second (grants w)) (volume uid second (grants w));
}.

Lemma clock_second n n' second : (n <= n')%nat -> clock n' / 1000 <= second -> clock n / 1000 <= second.
Proof. intros Hn Hs. pose proof (Z.div_le_mono _ _ 1000 ltac:(done) (clock_mono n n' Hn)). lia. Qed.

(** A step that leaves the counters alone and admits nobody. *)
Lemma rated_frame w w' : rated w -> grants w' = grants w -> same_course (store w) (store w') ->
  (forall x, keys (store w') !! ("resource_rate:" ++ x)%string = keys (store w) !! ("resource_rate:" ++ x)%string) -> rated w'.
Proof.
  intros [H1 H2 H3] Eg (_ & _ & Hc) Hk. split; rewrite ?Eg; [done..|]. intros uid second Hs.
  pose proof (H3 uid second (clock_second _ _ _ Hc Hs)) as Hcd. unfold counted, rate_key in *.
  rewrite <- (assoc_L String.append) in *. by rewrite Hk.
Qed.

Lemma count_snoc uid second g x : count uid second (g ++ [x]) = count uid second g + (if decide (x.1 = (uid, second)) then 1 else 0).
Proof. unfold count. rewrite filter_app, length_app, filter_cons, filter_nil. destruct (decide _); cbn [length]; lia. Qed.

Lemma volume_snoc uid second g x : volume uid second (g ++ [x]) = volume uid second g + (if decide (x.1 = (uid, second)) then x.2 else 0).
Proof.
  unfold volume. induction g as [|y g IH]; cbn [app foldr]; [case_decide; lia|]. rewrite IH. destruct (decide (y.1 = _)); lia.
Qed.

(** The rate is asked: what is admitted is counted. *)
Lemma rated_eval w uid bytes r r' g : rated w -> 0 <= bytes -> read_only (store w) r -> (rcalls r <= rcalls r')%nat ->
  let now := clock (rcalls r) in let '(x, m) := EVAL_rate ("resource_rate:" ++ to_string uid) bytes now (keys r) in
  keys r' = m -> g = grants w \/ x = ReplyInteger 1 /\ g = grants w ++ [(uid, now / 1000, bytes)] -> rated (mkWorld r' g).
Proof.
  intros [H1 H2 H3] Hb [(_ & _ & Hcalls) Hk] Hr. cbv zeta. set (now := clock (rcalls r)).
  assert (counted (keys r) uid (now / 1000) (count uid (now / 1000) (grants w)) (volume uid (now / 1000) (grants w))) as Hcd.
  { rewrite Hk. apply H3. by apply (clock_second _ (rcalls r)). }
  pose proof (rate_counted uid bytes now (keys r) _ _ Hb (proj1 (H1 _ _)) (proj1 (H2 _ _)) Hcd) as Hrc.
  pose proof (fun k => EVAL_rate_other ("resource_rate:" ++ to_string uid) bytes now (keys r) k) as Hother.
  destruct (EVAL_rate _ _ _ (keys r)) as [x m']. cbn [snd] in Hother. destruct Hrc as [Hold Hnew]. intros Ek Hg.
  assert (forall u second, (u, second) <> (uid, now / 1000) -> clock (rcalls r') / 1000 <= second ->
    counted (keys r') u second (count u second (grants w)) (volume u second (grants w))) as Helse.
  { intros u second Hne Hs. rewrite Ek. pose proof (H3 u second (clock_second (rcalls (store w)) (rcalls r') second ltac:(lia) Hs)) as Hcu. rewrite <- Hk in Hcu.
    unfold counted in *. rewrite Hother; [done|]. intros [-> ->]%key_of_inj. by apply Hne. }
  destruct Hg as [->|[Ex ->]].
  - split; [done|done|]. cbn [grants store]. intros u second Hs. destruct (decide ((u, second) = (uid, now / 1000))) as [[= -> ->]|Hne]; [by rewrite Ek|by apply Helse].
  - destruct (Hnew Ex) as (Hc1 & Hc2 & Hc3). split; cbn [grants store]; intros u second; rewrite ?count_snoc, ?volume_snoc; cbn [fst snd];
      destruct (decide ((uid, now / 1000) = (u, second))) as [[= <- <-]|Hne]; rewrite ?Z.add_0_r; auto; try (split; [|done]).
    + pose proof (H1 uid (now / 1000)). lia.
    + pose proof (H2 uid (now / 1000)). lia.
    + intros _. by rewrite Ek.
Qed.

Lemma rated_admit w uid bytes r : rated w -> 0 <= bytes -> read_only (store w) r -> rclock r = clock ->
  rated (match admit_uid uid bytes r with
         | (inl _, r') => set_store r' w
         | (inr uid, r') => mkWorld r' (grants w ++ [(uid, rclock r' (pred (rcalls r')) / 1000, bytes)])
         end).
Proof.
  intros Hw Hb Hr Ec. unfold admit_uid. destruct (uid <=? 0).
  { destruct Hr as [Hc Hk]. apply (rated_frame w); try done. cbn. by rewrite Hk. }
  assert (rated (mkWorld (mkRedis (keys r) (S (rcalls r)) (roracle r) (rclock r)) (grants w))) as Hlost.
  { destruct Hr as [Hc Hk]. apply (rated_frame w); try done; cbn; [|by rewrite Hk].
    eapply same_course_trans; [exact Hc|]. by split_and!; cbn; auto. }
  unfold command, Redis.command. rewrite Ec in *.
  pose proof (fun r' g Hle => rated_eval w uid bytes r r' g Hw Hb Hr Hle) as He. cbv zeta in He.
  destruct (roracle r (rcalls r)); [|exact Hlost|]; destruct (EVAL_rate _ _ _ (keys r)) as [x m'].
  - repeat case_match; simplify_eq; (eapply He; [|reflexivity|]; [cbn; lia|]); cbn; rewrite ?Ec; auto.
  - apply He; cbn; auto.
Qed.

(** The keys of the counters are nobody else's. *)
Lemma issue_rate o id uid r x : keys (issue o id uid r) !! ("resource_rate:" ++ x)%string = keys r !! ("resource_rate:" ++ x)%string.
Proof.
  unfold issue. pose proof (set_ttl_spec (sessionKey id) id TokenSeconds r ltac:(done)) as Hs.
  destruct (RedisMgr.SetWithTtl (sessionKey id) id TokenSeconds r) as [ok r1]. destruct Hs as (_ & _ & Hk).
  assert (keys r1 !! ("resource_rate:" ++ x)%string = keys r !! ("resource_rate:" ++ x)%string) as E1
    by (destruct Hk as [[-> _]| ->]; [done|by rewrite lookup_insert_ne]).
  destruct ok; [|done]. pose proof (set_ttl_spec (tokenKey (random_token o)) (record_text uid id) TokenSeconds r1 ltac:(done)) as Ht.
  destruct (RedisMgr.SetWithTtl (tokenKey _) _ _ r1) as [ok2 r2]. destruct Ht as (_ & _ & [[E _]|E]); cbn [snd]; rewrite E; [done|].
  by rewrite lookup_insert_ne.
Qed.

Lemma rated_event l e : event_ok e -> rated (after l) -> rated (after (l ++ [e])).
Proof.
  intros He Hw. rewrite after_snoc. destruct e; cbn [run_event].
  - apply (rated_frame (after l)); [done|done|apply (event_course (after l) (AsksToken o id body s))|]. intros x. cbn [set_store store].
    destruct (token_cache o id body (set_cache (store (after l)) s)) as [->| ->]; [done|]. apply issue_rate.
  - apply (rated_frame (after l)); [done|done|apply (event_course (after l) (Revokes id s))|]. intros x. cbn [set_store store].
    rewrite revoke_cache. cbn in He. rewrite He. unfold Redis.command, DEL.
    destruct (roracle _ _); [|done|]; cbn [snd keys cache set_cache]; by rewrite lookup_delete_ne.
  - destruct (authenticate_cases auth bytes (store (after l))) as [[[status E] [Hc Hk]]|(uid & r & Hr & E)].
    + destruct (authenticate auth bytes (store (after l))) as [y r]. cbn in E, Hc, Hk. subst y. apply (rated_frame (after l)); try done. cbn. by rewrite Hk.
    + rewrite E. apply rated_admit; [done|done|done|]. destruct (after_course l) as (Ec & _). destruct Hr as [(Er & _) _]. congruence.
  - apply (rated_frame (after l)); [done|done|apply (event_course (after l) (Elsewhere m))|]. intros x. by apply elsewhere_keys.
Qed.

Hypothesis no_grants : grants w0 = [].

Lemma rated_run l : Forall event_ok l -> rated (after l).
Proof.
  induction l as [|e l IH] using rev_ind; intros Hl.
  - unfold after. cbn [foldl]. split; rewrite no_grants; [done|done|]. intros uid second _. left. by rewrite no_keys.
  - apply Forall_app in Hl as [Hl [He _]%Forall_cons]. apply rated_event; auto.
Qed.

(** C20. The rate of a user is limited over all resource servers together: in no
    second of the clock of Redis are more than 128 of their requests, or
    requests with more than 8 MiB in their bodies, admitted, also when replies
    are lost. *)
Theorem rate_bounded (l : list event) (uid second : Z) : Forall event_ok l ->
  count uid second (grants (after l)) <= 128 /\ volume uid second (grants (after l)) <= 8388608.
Proof. intros Hl. destruct (rated_run l Hl) as [H1 H2 _]. split; [apply H1|apply H2]. Qed.

End Sound.


End Auth.

(** ** Example *)

Module Example.
Import ToyJson Logic.Example.
#[local] Existing Instance PasswordHasher.toy_sodium.

Definition token : string := "0123456789abcdef0123456789abcdef0123456789abcdef0123456789abcdef".
Definition quiet : World := mkWorld DistLock.idle_redis [].
Definition body : string := toStyledString (object [("request_id"%string, of_string "r-1")]).
Definition asks : event := AsksToken (mkOutside 0 "chat1" true true true token) "s1" body example_logic.
Definition asks_file : event := Authenticates ("Bearer " ++ token) 100.

(** The credential of session [s1] is good until it is revoked. *)
Example credential_life :
  ((authenticate parse ("Bearer " ++ token) 0 (store (after parse quiet [asks]))).1,
   (authenticate parse ("Bearer " ++ token) 0 (store (after parse quiet [asks; Revokes "s1" example_logic]))).1,
   grants (after parse quiet [asks; asks_file; asks_file])) =
  (inr 1001, inl 401, [(1001, 0, 100); (1001, 0, 100)]).
Proof. vm_compute. reflexivity. Qed.

Lemma credential_sound_witness : 0 < 1001 /\ exists t id l1 l2 o b s l3,
  ("Bearer " ++ token)%string = ("Bearer " ++ t)%string /\ issued [asks; asks_file] l1 (sha256_hex t) 1001 id /\
  rclock (store quiet) (at_ parse quiet [asks; asks_file]) < rclock (store quiet) (S (at_ parse quiet l1)) + 900000 /\
  [asks; asks_file] = l2 ++ AsksToken o id b s :: l3 /\
  rclock (store quiet) (S (at_ parse quiet [asks; asks_file])) < rclock (store quiet) (at_ parse quiet l2) + 900000 /\
  unrevoked parse quiet id (l2 ++ [AsksToken o id b s]) l3.
Proof.
  refine (credential_sound parse quiet _ parse_print [asks; asks_file] ("Bearer " ++ token) 0 1001 _ _).
  - reflexivity.
  - repeat constructor; discriminate.
  - vm_compute. reflexivity.
Defined.

Lemma rate_bounded_witness :
  count 1001 0 (grants (after parse quiet [asks; asks_file; asks_file])) <= 128 /\
  volume 1001 0 (grants (after parse quiet [asks; asks_file; asks_file])) <= 8388608.
Proof.
  refine (rate_bounded parse quiet _ _ _ [asks; asks_file; asks_file] 1001 0 _).
  - reflexivity.
  - intros n n' Hn. cbn. lia.
  - reflexivity.
  - repeat constructor; discriminate.
Defined.

End Example.
