(* ===== verification/Peer.v ===== *)
(** The notifications that chat servers send one another
    ([src/servers/chat/rpc/ChatServiceImp.cpp]), the calls that send them
    ([src/servers/chat/rpc/ChatGrpcClient.cpp] and [.h]), and the look-up of an
    attachment at the resource service
    ([src/servers/chat/rpc/ResourceClient.h]). *)
From S2P Require Import Status.
From S2P Require Import Prelude Messages Mysql Schema MessageDao FriendDao FileDao Password Redis Session Server Rpc Json Logic Handlers.

(** ** The messages of [src/proto/message.proto] *)

Record AddFriendReq := mkAddFriendReq {
  aq_applyuid : Z; aq_name : string; aq_desc : string; aq_icon : string; aq_nick : string; aq_sex : Z; aq_touid : Z;
}.
Record AuthFriendReq := mkAuthFriendReq { fq_fromuid : Z; fq_touid : Z }.
Record TextChatData := mkTextChatData { msgid : string; msgcontent : string }.
Record TextChatMsgReq := mkTextChatMsgReq { tq_fromuid : Z; tq_touid : Z; textmsgs : list TextChatData }.
(** Of [FileAvailableReq] the handler reads these. *)
Record FileAvailableReq := mkFileAvailableReq { lq_id : string; lq_fromuid : Z; lq_touid : Z }.
Record AvatarChangedReq := mkAvatarChangedReq { vq_uid : Z; avatar_id : string; version : Z }.

(** The replies: an error and the two users, which [FileAvailableRsp] leaves
    at their defaults; [AvatarChangedRsp] is empty. *)
Record Rsp := mkRsp { r_error : Z; r_from : Z; r_to : Z }.
Definition new_Rsp : Rsp := mkRsp 0 0 0.

(** [grpc::Status], as far as the callers look at it. *)
Inductive Status := StatusOK | UNAUTHENTICATED | PERMISSION_DENIED | RESOURCE_EXHAUSTED | NOT_FOUND | UNAVAILABLE.

#[export] Instance Status_eq_dec : EqDecision Status.
Proof. solve_decision. Defined.

Definition MAX_TEXT_CONTENT_BYTES : Z := 2048.
Definition ID_NOTIFY_FILE_REQ : Z := 1031.
Definition ID_AVATAR_CHANGED : Z := 1039.

(** ** The service *)

Definition validProfileNotification (request : AddFriendReq) : bool :=
  (ssize (aq_name request) <=? 128) && (ssize (aq_nick request) <=? 128) &&
  (ssize (aq_desc request) <=? 1024) && (ssize (aq_icon request) <=? 2048).

Fixpoint valid_texts (messages : list TextChatData) (aggregate_bytes : Z) : bool :=
  match messages with
  | [] => true
  | message :: messages =>
      if (MAX_TEXT_CONTENT_BYTES <? ssize (msgcontent message)) || (MAX_TEXT_MESSAGE_ID_BYTES <? ssize (msgid message))
      then false
      else let aggregate_bytes := aggregate_bytes + (ssize (msgcontent message) + ssize (msgid message)) in
           if 8192 <? aggregate_bytes then false else valid_texts messages aggregate_bytes
  end.
Definition validTextNotification (request : TextChatMsgReq) : bool :=
  let n := Z.of_nat (length (textmsgs request)) in
  if (n <=? 0) || (MAX_TEXT_MESSAGES_PER_FRAME <? n) then false else valid_texts (textmsgs request) 0.

Section Peer.
Context `{J : Json} `{Collation}.

(** [Json::Value(Json::UInt64)] and [asUInt64]. *)
Context (of_uint64 : Z -> value) (asUInt64 : value -> outcome Z).

(** [cfg["Resource"]["Endpoints"]], and the answer of the resource service of
    an endpoint: [GetMetadata] with the caller's metadata, [None] when the call
    fails. *)
Context (endpoints : string) (GetMetadata : string -> string -> list (string * string) -> string -> Z -> option string).

(** [InternalRpc.PeerToken] of the configuration. *)
Context (PeerToken : string).

(** [endpoint.rfind(':')] and the two parts around it. *)
Fixpoint split_last (s : string) : option (string * string) :=
  match s with
  | EmptyString => None
  | String c rest =>
      match split_last rest with
      | Some (a, b) => Some (String c a, b)
      | None => if Ascii.eqb c ":" then Some (EmptyString, rest) else None
      end
  end.

Definition record_of (v : value) : outcome TransferRecord :=
  let says k x := match member k v with
                | Returns y => Returns (isString y && bool_decide (asString y = Returns x)) | Throws => Throws end in
  match member_string "id" v, member_int "fromuid" v, member_int "touid" v, member_string "name" v, member_string "mime" v,
        match member "total_size" v with Returns x => asUInt64 x | Throws => Throws end, member_string "sha256" v,
        says "status"%string "available"%string, says "status"%string "downloaded"%string with
  | Returns i, Returns f, Returns t, Returns n, Returns m, Returns z, Returns h, Returns a, Returns d =>
      Returns (mkTransferRecord i f t n m z 0 h (if a then Available else if d then Downloaded else Expired))
  | _, _, _, _, _, _, _, _, _ => Throws
  end.

Fixpoint ask_endpoints (l : list string) (id : string) (uid : Z) : outcome (option TransferRecord) :=
  match l with
  | [] => Returns None
  | endpoint :: l =>
      match split_last endpoint with
      | None => ask_endpoints l id uid
      | Some (host, port) =>
          match InternalRpc.authenticate PeerToken [] with
          | Throws => Throws
          | Returns metadata =>
              match GetMetadata host port metadata id uid with
              | None => ask_endpoints l id uid
              | Some metadata_json =>
                  match parse metadata_json with
                  | None => Returns None
                  | Some v => match record_of v with Returns f => Returns (Some f) | Throws => Throws end
                  end
              end
          end
      end
  end.

Definition ResourceMetadata (id : string) (uid : Z) : outcome (option TransferRecord) :=
  ask_endpoints (getlines "" (or_default endpoints "127.0.0.1:50065,127.0.0.1:50066")) id uid.

(** A call with its metadata: refused, or handled. *)
Definition authorized {A} (metadata : list (string * string)) (reply : A) (body : prog Logic (Status * A)) : prog Logic (Status * A) :=
  match InternalRpc.authorize metadata PeerToken with
  | InternalRpc.OK => body
  | _ => mret (UNAUTHENTICATED, reply)
  end.

Definition session_of (uid : Z) : prog Logic (option string) := gets (fun s => UserMgr.GetSession uid (net s)).

Definition NotifyAddFriend (metadata : list (string * string)) (request : AddFriendReq) : prog Logic (Status * Rsp) :=
  authorized metadata new_Rsp
    (allowed ← if (aq_applyuid request <=? 0) || (aq_touid request <=? 0) || negb (validProfileNotification request)
               then mret false
               else on_mysql (HasPendingFriendApply (aq_applyuid request) (aq_touid request));
     if negb allowed then mret (PERMISSION_DENIED, new_Rsp)
     else
       let reply := mkRsp ERROR_CODE_OK (aq_applyuid request) (aq_touid request) in
       session ← session_of (aq_touid request);
       match session with
       | None => mret (StatusOK, reply)
       | Some id =>
           let rtvalue := object
             [("error"%string, of_int ERROR_CODE_OK); ("applyuid"%string, of_int (aq_applyuid request));
              ("name"%string, of_string (aq_name request)); ("desc"%string, of_string (aq_desc request));
              ("icon"%string, of_string (aq_icon request)); ("sex"%string, of_int (aq_sex request));
              ("nick"%string, of_string (aq_nick request))] in
           ok ← Send id (toStyledString rtvalue) ID_NOTIFY_ADD_FRIEND_REQ;
           mret (if negb ok then RESOURCE_EXHAUSTED else StatusOK, reply)
       end).

Definition NotifyAuthFriend (metadata : list (string * string)) (request : AuthFriendReq) : prog Logic (Status * Rsp) :=
  authorized metadata new_Rsp
    (allowed ← if (fq_fromuid request <=? 0) || (fq_touid request <=? 0)
               then mret false
               else on_mysql (AreFriends (fq_fromuid request) (fq_touid request));
     if negb allowed then mret (PERMISSION_DENIED, new_Rsp)
     else
       let reply := mkRsp ERROR_CODE_OK (fq_fromuid request) (fq_touid request) in
       session ← session_of (fq_touid request);
       match session with
       | None => mret (StatusOK, reply)
       | Some id =>
           let head := object [("error"%string, of_int ERROR_CODE_OK); ("fromuid"%string, of_int (fq_fromuid request));
                               ("touid"%string, of_int (fq_touid request))] in
           user_info ← GetBaseInfo (USER_BASE_INFO ++ to_string (fq_fromuid request)) (fq_fromuid request);
           let rtvalue :=
             match user_info with
             | Some u => foldl (fun v p => set_member p.1 p.2 v) head
                 [("name"%string, of_string (name u)); ("nick"%string, of_string (nick u));
                  ("icon"%string, of_string (icon u)); ("sex"%string, of_int (sex u))]
             | None => set_member "error" (of_int UidInvalid) head
             end in
           ok ← Send id (toStyledString rtvalue) ID_NOTIFY_AUTH_FRIEND_REQ;
           mret (if negb ok then RESOURCE_EXHAUSTED else StatusOK, reply)
       end).

Definition NotifyTextChatMsg (o : Outside) (metadata : list (string * string)) (request : TextChatMsgReq) : prog Logic (Status * Rsp) :=
  authorized metadata new_Rsp
    (allowed ← if (tq_fromuid request <=? 0) || (tq_touid request <=? 0) || negb (validTextNotification request)
               then mret false
               else on_mysql (AreFriends (tq_fromuid request) (tq_touid request));
     if negb allowed then mret (PERMISSION_DENIED, new_Rsp)
     else
       session ← session_of (tq_touid request);
       match session with
       | None => mret (StatusOK, mkRsp ERROR_CODE_OK 0 0)
       | Some _ =>
           ok ← WakeDelivery o (tq_touid request);
           mret (if negb ok then (RESOURCE_EXHAUSTED, mkRsp RPC_ERROR 0 0) else (StatusOK, mkRsp ERROR_CODE_OK 0 0))
       end).

Definition file_notice (stored : TransferRecord) : string :=
  toStyledString (object
    [("error"%string, of_int 0); ("id"%string, of_string (FileDao.id stored)); ("fromuid"%string, of_int (t_sender_uid stored));
     ("touid"%string, of_int (t_receiver_uid stored)); ("name"%string, of_string (original_name stored));
     ("mime"%string, of_string (mime_type stored)); ("total_size"%string, of_uint64 (total_size stored));
     ("sha256"%string, of_string (sha256 stored))]).

Definition NotifyFileAvailable (metadata : list (string * string)) (request : FileAvailableReq) : prog Logic (Status * Rsp) :=
  authorized metadata new_Rsp
    (stored ← lift (ResourceMetadata (lq_id request) (lq_touid request));
     match stored with
     | None => mret (PERMISSION_DENIED, new_Rsp)
     | Some stored =>
         if negb (t_sender_uid stored =? lq_fromuid request) || negb (t_receiver_uid stored =? lq_touid request)
            || (negb (bool_decide (status stored = Available)) && negb (bool_decide (status stored = Downloaded)))
         then mret (PERMISSION_DENIED, new_Rsp)
         else
           session ← session_of (lq_touid request);
           match session with
           | None => mret (StatusOK, mkRsp ERROR_CODE_OK 0 0)
           | Some id =>
               ok ← Send id (file_notice stored) ID_NOTIFY_FILE_REQ;
               mret (if negb ok then (RESOURCE_EXHAUSTED, mkRsp RPC_ERROR 0 0) else (StatusOK, mkRsp ERROR_CODE_OK 0 0))
           end
     end).

Fixpoint tell_friends (text : string) (friends : list UserInfo) : prog Logic unit :=
  match friends with
  | [] => mret tt
  | peer :: friends =>
      session ← session_of (uid peer);
      match session with
      | Some id => Send id text ID_AVATAR_CHANGED ;; mret tt
      | None => mret tt
      end ;;
      tell_friends text friends
  end.

Definition NotifyAvatarChanged (metadata : list (string * string)) (request : AvatarChangedReq) : prog Logic (Status * unit) :=
  authorized metadata tt
    (profile ← on_mysql (GetUser (vq_uid request));
     match profile with
     | None => mret (NOT_FOUND, tt)
     | Some profile =>
         d1 ← on_cache (RedisMgr.Del (USER_BASE_INFO ++ to_string (vq_uid request)));
         d2 ← if negb d1 then mret false else on_cache (RedisMgr.Del (NAME_INFO ++ name profile));
         if negb d1 || negb d2 then mret (UNAVAILABLE, tt)
         else
           let text := toStyledString (object
             [("uid"%string, of_int (vq_uid request)); ("avatar_id"%string, of_string (avatar_id request));
              ("version"%string, of_uint64 (version request))]) in
           self ← session_of (vq_uid request);
           match self with
           | Some id => Send id text ID_AVATAR_CHANGED ;; mret tt
           | None => mret tt
           end ;;
           friends ← on_mysql (FriendDao.GetFriendList (vq_uid request));
           match friends with
           | None => mret (UNAVAILABLE, tt)
           | Some friends => tell_friends text friends ;; mret (StatusOK, tt)
           end
     end).

(** ** The caller *)

(** [ChatConPool]; the stubs are alike. *)
Record ConPool := mkConPool { connections : nat; b_stop : bool }.

(** [None] is a caller that waits. *)
Definition Get_connection (p : ConPool) : option (bool * ConPool) :=
  if b_stop p then Some (false, p)
  else match connections p with O => None | S n => Some (true, mkConPool n (b_stop p)) end.
Definition Return_connection (p : ConPool) : ConPool :=
  if b_stop p then p else mkConPool (S (connections p)) (b_stop p).
Definition ConPool_Close (p : ConPool) : ConPool := mkConPool (connections p) true.

(** The constructor of [ChatGrpcClient]: a pool for each named server. *)
Definition new_ChatGrpcClient (cfg : Config) : outcome (gmap string ConPool) :=
  if sempty (cfg_get cfg "InternalRpc" "PeerToken") then Throws
  else Returns (foldl (fun pools word =>
         if sempty (cfg_get cfg word "Name") then pools
         else <[cfg_get cfg word "Name" := mkConPool 5 false]> pools) ∅ (getlines "" (cfg_get cfg "PeerServer" "Servers"))).

(** The error of the response that [NotifyAddFriend], [NotifyAuthFriend],
    [NotifyTextChatMsg] and [NotifyFileAvailable] return; the callers look at
    nothing else of it.  [rpc] is the call of the stub, at the server [W]; a
    handler that throws and a connection that fails are a status that is not
    [OK]. *)
Definition notify {W} (rpc : list (string * string) -> prog W (Status * Rsp)) (server_ip : string)
    (pools : gmap string ConPool) (w : W) : option (outcome Z * gmap string ConPool * W) :=
  match pools !! server_ip with
  | None => Some (Returns RPC_ERROR, pools, w)
  | Some pool =>
      match InternalRpc.authenticate PeerToken [] with
      | Throws => Some (Throws, pools, w)
      | Returns metadata =>
          match Get_connection pool with
          | None => None
          | Some (false, _) => Some (Returns RPC_ERROR, pools, w)
          | Some (true, pool) =>
              let '(r, w) := rpc metadata w in
              Some (Returns (match r with Returns (StatusOK, rsp) => r_error rsp | _ => RPC_ERROR end),
                    <[server_ip := Return_connection pool]> pools, w)
          end
      end
  end.

End Peer.

(** ** What a notification may do *)

(** *** Reading the tables *)

(** The connection is in automatic mode with nothing open. *)
Definition at_rest {T} (s : db T) : Prop := working s = None /\ autocommit s = true.

Lemma read_at_rest {T A B} (fallback : B) (f : Z -> T -> A) (g : A -> B) (s : db T) : at_rest s ->
  at_rest (with_connection fallback (try_catch (a ← query f; mret (g a)) (mret fallback)) s).2.
Proof.
  unfold with_connection, getConnection, mbind, prog_bind. destruct s as [c w a b n o k]. intros [Hw Ha]. simpl in *.
  destruct (o n); simpl; [|by split..].
  unfold finally, try_catch, query, server_call, returnConnection, ResetMysqlTransaction, view, mbind, prog_bind, gets. simpl.
  destruct (o (S n)); by split.
Qed.

Lemma order_by_elem {A} (f : A -> Z) l x : x ∈ order_by f l -> x ∈ l.
Proof. unfold order_by. by rewrite merge_sort_Permutation. Qed.

Lemma GetUser_spec user_id s : exists u s', GetUser user_id s = (Returns u, s') /\ committed s' = committed s /\
  (at_rest s -> at_rest s') /\ forall i, u = Some i -> uid i = user_id.
Proof.
  unfold GetUser. set (f := fun (_ : Z) t => List.find _ (user t)). 
  set (g := fun row : option UserRow => (fun r => mkUserInfo (u_name r) "" user_id (u_email r) (u_nick r) (u_desc r) (u_sex r) (u_icon r) "") <$> row).
  destruct (read_operation None f g s) as (now & u & s' & E & Ec & _ & Hu).
  pose proof (read_at_rest None f g s) as Hr. rewrite E in Hr. exists u, s'. split_and!; [done|done|done|].
  intros i ->. destruct Hu as [|Hu]; [done|]. unfold g in Hu. destruct (f now (committed s)) as [row|]; [|done]. by injection Hu as ->.
Qed.

Lemma friend_infos_spec rows : forall s, wp (friend_infos rows) (fun r s' => committed s' = committed s /\
  (at_rest s -> at_rest s') /\ exists infos, r = Returns infos /\ Forall (fun u => exists row, row ∈ rows /\ f_friend row = uid u) infos) s.
Proof.
  induction rows as [|row rows IH]; intros s; cbn [friend_infos].
  { apply wp_ret. split_and!; [done|done|]. by exists []. }
  destruct (GetUser_spec (f_friend row) s) as (u & s1 & E & Ec & Hr & Hu). apply wp_bind. unfold wp at 1. rewrite E.
  cbn [fst snd]. apply wp_bind. eapply wp_mono; [apply IH|]. intros r s2 (Ec2 & Hr2 & infos & -> & HF). apply wp_ret.
  split_and!; [congruence|auto|]. eexists. split; [done|].
  assert (Forall (fun u => exists row', row' ∈ row :: rows /\ f_friend row' = uid u) infos) as HF'.
  { eapply Forall_impl; [exact HF|]. intros x (row' & ? & ?). exists row'. split; [by right|done]. }
  destruct u as [i|]; [|done]. constructor; [|done]. exists row. split; [by left|]. cbn. symmetry. by apply Hu.
Qed.

Lemma GetFriendList_spec self_id s : wp (FriendDao.GetFriendList self_id) (fun r s' => committed s' = committed s /\
  forall l, r = Returns (Some l) -> Forall (fun u => exists row, row ∈ friend (committed s) /\ f_self row = self_id /\ f_friend row = uid u) l) s.
Proof.
  apply wp_with_connection; [done|]. set (s0 := mkDb _ _ _ _ _ _ _).
  assert (at_rest s0 /\ committed s0 = committed s) as [Hr0 E0] by done. clearbody s0.
  apply (wp_mono _ (fun r s' => at_rest s' /\ committed s' = committed s /\ (forall l, r = Returns (Some l) ->
    Forall (fun u => exists row, row ∈ friend (committed s) /\ f_self row = self_id /\ f_friend row = uid u) l))).
  2: { intros r s' ([Hw Ha] & Ec & Hl). destruct (returnConnection_committed s') as (E & _); [by rewrite Hw|]. rewrite E. auto. }
  apply wp_try, wp_bind, wp_query; [by apply wp_ret|]. apply wp_bind. eapply wp_mono; [apply friend_infos_spec|].
  intros r s' (Ec & Hr & infos & -> & HF). cbn in Ec, Hr. apply wp_ret. split_and!; [by apply Hr|by rewrite Ec|].
  intros l [= <-]. eapply Forall_impl; [exact HF|]. intros u (row & Hrow%subseteq_take & Hf). exists row.
  apply order_by_elem, list_elem_of_filter in Hrow as [Hself Hrow]. split_and!; [|done|done].
  destruct Hr0 as [Hw _]. unfold view in Hrow. rewrite Hw, E0 in Hrow. done.
Qed.

(** *** Who is told *)

(** The tables are as they were, only sessions that [ok] allows got frames,
    and nobody was registered. *)
Record told (ok : string -> Prop) (s s' : Logic) : Prop := {
  td_tables : committed (mysql s') = committed (mysql s);
  td_frames : forall id, frames_to id s' = frames_to id s \/ ok id;
  td_wakeups : wakeups s' = wakeups s;
  td_users : forall uid id, UserMgr.GetSession uid (net s') = Some id -> UserMgr.GetSession uid (net s) = Some id;
}.

Lemma told_refl ok s : told ok s s.
Proof. split; auto. Qed.

Lemma told_trans ok s s1 s2 : told ok s s1 -> told ok s1 s2 -> told ok s s2.
Proof.
  intros [T1 F1 W1 U1] [T2 F2 W2 U2]. split; [congruence| |congruence|auto]. intros id.
  destruct (F2 id) as [->|]; auto.
Qed.

Lemma told_mysql {A} ok (m : prog (db Tables) A) s : committed (m (mysql s)).2 = committed (mysql s) -> told ok s (on_mysql m s).2.
Proof. intros E. unfold on_mysql. destruct (m (mysql s)) as [r d]. by split; auto. Qed.

Lemma told_cache {A} ok (f : redis -> A * redis) s : told ok s (on_cache f s).2.
Proof. unfold on_cache. destruct (f (cache s)) as [a r]. by split; auto. Qed.

Lemma close_users j w uid id : UserMgr.GetSession uid (Server.Close j w) = Some id -> UserMgr.GetSession uid w = Some id.
Proof.
  unfold Server.Close, UserMgr.GetSession. destruct (is_closed j w); [done|].
  destruct (ClearSession_tables j (close_flag j w)) as (_ & _ & _ & _ & _ & Eu). destruct (close_flag_tables j w) as (_ & Ef & _).
  destruct Eu as [Eu|[Eu _]]; rewrite Eu, Ef; [done|]. by intros [_ ?]%lookup_delete_Some.
Qed.

Lemma told_send (ok : string -> Prop) id msg msgid s : ok id -> told ok s (Send id msg msgid s).2.
Proof.
  intros Hok. unfold Send. destruct (SendQueue.Send _ _ _) as [b q].
  assert (forall x, frames_to x (set_outbox (<[id := q]> (outbox s)) s) = frames_to x s \/ ok x) as Hf.
  { intros x. destruct (decide (x = id)) as [->|Hne]; [by right|left]. unfold frames_to, queue_of. cbn. by rewrite lookup_insert_ne. }
  destruct (SendQueue.b_close q); (split; [done|exact Hf|done|]); [|done]. intros uid x. apply close_users.
Qed.

(** A call from a state that has only been told. *)
Definition Tells {A} (ok : string -> Prop) (s0 : Logic) (m : prog Logic A) : Prop := forall s, told ok s0 s -> told ok s0 (m s).2.

Section Telling.
Context (ok : string -> Prop) (s0 : Logic).

Lemma tells_ret {A} (a : A) : Tells ok s0 (mret a).
Proof. by intros s. Qed.
Lemma tells_lift {A} (r : outcome A) : Tells ok s0 (lift r).
Proof. by intros s. Qed.
Lemma tells_lift_bind {A B} (r : outcome A) (k : A -> prog Logic B) : (forall a, r = Returns a -> Tells ok s0 (k a)) -> Tells ok s0 (lift r ≫= k).
Proof. intros Hk s Hs. destruct r as [a|]; [by apply Hk|done]. Qed.
Lemma tells_bind {A B} (m : prog Logic A) (k : A -> prog Logic B) : Tells ok s0 m -> (forall a, Tells ok s0 (k a)) -> Tells ok s0 (m ≫= k).
Proof.
  intros Hm Hk s Hs. unfold mbind, prog_bind. specialize (Hm s Hs). destruct (m s) as [[a|] s1]; [by apply Hk|done].
Qed.
(** The session of a user, who is registered from the beginning. *)
Lemma tells_session {B} uid (k : option string -> prog Logic B) : Tells ok s0 (k None) ->
  (forall id, UserMgr.GetSession uid (net s0) = Some id -> Tells ok s0 (k (Some id))) -> Tells ok s0 (session_of uid ≫= k).
Proof.
  intros Hn Hk s Hs. unfold mbind, prog_bind, session_of, gets. destruct (UserMgr.GetSession uid (net s)) as [id|] eqn:E; [|by apply Hn].
  apply Hk; [|done]. by apply (td_users _ _ _ Hs).
Qed.
Lemma tells_mysql {A} (m : prog (db Tables) A) : (forall d, committed (m d).2 = committed d) -> Tells ok s0 (on_mysql m).
Proof. intros Hm s Hs. eapply told_trans; [exact Hs|]. by apply told_mysql. Qed.
(** What a query answers, it answers from the tables of the beginning. *)
Lemma tells_answer {A B} (m : prog (db Tables) A) (P : A -> Prop) (k : A -> prog Logic B) :
  (forall d, committed d = committed (mysql s0) -> wp m (fun r d' => committed d' = committed d /\ forall a, r = Returns a -> P a) d) ->
  (forall a, P a -> Tells ok s0 (k a)) -> Tells ok s0 (on_mysql m ≫= k).
Proof.
  intros Hm Hk s Hs. specialize (Hm (mysql s) (td_tables _ _ _ Hs)). unfold wp in Hm. unfold mbind, prog_bind, on_mysql.
  pose proof (told_mysql ok m s (proj1 Hm)) as Ht. unfold on_mysql in Ht. destruct (m (mysql s)) as [[a|] d].
  - apply Hk; [by apply Hm|]. by eapply told_trans.
  - by eapply told_trans.
Qed.
Lemma tells_cache {A} (f : redis -> A * redis) : Tells ok s0 (on_cache f).
Proof. intros s Hs. eapply told_trans; [exact Hs|]. apply told_cache. Qed.
Lemma tells_send id msg msgid : ok id -> Tells ok s0 (Send id msg msgid).
Proof. intros Hok s Hs. eapply told_trans; [exact Hs|]. by apply told_send. Qed.

End Telling.

Ltac tells_step :=
  match goal with
  | |- Tells _ _ (mret _) => apply tells_ret
  | |- Tells _ _ (lift _) => apply tells_lift
  | |- Tells _ _ (on_cache _) => apply tells_cache
  | |- Tells _ _ (session_of _ ≫= _) => apply tells_session; [|intros ? ?]
  | |- Tells _ _ (Send _ _ _) => apply tells_send
  | |- Tells _ _ (mbind _ _) => apply tells_bind; [|intros ?]
  | |- Tells _ _ (match ?x with _ => _ end) => destruct x
  | |- Tells _ _ _ => progress cbv zeta
  end.
Ltac tells := repeat tells_step.

Section Authority.
Context `{J : Json} `{Collation}.

Lemma tells_base ok s0 k u : Tells ok s0 (GetBaseInfo k u).
Proof.
  unfold GetBaseInfo. tells. apply tells_mysql. intros d. destruct (GetUser_spec u d) as (x & d' & -> & Ec & _). exact Ec.
Qed.

(** What arrives at the service. *)
Inductive notification :=
| AddFriendN (q : AddFriendReq)
| AuthFriendN (q : AuthFriendReq)
| TextN (q : TextChatMsgReq)
| FileN (q : FileAvailableReq)
| AvatarN (q : AvatarChangedReq).

Context (of_uint64 : Z -> value) (asUInt64 : value -> outcome Z) (endpoints : string)
  (GetMetadata : string -> string -> list (string * string) -> string -> Z -> option string) (PeerToken : string).

Definition status_of {A} (m : prog Logic (Status * A)) : prog Logic Status := r ← m; mret r.1.

Definition handle (o : Outside) (metadata : list (string * string)) (n : notification) : prog Logic Status :=
  match n with
  | AddFriendN q => status_of (NotifyAddFriend PeerToken metadata q)
  | AuthFriendN q => status_of (NotifyAuthFriend PeerToken metadata q)
  | TextN q => status_of (NotifyTextChatMsg PeerToken o metadata q)
  | FileN q => status_of (NotifyFileAvailable of_uint64 asUInt64 endpoints GetMetadata PeerToken metadata q)
  | AvatarN q => status_of (NotifyAvatarChanged of_uint64 PeerToken metadata q)
  end.

Lemma status_of_state {A} (m : prog Logic (Status * A)) s : (status_of m s).2 = (m s).2.
Proof. unfold status_of, mbind, prog_bind. by destruct (m s) as [[]]. Qed.

(** The users whom a notification may reach. *)
Definition concerns (t : Tables) (n : notification) (uid : Z) : Prop :=
  match n with
  | AddFriendN q => uid = aq_touid q /\ exists r, r ∈ friend_apply t /\ a_from r = aq_applyuid q /\ a_to r = uid /\ a_status r = 0
  | AuthFriendN q => uid = fq_touid q /\ relation_count (fq_fromuid q) uid t = 2
  | TextN q => False
  | FileN q => uid = lq_touid q /\ exists f, ResourceMetadata asUInt64 endpoints GetMetadata PeerToken (lq_id q) uid = Returns (Some f) /\
      t_sender_uid f = lq_fromuid q /\ t_receiver_uid f = uid /\ (status f = Available \/ status f = Downloaded)
  | AvatarN q => uid = vq_uid q \/ exists r, r ∈ friend t /\ f_self r = vq_uid q /\ f_friend r = uid
  end.

Lemma applied_answer from to d : wp (HasPendingFriendApply from to) (fun r d' => committed d' = committed d /\
  forall b, r = Returns b -> b = true -> exists r, r ∈ friend_apply (committed d) /\ a_from r = from /\ a_to r = to /\ a_status r = 0) d.
Proof.
  unfold HasPendingFriendApply, wp. destruct (read_operation false (fun _ t => existsb (pending_apply from to) (friend_apply t)) (fun b => b) d)
    as (now & b & d' & E & Ec & _ & Hb). cbn in E. rewrite E. split; [done|]. intros b' [= <-] ->.
  destruct Hb as [|Hb]; [done|]. symmetry in Hb. apply existsb_exists in Hb as (r & Hr%list_elem_of_In & Hp). exists r. split; [done|].
  rewrite pending_apply_spec in Hp. apply bool_decide_eq_true in Hp. by injection Hp as -> -> ->.
Qed.

Lemma friends_answer first second d : wp (AreFriends first second) (fun r d' => committed d' = committed d /\
  forall b, r = Returns b -> b = true -> relation_count first second (committed d) = 2) d.
Proof.
  unfold AreFriends, CheckFriendRelation. apply wp_bind. unfold wp.
  destruct (read_operation None (fun _ => relation_count first second) (fun n => Some (n =? 2)) d) as (now & b & d' & E & Ec & _ & Hb).
  rewrite E. cbn. split; [done|]. intros b' [= <-]. destruct Hb as [->| ->]; [done|]. cbn. by intros ?%Z.eqb_eq.
Qed.

(** The sessions of the users that [P] holds of. *)
Definition sessions_of (P : Z -> Prop) (s : Logic) (id : string) : Prop := exists uid, UserMgr.GetSession uid (net s) = Some id /\ P uid.

Lemma tells_friends P s0 text l : Forall (fun u => P (uid u)) l -> Tells (sessions_of P s0) s0 (tell_friends text l).
Proof.
  induction 1 as [|u l Hu _ IH]; cbn [tell_friends]; [apply tells_ret|]. tells; [exact IH|by exists (uid u)|exact IH].
Qed.

Lemma tells_handle o metadata n s : (forall q, n <> TextN q) -> 
  Tells (sessions_of (concerns (committed (mysql s)) n) s) s (handle o metadata n).
Proof.
  intros Hn. unfold handle, status_of. destruct n as [q|q|q|q|q]; [| |by destruct (Hn q)|..]; apply tells_bind; try (intros; apply tells_ret).
  - unfold NotifyAddFriend, authorized. destruct (InternalRpc.authorize _ _); [|apply tells_ret..].
    destruct (_ || _); [by intros s1 Hs1|]. apply (tells_answer _ _ _ (fun b => b = true -> exists r, r ∈ friend_apply (committed (mysql s)) /\
      a_from r = aq_applyuid q /\ a_to r = aq_touid q /\ a_status r = 0)); [intros d <-; apply applied_answer|].
    intros [] Ha; cbn [negb]; tells. exists (aq_touid q). split; [done|]. by split; [|apply Ha].
  - unfold NotifyAuthFriend, authorized. destruct (InternalRpc.authorize _ _); [|apply tells_ret..].
    destruct (_ || _); [by intros s1 Hs1|]. apply (tells_answer _ _ _ (fun b => b = true -> relation_count (fq_fromuid q) (fq_touid q) (committed (mysql s)) = 2));
      [intros d <-; apply friends_answer|].
    intros [] Ha; cbn [negb]; tells; [apply tells_base|..]; (exists (fq_touid q); split; [done|]; by split; [|apply Ha]).
  - unfold NotifyFileAvailable, authorized. destruct (InternalRpc.authorize _ _); [|apply tells_ret..].
    apply tells_lift_bind. intros [f|] E; [|apply tells_ret]. destruct (_ || _ || _) eqn:Eg; [apply tells_ret|]. tells. exists (lq_touid q). split; [done|]. split; [done|]. exists f.
    apply orb_false_iff in Eg as [[Ef%negb_false_iff%Z.eqb_eq Et%negb_false_iff%Z.eqb_eq]%orb_false_iff Es].
    split_and!; [done|done|done|]. destruct (decide (status f = Available)) as [|Hna]; [by left|right].
    rewrite (bool_decide_eq_false_2 (status f = Available)) in Es by done. by apply negb_false_iff, bool_decide_eq_true in Es.
  - unfold NotifyAvatarChanged, authorized. destruct (InternalRpc.authorize _ _); [|apply tells_ret..].
    apply tells_bind. { apply tells_mysql. intros d. destruct (GetUser_spec (vq_uid q) d) as (x & d' & -> & Ec & _). exact Ec. }
    intros [u|]; [|apply tells_ret]. do 2 (apply tells_bind; [tells|intros ?]). destruct (_ || _); [apply tells_ret|]. cbv zeta.
    assert (Tells (sessions_of (concerns (committed (mysql s)) (AvatarN q)) s) s
      (friends ← on_mysql (FriendDao.GetFriendList (vq_uid q));
       match friends with None => mret (UNAVAILABLE, tt) | Some friends => tell_friends (toStyledString (object
             [("uid"%string, of_int (vq_uid q)); ("avatar_id"%string, of_string (avatar_id q));
              ("version"%string, of_uint64 (version q))])) friends ;; mret (StatusOK, tt) end)) as Hf.
    { apply (tells_answer _ _ _ (fun r => forall l, r = Some l -> Forall (fun u => exists row, row ∈ friend (committed (mysql s)) /\
        f_self row = vq_uid q /\ f_friend row = uid u) l)).
      { intros d <-. eapply wp_mono; [apply GetFriendList_spec|]. intros r d' [? Hl]. split; [done|]. intros x -> l ->. by apply Hl. }
      intros [l|] Hl; tells.
      apply tells_friends. eapply Forall_impl; [exact (Hl l eq_refl)|]. intros x (r & H1 & H2 & H3). right. by exists r. }
    apply tells_session; [|intros x Hx]; (apply tells_bind; [tells|intros _; exact Hf]). exists (vq_uid q). split; [done|by left].
Qed.

Lemma wake_spec o uid s : WakeDelivery o uid s =
  match UserMgr.GetSession uid (net s) with
  | None => (Returns true, s)
  | Some id =>
      if is_closed id (net s) then (Returns true, s)
      else if logic_room o then (Returns true, set_wakeups (wakeups s ++ [(id, uid)]) s) else (Returns false, s)
  end.
Proof.
  unfold WakeDelivery, IsClosed, mbind, prog_bind, gets. destruct (UserMgr.GetSession uid (net s)) as [id|]; [|done].
  destruct (is_closed id (net s)); [done|]. by destruct (logic_room o).
Qed.

(** A notification of text messages: the delivery of their receiver is woken. *)
Lemma text_notified o metadata q s : let '(r, s') := NotifyTextChatMsg PeerToken o metadata q s in
  committed (mysql s') = committed (mysql s) /\ (forall id, frames_to id s' = frames_to id s) /\ net s' = net s /\
  (wakeups s' = wakeups s \/ exists id, UserMgr.GetSession (tq_touid q) (net s) = Some id /\ is_closed id (net s) = false /\
     wakeups s' = wakeups s ++ [(id, tq_touid q)]) /\
  (forall rsp, r = Returns (StatusOK, rsp) -> relation_count (tq_fromuid q) (tq_touid q) (committed (mysql s)) = 2 /\
     forall id, UserMgr.GetSession (tq_touid q) (net s) = Some id -> is_closed id (net s) = true \/
       wakeups s' = wakeups s ++ [(id, tq_touid q)]) /\
  (wakeups s' <> wakeups s -> relation_count (tq_fromuid q) (tq_touid q) (committed (mysql s)) = 2).
Proof.
  unfold NotifyTextChatMsg, authorized. destruct (InternalRpc.authorize _ _); [|by split_and!; auto..].
  destruct (_ || _); [by split_and!; auto|]. unfold mbind, prog_bind, on_mysql.
  pose proof (friends_answer (tq_fromuid q) (tq_touid q) (mysql s)) as Hf. unfold wp in Hf.
  destruct (AreFriends _ _ (mysql s)) as [r d]. cbn [fst snd] in Hf. destruct Hf as [Ec Hf].
  destruct r as [[]|]; cbn [negb]; [|by split_and!; auto..]. specialize (Hf true eq_refl eq_refl).
  unfold session_of, gets. cbn [net set_mysql]. destruct (UserMgr.GetSession (tq_touid q) (net s)) as [id|] eqn:Es.
  2: { split_and!; auto. intros rsp _. split; [done|]. intros id Hid. cbn in Hid. congruence. }
  rewrite wake_spec. cbn [net set_mysql]. rewrite Es. destruct (is_closed id (net s)) eqn:Ecl.
  { split_and!; auto. intros rsp _. split; [done|]. intros x [= <-]. by left. }
  destruct (logic_room o); cbn; split_and!; auto; try done.
  - right. by exists id.
  - intros rsp _. split; [done|]. intros x [= <-]. by right.
Qed.

(** C12. What another server's call may do here: without the token of the
    deployment the server is left exactly as it was; no call changes the
    tables; and only users whom the call may concern are told anything: the
    receiver of an application that is pending in the tables, of a friendship
    that both sides have, or of a file that the resource service shows to be
    for them and from the named sender, and for a new picture the user and
    their friends.  A notification of messages sends nothing itself: it wakes
    the delivery of the receiver, who must be a friend of the sender. *)
Theorem peer_authority o metadata n s : let s' := (handle o metadata n s).2 in
  (PeerToken = ""%string \/ InternalRpc.find_metadata InternalRpc.kMetadataKey metadata <> Some PeerToken -> s' = s) /\
  committed (mysql s') = committed (mysql s) /\
  (forall id, frames_to id s' <> frames_to id s ->
     exists uid, UserMgr.GetSession uid (net s) = Some id /\ concerns (committed (mysql s)) n uid) /\
  (wakeups s' <> wakeups s -> exists q id, n = TextN q /\
     relation_count (tq_fromuid q) (tq_touid q) (committed (mysql s)) = 2 /\
     UserMgr.GetSession (tq_touid q) (net s) = Some id /\ wakeups s' = wakeups s ++ [(id, tq_touid q)]).
Proof.
  cbn zeta. split.
  { intros Hbad. assert (InternalRpc.authorize metadata PeerToken <> InternalRpc.OK) as Ha.
    { intros [Hne Hm]%InternalRpc.authorize_exact. by destruct Hbad. }
    unfold handle, status_of. destruct n; unfold NotifyAddFriend, NotifyAuthFriend, NotifyTextChatMsg, NotifyFileAvailable,
      NotifyAvatarChanged, authorized; by destruct (InternalRpc.authorize metadata PeerToken). }
  assert ((exists q, n = TextN q) \/ forall q, n <> TextN q) as [[q ->]|Hn] by (destruct n; eauto).
  - pose proof (text_notified o metadata q s) as Ht. unfold handle. rewrite status_of_state.
    destruct (NotifyTextChatMsg PeerToken o metadata q s) as [r s']. destruct Ht as (H1 & H2 & _ & H4 & _ & H6).
    split_and!; [done|intros id Hid; by destruct Hid|]. cbn [snd]. intros Hw. destruct H4 as [|(id & Hid & _ & Hw')]; [done|].
    exists q, id. split_and!; auto.
  - destruct (tells_handle o metadata n s) with s as [T F W U]; [done|apply told_refl|].
    split_and!; [done| |done]. intros id Hid. destruct (F id) as [?|Hok]; [done|exact Hok].
Qed.

(** A call gives its connection back. *)
Lemma notify_returns {W} (rpc : list (string * string) -> prog W (Status * Rsp)) server pools w r pools' w' :
  notify PeerToken rpc server pools w = Some (r, pools', w') -> pools' = pools.
Proof.
  unfold notify. destruct (pools !! server) as [p|] eqn:E; [|by intros [= _ <- _]].
  destruct (InternalRpc.authenticate PeerToken []) as [md|]; [|by intros [= _ <- _]].
  unfold Get_connection. destruct p as [n []]; cbn; [by intros [= _ <- _]|]. destruct n as [|n]; [done|].
  destruct (rpc md w) as [x w1]. intros [= _ <- _]. cbn. by apply insert_id.
Qed.

(** C13. Between servers: a call to the server of the receiver that the caller
    sees succeed has found the two users to be friends, and the receiver, if
    connected there with a session that is not closed, has had a delivery
    queued, which reads their messages from the tables; nothing was sent past
    that delivery, no table changed, and the connection is back in its pool. *)
Theorem notified_is_woken o server pools q s pools' s' :
  notify PeerToken (fun metadata => NotifyTextChatMsg PeerToken o metadata q) server pools s = Some (Returns 0, pools', s') ->
  pools' = pools /\ committed (mysql s') = committed (mysql s) /\ (forall id, frames_to id s' = frames_to id s) /\
  relation_count (tq_fromuid q) (tq_touid q) (committed (mysql s)) = 2 /\
  forall id, UserMgr.GetSession (tq_touid q) (net s) = Some id -> is_closed id (net s) = true \/
    wakeups s' = wakeups s ++ [(id, tq_touid q)].
Proof.
  intros E. split; [by apply notify_returns in E|]. unfold notify in E. destruct (pools !! server) as [p|]; [|done].
  destruct (InternalRpc.authenticate PeerToken []) as [md|]; [|done]. destruct (Get_connection p) as [[[] p']|]; [|done..].
  pose proof (text_notified o md q s) as Ht. destruct (NotifyTextChatMsg PeerToken o md q s) as [r s1].
  injection E as Er _ <-. destruct r as [[[] rsp]|]; try done.
  destruct Ht as (H1 & H2 & _ & _ & H5 & _). destruct (H5 rsp eq_refl). auto.
Qed.

End Authority.

(** ** Examples *)

Module Example.
Import ToyJson.

#[local] Instance peer_collation : Collation := fold_case.

Definition example_pools : gmap string ConPool := {[ "chat2"%string := mkConPool 5 false ]}.
Definition example_request : TextChatMsgReq := mkTextChatMsgReq 1001 1002 [mkTextChatData "m-1" "hello"].
Definition example_peer : Logic :=
  mkLogic (healthy befriended 0) DistLock.idle_redis Logic.Example.example_net ∅ ∅ [] [] [] [] 0 0 0 0.
Definition called : Logic := set_wakeups [("s2"%string, 1002)] (set_mysql (AreFriends 1001 1002 (mysql example_peer)).2 example_peer).

Lemma notified_is_woken_witness : exists pools',
  notify "secret" (fun metadata => NotifyTextChatMsg "secret" Logic.Example.example_outside metadata example_request) "chat2"
    example_pools example_peer = Some (Returns 0, pools', called) /\
  pools' = example_pools /\ wakeups called = [("s2"%string, 1002)].
Proof.
  assert (notify "secret" (fun metadata => NotifyTextChatMsg "secret" Logic.Example.example_outside metadata example_request) "chat2"
    example_pools example_peer = Some (Returns 0, example_pools, called)) as E by (vm_compute; reflexivity).
  exists example_pools. split; [exact E|].
  destruct (notified_is_woken "secret" Logic.Example.example_outside "chat2" example_pools example_request example_peer
    example_pools called E) as (H1 & _ & _ & _ & H2).
  split; [exact H1|]. destruct (H2 "s2"%string) as [H3|H3]; [vm_compute; reflexivity|vm_compute in H3; discriminate|exact H3].
Defined.

End Example.
