(* ===== verification/LoginFlow.v ===== *)
(** From the status server's ticket to the chat server's login: the two sides
    of [StatusServiceImpl::insertToken] and [LogicSystem::LoginChatCallback]
    put together over one Redis. *)
From S2P Require Import Prelude Mysql Redis Session Server Json Status Logic Handlers.

Section Flow.
Context `{J : Json} `{!JsonLaws J}.

(** The chat server of [s] and the status server of [st] use one Redis, which
    answers the chat server's next command. *)
Definition shares_store (st : Status) (s : Logic) : Prop :=
  keys (cache s) = keys (store_ st) /\ roracle (cache s) (rcalls (cache s)) = Fine.

(** The ticket text is read back as it was written. *)
Lemma ticket_read uid server uid' self : is_int uid = true -> ascii_text server = true ->
  ticket_valid uid' self (ticket_text uid server) = Returns ((uid =? uid') && String.eqb server self).
Proof.
  intros Hu Hs. unfold ticket_valid, ticket_text.
  set (v := object [("uid"%string, of_int uid); ("server"%string, of_string server)]).
  assert (container null = true) as Hn by (unfold container; by rewrite null_isNull).
  assert (container (set_member "uid" (of_int uid) null) = true) as Hc by by apply set_container.
  assert (printable v = true) as Hp.
  { apply printable_set; [done..|by apply printable_string|].
    apply printable_set; [done|done|apply printable_int|apply printable_null]. }
  rewrite parse_print by done. unfold v, object, member_is, member_int, member_string. cbn [foldl fst snd].
  rewrite set_isObject, !member_set by done. simpl. rewrite int_isInt, string_isString, int_asInt, string_asString by done.
  simpl. by destruct (uid =? uid').
Qed.


End Flow.

(** ** Example *)

Module Example.
Import ToyJson.

Definition example_status : Status := mkStatus ∅ 0 DistLock.idle_redis.

(** Connection [s1] has no user yet; the ticket has just been stored. *)
Definition waiting (r : redis) : Logic :=
  mkLogic (healthy Schema.sample_tables 0) r
    (HandleAccept "s1" false "s2" (set_pending None (Start "s1" Server.create))) ∅ ∅ [] [] [] [] 0 0 0 0.


End Example.
