(* ===== verification/NginxRoute.v ===== *)
(** The route that the migration adds to a site of Nginx
    ([nginx_with_resource] in [src/deploy/production/migrate-resource.py]): the
    text with its comments and strings masked, the server blocks found in it,
    and the insertion. *)
From S2P Require Import Prelude.

(** A Python text is a list of code points. *)
Abbreviation text := (list Z).

Fixpoint points (s : string) : text :=
  match s with EmptyString => [] | String c s => of_byte c :: points s end.

Section Unicode.
(** The characters beyond ASCII that [\s] and [\w] accept. *)
Context (unicode_space unicode_word : Z -> bool).

Definition space (c : Z) : bool :=
  (9 <=? c) && (c <=? 13) || (28 <=? c) && (c <=? 32) || (128 <=? c) && unicode_space c.
Definition word (c : Z) : bool :=
  (48 <=? c) && (c <=? 57) || (65 <=? c) && (c <=? 90) || (c =? 95) || (97 <=? c) && (c <=? 122) || (128 <=? c) && unicode_word c.

(** ** Masking *)

(** [comment], [quote] and, inside quotes, [escaped]. *)
Inductive Mode := Plain | Comment | Quoted (quote : Z) (escaped : bool).

Definition mask_char (m : Mode) (c : Z) : Z * Mode :=
  match m with
  | Comment => if c =? 10 then (c, Plain) else (32, Comment)
  | Quoted q escaped =>
      (32, if escaped then Quoted q false else if c =? 92 then Quoted q true else if c =? q then Plain else Quoted q false)
  | Plain => if c =? 35 then (32, Comment) else if (c =? 34) || (c =? 39) then (32, Quoted c false) else (c, Plain)
  end.
Fixpoint mask (m : Mode) (l : text) : text :=
  match l with [] => [] | c :: l => (mask_char m c).1 :: mask (mask_char m c).2 l end.
Definition mode_after (m : Mode) (l : text) : Mode := foldl (fun m c => (mask_char m c).2) m l.

(** ** Regular expressions *)

Fixpoint strip (p l : text) : option text :=
  match p, l with
  | [], _ => Some l
  | x :: p, y :: l => if x =? y then strip p l else None
  | _ :: _, [] => None
  end.
Fixpoint spaces (l : text) : nat :=
  match l with c :: l => if space c then S (spaces l) else O | [] => O end.
(** [\b] before a word. *)
Definition boundary (prev : option Z) : bool := match prev with Some c => negb (word c) | None => true end.

(** [server\s*\{]: the length of the match. *)
Definition match_server (l : text) : option nat :=
  rest ← strip (points "server") l;
  match drop (spaces rest) rest with c :: _ => if c =? 123 then Some (6 + spaces rest + 1)%nat else None | [] => None end.

(** The ends of the matches of [\bserver\s*\{]; no two overlap. *)
Fixpoint server_starts (prev : option Z) (i : nat) (l : text) : list nat :=
  match l with
  | [] => []
  | c :: l' =>
      let rest := server_starts (Some c) (S i) l' in
      match (if boundary prev then match_server l else None) with Some n => (i + n)%nat :: rest | None => rest end
  end.

(** The loop over [depth]: the characters up to the closing brace. *)
Fixpoint close_at (depth : Z) (l : text) : option nat :=
  match l with
  | [] => None
  | c :: l =>
      let depth := depth + (if c =? 123 then 1 else 0) - (if c =? 125 then 1 else 0) in
      if depth =? 0 then Some 1%nat else S <$> close_at depth l
  end.

(** [keyword\s+([^;]+);]: the group and the length of the match.  When a
    semicolon follows the white space, the last of at least two is the group. *)
Fixpoint until_semicolon (l : text) : option text :=
  match l with [] => None | c :: l => if c =? 59 then Some [] else cons c <$> until_semicolon l end.
Definition match_directive (keyword l : text) : option (text * nat) :=
  rest ← strip keyword l;
  let n := spaces rest in
  group ← until_semicolon (drop n rest);
  match n, group with
  | O, _ => None
  | 1%nat, [] => None
  | _, [] => Some (take 1 (drop (n - 1) rest), length keyword + n + 1)%nat
  | _, _ => Some (group, length keyword + n + length group + 1)%nat
  end.

(** [re.findall], which goes on behind a match. *)
Fixpoint findall (keyword : text) (skip : nat) (prev : option Z) (l : text) : list text :=
  match l with
  | [] => []
  | c :: l' =>
      match skip with
      | S skip => findall keyword skip (Some c) l'
      | O =>
          match (if boundary prev then match_directive keyword l else None) with
          | Some (group, n) => group :: findall keyword (n - 1) (Some c) l'
          | None => findall keyword 0 (Some c) l'
          end
      end
  end.

(** [str.split()] *)
Fixpoint words_from (current : text) (l : text) : list text :=
  match l with
  | [] => match current with [] => [] | _ => [current] end
  | c :: l =>
      if space c then match current with [] => words_from [] l | _ => current :: words_from [] l end
      else words_from (current ++ [c]) l
  end.
Definition split (l : text) : list text := words_from [] l.

(** [(?:^|:)443(?:\s|$)] *)
Fixpoint port_443 (start : bool) (l : text) : bool :=
  (start && match strip (points "443") l with Some [] => true | Some (c :: _) => space c | None => false end) ||
  match l with [] => false | c :: l => port_443 (c =? 58) l end.

(** [p in text] *)
Fixpoint contains (p l : text) : bool :=
  match strip p l with Some _ => true | None => match l with [] => false | _ :: l => contains p l end end.

(** ** The route *)

(** [text[a:b]] *)
Definition slice (a b : nat) (l : text) : text := drop a (take b l).

Definition serves_https (hostname block : text) : bool :=
  existsb (fun names => bool_decide (hostname ∈ split names)) (findall (points "server_name") 0 None block) &&
  existsb (fun listen => bool_decide (points "ssl" ∈ split listen) && port_443 true listen) (findall (points "listen") 0 None block).

(** The loop over the server blocks; [None] when one has no end. *)
Fixpoint find_blocks (hostname masked : text) (starts : list nat) : option (list (nat * nat)) :=
  match starts with
  | [] => Some []
  | b :: starts =>
      n ← close_at 1 (drop b masked);
      let e := (b + n)%nat in
      rest ← find_blocks hostname masked starts;
      Some (if serves_https hostname (slice b (e - 1) masked) then (b, (e - 1)%nat) :: rest else rest)
  end.

Definition route : text := points "/api/resources/v1".
Definition line (s : string) : text := points s ++ [10].
Definition snippet : text :=
  [10] ++ line "    # Resource migration: keep the existing API and chat entry points."
  ++ line "    location ^~ /api/resources/v1/ {"
  ++ line "        proxy_pass http://127.0.0.1:18085;"
  ++ line "        proxy_http_version 1.1;"
  ++ line "        proxy_set_header Host $host;"
  ++ line "        proxy_set_header X-Forwarded-Proto https;"
  ++ line "        proxy_set_header Connection close;"
  ++ line "        client_max_body_size 5m;"
  ++ line "        client_body_timeout 30s;"
  ++ line "        proxy_request_buffering off;"
  ++ line "        proxy_buffering off;"
  ++ line "        proxy_connect_timeout 3s;"
  ++ line "        proxy_read_timeout 40s;"
  ++ line "        proxy_send_timeout 40s;"
  ++ line "    }".

Definition nginx_with_resource (t hostname : text) : option text :=
  let masked := mask Plain t in
  matches ← find_blocks hostname masked (server_starts None 0 masked);
  match matches with
  | [(b, e)] =>
      if contains route (slice b e t) then None
      else Some (take e t ++ snippet ++ drop e t)
  | _ => None
  end.

(** ** The text around the insertion *)

Lemma mask_app m a b : mask m (a ++ b) = mask m a ++ mask (mode_after m a) b.
Proof. revert m. induction a as [|c a IH]; intros m; [done|]. cbn. by rewrite IH. Qed.

Lemma mask_length m l : length (mask m l) = length l.
Proof. revert m. induction l as [|c l IH]; intros m; [done|]. cbn. by rewrite IH. Qed.

(** A brace that is not masked is outside comments and strings. *)
Lemma brace_plain m c : (mask_char m c).1 = 125 -> m = Plain.
Proof. destruct m as [| |q x]; [done| |done]. cbn. destruct (c =? 10) eqn:E; cbn; intros; lia. Qed.

Lemma snippet_mode : mode_after Plain snippet = Plain.
Proof. vm_compute. reflexivity. Qed.

Lemma strip_app p l r x : strip p l = Some r -> strip p (l ++ x) = Some (r ++ x).
Proof.
  revert l. induction p as [|c p IH]; intros l E; cbn in E; [by injection E as ->|].
  destruct l as [|d l]; [done|]. cbn. destruct (c =? d); [by apply IH|done].
Qed.

Lemma strip_some p l r : strip p l = Some r -> l = p ++ r.
Proof.
  revert l. induction p as [|c p IH]; intros l E; cbn in E; [by injection E as ->|].
  destruct l as [|d l]; [done|]. destruct (c =? d) eqn:Ec; [|done]. cbn. apply Z.eqb_eq in Ec as ->. by rewrite (IH l E).
Qed.

Lemma strip_prefix p l : strip p (p ++ l) = Some l.
Proof. induction p as [|c p IH]; [done|]. cbn. by rewrite Z.eqb_refl. Qed.

(** A run of white space that ends inside the text. *)
Lemma spaces_app l x : (spaces l < length l)%nat -> spaces (l ++ x) = spaces l.
Proof.
  induction l as [|c l IH]; cbn; [lia|]. destruct (space c); [|done]. intros. rewrite IH; [done|lia].
Qed.

Lemma spaces_le l : (spaces l <= length l)%nat.
Proof. induction l as [|c l IH]; cbn; [done|]. destruct (space c); lia. Qed.

(** *** Server blocks *)

(** A match that ends inside [a] does not see what follows. *)
Lemma match_server_local a x y n : match_server (a ++ x) = Some n -> (n <= length a)%nat -> match_server (a ++ y) = Some n.
Proof.
  unfold match_server. intros (r & Er & E)%bind_Some Hn. pose proof (strip_some _ _ _ Er) as El.
  destruct (drop (spaces r) r) as [|c r'] eqn:Ed; [done|]. destruct (c =? 123) eqn:Ec; [|done]. injection E as <-.
  assert (exists u, a = points "server" ++ u /\ r = u ++ x) as (u & -> & ->).
  { apply app_eq_inv in El as [(k & E1 & E2)|(k & E1 & E2)]; [by exists k|]. apply (f_equal length) in E1.
    rewrite length_app in E1. cbn [points length] in E1. lia. }
  rewrite <- app_assoc, strip_prefix. cbn [mbind option_bind]. rewrite length_app in Hn. change (length (points "server")) with 6%nat in Hn.
  pose proof (spaces_le u) as Hle.
  assert (spaces (u ++ x) = spaces u /\ (spaces u < length u)%nat) as [Eu Hu].
  { destruct (decide (spaces u < length u)%nat) as [?|Hge]; [by rewrite spaces_app|]. exfalso.
    assert (forall v, spaces v = length v -> (length v <= spaces (v ++ x))%nat) as Hall.
    { clear. induction v as [|c v IH]; cbn; [lia|]. destruct (space c); [|done]. intros [= E]. specialize (IH E). lia. }
    specialize (Hall u ltac:(lia)). lia. }
  rewrite Eu in *. rewrite drop_app_le in Ed by lia. rewrite spaces_app, drop_app_le by lia.
  destruct (drop (spaces u) u) as [|d v] eqn:Ev; [apply (f_equal length) in Ev; rewrite length_drop in Ev; cbn in Ev; lia|].
  cbn in *. injection Ed as -> _. by rewrite Ec.
Qed.

Lemma server_starts_local x y : forall a prev i b, b ∈ server_starts prev i (a ++ x) -> (b <= i + length a)%nat ->
  b ∈ server_starts prev i (a ++ y).
Proof.
  assert (forall x prev i b, b ∈ server_starts prev i x -> (i < b)%nat) as Hlt.
  { induction x0 as [|c x0 IH]; intros prev i b Hb; [by apply elem_of_nil in Hb|]. cbn in Hb.
    assert (forall n, (if boundary prev then match_server (c :: x0) else None) = Some n -> (0 < n)%nat) as Hn.
    { intros n. destruct (boundary prev); [|done]. unfold match_server. intros (r & _ & E)%bind_Some.
      destruct (drop (spaces r) r) as [|z ?]; [done|]. destruct (z =? 123); [|done]. injection E as <-. lia. }
    destruct (if boundary prev then _ else _) as [n|]; [apply elem_of_cons in Hb as [->|Hb]|].
    - specialize (Hn n eq_refl). lia.
    - apply IH in Hb. lia.
    - apply IH in Hb. lia. }
  induction a as [|c a IH]; intros prev i b Hb Hl.
  { apply Hlt in Hb. cbn in Hl. lia. }
  assert (forall n, (if boundary prev then match_server (c :: a ++ x) else None) = Some n -> (i + n <= i + length (c :: a))%nat ->
    (if boundary prev then match_server (c :: a ++ y) else None) = Some n) as Hm.
  { intros n. destruct (boundary prev); [|done]. intros E Hn. apply (match_server_local (c :: a) x y n E). lia. }
  cbn [server_starts app] in *. cbn [length] in *.
  assert (b ∈ server_starts (Some c) (S i) (a ++ x) -> b ∈ match (if boundary prev then match_server (c :: a ++ y) else None) with
    | Some n => (i + n)%nat :: server_starts (Some c) (S i) (a ++ y) | None => server_starts (Some c) (S i) (a ++ y) end) as Hrest.
  { intros H'. assert (b ∈ server_starts (Some c) (S i) (a ++ y)) as H2 by (apply IH; [done|lia]).
    destruct (if boundary prev then match_server (c :: a ++ y) else None); [by right|done]. }
  destruct (if boundary prev then match_server (c :: a ++ x) else None) as [n|] eqn:E; [|by apply Hrest].
  apply elem_of_cons in Hb as [->|Hb]; [|by apply Hrest]. rewrite (Hm n eq_refl Hl). by left.
Qed.

(** The depth after a text that does not close the block. *)
Fixpoint stays (depth : Z) (l : text) : option Z :=
  match l with
  | [] => Some depth
  | c :: l =>
      let depth := depth + (if c =? 123 then 1 else 0) - (if c =? 125 then 1 else 0) in
      if depth =? 0 then None else stays depth l
  end.

Lemma close_app d l x : close_at d (l ++ x) =
  match stays d l with Some d' => Nat.add (length l) <$> close_at d' x | None => close_at d l end.
Proof.
  revert d. induction l as [|c l IH]; intros d; cbn; [by destruct (close_at d x)|]. destruct (_ =? 0); [done|].
  rewrite IH. destruct (stays _ l); [|done]. by destruct (close_at _ x).
Qed.

Lemma close_some d l n : 1 <= d -> close_at d l = Some n ->
  exists a r, l = a ++ 125 :: r /\ n = S (length a) /\ stays d a = Some 1.
Proof.
  revert d n. induction l as [|c l IH]; intros d n Hd E; cbn in E; [done|].
  destruct (_ =? 0) eqn:E0.
  - exists [], l. injection E as <-. apply Z.eqb_eq in E0. destruct (c =? 123) eqn:E1, (c =? 125) eqn:E2; try lia.
    apply Z.eqb_eq in E2 as ->. cbn. split_and!; [done|done|f_equal; lia].
  - destruct (close_at _ l) as [k|] eqn:Ek; [|done]. injection E as <-. apply IH in Ek as (a & r & -> & -> & Hs).
    + exists (c :: a), r. cbn. by rewrite E0.
    + apply Z.eqb_neq in E0. destruct (c =? 123), (c =? 125); lia.
Qed.

Lemma stays_app d a b : stays d (a ++ b) = match stays d a with Some d' => stays d' b | None => None end.
Proof. revert d. induction a as [|c a IH]; intros d; [done|]. cbn. by destruct (_ =? 0). Qed.

(** The snippet is balanced. *)
Lemma snippet_stays : stays 1 (mask Plain snippet) = Some 1.
Proof. vm_compute. reflexivity. Qed.

(** *** Directives *)

Lemma until_app l g x : until_semicolon l = Some g -> until_semicolon (l ++ x) = Some g.
Proof.
  revert g. induction l as [|c l IH]; intros g E; cbn in *; [done|]. destruct (c =? 59); [done|].
  destruct (until_semicolon l) as [h|]; [|done]. by rewrite (IH h).
Qed.

Lemma until_some l g : until_semicolon l = Some g -> (length g < length l)%nat /\ Forall (fun c => c <> 59) g /\ exists r, l = g ++ 59 :: r.
Proof.
  revert g. induction l as [|c l IH]; intros g E; cbn in E; [done|]. destruct (c =? 59) eqn:Ec.
  - injection E as <-. apply Z.eqb_eq in Ec as ->. cbn. split_and!; [lia|done|by exists l].
  - destruct (until_semicolon l) as [h|]; [|done]. injection E as <-. destruct (IH h eq_refl) as (? & ? & r & ->).
    cbn. split_and!; [lia| |by exists r]. constructor; [lia|done].
Qed.

Lemma space_semicolon : space 59 = false.
Proof. done. Qed.

Lemma spaces_until l g : until_semicolon (drop (spaces l) l) = Some g -> (spaces l < length l)%nat.
Proof. intros (H & _ & _)%until_some. rewrite length_drop in H. lia. Qed.

(** A match does not see what follows. *)
Lemma match_directive_app k l x m : match_directive k l = Some m -> match_directive k (l ++ x) = Some m.
Proof.
  unfold match_directive. intros (r & Er & E)%bind_Some. rewrite (strip_app _ _ _ x Er). cbn [mbind option_bind] in *.
  apply bind_Some in E as (g & Eg & E). pose proof (spaces_until _ _ Eg) as Hs.
  rewrite spaces_app, (drop_app_le r x (spaces r)) by lia. rewrite (until_app _ g) by done. cbn [mbind option_bind]. rewrite <- E.
  destruct (spaces r) as [|[|n]] eqn:En; [done|by destruct g|]. destruct g; [|done]. do 2 f_equal.
  rewrite drop_app_le by lia. rewrite take_app_le; [done|]. rewrite length_drop. lia.
Qed.

(** Without a semicolon there is no directive. *)
Lemma match_semicolon k l m : match_directive k l = Some m -> 59 ∈ l.
Proof.
  unfold match_directive. intros (r & Er%strip_some & E)%bind_Some. apply bind_Some in E as (g & Eg & _).
  apply until_some in Eg as (_ & _ & u & Eu). subst l. apply elem_of_app. right. rewrite <- (take_drop (spaces r) r), Eu. set_solver.
Qed.

Lemma until_first p u : 59 ∉ p -> until_semicolon (p ++ 59 :: u) = Some p.
Proof.
  induction p as [|c p IH]; [done|]. intros [Hc Hp]%not_elem_of_cons. cbn. rewrite (proj2 (Z.eqb_neq c 59)) by done. by rewrite IH.
Qed.

(** A match ends at the first semicolon. *)
Lemma match_cut k p u m : 59 ∉ k -> 59 ∉ p -> match_directive k (p ++ 59 :: u) = Some m -> match_directive k (p ++ [59]) = Some m.
Proof.
  intros Hk Hp. unfold match_directive. intros (r & Er & E)%bind_Some. pose proof (strip_some _ _ _ Er) as El.
  assert (exists p', p = k ++ p' /\ r = p' ++ 59 :: u) as (p' & -> & ->).
  { apply app_eq_inv in El as [(z & -> & ->)|(z & -> & Ez)]; [by exists z|].
    destruct z as [|c z]; [exists []; cbn in Ez; subst r; by rewrite !app_nil_r|]. injection Ez as <- _. set_solver. }
  rewrite <- app_assoc, strip_prefix. cbn [mbind option_bind] in *.
  assert (spaces (p' ++ [59%Z]) < length (p' ++ [59%Z]))%nat as Hs.
  { clear. induction p' as [|c p' IH]; cbn; [lia|]. destruct (space c); lia. }
  assert (p' ++ 59 :: u = (p' ++ [59]) ++ u) as Eq by by rewrite <- app_assoc. rewrite Eq in E.
  rewrite spaces_app, (drop_app_le _ u (spaces (p' ++ [59]))) in E by lia. set (n := spaces (p' ++ [59])) in *.
  assert (n <= length p')%nat as Hn by (rewrite length_app in Hs; cbn in Hs; lia).
  assert (59 ∉ drop n p') as Hd.
  { intros Hin. apply Hp, elem_of_app. right. rewrite <- (take_drop n p'). apply elem_of_app. by right. }
  rewrite (drop_app_le p' [59] n) in * by done. rewrite until_first by done. rewrite <- (app_assoc (drop n p') [59] u) in E.
  cbn [app] in E. rewrite until_first in E by done.
  cbn [mbind option_bind] in *. rewrite <- E. clearbody n. destruct n as [|[|n]]; [done|by destruct (drop 1 p')|].
  destruct (drop (S (S n)) p'); [|done]. do 2 f_equal. rewrite (drop_app_le _ u) by (rewrite length_app; cbn; lia).
  rewrite take_app_le; [done|]. rewrite length_drop, length_app. cbn. lia.
Qed.

(** A match that appears with a longer text reaches beyond the text. *)
Lemma match_beyond k l x : 59 ∉ k -> match_directive k l = None -> match_directive k (l ++ x) <> None -> 59 ∉ l.
Proof.
  intros Hk Hn Hs Hin. destruct (match_directive k (l ++ x)) as [m|] eqn:E; [|done].
  destruct (list_elem_of_split_l l 59 Hin) as (p & v & -> & Hp).
  rewrite <- app_assoc in E. apply match_cut in E; [|done|done]. apply (match_directive_app _ _ v) in E.
  rewrite <- app_assoc in E. cbn in E. congruence.
Qed.

Lemma findall_none k : forall l s prev, 59 ∉ l -> findall k s prev l = [].
Proof.
  induction l as [|c l IH]; intros s prev Hl; [done|]. assert (59 ∉ l) as Hl' by set_solver. cbn.
  destruct s; [|by apply IH]. destruct (boundary prev); [|by apply IH].
  destruct (match_directive k (c :: l)) as [m|] eqn:E; [|by apply IH]. by apply match_semicolon in E.
Qed.

(** The directives of a text are among those of a longer one. *)
Lemma findall_app k x : 59 ∉ k -> forall l s prev, findall k s prev l ⊆ findall k s prev (l ++ x).
Proof.
  intros Hk. induction l as [|c l IH]; intros s prev; [set_solver|]. cbn. destruct s as [|s]; [|by apply IH].
  destruct (boundary prev); [|by apply IH]. destruct (match_directive k (c :: l)) as [[g n]|] eqn:E.
  - apply (match_directive_app _ _ x) in E. cbn in E. rewrite E. specialize (IH (n - 1)%nat (Some c)). set_solver.
  - destruct (match_directive k (c :: l ++ x)) as [[g n]|] eqn:E2; [|by apply IH].
    assert (59 ∉ c :: l) as Hl by (apply (match_beyond k _ x); [done|done|cbn; by rewrite E2]).
    rewrite findall_none; [set_solver|]. set_solver.
Qed.

Lemma existsb_subset {A} (f : A -> bool) l1 l2 : l1 ⊆ l2 -> existsb f l1 = true -> existsb f l2 = true.
Proof.
  intros Hs [y [Hy Hf]]%existsb_exists. apply existsb_exists. exists y. split; [|done]. apply list_elem_of_In, Hs. by apply list_elem_of_In.
Qed.

Lemma serves_app hostname l x : serves_https hostname l = true -> serves_https hostname (l ++ x) = true.
Proof.
  unfold serves_https. intros [H1 H2]%andb_true_iff.
  apply andb_true_iff; split; [eapply existsb_subset, H1|eapply existsb_subset, H2]; apply findall_app;
    by apply (bool_decide_unpack _).
Qed.

(** *** Blocks *)

Lemma find_blocks_elem h m starts l b e : find_blocks h m starts = Some l ->
  (b, e) ∈ l <-> b ∈ starts /\ exists n, close_at 1 (drop b m) = Some n /\ e = (b + n - 1)%nat /\ serves_https h (slice b e m) = true.
Proof.
  revert l. induction starts as [|s starts IH]; intros l E; cbn in E; [injection E as <-; set_solver|].
  apply bind_Some in E as (n & En & E). apply bind_Some in E as (rest & Er & E). specialize (IH rest Er).
  assert ((b, e) ∈ l <-> (b, e) ∈ rest \/ b = s /\ e = (s + n - 1)%nat /\ serves_https h (slice s (s + n - 1) m) = true) as ->.
  { injection E as <-. destruct (serves_https h (slice s (s + n - 1) m)); [rewrite elem_of_cons|].
    - split; [intros [[= -> ->]|?]; [by right|by left]|intros [?|(-> & -> & _)]; [by right|by left]].
    - split; [by left|]. by intros [?|(_ & _ & ?)]. }
  rewrite IH, elem_of_cons. split.
  - intros [[H (k & ?)]|(-> & -> & ?)]; [eauto|]. split; [by left|]. by exists n.
  - intros [[->|H] (k & Ek & -> & Hs)]; [|naive_solver]. right. rewrite En in Ek. by injection Ek as ->.
Qed.

Lemma contains_suffix p x l : contains p l = true -> contains p (x ++ l) = true.
Proof.
  intros H. induction x as [|c x IH]; [done|]. cbn [app contains]. by destruct (strip p (c :: x ++ l)).
Qed.

Lemma slice_app a b (x y : text) : length x = b -> slice a b (x ++ y) = drop a x.
Proof. intros <-. unfold slice. by rewrite take_app_length. Qed.

(** A matched block: what is before it, its inside, and its closing brace. *)
Lemma matched_block t b n : close_at 1 (drop b (mask Plain t)) = Some n ->
  exists u a v r, t = u ++ v /\ length u = (b + n - 1)%nat /\ mode_after Plain u = Plain /\ mask Plain v = 125 :: r /\
    drop b (mask Plain u) = a /\ (b <= length u)%nat /\ stays 1 a = Some 1 /\ slice b (b + n - 1) (mask Plain t) = a.
Proof.
  intros (a & r & Ed & -> & Hs)%close_some; [|done]. set (e := (b + S (length a) - 1)%nat).
  assert (e = b + length a)%nat as Ee by lia. assert (e < length t)%nat as Hl.
  { apply (f_equal length) in Ed. rewrite length_drop, mask_length, length_app in Ed. cbn in Ed. lia. }
  pose proof (mask_app Plain (take e t) (drop e t)) as Em. rewrite take_drop in Em.
  assert (length (mask Plain (take e t)) = e) as El by (rewrite mask_length, length_take; lia).
  rewrite Em, drop_app_le in Ed by lia. apply app_inj_1 in Ed as [E1 E2]; [|rewrite length_drop; lia].
  assert (mode_after Plain (take e t) = Plain) as Hp.
  { destruct (drop e t) as [|c v]; [done|]. cbn in E2. injection E2 as E2 _. by eapply brace_plain. }
  exists (take e t), a, (drop e t), r. rewrite take_drop, length_take, Hp in *. split_and!; try done; try lia.
  rewrite Em. by rewrite slice_app.
Qed.

(** C35. The resource route is added once and nothing of the site is lost: the text
    is kept around the new lines, these are not inside a comment or a string, and
    a site to which the route was added is refused by a second run, whatever
    comments, strings, nested blocks and other servers it has. *)
Theorem route_added_once t h t' : nginx_with_resource t h = Some t' ->
  (exists u v, t = u ++ v /\ t' = u ++ snippet ++ v /\ mode_after Plain u = Plain) /\ nginx_with_resource t' h = None.
Proof.
  unfold nginx_with_resource. cbv zeta. intros (l & El & E)%bind_Some. destruct l as [|[b e] [|]]; [done| |done].
  destruct (contains route (slice b e t)); [done|]. apply (inj Some) in E as <-.
  destruct (proj1 (find_blocks_elem _ _ _ _ b e El)) as (Hb & n & Hn & -> & Hs); [by left|].
  destruct (matched_block t b n Hn) as (u & a & v & r & -> & Hu & Hp & Hv & Ha & Hbu & Hst & Hsl).
  rewrite <- Hu, take_app_length, drop_app_length. split; [by exists u, v|]. rewrite Hsl in Hs. set (ms := mask Plain snippet).
  assert (mask Plain (u ++ snippet ++ v) = mask Plain u ++ ms ++ 125 :: r) as Em by (by rewrite !mask_app, Hp, snippet_mode, Hv).
  rewrite mask_app, Hp, Hv in Hb. rewrite Em. pose proof (mask_length Plain u) as Lu.
  apply (server_starts_local _ (ms ++ 125 :: r)) in Hb; [|cbn; lia].
  clear El. destruct (find_blocks _ _ _) as [l|] eqn:El'; [|done]. cbn [mbind option_bind].
  assert ((b, (length u + length ms)%nat) ∈ l) as Hin.
  { apply (find_blocks_elem _ _ _ _ _ _ El'). split; [done|]. exists (length a + (length ms + 1))%nat.
    assert (length a = length u - b)%nat as La by (rewrite <- Ha, length_drop; lia).
    split_and!; [|lia|].
    - rewrite drop_app_le, Ha, close_app, Hst, close_app by lia. unfold ms. by rewrite snippet_stays.
    - rewrite app_assoc, slice_app by (rewrite length_app; lia). rewrite drop_app_le, Ha by lia. by apply serves_app. }
  destruct l as [|[b' e'] [|]]; [by apply elem_of_nil in Hin| |done]. apply list_elem_of_singleton in Hin.
  pose proof (f_equal fst Hin) as E1. pose proof (f_equal snd Hin) as E2. cbn [fst snd] in E1, E2. subst b' e'.
  assert (length ms = length snippet) as -> by apply mask_length.
  rewrite app_assoc, slice_app by (by rewrite length_app). rewrite drop_app_le by lia. by rewrite contains_suffix.
Qed.

End Unicode.

Module Example.

Definition plain (c : Z) : bool := false.
Definition site : text :=
  line "server { listen 80; server_name api.example.test; }" ++ line "server {" ++ line "    listen 443 ssl;" ++
  line "    server_name api.example.test;" ++ line "    # comment with a fake closing brace }" ++
  line "    location / { proxy_pass http://127.0.0.1:18080; }" ++ line "}".

Definition host : text := points "api.example.test".

Definition extended : text := default [] (nginx_with_resource plain plain site host).

Lemma route_added_once_witness : (exists u v, site = u ++ v /\ extended = u ++ snippet ++ v /\ mode_after Plain u = Plain) /\
  nginx_with_resource plain plain extended host = None.
Proof. apply (route_added_once plain plain site host extended). vm_compute. reflexivity. Defined.

End Example.
