(* ===== verification/Migration.v ===== *)
(** The migration of a deployed installation to the resource server
    ([src/deploy/production/migrate-resource.py]): the checks, the new Compose
    configuration, and the steps of the migration with everything that can stop
    them.  Docker, MySQL, Nginx and the file system answer as they like; each
    call is recorded with its answer. *)
From S2P Require Import Prelude NginxRoute.

(** ** Python values *)

Inductive py :=
| PNone
| PBool (b : bool)
| PInt (n : Z)
| PStr (s : string)
| PList (l : list py)
| PDict (d : list (string * py)).

(** A [dict] keeps the order of insertion. *)
Fixpoint dget (k : string) (d : list (string * py)) : option py :=
  match d with [] => None | (k', v) :: d => if String.eqb k' k then Some v else dget k d end.
Fixpoint dset (k : string) (v : py) (d : list (string * py)) : list (string * py) :=
  match d with
  | [] => [(k, v)]
  | (k', v') :: d => if String.eqb k' k then (k, v) :: d else (k', v') :: dset k v d
  end.
Definition dpop (k : string) (d : list (string * py)) : list (string * py) := filter (fun e => e.1 <> k) d.

(** [None] stands for [KeyError], [TypeError] or [AttributeError]. *)
Definition dict_of (v : py) : option (list (string * py)) := match v with PDict d => Some d | _ => None end.
Definition list_of (v : py) : option (list py) := match v with PList l => Some l | _ => None end.
Definition str_of (v : py) : option string := match v with PStr s => Some s | _ => None end.
Definition int_of (v : py) : option Z := match v with PInt n => Some n | _ => None end.
Definition is_str (s : string) (v : py) : bool := match v with PStr x => String.eqb x s | _ => false end.
Definition truthy (v : py) : bool :=
  match v with
  | PNone => false | PBool b => b | PInt n => negb (n =? 0) | PStr s => negb (sempty s)
  | PList l => negb (bool_decide (length l = O)) | PDict d => negb (bool_decide (length d = O))
  end.

(** [v[k]], [v.get(k, x)], [v[k] = x], [v.setdefault(k, x)], [v.pop(k, None)] *)
Definition get_item (k : string) (v : py) : option py := d ← dict_of v; dget k d.
Definition get_default (k : string) (x v : py) : option py := d ← dict_of v; Some (default x (dget k d)).
Definition set_item (k : string) (x v : py) : option py := d ← dict_of v; Some (PDict (dset k x d)).
Definition setdefault (k : string) (x v : py) : option py :=
  d ← dict_of v; Some (PDict (match dget k d with Some _ => d | None => dset k x d end)).
Definition pop_item (k : string) (v : py) : option py := d ← dict_of v; Some (PDict (dpop k d)).
(** [v[k] = f(v[k])], for changes inside a member. *)
Definition in_item (k : string) (f : py -> option py) (v : py) : option py := x ← get_item k v; y ← f x; set_item k y v.
Definition update (l : list (string * py)) (v : py) : option py :=
  d ← dict_of v; Some (PDict (foldl (fun d e => dset e.1 e.2 d) d l)).

(** [v[k1][k2]...] *)
Definition at_path (ks : list string) (v : py) : option py := foldl (fun o k => o ≫= get_item k) (Some v) ks.

(** [[v for v in l if v[key] == value]] *)
Fixpoint select (key value : string) (l : list py) : option (list py) :=
  match l with
  | [] => Some []
  | v :: l => x ← get_item key v; rest ← select key value l; Some (if is_str value x then v :: rest else rest)
  end.
Definition only {A} (l : list A) : option A := match l with [x] => Some x | _ => None end.

(** ** The new configuration *)

Definition pairs (l : list (string * string)) : list (string * py) := (fun e => (e.1, PStr e.2)) <$> l.
Definition bind_volume (source target : string) : py :=
  PDict [("type", PStr "bind"); ("source", PStr source); ("target", PStr target); ("read_only", PBool true)]%string.

Definition healthcheck : py := PDict [
  ("test", PList [PStr "CMD"; PStr "python3"; PStr "-c";
    PStr "import urllib.request; urllib.request.urlopen('http://127.0.0.1:8085/health/ready', timeout=3)"]);
  ("interval", PStr "10s"); ("timeout", PStr "4s"); ("retries", PInt 6); ("start_period", PStr "30s")]%string.

Definition resource_environment (chat : py) : option py :=
  environment ← get_default "environment" (PDict []) chat;
  environment ← update (pairs [("CHAT_CONFIG_FILE", "/config/resource.ini"); ("CHAT_FILE_STORAGE_ROOT", "/data/files");
    ("CHAT_FILE_STORAGE_KEY", "${PROD_FILE_KEY:?preserve the original PROD_FILE_KEY}")]%string) environment;
  update (pairs [("CHAT_RESOURCE_HOST", "0.0.0.0"); ("CHAT_RESOURCE_HTTP_PORT", "8085");
    ("CHAT_RESOURCE_RPC_PORT", "50065"); ("CHAT_RESOURCE_REQUIRE_NFS", "false");
    ("CHAT_GRPC_TLS_MODE", "mtls"); ("CHAT_GRPC_CA_CERT", "/certs/ca.crt");
    ("CHAT_GRPC_CERT", "/certs/resource.crt"); ("CHAT_GRPC_KEY", "/certs/resource.key")]%string) environment.

(** The volume of the attachments. *)
Definition files_volume (file_mount : py) : option py :=
  type ← get_item "Type" file_mount;
  if is_str "volume" type then
    Some (PDict [("type", PStr "volume"); ("source", PStr "migration-resource-files"); ("target", PStr "/data/files")]%string)
  else
    source ← get_item "Source" file_mount;
    Some (PDict [("type", PStr "bind"); ("source", source); ("target", PStr "/data/files")]%string).

Definition resource_service (chat : py) (root image : string) (file_mount : py) (config_dir : string) : option py :=
  environment ← resource_environment chat;
  files ← files_volume file_mount;
  chat ← dict_of chat;
  let setting k := match dget k chat with Some v => [(k, v)] | None => [] end in
  Some (PDict ([("image", PStr image); ("restart", PStr "unless-stopped"); ("mem_limit", PStr "768m");
    ("command", PList [PStr "/app/bin/resource_server"]); ("environment", environment);
    ("volumes", PList [bind_volume (config_dir ++ "/resource.ini") "/config/resource.ini";
                       bind_volume (root ++ "/run/production/certs") "/certs"; files]);
    ("ports", PList [PDict [("target", PInt 8085); ("published", PStr "18085"); ("host_ip", PStr "127.0.0.1"); ("protocol", PStr "tcp")]]);
    ("healthcheck", healthcheck)] ++ setting "networks" ++ setting "logging"))%string.

(** [services[name]['image'] = image] without ['build']. *)
Definition update_image (image name : string) (services : py) : option py :=
  in_item name (fun s => s ← set_item "image" (PStr image) s; pop_item "build" s) services.

(** The volumes of chatserver1 without the attachments. *)
Fixpoint without_files (l : list py) : option (list py) :=
  match l with
  | [] => Some []
  | v :: l => target ← get_default "target" PNone v; rest ← without_files l;
              Some (if is_str "/data/files" target then rest else v :: rest)
  end.

Definition update_chat (chat : py) : option py :=
  volumes ← get_default "volumes" (PList []) chat ≫= list_of;
  volumes ← without_files volumes;
  chat ← set_item "volumes" (PList volumes) chat;
  chat ← setdefault "environment" (PDict []) chat;
  chat ← in_item "environment" (fun e =>
    e ← set_item "CHAT_RESOURCE_RPC_ENDPOINTS" (PStr "resource1:50065") e;
    e ← pop_item "CHAT_FILE_STORAGE_KEY" e; pop_item "CHAT_FILE_STORAGE_ROOT" e) chat;
  chat ← setdefault "depends_on" (PDict []) chat;
  in_item "depends_on" (set_item "resource1" (PDict [("condition", PStr "service_healthy")]%string)) chat.

Definition make_config (raw : py) (root image resource_url : string) (file_mount : py) (config_dir : string) : option py :=
  services ← get_item "services" raw;
  chat ← get_item "chatserver1" services;
  resource ← resource_service chat root image file_mount config_dir;
  type ← get_item "Type" file_mount;
  config ← (if is_str "volume" type then
    name ← get_item "Name" file_mount;
    config ← setdefault "volumes" (PDict []) raw;
    in_item "volumes" (set_item "migration-resource-files" (PDict [("external", PBool true); ("name", name)]%string)) config
   else Some raw);
  in_item "services" (fun services =>
    services ← update_image image "gate" services;
    services ← update_image image "status" services;
    services ← update_image image "chatserver1" services;
    services ← in_item "chatserver1" update_chat services;
    services ← in_item "gate" (fun gate =>
      gate ← setdefault "environment" (PDict []) gate;
      in_item "environment" (set_item "CHAT_RESOURCE_BASE_URL" (PStr resource_url)) gate) services;
    set_item "resource1" resource services) config.

(** *** Who has the attachments *)

Lemma dget_dset k v d : dget k (dset k v d) = Some v.
Proof.
  induction d as [|[k' v'] d IH]; cbn; [by rewrite String.eqb_refl|]. destruct (String.eqb k' k) eqn:E; cbn; [by rewrite String.eqb_refl|].
  by rewrite E.
Qed.

Lemma dget_dset_ne k j v d : j <> k -> dget j (dset k v d) = dget j d.
Proof.
  intros Hne. induction d as [|[k' v'] d IH]; cbn; [by rewrite (proj2 (String.eqb_neq k j))|].
  destruct (String.eqb k' k) eqn:E; cbn; [|by rewrite IH]. apply String.eqb_eq in E as ->. by rewrite (proj2 (String.eqb_neq k j)).
Qed.

Lemma dget_dpop k d : dget k (dpop k d) = None.
Proof.
  unfold dpop. induction d as [|[k' v'] d IH]; [done|]. rewrite filter_cons. case_decide as Hd; cbn in *; [|done].
  by rewrite (proj2 (String.eqb_neq k' k)).
Qed.

Lemma dget_dpop_ne k j d : j <> k -> dget j (dpop k d) = dget j d.
Proof.
  intros Hne. unfold dpop. induction d as [|[k' v'] d IH]; [done|]. rewrite filter_cons. case_decide as Hd; cbn in *; [by rewrite IH|].
  rewrite IH. destruct (String.eqb k' j) eqn:E; [|done]. apply String.eqb_eq in E as ->. by destruct Hd.
Qed.

Lemma set_item_inv k x v v' : set_item k x v = Some v' ->
  get_item k v' = Some x /\ (forall j, j <> k -> get_item j v' = get_item j v).
Proof.
  unfold set_item, get_item. destruct v; try done. cbn. intros [= <-]. cbn. split; [apply dget_dset|].
  intros j Hj. by apply dget_dset_ne.
Qed.

Lemma pop_item_inv k v v' : pop_item k v = Some v' ->
  get_item k v' = None /\ (forall j, j <> k -> get_item j v' = get_item j v).
Proof.
  unfold pop_item, get_item. destruct v; try done. cbn. intros [= <-]. cbn. split; [apply dget_dpop|].
  intros j Hj. by apply dget_dpop_ne.
Qed.

Lemma setdefault_inv k x v v' : setdefault k x v = Some v' -> forall j, j <> k -> get_item j v' = get_item j v.
Proof.
  unfold setdefault, get_item. destruct v as [| | | | |d]; try done. cbn. intros [= <-] j Hj. cbn. destruct (dget k d); [done|].
  by apply dget_dset_ne.
Qed.

Lemma in_item_inv k f v v' : in_item k f v = Some v' ->
  (exists x y, get_item k v = Some x /\ f x = Some y /\ get_item k v' = Some y) /\ (forall j, j <> k -> get_item j v' = get_item j v).
Proof.
  unfold in_item. intros (x & Ex & (y & Ey & E)%bind_Some)%bind_Some. apply set_item_inv in E as [E1 E2]. eauto 6.
Qed.

Lemma without_files_ok l l' : without_files l = Some l' ->
  Forall (fun v => get_default "target" PNone v <> Some (PStr "/data/files")) l'.
Proof.
  revert l'. induction l as [|v l IH]; intros l' E; cbn in E; [by injection E as <-|].
  apply bind_Some in E as (target & Et & (rest & Er & E)%bind_Some). injection E as <-. specialize (IH rest Er).
  destruct (is_str "/data/files" target) eqn:Es; [done|]. constructor; [|done]. rewrite Et. intros [= ->]. done.
Qed.

(** A chat server that neither mounts the attachments nor has their key. *)
Definition gave_up_files (chat : py) : Prop := exists volumes environment,
  get_item "volumes" chat = Some (PList volumes) /\ get_item "environment" chat = Some environment /\
  Forall (fun v => get_default "target" PNone v <> Some (PStr "/data/files")) volumes /\
  get_item "CHAT_FILE_STORAGE_KEY" environment = None /\ get_item "CHAT_FILE_STORAGE_ROOT" environment = None.

Lemma update_chat_ok chat chat' : update_chat chat = Some chat' -> gave_up_files chat'.
Proof.
  unfold update_chat. intros (volumes & _ & E)%bind_Some. apply bind_Some in E as (l & Hl & E). apply without_files_ok in Hl.
  apply bind_Some in E as (c1 & [V1 _]%set_item_inv & E). apply bind_Some in E as (c2 & H2 & E).
  apply bind_Some in E as (c3 & [(x & y & _ & Ey & E3) N3]%in_item_inv & E). apply bind_Some in E as (c4 & H4 & E).
  apply in_item_inv in E as [_ N5]. apply bind_Some in Ey as (e1 & _ & Ey). apply bind_Some in Ey as (e2 & [P2 _]%pop_item_inv & Ey).
  apply pop_item_inv in Ey as [P3 N6]. pose proof (setdefault_inv _ _ _ _ H2) as N2. pose proof (setdefault_inv _ _ _ _ H4) as N4.
  exists l, y. split_and!; [|by rewrite N5, N4|done|by rewrite N6|done].
  by rewrite N5, N4, N3, N2.
Qed.

Lemma update_get l v v' k x : update l v = Some v' -> dget k (rev l) = Some x -> get_item k v' = Some x.
Proof.
  unfold update, get_item. destruct v as [| | | | |d]; try done. cbn. intros [= <-]. cbn. revert d.
  induction l as [|[j y] l IH] using rev_ind; intros d Hk; [done|]. rewrite foldl_app. cbn. rewrite rev_app_distr in Hk. cbn in Hk.
  destruct (String.eqb j k) eqn:E; [apply String.eqb_eq in E as ->; injection Hk as ->; apply dget_dset|].
  rewrite dget_dset_ne by (intros ->; by rewrite String.eqb_refl in E). by apply IH.
Qed.

(** A resource server with the volume of the attachments and their key. *)
Definition took_over_files (file_mount resource : py) : Prop := exists volumes environment files,
  get_item "volumes" resource = Some (PList volumes) /\ get_item "environment" resource = Some environment /\
  files_volume file_mount = Some files /\ files ∈ volumes /\
  get_item "CHAT_FILE_STORAGE_ROOT" environment = Some (PStr "/data/files") /\
  get_item "CHAT_FILE_STORAGE_KEY" environment = Some (PStr "${PROD_FILE_KEY:?preserve the original PROD_FILE_KEY}").

Lemma update_other l v v' k : update l v = Some v' -> k ∉ l.*1 -> get_item k v' = get_item k v.
Proof.
  unfold update, get_item. destruct v as [| | | | |d]; try done. cbn. intros [= <-]. cbn. revert d.
  induction l as [|[j y] l IH]; intros d Hk; [done|]. cbn in Hk. apply not_elem_of_cons in Hk as [Hj Hk].
  cbn. rewrite IH by done. by apply dget_dset_ne.
Qed.

Lemma resource_service_ok chat root image file_mount dir resource :
  resource_service chat root image file_mount dir = Some resource -> took_over_files file_mount resource.
Proof.
  unfold resource_service. intros (environment & He & E)%bind_Some. apply bind_Some in E as (files & Hf & E).
  apply bind_Some in E as (d & _ & E). injection E as <-. unfold resource_environment in He.
  apply bind_Some in He as (e0 & _ & He). apply bind_Some in He as (e1 & H1 & H2).
  eexists _, _, files. split; [reflexivity|]. split; [reflexivity|]. split; [done|]. split; [set_solver|].
  rewrite !(update_other _ _ _ _ H2) by (by apply (bool_decide_unpack _)). split; by eapply update_get.
Qed.

(** The attachments pass from the chat server to the resource server: in the new
    configuration the chat server no longer mounts them nor has their key, the
    resource server has the volume they are on now and the same key, and every
    service that is not updated is as it was. *)
Theorem storage_handed_over raw root image url file_mount dir config :
  make_config raw root image url file_mount dir = Some config ->
  exists services services' chat resource,
    get_item "services" raw = Some services /\ get_item "services" config = Some services' /\
    get_item "chatserver1" services' = Some chat /\ gave_up_files chat /\
    get_item "resource1" services' = Some resource /\ took_over_files file_mount resource /\
    (forall name, name ∉ ["gate"; "status"; "chatserver1"; "resource1"]%string -> get_item name services' = get_item name services).
Proof.
  unfold make_config. intros (services & Es & E)%bind_Some. apply bind_Some in E as (chat & _ & E).
  apply bind_Some in E as (resource & Hr%resource_service_ok & E). apply bind_Some in E as (type & _ & E).
  apply bind_Some in E as (c & Hc & E). apply in_item_inv in E as [(x & y & Ex & Ey & Ec) _].
  assert (get_item "services" c = get_item "services" raw) as Esc.
  { destruct (is_str "volume" type); [|by injection Hc as <-]. apply bind_Some in Hc as (name & _ & Hc).
    apply bind_Some in Hc as (c1 & H1 & Hc). apply in_item_inv in Hc as [_ N]. rewrite N by done. by apply (setdefault_inv _ _ _ _ H1). }
  rewrite Esc, Es in Ex. injection Ex as <-. unfold update_image in Ey.
  apply bind_Some in Ey as (s1 & [_ N1]%in_item_inv & Ey). apply bind_Some in Ey as (s2 & [_ N2]%in_item_inv & Ey).
  apply bind_Some in Ey as (s3 & [_ N3]%in_item_inv & Ey).
  apply bind_Some in Ey as (s4 & [(chat1 & chat2 & _ & H4%update_chat_ok & E4) N4]%in_item_inv & Ey).
  apply bind_Some in Ey as (s5 & [_ N5]%in_item_inv & Ey). apply set_item_inv in Ey as [E6 N6].
  exists services, y, chat2, resource. split_and!; [done|done|by rewrite N6, N5|done|done|done|].
  intros name Hn. rewrite N6, N5, N4, N3, N2, N1; [done|..]; intros ->; set_solver.
Qed.

(** ** The world *)

(** The files that the migration replaces; the state file is
    [.resource-migration-state.json]. *)
Inductive file := Statefile | Compose | Candidate | Site.

#[export] Instance file_eq_dec : EqDecision file.
Proof. solve_decision. Defined.

Inductive content := Text (t : text) | Dumped (v : py).

(** The programs it runs. *)
Inductive command :=
| NginxTest | ReloadNginx
| DockerPs | DockerInspect (id : string) | DockerLoad (archive : string) | DockerCheck (image : string)
| ComposeConfig (f : file) (interpolated : bool) | ComposePs (all : bool) (name : string)
| ComposeStop (names : list string) | ComposeUp (names : list string)
| SchemaCheck | SchemaSize | MigrationSql (path : string)
| OpensslVerify (cert : string) | OpensslPubkey (cert : string) | OpensslKey (key : string)
| Du (source : string) | GenerateCert.

Inductive saved := SavedCompose | SavedEnvironment | SavedDeployment | SavedCertificates | SavedNginx | SavedFiles | ResourceIni.

#[export] Instance command_eq_dec : EqDecision command.
Proof. solve_decision. Defined.
#[export] Instance saved_eq_dec : EqDecision saved.
Proof. solve_decision. Defined.

Inductive action :=
| Runs (c : command)
| Resolves (path : string) | Tests (path : string) | TestsLink (path : string) | Finds (program : string) | Reads (path : string) | FreeSpace | StatsMode (path : string)
| Locks (path : string)
| MakesDirectory (path : string) | ChangesMode (path : string) | Notes (path : string)
| Copies (what : saved) (source target : string)
| DumpsDatabase (path : string)
| Creates (f : file) | Fills (f : file) | Installs (f : file) (c : content) | Unlinks (f : file)
| Opens (url : string).

(** A command prints or exits with an error; a read gives a value; anything can
    fail, or stop the process, before or after its effect. *)
Inductive reply := Out (s : string) | Value (v : py) | Bad | Error | Late.

Definition ok (r : reply) : bool := match r with Out _ | Value _ => true | _ => false end.
Definition effective (r : reply) : bool := match r with Out _ | Value _ | Late => true | _ => false end.

Abbreviation entry := (action * reply)%type.

(** [temporary] are the [.migration-tmp] files; [log] is what was done. *)
Record World := mkWorld { disk : file -> option content; temporary : file -> bool; log : list entry }.

Definition put {A} (f : file) (x : A) (g : file -> A) : file -> A := fun h => if decide (h = f) then x else g h.

Definition effect (a : action) (w : World) : World :=
  match a with
  | Creates f => mkWorld (disk w) (put f true (temporary w)) (log w)
  | Installs f c => mkWorld (put f (Some c) (disk w)) (put f false (temporary w)) (log w)
  | Unlinks f => mkWorld (put f None (disk w)) (temporary w) (log w)
  | _ => w
  end.
Definition record (e : entry) (w : World) : World := mkWorld (disk w) (temporary w) (log w ++ [e]).

(** ** What the migration promises *)

(** Entries of the log that succeeded. *)
Definition ran (c : command) (e : entry) : bool := match e with (Runs d, Out _) => bool_decide (d = c) | _ => false end.
Definition stopped (e : entry) : bool := match e with (Runs (ComposeStop _), Out _) => true | _ => false end.
Definition locked (e : entry) : bool := match e with (Locks _, r) => ok r | _ => false end.
Definition copied (what : saved) (e : entry) : bool := match e with (Copies x _ _, r) => bool_decide (x = what) && ok r | _ => false end.
Definition dumped (e : entry) : bool := match e with (DumpsDatabase _, Value (PInt n)) => negb (n =? 0) | _ => false end.
Definition no_schema : string := "0,0,0,0,0,0".
Definition full_schema : string := "1,1,1,1,1,1".
Definition schema_full (e : entry) : bool := match e with (Runs SchemaCheck, Out s) => String.eqb (trim s) full_schema | _ => false end.
Definition installed (f : file) (e : entry) : bool := match e with (Installs g _, r) => bool_decide (g = f) && ok r | _ => false end.
Definition is_healthy (item : py) : option bool :=
  state ← get_item "State" item;
  health ← get_default "Health" (PDict []) state;
  status ← get_default "Status" PNone health;
  Some (is_str "healthy" status).
Definition healthy (e : entry) : bool :=
  match e with (Runs (DockerInspect _), Value (PList (item :: _))) => bool_decide (is_healthy item = Some true) | _ => false end.
Definition refuses_strangers (e : entry) : bool := match e with (Opens _, Value (PInt 401)) => true | _ => false end.

Definition business : list string := ["status"; "chatserver1"; "varify"; "gate"]%string.

(** What follows the first entry of a kind. *)
Fixpoint behind (p : entry -> bool) (l : list entry) : list entry :=
  match l with [] => [] | e :: l => if p e then l else behind p l end.
Definition followed (p q : entry -> bool) (l : list entry) : bool := existsb q (behind p l).

(** The order of the migration: one run at a time; the configuration saved; the
    candidate prepared; the services stopped; the database saved; the attachments
    saved; the schema complete; the configuration installed; the resource server
    started; healthy; the site changed; accepted by Nginx; loaded; the services
    started; the route closed to strangers. *)
Definition milestones : list (list entry -> bool) := [
  existsb locked;
  existsb (copied SavedCompose); existsb (copied SavedEnvironment); existsb (copied SavedDeployment);
  existsb (copied SavedCertificates); existsb (copied SavedNginx);
  existsb (installed Candidate);
  existsb stopped;
  followed stopped dumped;
  followed stopped (copied SavedFiles);
  followed stopped schema_full;
  existsb (installed Compose);
  followed (installed Compose) (ran (ComposeUp ["resource1"%string]));
  followed (installed Compose) healthy;
  existsb (installed Site);
  followed (installed Site) (ran NginxTest);
  existsb (ran ReloadNginx);
  existsb (ran (ComposeUp business));
  followed (ran (ComposeUp business)) refuses_strangers].

Definition knows (n : nat) (l : list entry) : bool := forallb (fun m => m l) (take n milestones).

(** How many of them an action needs; those that only read need none. *)
Definition needs (a : action) : nat :=
  match a with
  | Runs (DockerLoad _) | Runs (DockerCheck _) | MakesDirectory _ | Copies SavedCompose _ _ => 1
  | Copies SavedEnvironment _ _ => 2
  | Copies SavedDeployment _ _ => 3
  | Copies SavedCertificates _ _ => 4
  | Copies SavedNginx _ _ => 5
  | Notes _ | Copies ResourceIni _ _ | Installs Candidate _ => 6
  | Runs (ComposeStop _) => 7
  | DumpsDatabase _ => 8
  | Copies SavedFiles _ _ => 9
  | Runs GenerateCert | Runs (MigrationSql _) => 10
  | Installs Compose _ => 11
  | Unlinks _ => 12
  | Runs (ComposeUp names) => if bool_decide (names = ["resource1"%string]) then 12 else 17
  | Installs Site _ => 14
  | Runs ReloadNginx => 16
  | Opens _ => 18
  | Creates _ | Fills _ | ChangesMode _ => 1
  | Installs Statefile (Dumped v) => if is_str "complete" (default PNone (get_item "stage" v)) then 19 else 1
  | Installs Statefile (Text _) => 19
  | _ => 0
  end.

(** Everything that was done had what it needs before it. *)
Definition in_order (l : list entry) : Prop := forall l1 e l2, l = l1 ++ e :: l2 -> knows (needs e.1) l1 = true.

Section Migration.
Context (unicode_space unicode_word : Z -> bool) (replies : nat -> reply).

Definition act (a : action) : prog World reply := fun w =>
  let r := replies (length (log w)) in
  (Returns r, record (a, r) (if effective r then effect a w else w)).
Definition perform (a : action) : prog World unit := r ← act a; if ok r then mret tt else throw.
(** [run], and [json.loads(run(...))] *)
Definition run (c : command) : prog World string := r ← act (Runs c); match r with Out s => mret s | _ => throw end.
Definition run_json (c : command) : prog World py := r ← act (Runs c); match r with Value v => mret v | _ => throw end.
Definition ask (a : action) : prog World bool := r ← act a; match r with Value (PBool b) => mret b | _ => throw end.
Definition reads (a : action) : prog World py := r ← act a; match r with Value v => mret v | _ => throw end.
Definition resolve (path : string) : prog World string := r ← act (Resolves path); match r with Out s => mret s | _ => throw end.
Definition require (b : bool) : prog World unit := if b then mret tt else throw.
Definition expect {A} (o : option A) : prog World A := match o with Some a => mret a | None => throw end.

(** [open('x')] refuses a file that is there. *)
Definition write_private (f : file) (c : content) : prog World unit :=
  there ← gets (fun w => temporary w f);
  if there : bool then throw
  else perform (Creates f) ;; perform (ChangesMode "temporary") ;; perform (Fills f) ;; perform (Installs f c).

(** ** The checks *)

Record SplitResult := mkSplitResult {
  scheme : string; hostname : string; username : string; password : string; port : option Z; url_path : string;
  query : string; fragment : string;
}.

(** [bundle] is the directory of the script; [urlsplit] of the resource URL,
    with missing parts empty. *)
Record Args := mkArgs {
  deploy_dir : string; image : string; image_tar : option string; resource_url : string; url : SplitResult;
  nginx_site : string; apply : bool; bundle : string;
}.

Definition check_url (u : SplitResult) : bool :=
  String.eqb (scheme u) "https" && negb (sempty (hostname u)) && sempty (username u) && sempty (password u) &&
  (bool_decide (port u = None) || bool_decide (port u = Some 443)) && String.eqb (url_path u) "/api/resources/v1" &&
  sempty (query u) && sempty (fragment u).

Fixpoint each {A} (f : A -> prog World unit) (l : list A) : prog World unit :=
  match l with [] => mret tt | x :: l => f x ;; each f l end.

Definition check_files (a : Args) (root migration_sql : string) : prog World unit :=
  each (fun path => b ← ask (Tests path); require b)
    [root ++ "/compose.production.yaml"; root ++ "/.env.production"; bundle a ++ "/resource.ini";
     bundle a ++ "/generate-resource-cert.sh"; migration_sql; root ++ "/run/production/certs/ca.crt"]%string ;;
  link ← ask (TestsLink (root ++ "/compose.production.yaml"));
  require (negb link) ;;
  each (fun program => b ← ask (Finds program); require b) ["docker"; "nginx"; "systemctl"; "openssl"; "du"]%string.

Fixpoint words_of (current s : string) : list string :=
  match s with
  | EmptyString => if sempty current then [] else [current]
  | String c s =>
      if is_space c then if sempty current then words_of "" s else current :: words_of "" s
      else words_of (current ++ String c "") s
  end.

(** [json.loads(run(['docker', 'inspect', cid]))[0]] *)
Definition inspect (cid : string) : prog World py :=
  v ← run_json (DockerInspect cid); l ← expect (list_of v); expect (head l).

Fixpoint candidates (root : string) (ids : list string) : prog World (list py) :=
  match ids with
  | [] => mret []
  | cid :: ids =>
      item ← inspect cid;
      labels ← expect (get_item "Config" item ≫= get_default "Labels" (PDict []));
      working ← expect (get_default "com.docker.compose.project.working_dir" (PStr "/") labels ≫= str_of);
      directory ← resolve working;
      rest ← candidates root ids;
      mret (if String.eqb directory root then item :: rest else rest)
  end.

Definition expected : list string := ["mysql"; "redis"; "varify"; "status"; "chatserver1"; "gate"]%string.
Definition same_names (d : list (string * py)) : bool :=
  forallb (fun k => bool_decide (k ∈ d.*1)) expected && forallb (fun e => bool_decide (e.1 ∈ expected)) d.

Fixpoint running (names : list string) : prog World (list (string * py)) :=
  match names with
  | [] => mret []
  | name :: names =>
      cid ← run (ComposePs false name);
      require (negb (sempty (trim cid))) ;;
      item ← inspect (trim cid);
      rest ← running names;
      mret ((name, item) :: rest)
  end.

(** [root == source or source in root.parents] *)
Definition inside (root source : string) : bool :=
  String.eqb root source || String.eqb source "/" || String.prefix (source ++ "/") root.

Definition mounts_at (item : py) (target : string) : option (list py) :=
  mounts ← get_item "Mounts" item ≫= list_of; select "Destination" target mounts.

(** [dict(v.split('=', 1) for v in Env if '=' in v)] *)
Definition environment_of (l : list py) : option (list (string * py)) :=
  foldl (fun d v => d ← d; s ← str_of v;
    Some (match sfind "=" s with Some (k, x) => dset k (PStr x) d | None => d end)) (Some []) l.

Definition ini_get (section option : string) (ini : py) : string :=
  default ""%string (s ← get_item section ini; x ← get_item (lower option) s; str_of x).

Definition hex_digit (c : ascii) : bool :=
  let x := of_byte c in (48 <=? x) && (x <=? 57) || (65 <=? x) && (x <=? 70) || (97 <=? x) && (x <=? 102).

Definition check_chat (root : string) (old_chat resolved : py) : prog World string :=
  env ← expect (v ← at_path ["Config"; "Env"]%string old_chat; l ← list_of v; environment_of l);
  each (fun e => require (is_str e.2 (default PNone (dget e.1 env))))
    [("CHAT_MYSQL_HOST", "mysql"); ("CHAT_MYSQL_PORT", "3306"); ("CHAT_MYSQL_SCHEMA", "wgt");
     ("CHAT_REDIS_HOST", "redis"); ("CHAT_REDIS_PORT", "6379")]%string ;;
  config_file ← expect (dget "CHAT_CONFIG_FILE" env ≫= str_of);
  config ← expect (mounts_at old_chat config_file ≫= only);
  type ← expect (get_item "Type" config);
  require (is_str "bind" type) ;;
  source ← expect (get_item "Source" config ≫= str_of);
  ini ← reads (Reads source);
  require (String.eqb (ini_get "SelfServer" "Name" ini) "chatserver1" && String.eqb (ini_get "SelfServer" "RPCPort" ini) "50055") ;;
  require (is_str "mtls" (default (PStr (ini_get "GrpcTLS" "Mode" ini)) (dget "CHAT_GRPC_TLS_MODE" env))) ;;
  old_key ← expect (str_of (default (PStr "") (dget "CHAT_FILE_STORAGE_KEY" env)));
  require ((ssize old_key =? 64) && sall hex_digit old_key) ;;
  declared ← expect (chat ← at_path ["services"; "chatserver1"]%string resolved;
                     environment ← get_default "environment" (PDict []) chat;
                     get_default "CHAT_FILE_STORAGE_KEY" PNone environment);
  require (is_str old_key declared) ;;
  certs ← expect (l ← mounts_at old_chat "/certs"; mount ← only l; source ← get_item "Source" mount; str_of source);
  directory ← resolve certs;
  require (String.eqb directory (root ++ "/run/production/certs")) ;;
  mret old_key.

(** The persistent mount of a database is fixed to the volume it has now. *)
Definition set_source (target : string) (source : py) (volumes : py) : option py :=
  l ← list_of volumes;
  PList <$> foldr (fun v rest => rest ← rest; x ← get_item "target" v;
    v ← (if is_str target x then set_item "source" source v else Some v); Some (v :: rest)) (Some []) l.

Definition pin_volume (containers : list (string * py)) (raw : py) (name target : string) : option py :=
  item ← dget name containers;
  actual ← mounts_at item target ≫= only;
  volumes ← at_path ["services"; name]%string raw ≫= get_default "volumes" (PList []);
  l ← list_of volumes;
  declared ← select "target" target l ≫= only;
  type ← get_item "Type" actual;
  if is_str "volume" type then
    volume ← get_item "source" declared ≫= str_of;
    actual_name ← get_item "Name" actual;
    raw ← setdefault "volumes" (PDict []) raw;
    in_item "volumes" (set_item volume (PDict [("external", PBool true); ("name", actual_name)]%string)) raw
  else if is_str "bind" type then
    source ← get_item "Source" actual;
    in_item "services" (in_item name (in_item "volumes" (set_source target source))) raw
  else None.

Definition check_certificate (root : string) : prog World bool :=
  let cert := (root ++ "/run/production/certs/resource.crt")%string in
  let key := (root ++ "/run/production/certs/resource.key")%string in
  has_cert ← ask (Tests cert);
  has_key ← ask (Tests key);
  require (Bool.eqb has_cert has_key) ;;
  if has_cert : bool then
    run (OpensslVerify cert) ;;
    a ← run (OpensslPubkey cert);
    b ← run (OpensslKey key);
    require (String.eqb a b) ;; mret has_cert
  else
    signing ← ask (Tests (root ++ "/run/production/ca-private/ca.key"));
    require signing ;; mret has_cert.

Definition enough_space (bytes : Z) : prog World unit :=
  free ← reads FreeSpace;
  free ← expect (int_of free);
  require (negb (free <? 2 * bytes + 1024 ^ 3)).

(** What the checks have found. *)
Record Found := mkFound {
  old_nginx : text; new_nginx : text; nginx_path : string; project : string; raw : py; containers : list (string * py);
  mount : py; source : string; old_key : string; schema : string; has_cert : bool; bytes : Z;
}.

(** The storage of the attachments. *)
Definition check_storage (root : string) (old_chat : py) : prog World (py * string) :=
  mount ← expect (mounts_at old_chat "/data/files" ≫= only);
  type ← expect (get_item "Type" mount);
  writable ← expect (get_item "RW" mount);
  require ((is_str "bind" type || is_str "volume" type) && truthy writable) ;;
  source ← expect (get_item "Source" mount ≫= str_of);
  source ← resolve source;
  require (negb (inside root source)) ;;
  mret (mount, source).

Definition find_project (root : string) : prog World (py * string) :=
  ids ← run DockerPs;
  found ← candidates root (words_of "" ids);
  old_chat ← expect (only found);
  project ← expect (at_path ["Config"; "Labels"; "com.docker.compose.project"]%string old_chat ≫= str_of);
  mret (old_chat, project).

Definition measure (source : string) : prog World Z :=
  du ← run (Du source);
  files_bytes ← expect (head (words_of "" du) ≫= decimal);
  size ← run SchemaSize;
  db_bytes ← expect (decimal (trim size));
  mret (files_bytes + db_bytes).

Definition preflight (a : Args) (root migration_sql : string) : prog World Found :=
  check_files a root migration_sql ;;
  require (check_url (url a)) ;;
  nginx ← resolve (nginx_site a);
  site ← gets (fun w => disk w Site);
  old_nginx ← expect (match site with Some (Text t) => Some t | _ => None end);
  new_nginx ← expect (nginx_with_resource unicode_space unicode_word old_nginx (points (hostname (url a))));
  run NginxTest ;;
  '(old_chat, project) ← find_project root;
  raw ← run_json (ComposeConfig Compose false);
  resolved ← run_json (ComposeConfig Compose true);
  services ← expect (get_item "services" raw ≫= dict_of);
  require (same_names services) ;;
  containers ← running expected;
  '(mount, source) ← check_storage root old_chat;
  old_key ← check_chat root old_chat resolved;
  raw ← expect (pin_volume containers raw "mysql" "/var/lib/mysql");
  raw ← expect (pin_volume containers raw "redis" "/data");
  raw ← expect (set_item "name" (PStr project) raw);
  schema ← run SchemaCheck;
  require (String.eqb (trim schema) no_schema || String.eqb (trim schema) full_schema) ;;
  has_cert ← check_certificate root;
  bytes ← measure source;
  enough_space bytes ;;
  match image_tar a with Some archive => b ← ask (Tests archive); require b | None => mret tt end ;;
  perform (Reads "/proc/meminfo") ;;
  mret (mkFound old_nginx new_nginx nginx project raw containers mount source old_key (trim schema) has_cert bytes).

(** ** The steps *)

Definition state_of (a : Args) (p : Found) (backup stage : string) : py :=
  PDict [("stage", PStr stage); ("backup", PStr backup); ("project", PStr (project p)); ("image", PStr (image a));
         ("file_storage", mount p); ("nginx_site", PStr (nginx_path p))]%string.

Definition stage (a : Args) (p : Found) (backup value : string) : prog World unit :=
  write_private Statefile (Dumped (state_of a p backup value)).

Definition save_configuration (root backup : string) : prog World unit :=
  perform (Copies SavedCompose (root ++ "/compose.production.yaml") (backup ++ "/compose.production.yaml")) ;;
  perform (Copies SavedEnvironment (root ++ "/.env.production") (backup ++ "/.env.production")) ;;
  perform (Copies SavedDeployment (root ++ "/deploy/production") (backup ++ "/deployment-config")) ;;
  perform (Copies SavedCertificates (root ++ "/run/production") (backup ++ "/internal-certificates")) ;;
  perform (Copies SavedNginx "/etc/nginx" (backup ++ "/nginx")) ;;
  perform (Notes (backup ++ "/original-images.json")) ;;
  perform (Notes (backup ++ "/RECOVERY.txt")).

(** The candidate keeps the key under which the attachments are encrypted. *)
Definition prepare_candidate (a : Args) (root : string) (p : Found) : prog World unit :=
  let config_dir := (root ++ "/run/resource-migration")%string in
  perform (MakesDirectory config_dir) ;;
  perform (Copies ResourceIni (bundle a ++ "/resource.ini") (config_dir ++ "/resource.ini")) ;;
  config ← expect (make_config (raw p) root (image a) (resource_url a) (mount p) config_dir);
  write_private Candidate (Dumped config) ;;
  checked ← run_json (ComposeConfig Candidate true);
  environment ← expect (at_path ["services"; "resource1"; "environment"]%string checked);
  key ← expect (get_default "CHAT_FILE_STORAGE_KEY" PNone environment);
  require (is_str (old_key p) key).

Definition save_data (p : Found) (backup : string) : prog World unit :=
  dumped ← reads (DumpsDatabase (backup ++ "/wgt.sql"));
  size ← expect (int_of dumped);
  require (negb (size =? 0)) ;;
  perform (Copies SavedFiles (source p) (backup ++ "/files")).

Definition migrate_schema (a : Args) (root migration_sql : string) (p : Found) (backup : string) : prog World unit :=
  has_cert ← ask (Tests (root ++ "/run/production/certs/resource.crt"));
  (if has_cert : bool then mret tt else run GenerateCert ;; mret tt) ;;
  (if String.eqb (schema p) no_schema
   then stage a p backup "applying-database-migration" ;; run (MigrationSql migration_sql) ;; mret tt
   else mret tt) ;;
  schema ← run SchemaCheck;
  require (String.eqb (trim schema) full_schema).

Definition install_compose : prog World unit :=
  candidate ← gets (fun w => disk w Candidate);
  candidate ← expect candidate;
  write_private Compose candidate ;;
  perform (Unlinks Candidate).

Fixpoint wait_healthy (attempts : nat) : prog World unit :=
  match attempts with
  | O => throw
  | S attempts =>
      cid ← run (ComposePs true "resource1");
      item ← inspect (trim cid);
      healthy ← expect (is_healthy item);
      if healthy : bool then mret tt else wait_healthy attempts
  end.

(** A site that [nginx -t] refuses is put back. *)
Definition install_route (p : Found) : prog World unit :=
  perform (StatsMode (nginx_path p)) ;;
  write_private Site (Text (new_nginx p)) ;;
  perform (ChangesMode (nginx_path p)) ;;
  r ← act (Runs NginxTest);
  match r with
  | Out _ => run ReloadNginx ;; mret tt
  | Bad => write_private Site (Text (old_nginx p)) ;; perform (ChangesMode (nginx_path p)) ;; throw
  | _ => throw
  end.

Fixpoint started (names : list string) : prog World (list (string * Z)) :=
  match names with
  | [] => mret []
  | name :: names =>
      cid ← run (ComposePs true name);
      item ← inspect (trim cid);
      restarts ← expect (get_item "RestartCount" item ≫= int_of);
      rest ← started names;
      mret ((trim cid, restarts) :: rest)
  end.
Definition still_running (c : string * Z) : prog World unit :=
  item ← inspect c.1;
  status ← expect (at_path ["State"; "Status"]%string item);
  restarts ← expect (get_item "RestartCount" item ≫= int_of);
  require (is_str "running" status && (restarts =? c.2)).

Definition start_business : prog World unit :=
  run (ComposeUp business) ;;
  l ← started business;
  each still_running l.

(** An answer with a status is an exception of [urlopen]; 401 is expected. *)
Definition check_public (a : Args) : prog World unit :=
  r ← act (Opens (resource_url a ++ "/users/me/avatar"));
  match r with Value (PInt 401) => mret tt | _ => throw end.

(** The body of the [try]; its handler only prints. *)
Definition migrate (a : Args) (root migration_sql stamp : string) (p : Found) : prog World unit :=
  match image_tar a with Some archive => run (DockerLoad archive) ;; mret tt | None => mret tt end ;;
  run (DockerCheck (image a)) ;;
  enough_space (bytes p) ;;
  let backup := (root ++ "/backups/before-resource-" ++ stamp)%string in
  perform (MakesDirectory backup) ;;
  perform (ChangesMode backup) ;;
  stage a p backup "backing-up-configuration" ;;
  save_configuration root backup ;;
  prepare_candidate a root p ;;
  stage a p backup "stopping-business-services" ;;
  run (ComposeStop ["gate"; "chatserver1"; "status"; "varify"]%string) ;;
  stage a p backup "backing-up-database-and-files" ;;
  save_data p backup ;;
  migrate_schema a root migration_sql p backup ;;
  stage a p backup "installing-compose-configuration" ;;
  install_compose ;;
  stage a p backup "starting-resource-server" ;;
  run (ComposeUp ["resource1"]%string) ;;
  wait_healthy 90 ;;
  stage a p backup "installing-nginx-resource-route" ;;
  install_route p ;;
  stage a p backup "starting-updated-business-services" ;;
  start_business ;;
  check_public a ;;
  stage a p backup "complete".

(** A state file that is there ends the run: the migration is complete, or it
    stopped and is not repeated. *)
Definition perform_migration (a : Args) (stamp : string) : prog World unit :=
  root ← resolve (deploy_dir a);
  (if apply a then perform (Locks (root ++ "/.resource-migration.lock")) else mret tt) ;;
  bundled ← ask (Tests (bundle a ++ "/002_resources.sql"));
  let migration_sql := (if bundled : bool then bundle a ++ "/002_resources.sql" else bundle a ++ "/../../database/migrations/002_resources.sql")%string in
  previous ← gets (fun w => disk w Statefile);
  match previous with
  | Some c =>
      value ← expect (match c with Dumped v => get_item "stage" v | Text _ => None end);
      require (is_str "complete" value)
  | None =>
      p ← preflight a root migration_sql;
      if apply a then migrate a root migration_sql stamp p else mret tt
  end.

(** ** Order *)

Lemma existsb_more {A} (p : A -> bool) l x : existsb p l = true -> existsb p (l ++ x) = true.
Proof. rewrite existsb_app. by intros ->. Qed.

Lemma behind_more p l x : existsb p l = true -> behind p (l ++ x) = behind p l ++ x.
Proof. induction l as [|e l IH]; [done|]. cbn. by destruct (p e). Qed.

Lemma followed_first p q l : followed p q l = true -> existsb p l = true.
Proof. unfold followed. induction l as [|e l IH]; [done|]. cbn. by destruct (p e). Qed.

Lemma followed_more p q l x : followed p q l = true -> followed p q (l ++ x) = true.
Proof. intros H. unfold followed. rewrite behind_more by (by eapply followed_first). by apply existsb_more. Qed.

Lemma followed_now p q l e : existsb p l = true -> q e = true -> followed p q (l ++ [e]) = true.
Proof. intros Hp Hq. unfold followed. rewrite behind_more, existsb_app by done. cbn. by rewrite Hq, orb_true_r. Qed.

Lemma milestone_more m l x : m ∈ milestones -> m l = true -> m (l ++ x) = true.
Proof.
  intros Hm. unfold milestones in Hm.
  repeat (apply elem_of_cons in Hm as [->|Hm]; [first [apply existsb_more|apply followed_more]|]). by apply elem_of_nil in Hm.
Qed.

Lemma knows_more n l x : knows n l = true -> knows n (l ++ x) = true.
Proof.
  unfold knows. rewrite !forallb_forall. intros H m Hm. apply milestone_more; [|by apply H].
  apply list_elem_of_In in Hm. by apply elem_of_take in Hm as (i & Hm & _); apply list_elem_of_lookup_2 in Hm.
Qed.

Lemma knows_le n k l : (n <= k)%nat -> knows k l = true -> knows n l = true.
Proof.
  intros Hle. unfold knows. rewrite !forallb_forall. intros H m Hm. apply H. apply list_elem_of_In in Hm. apply list_elem_of_In.
  apply elem_of_take in Hm as (i & Hm & Hi). apply elem_of_take. exists i. split; [done|lia].
Qed.

Lemma knows_next n m l : milestones !! n = Some m -> knows n l = true -> m l = true -> knows (S n) l = true.
Proof. intros Hm Hk Hl. unfold knows. rewrite (take_S_r _ _ m) by done. rewrite forallb_app. cbn. unfold knows in Hk. by rewrite Hk, Hl. Qed.

Lemma in_order_snoc l e : in_order l -> knows (needs e.1) l = true -> in_order (l ++ [e]).
Proof.
  intros Hl He l1 x l2 E. destruct l2 as [|y l2 _] using rev_ind.
  - apply app_inj_tail in E as [<- ->]. done.
  - rewrite app_comm_cons, app_assoc in E. apply app_inj_tail in E as [E _]. by eapply Hl.
Qed.

Definition level (n : nat) (w : World) : Prop := knows n (log w) = true /\ in_order (log w).

Definition advances {A} (n : nat) (m : prog World A) (k : nat) : Prop := forall w, level n w ->
  wp m (fun r w' => match r with Returns _ => level k w' | Throws => in_order (log w') end) w.

Lemma adv_ret {A} n (a : A) : advances n (mret a) n.
Proof. by intros w Hw. Qed.
Lemma adv_throw {A} n k : advances n (throw : prog World A) k.
Proof. by intros w [_ Hw]. Qed.
Lemma adv_gets {A} n (f : World -> A) : advances n (gets f) n.
Proof. by intros w Hw. Qed.
Lemma adv_bind {A B} n k j (m : prog World A) (f : A -> prog World B) : advances n m k -> (forall a, advances k (f a) j) -> advances n (m ≫= f) j.
Proof.
  intros Hm Hf w Hw. apply wp_bind. eapply wp_mono; [by apply Hm|]. intros [a|] w' H; [by apply Hf|done].
Qed.

Lemma log_act a w r w' : act a w = (Returns r, w') -> log w' = log w ++ [(a, r)].
Proof.
  unfold act. intros [= <- <-]. cbn. f_equal. by destruct (effective _), a.
Qed.

Lemma level_act n a w r w' : act a w = (Returns r, w') -> (needs a <= n)%nat -> level n w -> level n w'.
Proof.
  intros E Hn [Hk Ho]. unfold level. rewrite (log_act _ _ _ _ E). split; [by apply knows_more|].
  apply in_order_snoc; [done|]. by eapply knows_le.
Qed.

(** An action and what its answer makes true. *)
Lemma adv_reply {B} n k a (f : reply -> prog World B) : (needs a <= n)%nat ->
  (forall r w, level n w -> (exists l, log w = l ++ [(a, r)] /\ knows n l = true) ->
     wp (f r) (fun o w' => match o with Returns _ => level k w' | Throws => in_order (log w') end) w) ->
  advances n (act a ≫= f) k.
Proof.
  intros Hn Hf w Hw. apply wp_bind. unfold wp. destruct (act a w) as [r w'] eqn:E. pose proof E as E'. unfold act in E'. injection E' as <- _. cbn.
  apply Hf; [by eapply level_act|]. exists (log w). split; [by apply log_act|apply Hw].
Qed.

Lemma adv_act n a : (needs a <= n)%nat -> advances n (act a) n.
Proof.
  intros Hn w Hw. unfold wp. destruct (act a w) as [r w'] eqn:E. pose proof E as E'. unfold act in E'. injection E' as <- _.
  by eapply level_act.
Qed.

(** Calls that only record. *)
Ltac adv :=
  repeat match goal with
  | |- advances _ (mbind _ _) _ => eapply adv_bind; [|intros ?]
  | |- advances _ (mret _) _ => apply adv_ret
  | |- advances _ throw _ => apply adv_throw
  | |- advances _ (gets _) _ => apply adv_gets
  | |- advances _ (act _) _ => apply adv_act; cbn; lia
  | |- advances _ (if ?b then _ else _) _ => destruct b
  | |- advances _ (match ?x with _ => _ end) _ => destruct x
  end.

Lemma adv_perform n a : (needs a <= n)%nat -> advances n (perform a) n.
Proof. intros Hn. unfold perform. eapply adv_bind; [by apply adv_act|]. intros r. adv. Qed.
Lemma adv_run n c : (needs (Runs c) <= n)%nat -> advances n (run c) n.
Proof. intros Hn. unfold run. eapply adv_bind; [by apply adv_act|]. intros r. adv. Qed.
Lemma adv_run_json n c : (needs (Runs c) <= n)%nat -> advances n (run_json c) n.
Proof. intros Hn. unfold run_json. eapply adv_bind; [by apply adv_act|]. intros r. adv. Qed.
Lemma adv_ask n a : (needs a <= n)%nat -> advances n (ask a) n.
Proof. intros Hn. unfold ask. eapply adv_bind; [by apply adv_act|]. intros r. adv. Qed.
Lemma adv_reads n a : (needs a <= n)%nat -> advances n (reads a) n.
Proof. intros Hn. unfold reads. eapply adv_bind; [by apply adv_act|]. intros r. adv. Qed.
Lemma adv_resolve n path : advances n (resolve path) n.
Proof. unfold resolve. eapply adv_bind; [apply adv_act; cbn; lia|]. intros r. adv. Qed.
Lemma adv_require n b : advances n (require b) n.
Proof. unfold require. adv. Qed.
Lemma adv_expect {A} n (o : option A) : advances n (expect o) n.
Proof. unfold expect. adv. Qed.
Lemma adv_write n f c : (1 <= n)%nat -> (needs (Installs f c) <= n)%nat -> advances n (write_private f c) n.
Proof.
  intros H1 Hn. unfold write_private. adv; try (apply adv_perform; cbn; lia). by apply adv_perform.
Qed.
Lemma adv_each {A} n (f : A -> prog World unit) l : (forall x, advances n (f x) n) -> advances n (each f l) n.
Proof. intros Hf. induction l as [|x l IH]; cbn; [apply adv_ret|]. eapply adv_bind; [apply Hf|by intros _]. Qed.

Ltac adv_step :=
  first [ apply adv_expect | apply adv_require | apply adv_resolve
        | apply adv_run; cbn; lia | apply adv_run_json; cbn; lia | apply adv_ask; cbn; lia | apply adv_reads; cbn; lia
        | apply adv_perform; cbn; lia | apply adv_each; intros ? | progress adv ].
Ltac advance := repeat adv_step.

Lemma adv_inspect n cid : advances n (inspect cid) n.
Proof. unfold inspect. advance. Qed.

Lemma adv_candidates n root ids : advances n (candidates root ids) n.
Proof. induction ids as [|cid ids IH]; cbn [candidates]; [apply adv_ret|]. adv; first [apply adv_inspect|apply IH|advance]. Qed.

Lemma adv_running n names : advances n (running names) n.
Proof. induction names as [|x names IH]; cbn [running]; [apply adv_ret|]. adv; first [apply adv_inspect|apply IH|advance]. Qed.

Lemma adv_preflight n a root sql : advances n (preflight a root sql) n.
Proof.
  unfold preflight, check_files, find_project, check_storage, check_chat, check_certificate, measure, enough_space.
  adv; first [apply adv_candidates|apply adv_running|advance].
Qed.

(** *** Milestones *)

Lemma knows_get i n m l : milestones !! i = Some m -> (i < n)%nat -> knows n l = true -> m l = true.
Proof.
  intros Hm Hi. unfold knows. rewrite forallb_forall. intros H. apply H, list_elem_of_In, elem_of_take. by exists i.
Qed.

Lemma existsb_now {A} (p : A -> bool) l x : p x = true -> existsb p (l ++ [x]) = true.
Proof. intros Hx. rewrite existsb_app. cbn. by rewrite Hx, orb_true_r. Qed.

(** The answer [r] to [a] reaches the next milestone. *)
Definition reaches (n : nat) (a : action) (r : reply) : Prop :=
  exists m, milestones !! n = Some m /\ forall l, knows n l = true -> m (l ++ [(a, r)]) = true.

Lemma level_next n a r w : reaches n a r -> level n w -> (exists l, log w = l ++ [(a, r)] /\ knows n l = true) -> level (S n) w.
Proof.
  intros (m & Hm & Hr) [Hk Ho] (l & El & Hl). split; [|done]. eapply knows_next; [done|done|]. rewrite El. by apply Hr.
Qed.

Lemma gain_perform n a : (needs a <= n)%nat -> (forall r, ok r = true -> reaches n a r) -> advances n (perform a) (S n).
Proof.
  intros Hn Hr. apply adv_reply; [done|]. intros r w Hw Hl. destruct (ok r) eqn:Er; [|by destruct Hw].
  apply wp_ret. by eapply level_next; [apply Hr| |].
Qed.

Lemma gain_run n c : (needs (Runs c) <= n)%nat -> (forall x, reaches n (Runs c) (Out x)) -> advances n (run c) (S n).
Proof.
  intros Hn Hr. apply adv_reply; [done|]. intros r w Hw Hl. destruct r as [x| | | |]; try (by destruct Hw).
  apply wp_ret. by eapply level_next; [apply Hr| |].
Qed.

Lemma gain_write n f c : (1 <= n)%nat -> (needs (Installs f c) <= n)%nat ->
  (forall r, ok r = true -> reaches n (Installs f c) r) -> advances n (write_private f c) (S n).
Proof.
  intros H1 Hn Hr. unfold write_private. adv; try (apply adv_perform; cbn; lia). by apply gain_perform.
Qed.

Ltac reach := eexists; split; [reflexivity|]; intros ? ?; apply existsb_now.
(** Behind the milestone [i]. *)
Ltac reach_after i :=
  eexists; split; [reflexivity|]; intros ? ?; apply followed_now; [eapply (knows_get i _ (existsb _)); [reflexivity| |eassumption]; lia|].

Lemma gain_copy n what x y : milestones !! n = Some (existsb (copied what)) -> (needs (Copies what x y) <= n)%nat ->
  advances n (perform (Copies what x y)) (S n).
Proof.
  intros Hm Hn. apply gain_perform; [done|]. intros r Hr. exists (existsb (copied what)). split; [done|]. intros l _. apply existsb_now.
  cbn. by rewrite bool_decide_true.
Qed.

Lemma adv_stage n a p b x : (1 <= n)%nat -> String.eqb x "complete" = false -> advances n (stage a p b x) n.
Proof. intros Hn Hx. unfold stage. apply adv_write; [done|]. cbn. rewrite Hx. lia. Qed.

Lemma adv_save_configuration root b : advances 1 (save_configuration root b) 6.
Proof.
  unfold save_configuration. do 5 (eapply adv_bind; [apply gain_copy; [reflexivity|cbn; lia]|intros _]). advance.
Qed.

Lemma adv_candidate a root p : advances 6 (prepare_candidate a root p) 7.
Proof.
  unfold prepare_candidate. adv; try (by advance).
  eapply (gain_write 6); [lia|cbn; lia|]. intros r Hr. reach. cbn. done.
Qed.

(** A call whose answer decides about the milestone. *)
Lemma adv_answer {A B} n k a (g : reply -> prog World A) (f : A -> prog World B) : (needs a <= n)%nat ->
  (forall r w, level n w -> (exists l, log w = l ++ [(a, r)] /\ knows n l = true) ->
     wp (g r ≫= f) (fun o w' => match o with Returns _ => level k w' | Throws => in_order (log w') end) w) ->
  advances n ((act a ≫= g) ≫= f) k.
Proof.
  intros Hn Hf w Hw. pose proof (adv_reply n k a (fun r => g r ≫= f) Hn Hf w Hw) as H. unfold wp, mbind, prog_bind in *.
  by destruct (act a w) as [[r|] w'].
Qed.

Lemma adv_save_data p b : advances 8 (save_data p b) 10.
Proof.
  apply adv_answer; [cbn; lia|]. intros r w Hw Hl. destruct r as [|v| | |]; try (by destruct Hw).
  destruct v as [| |n| | |]; try (by destruct Hw).
  match goal with |- wp _ ?Q _ => change (wp (require (negb (n =? 0)) ;; perform (Copies SavedFiles (source p) (b ++ "/files"))) Q w) end.
  apply wp_bind. unfold require. destruct (n =? 0) eqn:En; cbn [negb]; [by destruct Hw|]. apply wp_ret.
  assert (level 9 w) as H9 by (eapply level_next; [|exact Hw|exact Hl]; reach_after 7%nat; unfold dumped; by rewrite En).
  apply gain_perform; [cbn; lia| |done]. intros r Hr. reach_after 7%nat. exact Hr.
Qed.

Lemma adv_migrate_schema a root sql p b : advances 10 (migrate_schema a root sql p b) 11.
Proof.
  unfold migrate_schema. eapply (adv_bind _ 10); [apply adv_ask; cbn; lia|intros c].
  eapply (adv_bind _ 10); [destruct c; advance|intros _].
  eapply (adv_bind _ 10); [|intros _].
  { destruct (String.eqb _ _); [|apply adv_ret]. eapply adv_bind; [apply adv_stage; [lia|done]|intros _]. advance. }
  apply adv_answer; [cbn; lia|]. intros r w Hw Hl. destruct r as [x| | | |]; try (by destruct Hw).
  match goal with |- wp _ ?Q _ => change (wp (require (String.eqb (trim x) full_schema)) Q w) end.
  unfold require. destruct (String.eqb (trim x) full_schema) eqn:E; [|by destruct Hw]. apply wp_ret.
  eapply level_next; [|exact Hw|exact Hl]. reach_after 7%nat. exact E.
Qed.

Lemma adv_install_compose : advances 11 install_compose 12.
Proof.
  unfold install_compose. adv; try (by advance).
  eapply (gain_write 11); [lia|cbn; lia|]. intros r Hr. reach. exact Hr.
Qed.

(** The answer to [docker inspect] in what follows. *)
Lemma adv_inspect_bind {B} n k cid (f : py -> prog World B) :
  (forall item rest w, level n w -> (exists l, log w = l ++ [(Runs (DockerInspect cid), Value (PList (item :: rest)))] /\ knows n l = true) ->
     wp (f item) (fun o w' => match o with Returns _ => level k w' | Throws => in_order (log w') end) w) ->
  advances n (inspect cid ≫= f) k.
Proof.
  intros Hf w Hw.
  assert (advances n (run_json (DockerInspect cid) ≫= (fun v => (l ← expect (list_of v); expect (head l)) ≫= f)) k) as H.
  { apply adv_answer; [cbn; lia|]. intros r w1 Hw1 Hl. destruct r as [|v| | |]; try (by destruct Hw1).
    destruct v as [| | | |[|item rest]|]; try (by destruct Hw1). exact (Hf item rest w1 Hw1 Hl). }
  specialize (H w Hw). unfold inspect, wp, mbind, prog_bind in *. by destruct (run_json _ w) as [[v|] w'].
Qed.

Lemma adv_wait_healthy k : advances 13 (wait_healthy k) 14.
Proof.
  induction k as [|k IH]; [apply adv_throw|]. cbn [wait_healthy].
  eapply (adv_bind _ 13); [apply adv_run; cbn; lia|intros cid]. apply adv_inspect_bind. intros item rest w Hw Hl.
  apply wp_bind. destruct (is_healthy item) as [healthy|] eqn:E; [|by destruct Hw]. apply wp_ret.
  destruct healthy; [|by apply IH]. apply wp_ret. eapply level_next; [|exact Hw|exact Hl].
  reach_after 11%nat. unfold healthy. by apply bool_decide_eq_true_2.
Qed.

Lemma adv_install_route p : advances 14 (install_route p) 17.
Proof.
  unfold install_route. eapply (adv_bind _ 14); [advance|intros _].
  eapply (adv_bind _ 15); [eapply (gain_write 14); [lia|cbn; lia|]; intros r Hr; reach; exact Hr|intros _].
  eapply (adv_bind _ 15); [advance|intros _]. apply adv_reply; [cbn; lia|]. intros r w Hw Hl.
  destruct r as [x|v| | |]; try (by destruct Hw).
  - assert (level 16 w) as H16 by (eapply level_next; [|exact Hw|exact Hl]; by reach_after 14%nat).
    assert (advances 16 (run ReloadNginx ;; mret tt) 17) as H; [|by apply H].
    eapply adv_bind; [apply gain_run; [cbn; lia|]; intros x'; by reach|intros _; apply adv_ret].
  - assert (advances (A := unit) 15 (write_private Site (Text (old_nginx p)) ;; perform (ChangesMode (nginx_path p)) ;; throw) 17) as H; [|by apply H].
    eapply adv_bind; [apply adv_write; cbn; lia|intros _]. advance.
Qed.

Lemma adv_start_business : advances 17 start_business 18.
Proof.
  unfold start_business. eapply adv_bind; [apply (gain_run 17); [exact (le_n 17)|]; intros x; by reach|intros _].
  eapply (adv_bind _ 18); [|intros l; apply adv_each; intros c; unfold still_running; adv; first [apply adv_inspect|advance]].
  induction business as [|name names IH]; cbn [started]; [apply adv_ret|]. adv; first [apply adv_inspect|apply IH|advance].
Qed.

Lemma adv_check_public a : advances 18 (check_public a) 19.
Proof.
  apply adv_reply; [cbn; lia|]. intros r w Hw Hl. destruct r as [|v| | |]; try (by destruct Hw). destruct v as [| |n| | |]; try (by destruct Hw).
  destruct (decide (n = 401)) as [->|Hn].
  - apply wp_ret. eapply level_next; [|exact Hw|exact Hl]. by reach_after 17%nat.
  - assert (in_order (log w)) as Ho by apply Hw. destruct n as [|n|n]; try done. by repeat (destruct n as [n|n|]; try done).
Qed.

Lemma adv_migrate a root sql stamp p : advances 1 (migrate a root sql stamp p) 19.
Proof.
  unfold migrate, enough_space. cbv zeta. eapply (adv_bind _ 1); [advance|intros _].
  do 4 (eapply (adv_bind _ 1); [advance|intros _]).
  eapply adv_bind; [apply adv_stage; [lia|done]|intros _]. eapply adv_bind; [apply adv_save_configuration|intros _].
  eapply adv_bind; [apply adv_candidate|intros _]. eapply adv_bind; [apply adv_stage; [lia|done]|intros _].
  eapply adv_bind; [apply (gain_run 7); [cbn; lia|]; intros x; by reach|intros _].
  eapply adv_bind; [apply adv_stage; [lia|done]|intros _]. eapply adv_bind; [apply adv_save_data|intros _].
  eapply adv_bind; [apply adv_migrate_schema|intros _]. eapply adv_bind; [apply adv_stage; [lia|done]|intros _].
  eapply adv_bind; [apply adv_install_compose|intros _]. eapply adv_bind; [apply adv_stage; [lia|done]|intros _].
  eapply adv_bind; [apply (gain_run 12); [exact (le_n 12)|]; intros x; by reach_after 11%nat|intros _].
  eapply adv_bind; [apply adv_wait_healthy|intros _]. eapply adv_bind; [apply adv_stage; [lia|done]|intros _].
  eapply adv_bind; [apply adv_install_route|intros _]. eapply adv_bind; [apply adv_stage; [lia|done]|intros _].
  eapply adv_bind; [apply adv_start_business|intros _]. eapply adv_bind; [apply adv_check_public|intros _].
  unfold stage. apply adv_write; cbn; lia.
Qed.

Lemma adv_weaken {A} n k j (m : prog World A) : (j <= k)%nat -> advances n m k -> advances n m j.
Proof.
  intros Hj Hm w Hw. eapply wp_mono; [by apply Hm|]. intros [x|] w'; [|done]. intros [Hk Ho]. split; [by eapply knows_le|done].
Qed.

Lemma adv_perform_migration a stamp : advances 0 (perform_migration a stamp) 0.
Proof.
  unfold perform_migration. eapply adv_bind; [apply adv_resolve|intros root].
  apply adv_bind with (if apply a then 1%nat else 0%nat).
  { destruct (apply a); [|apply adv_ret]. apply gain_perform; [cbn; lia|]. intros r Hr. reach. exact Hr. }
  intros _. eapply adv_bind; [apply adv_ask; cbn; lia|intros sql]. cbv zeta. eapply adv_bind; [apply adv_gets|intros previous].
  destruct previous as [c|].
  - apply adv_weaken with (if apply a then 1%nat else 0%nat); [lia|]. advance.
  - eapply adv_bind; [apply adv_preflight|intros p]. destruct (apply a); [|apply adv_ret].
    apply adv_weaken with 19%nat; [lia|apply adv_migrate].
Qed.

(** One run. *)
Lemma run_in_order a stamp d t : in_order (log (perform_migration a stamp (mkWorld d t [])).2).
Proof.
  assert (level 0 (mkWorld d t [])) as H0 by (split; [done|]; by intros [|] ? ? ?).
  pose proof (adv_perform_migration a stamp _ H0) as H. unfold wp in H.
  destruct (perform_migration a stamp _) as [[x|] w]; cbn in *; [apply H|done].
Qed.

(** ** The SQL is sent once *)

Definition is_sql (e : entry) : bool := match e with (Runs (MigrationSql _), _) => true | _ => false end.
Definition sqls (l : list entry) : nat := length (filter (fun e => is_sql e = true) l).

Lemma sqls_snoc l e : sqls (l ++ [e]) = (sqls l + if is_sql e then 1 else 0)%nat.
Proof. unfold sqls. rewrite filter_app, length_app, filter_cons. by destruct (is_sql e). Qed.

(** No SQL was sent, and the state file is still there. *)
Definition quietly (w w' : World) : Prop :=
  sqls (log w') = sqls (log w) /\ (disk w Statefile <> None -> disk w' Statefile <> None).

Definition keeps {A} (m : prog World A) : Prop := forall w, quietly w (m w).2.

Lemma keeps_ret {A} (x : A) : keeps (mret x).
Proof. by intros w. Qed.
Lemma keeps_throw {A} : keeps (throw : prog World A).
Proof. by intros w. Qed.
Lemma keeps_gets {A} (f : World -> A) : keeps (gets f).
Proof. by intros w. Qed.
Lemma keeps_bind {A B} (m : prog World A) (f : A -> prog World B) : keeps m -> (forall x, keeps (f x)) -> keeps (m ≫= f).
Proof.
  intros Hm Hf w. unfold mbind, prog_bind. specialize (Hm w). destruct (m w) as [[x|] w']; [|done]. cbn in Hm.
  destruct Hm as [E1 H1], (Hf x w') as [E2 H2]. split; [congruence|auto].
Qed.

(** Everything but the SQL and the removal of the state file. *)
Definition harmless (a : action) : bool := match a with Runs (MigrationSql _) | Unlinks Statefile => false | _ => true end.

Lemma keeps_act a : harmless a = true -> keeps (act a).
Proof.
  intros Ha w. unfold act. cbn [snd]. set (r := replies _). split.
  - cbn [log record]. rewrite sqls_snoc. assert (log (if effective r then effect a w else w) = log w) as -> by (by destruct (effective r), a).
    destruct a as [c| | | | | | | | | | | | | | | | | |]; cbn; try lia. destruct c; cbn; try lia. done.
  - cbn [disk record]. destruct (effective r); [|done]. destruct a as [| | | | | | | | | | | | | | |f|f c|f|]; cbn; try done; unfold put.
    + by case_decide.
    + case_decide; [by subst|done].
Qed.

Ltac keep :=
  repeat match goal with
  | |- keeps (mbind _ _) => apply keeps_bind; [|intros ?]
  | |- keeps (mret _) => apply keeps_ret
  | |- keeps throw => apply keeps_throw
  | |- keeps (gets _) => apply keeps_gets
  | |- keeps (act _) => apply keeps_act; done
  | |- keeps (if ?b then _ else _) => destruct b
  | |- keeps (match ?x with _ => _ end) => destruct x
  | |- keeps (perform _) => unfold perform
  | |- keeps (run _) => unfold run
  | |- keeps (run_json _) => unfold run_json
  | |- keeps (ask _) => unfold ask
  | |- keeps (reads _) => unfold reads
  | |- keeps (resolve _) => unfold resolve
  | |- keeps (require _) => unfold require
  | |- keeps (expect _) => unfold expect
  | |- keeps (write_private _ _) => unfold write_private
  | |- keeps (inspect _) => unfold inspect
  | |- keeps (stage _ _ _ _) => unfold stage
  end.

Lemma keeps_each {A} (f : A -> prog World unit) l : (forall x, keeps (f x)) -> keeps (each f l).
Proof. intros Hf. induction l as [|x l IH]; cbn; [apply keeps_ret|]. apply keeps_bind; [apply Hf|done]. Qed.

Lemma keeps_candidates root ids : keeps (candidates root ids).
Proof. induction ids as [|cid ids IH]; cbn [candidates]; keep. exact IH. Qed.
Lemma keeps_running names : keeps (running names).
Proof. induction names as [|x names IH]; cbn [running]; keep. exact IH. Qed.
Lemma keeps_started names : keeps (started names).
Proof. induction names as [|x names IH]; cbn [started]; keep. exact IH. Qed.
Lemma keeps_healthy k : keeps (wait_healthy k).
Proof. induction k as [|k IH]; cbn [wait_healthy]; keep. exact IH. Qed.

Lemma keeps_preflight a root sql : keeps (preflight a root sql).
Proof.
  unfold preflight, check_files, find_project, check_storage, check_chat, check_certificate, measure, enough_space.
  keep; first [apply keeps_candidates|apply keeps_running|apply keeps_each; intros ?; keep].
Qed.

(** At most one SQL, and the state file is there when it was sent. *)
Definition sends_once {A} (m : prog World A) : Prop := forall w, let w' := (m w).2 in
  sqls (log w') = sqls (log w) \/ sqls (log w') = S (sqls (log w)) /\ disk w' Statefile <> None.

Lemma once_keeps {A} (m : prog World A) : keeps m -> sends_once m.
Proof. intros Hm w. left. apply Hm. Qed.

Lemma once_after {A B} (m : prog World A) (f : A -> prog World B) : keeps m -> (forall x, sends_once (f x)) -> sends_once (m ≫= f).
Proof.
  intros Hm Hf w. unfold mbind, prog_bind. destruct (Hm w) as [E _]. destruct (m w) as [[x|] w']; [|by left]. cbn in E.
  specialize (Hf x w'). cbn in *. by rewrite E in Hf.
Qed.

Lemma once_before {A B} (m : prog World A) (f : A -> prog World B) : sends_once m -> (forall x, keeps (f x)) -> sends_once (m ≫= f).
Proof.
  intros Hm Hf w. unfold mbind, prog_bind. specialize (Hm w). destruct (m w) as [[x|] w']; [|done]. cbn in *.
  destruct (Hf x w') as [-> H]. destruct Hm as [?|[? ?]]; auto.
Qed.

Lemma bind_world {A B} (m : prog World A) (f : A -> prog World B) w :
  (m ≫= f) w = match (m w).1 with Returns x => f x (m w).2 | Throws => (Throws, (m w).2) end.
Proof. unfold mbind, prog_bind. by destruct (m w) as [[x|] w']. Qed.

Lemma run_world c w : ((run c ;; mret tt) w).2 = (act (Runs c) w).2.
Proof. unfold run, mbind, prog_bind, act. by destruct (replies (length (log w))). Qed.

Lemma once_sql a p b value path : sends_once (stage a p b value ;; run (MigrationSql path) ;; mret tt).
Proof.
  intros w. assert (keeps (stage a p b value)) as Hk by keep. destruct (Hk w) as [E _]. clear Hk.
  assert (forall w', stage a p b value w = (Returns tt, w') -> disk w' Statefile <> None) as Hd.
  { intros w'. unfold stage, write_private, mbind, prog_bind. cbn [gets]. destruct (temporary w Statefile); [done|].
    do 3 (destruct (perform _ _) as [[[]|] ?w] in |- *; [|done]). unfold perform, mbind, prog_bind, act.
    destruct (ok (replies _)) eqn:Er; [|done]. intros [= <-]. by destruct (replies (length (log w2))). }
  rewrite bind_world. destruct (stage a p b value w) as [[[]|] w'] eqn:Es; cbn [fst snd] in *; [|by left].
  specialize (Hd w' eq_refl). right. rewrite run_world. unfold act. cbn [snd log disk record effect].
  rewrite sqls_snoc. destruct (effective _); cbn [log disk is_sql]; rewrite E; (split; [lia|done]).
Qed.

Lemma once_migrate a root sql stamp p : sends_once (migrate a root sql stamp p).
Proof.
  unfold migrate, enough_space. cbv zeta.
  do 12 (apply once_after; [unfold save_configuration, prepare_candidate, save_data; keep|intros _]).
  apply once_before.
  { unfold migrate_schema. do 2 (apply once_after; [keep|intros ?]). apply once_before; [|intros _; keep].
    destruct (String.eqb _ _); [apply once_sql|apply once_keeps, keeps_ret]. }
  intros _. unfold install_compose, install_route, start_business, still_running, check_public.
  keep; first [apply keeps_healthy|apply keeps_started|apply keeps_each; intros ?; keep].
Qed.

(** A run with the state file there sends nothing. *)
Lemma once_run a stamp w : let w' := (perform_migration a stamp w).2 in
  (disk w Statefile <> None -> quietly w w') /\
  (sqls (log w') = sqls (log w) \/ sqls (log w') = S (sqls (log w)) /\ disk w' Statefile <> None).
Proof.
  cbv zeta. split.
  - intros Hd. unfold perform_migration.
    assert (forall {A} (m : prog World A) (f : A -> prog World unit), keeps m ->
      (forall x w1, quietly w w1 -> quietly w1 (f x w1).2) -> forall w1, quietly w w1 -> quietly w1 ((m ≫= f) w1).2) as Hb.
    { intros A m f Hm Hf w1 H1. rewrite bind_world. pose proof (Hm w1) as H2. destruct (m w1) as [[x|] w2]; cbn in *; [|done].
      assert (quietly w w2) as H3 by (destruct H1, H2; split; [congruence|auto]). destruct (Hf x w2 H3), H2. split; [congruence|auto]. }
    assert (quietly w w) as H0 by done. revert H0. generalize w at 2 3 4 as w1. intros w1 H1. revert w1 H1.
    apply Hb; [keep|intros root]. apply Hb; [destruct (apply a); keep|intros _]. apply Hb; [keep|intros sql]. cbv zeta.
    intros w1 H1. rewrite bind_world. cbn [gets fst snd]. destruct (disk w1 Statefile) as [c|] eqn:Ec; [|by apply H1 in Hd].
    match goal with |- quietly _ (?m w1).2 => assert (keeps m) as Hk by keep; apply Hk end.
  - unfold perform_migration. assert (forall {A B} (m : prog World A) (f : A -> prog World B), keeps m ->
      (forall x, sends_once (f x)) -> sends_once (m ≫= f)) as Hb by (intros; by apply once_after). revert w.
    apply Hb; [keep|intros root]. apply Hb; [destruct (apply a); keep|intros _]. apply Hb; [keep|intros sql]. cbv zeta.
    apply Hb; [keep|intros previous]. destruct previous; [apply once_keeps; keep|].
    apply Hb; [apply keeps_preflight|intros p]. destruct (apply a); [apply once_migrate|apply once_keeps, keeps_ret].
Qed.

End Migration.

(** ** Many runs *)

Section Runs.
Context (unicode_space unicode_word : Z -> bool).

(** A run with its answers, or somebody who changes a file other than the state
    file. *)
Inductive event :=
| Starts (replies : nat -> reply) (a : Args) (stamp : string)
| Edits (f : file) (c : option content).

Record Host := mkHost { files : file -> option content; leftovers : file -> bool; history : list (list entry) }.

Definition run_event (h : Host) (e : event) : Host :=
  match e with
  | Starts replies a stamp =>
      let w := (perform_migration unicode_space unicode_word replies a stamp (mkWorld (files h) (leftovers h) [])).2 in
      mkHost (disk w) (temporary w) (history h ++ [log w])
  | Edits f c => if decide (f = Statefile) then h else mkHost (put f c (files h)) (leftovers h) (history h)
  end.

Definition new_Host (d : file -> option content) : Host := mkHost (put Statefile None d) (fun _ => false) [].

Definition host_ok (h : Host) : Prop :=
  Forall in_order (history h) /\ (sqls (mjoin (history h)) = O \/ sqls (mjoin (history h)) = 1%nat /\ files h Statefile <> None).

Lemma sqls_app l1 l2 : sqls (l1 ++ l2) = (sqls l1 + sqls l2)%nat.
Proof. unfold sqls. by rewrite filter_app, length_app. Qed.

Lemma host_ok_event h e : host_ok h -> host_ok (run_event h e).
Proof.
  intros [Ho Hs]. destruct e as [replies a stamp|f c]; cbn [run_event].
  - pose proof (run_in_order unicode_space unicode_word replies a stamp (files h) (leftovers h)) as Hr.
    pose proof (once_run unicode_space unicode_word replies a stamp (mkWorld (files h) (leftovers h) [])) as [Hq Hn].
    destruct (perform_migration _ _ _ _ _ _) as [o w]. cbn [snd log disk] in *. unfold quietly in Hq. cbn [log disk] in Hq.
    change (sqls []) with O in *. split; cbn [history files]; [apply Forall_app; by split; [|constructor]|].
    assert (sqls (mjoin (history h ++ [log w])) = sqls (mjoin (history h)) + sqls (log w))%nat as ->.
    { rewrite join_app, sqls_app. do 2 f_equal. apply app_nil_r. }
    destruct Hs as [->|[-> Hf]]; [|destruct (Hq Hf) as [-> Hd]; right; split; [done|by apply Hd]].
    destruct Hn as [->|[-> ?]]; [by left|by right].
  - case_decide; [done|]. split; [done|]. cbn. unfold put. by rewrite decide_False.
Qed.


End Runs.

Module Example.
Import NginxRoute.Example.

Definition root : string := "/srv/app".
Definition storage_key : string := "aaaaaaaaaaaaaaaaaaaaaaaaaaaaaaaaaaaaaaaaaaaaaaaaaaaaaaaaaaaaaaaa".
Definition dict (l : list (string * string)) : py := PDict (pairs l).

Definition environment : list (string * string) :=
  [("CHAT_MYSQL_HOST", "mysql"); ("CHAT_MYSQL_PORT", "3306"); ("CHAT_MYSQL_SCHEMA", "wgt"); ("CHAT_REDIS_HOST", "redis");
   ("CHAT_REDIS_PORT", "6379"); ("CHAT_CONFIG_FILE", "/config/chat.ini"); ("CHAT_FILE_STORAGE_KEY", storage_key)]%string.

Definition volume (source target : string) : py := dict [("type", "volume"); ("source", source); ("target", target)]%string.
Definition plain_service : py := PDict [("image", PStr "old"); ("environment", PDict [])]%string.
Definition services : py := PDict [
  ("mysql", PDict [("image", PStr "old"); ("volumes", PList [volume "mysql-data" "/var/lib/mysql"])]);
  ("redis", PDict [("image", PStr "old"); ("volumes", PList [volume "redis-data" "/data"])]);
  ("varify", plain_service); ("status", plain_service);
  ("chatserver1", PDict [("image", PStr "old"); ("environment", dict environment); ("volumes", PList [volume "old-files" "/data/files"])]);
  ("gate", plain_service)]%string.
Definition compose : py := PDict [("services", services)]%string.

Definition file_mount : py :=
  PDict [("Type", PStr "volume"); ("Name", PStr "actual-files"); ("Source", PStr "/var/files"); ("Destination", PStr "/data/files"); ("RW", PBool true)]%string.
Definition mounts (id : string) : list py :=
  if String.eqb id "chatserver1" then
    [file_mount; dict [("Type", "bind"); ("Source", root ++ "/run/production/certs"); ("Destination", "/certs")];
     dict [("Type", "bind"); ("Source", "/srv/chat.ini"); ("Destination", "/config/chat.ini")]]%string
  else [dict [("Type", "volume"); ("Name", "actual-" ++ id); ("Destination", if String.eqb id "mysql" then "/var/lib/mysql" else "/data")]]%string.

Definition container (id : string) : py := PDict [
  ("Config", PDict [("Env", PList ((fun e => PStr (e.1 ++ "=" ++ e.2)) <$> environment));
                    ("Labels", dict [("com.docker.compose.project", "chat"); ("com.docker.compose.project.working_dir", root)])]);
  ("Mounts", PList (mounts id)); ("RestartCount", PInt 0);
  ("State", PDict [("Status", PStr "running"); ("Health", dict [("Status", "healthy")])])]%string.

Definition ini : py := PDict [("SelfServer", dict [("name", "chatserver1"); ("rpcport", "50055")]); ("GrpcTLS", dict [("mode", "mtls")])]%string.

(** A host where everything works, given what was done before. *)
Definition works (a : action) (past : list entry) : reply :=
  match a with
  | Runs DockerPs => Out "chatserver1"
  | Runs (DockerInspect id) => Value (PList [container id])
  | Runs (ComposeConfig Compose _) => Value compose
  | Runs (ComposeConfig _ _) => Value (PDict [("services", PDict [("resource1", PDict [("environment", dict [("CHAT_FILE_STORAGE_KEY", storage_key)])])])])%string
  | Runs (ComposePs _ name) => Out name
  | Runs SchemaCheck => Out (if existsb is_sql past then full_schema else no_schema)
  | Runs SchemaSize => Out "128"
  | Runs (Du _) => Out "1024 files"
  | Runs _ => Out ""
  | Resolves path => Out path
  | Tests path => Value (PBool (negb (String.prefix (root ++ "/run/production/certs/resource.") path)))
  | TestsLink _ => Value (PBool false)
  | Finds _ => Value (PBool true)
  | Reads _ => Value ini
  | FreeSpace => Value (PInt (100 * 1024 ^ 3))
  | DumpsDatabase _ => Value (PInt 45)
  | Opens _ => Value (PInt 401)
  | _ => Out ""
  end.

Definition args : Args := mkArgs root "server:new" None "https://api.example.test/api/resources/v1"
  (mkSplitResult "https" "api.example.test" "" "" None "/api/resources/v1" "" "") "/etc/nginx/site" true "/root/upgrade".

Definition before (f : file) : option content := match f with Site => Some (Text site) | Compose => Some (Text []) | _ => None end.

(** The answers, found one after the other. *)
Definition answers_of (l : list reply) (n : nat) : reply := default Error (l !! n).
Definition next (l : list reply) : list reply :=
  let past := log (perform_migration plain plain (answers_of l) args "now" (mkWorld before (fun _ => false) [])).2 in
  match past !! length l with Some (a, _) => l ++ [works a past] | None => l end.
Definition answers : list reply := Nat.iter 200 next [].

Definition migrated : World := (perform_migration plain plain (answers_of answers) args "now" (mkWorld before (fun _ => false) [])).2.

(** There the migration completes, with the SQL sent and the route in the site. *)
Lemma migration_completes :
  match disk migrated Statefile with Some (Dumped v) => get_item "stage" v = Some (PStr "complete") | _ => False end /\
  sqls (log migrated) = 1%nat /\ disk migrated Site = Some (Text extended).
Proof. vm_compute. done. Qed.

Lemma storage_handed_over_witness : exists services' chat resource,
  get_item "chatserver1" services' = Some chat /\ gave_up_files chat /\
  get_item "resource1" services' = Some resource /\ took_over_files file_mount resource.
Proof.
  refine (match storage_handed_over compose root "server:new" "https://api.example.test/api/resources/v1" file_mount
    (root ++ "/run/resource-migration") _ eq_refl with ex_intro _ services (ex_intro _ services' (ex_intro _ chat (ex_intro _ resource H))) => _ end).
  destruct H as (_ & _ & H1 & H2 & H3 & H4 & _). by exists services', chat, resource.
Defined.

End Example.
